(* ===== verification/_CoqProject ===== *)
-Q . S2P
Prelude.v
GoStrings.v
Asn1.v
Extensions.v
NodeAuth.v
Auth.v
Kube.v
CertManager.v
IssuerConfig.v
IssuerLock.v
RootCA.v
TLSInterface.v
Server.v
Fakes.v
Serving.v
Controller.v
ControllerQueue.v
IstiodCert.v
Provisioning.v
Curves.v
TLS.v
Renewal.v
Propagation.v
Mesh.v
App.v
Flags.v
CommandLine.v
