(* ===== verification/Prelude.v ===== *)
(** * A verification of istio-csr

    istio-csr is the agent that lets workloads of an Istio mesh obtain their
    certificates from cert-manager.  A workload sends a certificate signing
    request (CSR) over gRPC; the agent authenticates it, creates a
    CertificateRequest for the configured issuer, waits until it is signed,
    verifies the chain against the mesh's root CAs and answers with it.  Beside
    that service the agent keeps its own serving certificate renewed, follows
    runtime configuration of the issuer, copies the root CAs into a ConfigMap of
    every namespace, and provisions the certificate of istiod.

    This library models those parts, function by function, as executable
    definitions, and proves what makes them correct.

    ** Files

    - [Prelude]: results, outcomes (a Go call returns, panics or blocks), the
      state monad [go] that all effectful code is written in, 64-bit integers,
      bytes, the tactics [go_inv], [go_simpl] and [div_lia], the hint database
      [golang].
    - [GoStrings]: what is used of Go's [strings], [strconv], [sort], [unicode]
      and UTF-8 decoding.
    - [Asn1]: Go's [encoding/asn1] decoder, as far as it is used, with the DER
      encodings it accepts.
    - [Extensions]: [pkg/server/internal/extensions], which X.509 extensions a CSR
      may carry.
    - [NodeAuth]: [pkg/server/node_auth.go], who may impersonate whom.
    - [Auth]: [pkg/server/auth.go], the authentication of a request.
    - [Kube]: the Kubernetes and cert-manager objects that are exchanged.
    - [CertManager]: [pkg/certmanager], construction and signing.
    - [IssuerConfig]: [pkg/certmanager], runtime configuration, subscriptions and
      their goroutines.
    - [IssuerLock]: [pkg/certmanager], the lock between signing and configuration.
    - [RootCA]: [pkg/tls/rootca], loading and watching the file of root CAs.
    - [TLSInterface]: [tls.Interface] of [pkg/tls/tls.go], for its clients.
    - [Server]: [pkg/server/server.go], the service.
    - [Fakes]: [pkg/certmanager/fake] and [pkg/tls/fake], the test doubles.
    - [Serving]: [pkg/server/server.go], start, shutdown and readiness.
    - [Controller]: [pkg/controller], the ConfigMap controller: its construction,
      its event sources, and one reconcile.
    - [ControllerQueue]: [pkg/controller], the reconciles call by call, run by
      concurrent workers while others write to the cluster.
    - [IstiodCert]: [pkg/istiodcert], options and the istiod certificate.
    - [Provisioning]: [pkg/istiodcert] and [pkg/certmanager], the provisioner and
      the manager that notifies it.
    - [Curves]: [pkg/tls/curves.go], curve preferences.
    - [TLS]: [pkg/tls/tls.go], the TLS provider.
    - [Renewal]: [pkg/tls/tls.go], [Start] as one thread.
    - [Propagation]: [pkg/tls] and [pkg/controller], roots on their way from the
      provider to the namespaces.
    - [Mesh]: the service with the models of the manager and the provider in
      place of its interfaces.
    - [App]: [cmd/app], completing the options, wiring the components, [RunE].
    - [Flags]: the flags of [cmd/app/options] and [pkg/istiodcert].
    - [CommandLine]: what a command line means for the options, and [main].

    ** How the code is modelled

    State is a record, an operation that changes it a function on the record or
    a computation in [go W], and an operation that can fail returns a [result] or
    the pair of values the Go function returns.  Go's panics are outcomes: a nil
    dereference in [authRequest], an index into an empty chain in
    [parseCertificateBundle], assignment to a nil map in the ConfigMap controller.

    Code outside the repository is an argument.  Pure functions (PEM and X.509
    decoding, signature checks, SPIFFE parsing, DNS name validation, Unicode
    tables) are variables of a section.  The components' interfaces are type
    classes with their laws: [Signer], [TLSRoots] and [TLSRootsSpec] between the
    service, the manager and the provider; [IssuerChangeNotifier] between the
    manager and the provisioner; [PFlag] and [PFlagSpec] towards the flag library,
    with pointers to fields as lenses; [ConfigMapClient] and
    [ConfigMapClientSpec], [CertClient] and [CertClientSpec], [KClient] and
    [KClientSpec] towards the API server; [Aggregator] for error aggregation.
    Clients are proved against the laws; [TLS] shows that the provider satisfies
    [TLSRootsSpec], [Mesh] instantiates the service with both components, and the
    other laws have small implementations at the end of their files.

    Concurrency is a step relation over the atomic actions of the threads
    involved, and theorems about it hold of all reachable states: the manager's
    notification goroutines and [WaitForIssuerConfig] ([sys_step]), the lock on
    the active issuer ([lock_step]), the file
    watcher ([fs_step]), the gRPC server's start and shutdown threads
    ([serving_step]), the provider's fetch, watch and subscriber threads
    ([provider_step]), the workers of the ConfigMap controller ([queue_step]), the
    provider together with that controller ([prop_step]) and the manager together
    with the provisioner ([prov_step]).  The workers interleave between the API
    calls of a reconcile, which is therefore a program of calls, [ReconcileP];
    the controller runtime's work queue and the API server (versioned objects,
    watches that report every change) are rules of [queue_step].

    Waiting on a channel or a timer is a list of what the waits meet: [Blocked] is
    the outcome when the list ends, and the theorems say on which lists a call
    returns.

    Nothing is bounded by fuel except the ASN.1 decoder's loops, whose fuel is
    the length of the input, which every iteration shortens
    ([Unmarshal_RawValue_progress]); the loop over subject alternative names is
    defined by well-founded recursion on the same measure.  The first loop of
    [Start] runs as often as the backoff allows, which is an argument.

    ** What is shown

    - Requests ([Extensions], [NodeAuth], [Auth], [Server], [Mesh]): a request is
      granted exactly according to a declarative policy; a request that is not
      granted changes nothing; every issued chain stems from one granted request
      and one CertificateRequest for the active issuer, with capped duration, and
      verified against loaded roots.
    - Signing ([CertManager]): one CertificateRequest per call, its deletion, the
      verdict of the wait, and when a manager can be built.
    - Issuer configuration ([IssuerConfig]): the active issuer refines the
      sequence of configuration events and is always complete; notification is
      safe until a subscription is closed; the lock serialises signing and
      configuration changes ([IssuerLock]): a call of [Sign] sees one manager
      throughout, and a change that waits is next.
    - Roots and TLS ([RootCA], [TLS], [Renewal], [Curves]): what is broadcast, that
      served configs are always safe, that fetching is all or nothing, that
      [Start] is a run of the steps and its first loop ends, the renewal timer
      for every remaining validity, overflow included.
    - Propagation ([Controller], [ControllerQueue], [Propagation], [IstiodCert],
      [Provisioning]): reconciling gives the contract's state and is stable; in
      every interleaving, once nothing is under way, every managed namespace
      holds exactly the provider's roots, and that state can always be reached;
      no update is lost; with a default issuer the provisioner's subscription is
      the only one, and the istiod certificate follows the active issuer.
    - The program ([Serving], [App], [Flags], [CommandLine]): readiness means
      service while the program is not being stopped; flags and options
      round-trip, [Complete] accepts exactly the options it should and says what
      becomes of every field, the defaults start; an assembled program has a
      source of issuers.

    Modelling showed defects, each with a theorem: an index out of range in
    [notifyIssuerChange], a lost wake-up in [WaitForIssuerConfig], configuration
    changes that wait for undecided requests, a duration that
    wraps around in [CreateCertificate], a readiness mark that outlives shutdown,
    a revert of the issuer that triggers no reconcile, notifications that overtake
    each other, roots that reach connections only with the next renewal, the
    renewal timer's overflow, and a default key size with which ECDSA serving
    certificates are never requested.

    ** What is not modelled

    Usage and help texts, logging and metrics other than the certificate request
    counter, gRPC and HTTP transport, leader election beyond who needs it, the
    end-to-end tests.  Timing is abstracted: ticks and timeouts may come at any
    moment.  The end of the process (a signal, or [os.Exit] when the ConfigMap
    controller cannot list the namespaces) is not a step of the interleavings. *)

From stdpp Require Export base gmap sets list strings sorting relations.
From Stdlib Require Export ZArith Lia.
From Stdlib Require Strings.Byte.
From Stdlib Require Export Init.Byte.

#[export] Set Warnings "-clear-no-such-hyp".

(* ------------------------------------------------------------------ *)
(** ** Go values: fallible results *)

(** The pair [(value, error)] a fallible Go function returns, for functions
    whose value is not looked at when the error is non-nil. *)
Inductive result (E A : Type) : Type :=
| Ok (a : A)
| Err (e : E).
Arguments Ok {E A} a.
Arguments Err {E A} e.

#[export] Instance result_ret {E} : MRet (result E) := λ A a, Ok a.
#[export] Instance result_bind {E} : MBind (result E) := λ A B f r,
  match r with Ok a => f a | Err e => Err e end.
#[export] Instance result_fmap {E} : FMap (result E) := λ A B f r,
  match r with Ok a => Ok (f a) | Err e => Err e end.
#[export] Instance result_eq_dec {E A} `{EqDecision E, EqDecision A} :
  EqDecision (result E A).
Proof. solve_decision. Defined.

(** [fmt.Errorf("...: %w", err)] on the error half of a result. *)
Definition wrap_err {E F A} (f : E → F) (r : result E A) : result F A :=
  match r with Ok a => Ok a | Err e => Err (f e) end.

Definition is_Ok {E A} (r : result E A) : bool :=
  match r with Ok _ => true | Err _ => false end.

Lemma result_bind_Ok {E A B} (m : result E A) (f : A → result E B) b :
  m ≫= f = Ok b → ∃ a, m = Ok a ∧ f a = Ok b.
Proof. destruct m as [a|]; cbn; [eauto|done]. Qed.

Lemma wrap_err_Ok {E F A} (f : E → F) (r : result E A) a : wrap_err f r = Ok a → r = Ok a.
Proof. by destruct r; cbn; intros [=]; subst. Qed.

(** Take the run of a sequence of fallible calls apart. *)
Ltac run_result H :=
  repeat (apply result_bind_Ok in H as (? & ?%wrap_err_Ok & H)).

(* ------------------------------------------------------------------ *)
(** ** Go effects: state and run-time panics *)

(** How a Go call ends: it returns, the goroutine panics (nil dereference,
    index out of range), or it waits on a channel on which nothing arrives. *)
Inductive outcome (A : Type) : Type :=
| Ret (a : A)
| Panic
| Blocked.
Arguments Ret {A} a.
Arguments Panic {A}.
Arguments Blocked {A}.

#[export] Instance outcome_ret : MRet outcome := λ A a, Ret a.
#[export] Instance outcome_bind : MBind outcome := λ A B f m,
  match m with Ret a => f a | Panic => Panic | Blocked => Blocked end.

(** Go code that reads and writes a world [W] (the Kubernetes API server, the
    fields behind a mutex) and may panic. *)
Definition go (W A : Type) : Type := W → outcome A * W.

#[export] Instance go_ret {W} : MRet (go W) := λ A a w, (Ret a, w).
#[export] Instance go_bind {W} : MBind (go W) := λ A B f m w,
  match m w with
  | (Ret a, w') => f a w'
  | (Panic, w') => (Panic, w')
  | (Blocked, w') => (Blocked, w')
  end.

(** Code that only reads the world, and code that only updates it. *)
Definition go_read {W A} (f : W → A) : go W A := λ w, (Ret (f w), w).
Definition go_modify {W} (f : W → W) : go W unit := λ w, (Ret tt, f w).
Definition go_outcome {W A} (o : outcome A) : go W A := λ w, (o, w).

Lemma go_bind_ret {W A B} (f : A → go W B) (a : A) (w : W) :
  (mret a ≫= f) w = f a w.
Proof. reflexivity. Qed.

Lemma go_bind_inv {W A B} (m : go W A) (f : A → go W B) w b w' :
  (m ≫= f) w = (Ret b, w') →
  ∃ a w1, m w = (Ret a, w1) ∧ f a w1 = (Ret b, w').
Proof.
  unfold mbind, go_bind. destruct (m w) as [[a| |] w1]; intros; simplify_eq; eauto.
Qed.

(** Reduce the binds of the three monads. *)
Ltac go_simpl :=
  cbn [mbind mret go_bind go_ret result_bind result_ret outcome_bind outcome_ret
       go_read go_modify go_outcome fst snd] in *.

(** Split [(m ≫= f) w = (Ret b, w')] into the run of [m] and the rest. *)
Tactic Notation "go_inv" hyp(H) "as" simple_intropattern(a) ident(w1) ident(Hm) :=
  apply go_bind_inv in H as (a & w1 & Hm & H).

(** Assignment to an element of a Go map, which panics on a nil map. *)
Definition map_assign {V} (m : option (gmap string V)) (k : string) (v : V)
    : outcome (option (gmap string V)) :=
  match m with
  | None => Panic
  | Some m => Ret (Some (<[k := v]> m))
  end.

(* ------------------------------------------------------------------ *)
(** ** Go integers *)

Open Scope Z_scope.

(** [lia] after the divisions and remainders of the goal are replaced by their
    defining equations. *)
Ltac div_lia := Z.to_euclidean_division_equations; lia.

Definition min_int64 : Z := - 2 ^ 63.
Definition max_int64 : Z := 2 ^ 63 - 1.

(** Two's complement wrap-around of [int64] (and of [time.Duration]). *)
Definition int64 (z : Z) : Z := (z + 2 ^ 63) mod 2 ^ 64 - 2 ^ 63.

Definition in_int64 (z : Z) : Prop := min_int64 ≤ z ≤ max_int64.

(** The value after wrapping around [k] times. *)
Lemma int64_wrap k z : - 2 ^ 63 ≤ z + k * 2 ^ 64 < 2 ^ 63 → int64 z = z + k * 2 ^ 64.
Proof.
  intros Hz. unfold int64.
  replace (z + 2 ^ 63) with (z + k * 2 ^ 64 + 2 ^ 63 + (- k) * 2 ^ 64) by lia.
  rewrite Z.mod_add, Z.mod_small by lia. lia.
Qed.

(** Go's division of a number that is not positive. *)
Lemma quot_neg z d : z ≤ 0 → 0 < d → Z.quot z d = - (- z / d).
Proof. intros. rewrite <-(Z.opp_involutive z) at 1. rewrite Z.quot_opp_l, Z.quot_div_nonneg; lia. Qed.

Lemma int64_range z : in_int64 (int64 z).
Proof.
  unfold in_int64, int64, min_int64, max_int64.
  pose proof (Z.mod_pos_bound (z + 2 ^ 63) (2 ^ 64)). lia.
Qed.

Lemma int64_id z : in_int64 z → int64 z = z.
Proof.
  unfold in_int64, int64, min_int64, max_int64. intros.
  rewrite Z.mod_small by lia. lia.
Qed.

(** [time.Second] in [time.Duration]'s nanoseconds. *)
Definition time_Second : Z := 1000000000.

(** The value of a byte. *)
Definition u8 (b : byte) : Z := Z.of_N (Byte.to_N b).

#[export] Instance byte_eq_dec : EqDecision byte := Byte.byte_eq_dec.

Lemma u8_range b : 0 ≤ u8 b < 256.
Proof.
  unfold u8. pose proof (Byte.to_N_bounded b). lia.
Qed.

Lemma u8_inj b1 b2 : u8 b1 = u8 b2 → b1 = b2.
Proof.
  unfold u8. intros H%N2Z.inj.
  pose proof (Byte.of_to_N b1) as H1. pose proof (Byte.of_to_N b2) as H2.
  rewrite H in H1. congruence.
Qed.

(** Conversion [byte(z)], keeping the low eight bits. *)
Definition byte_of_Z (z : Z) : byte := default x00 (Byte.of_N (Z.to_N (z mod 256))).

Lemma u8_byte_of_Z z : u8 (byte_of_Z z) = z mod 256.
Proof.
  unfold u8, byte_of_Z.
  pose proof (Z.mod_pos_bound z 256 eq_refl).
  destruct (Byte.of_N (Z.to_N (z mod 256))) as [b|] eqn:E; simpl.
  - apply Byte.to_of_N in E. rewrite E. lia.
  - apply Byte.of_N_None_iff in E. lia.
Qed.

(* ------------------------------------------------------------------ *)
(** ** Lists *)

Lemma take_app_sub {A} (l r : list A) :
  take (length (l ++ r) - length r) (l ++ r) = l.
Proof.
  rewrite length_app. replace (length l + length r - length r)%nat with (length l) by lia.
  by rewrite take_app_length.
Qed.

(* ------------------------------------------------------------------ *)
(** ** Automation *)

(** Facts on machine integers and bytes that proofs use without naming them. *)
Create HintDb golang discriminated.
#[export] Hint Resolve int64_range int64_id u8_range : golang.
