(* ===== verification/GoStrings.v ===== *)
(** * Go strings

    The parts of Go's [strings], [strconv], [unicode] and [sort] packages that
    the program calls, on byte strings (a Go string is a sequence of bytes, as
    [string] is here).  Everything is executable.  Unicode tables larger than a
    few ranges (case mapping of non-ASCII text, the category Nd) are arguments
    of the functions that consult them. *)

From S2P Require Import Prelude.
From Stdlib Require Import Ascii.

Open Scope Z_scope.

(* ------------------------------------------------------------------ *)
(** ** Bytes of a string *)

Definition bytes_of (s : string) : list byte := String.list_byte_of_string s.
Definition string_of (l : list byte) : string := String.string_of_list_byte l.

Lemma string_of_bytes_of s : string_of (bytes_of s) = s.
Proof. apply String.string_of_list_byte_of_string. Qed.

Lemma bytes_of_string_of l : bytes_of (string_of l) = l.
Proof. apply String.list_byte_of_string_of_list_byte. Qed.

Lemma bytes_of_app s1 s2 : bytes_of (s1 +:+ s2) = bytes_of s1 ++ bytes_of s2.
Proof.
  induction s1 as [|c s1 IH]; [reflexivity|].
  change (String c s1 +:+ s2) with (String c (s1 +:+ s2)).
  unfold bytes_of, String.list_byte_of_string in *. simpl. by rewrite IH.
Qed.

Lemma bytes_of_inj s1 s2 : bytes_of s1 = bytes_of s2 → s1 = s2.
Proof. intros H. by rewrite <-(string_of_bytes_of s1), H, string_of_bytes_of. Qed.

Lemma string_app_inj_l s t1 t2 : s +:+ t1 = s +:+ t2 → t1 = t2.
Proof.
  intros H%(f_equal bytes_of). rewrite !bytes_of_app in H.
  apply bytes_of_inj. by simplify_list_eq.
Qed.

Lemma string_app_inj_r s1 s2 t : s1 +:+ t = s2 +:+ t → s1 = s2.
Proof.
  intros H%(f_equal bytes_of). rewrite !bytes_of_app in H.
  apply bytes_of_inj. by simplify_list_eq.
Qed.

(* ------------------------------------------------------------------ *)
(** ** Package strings *)

(** [strings.Join(elems, sep)]. *)
Definition strings_Join (elems : list string) (sep : string) : string :=
  String.concat sep elems.

(** [strings.Cut(s, sep)] for a separator of one byte: the text before and
    after the first [sep], and whether [sep] occurs. *)
Fixpoint strings_Cut (s : string) (sep : ascii) : string * string * bool :=
  match s with
  | EmptyString => (EmptyString, EmptyString, false)
  | String c s' =>
      if decide (c = sep) then (EmptyString, s', true)
      else let '(before, after, found) := strings_Cut s' sep in
           (String c before, after, found)
  end.

Fixpoint contains_byte (c : ascii) (s : string) : bool :=
  match s with
  | EmptyString => false
  | String d s' => bool_decide (d = c) || contains_byte c s'
  end.

Lemma strings_Cut_found s sep before after :
  strings_Cut s sep = (before, after, true) ↔
  s = before +:+ String sep after ∧ contains_byte sep before = false.
Proof.
  revert before. induction s as [|c s IH]; intros before; simpl.
  - split; [done|]. intros [H _]. by destruct before.
  - case_decide as Hc.
    + subst. split.
      * intros [= <- <-]. done.
      * intros [H Hn]. destruct before as [|d before]; [by injection H as ->|].
        injection H as -> _. simpl in Hn. by rewrite bool_decide_eq_true_2 in Hn.
    + destruct (strings_Cut s sep) as [[b' a'] f'] eqn:E. split.
      * intros [= <- <- ->]. destruct (proj1 (IH b')) as [-> Hb]; [done|].
        split; [done|]. simpl. by rewrite bool_decide_eq_false_2.
      * intros [H Hn]. destruct before as [|d before].
        { by injection H as ->. }
        injection H as -> Hs. simpl in Hn. apply orb_false_iff in Hn as [_ Hn].
        assert ((b', a', f') = (before, after, true)) as [= -> -> ->]; [|done].
        by apply IH.
Qed.

Lemma strings_Cut_not_found s sep :
  (strings_Cut s sep).2 = contains_byte sep s.
Proof.
  induction s as [|c s IH]; [done|]. simpl. case_decide.
  - by rewrite bool_decide_eq_true_2.
  - rewrite bool_decide_eq_false_2 by done. simpl.
    by destruct (strings_Cut s sep) as [[??]?].
Qed.

(** [true] when every byte of [s] is below [utf8.RuneSelf]. *)
Definition is_ascii (s : string) : bool :=
  forallb (λ b, u8 b <? 128) (bytes_of s).

Definition upper_byte (b : byte) : byte :=
  if (97 <=? u8 b) && (u8 b <=? 122) then byte_of_Z (u8 b - 32) else b.
Definition lower_byte (b : byte) : byte :=
  if (65 <=? u8 b) && (u8 b <=? 90) then byte_of_Z (u8 b + 32) else b.

(** [strings.ToUpper(s)]: the ASCII fast path, and [unicode_upper], which
    stands for [strings.Map(unicode.ToUpper, s)], on other text. *)
Definition strings_ToUpper (unicode_upper : string → string) (s : string) : string :=
  if is_ascii s then string_of (upper_byte <$> bytes_of s) else unicode_upper s.

(** [strings.ToLower(s)], likewise. *)
Definition strings_ToLower (unicode_lower : string → string) (s : string) : string :=
  if is_ascii s then string_of (lower_byte <$> bytes_of s) else unicode_lower s.

(* ------------------------------------------------------------------ *)
(** ** Runes *)

Definition rune_error : Z := 65533.

Definition in_range (lo hi : Z) (b : byte) : bool := (lo <=? u8 b) && (u8 b <=? hi).
Definition cont (b : byte) : bool := in_range 128 191 b.

(** What [for _, r := range s] sees: the runes of a byte string in UTF-8, each
    with the bytes it was decoded from; a byte that starts no valid encoding is
    [rune_error] of width one. *)
Fixpoint rune_chunks (s : list byte) : list (Z * list byte) :=
  match s with
  | [] => []
  | b0 :: t0 =>
      if u8 b0 <? 128 then (u8 b0, [b0]) :: rune_chunks t0
      else
      match t0 with
      | b1 :: t1 =>
          if in_range 194 223 b0 && cont b1 then
            ((u8 b0 - 192) * 64 + (u8 b1 - 128), [b0; b1]) :: rune_chunks t1
          else
          match t1 with
          | b2 :: t2 =>
              let second_ok :=
                if u8 b0 =? 224 then in_range 160 191 b1
                else if u8 b0 =? 237 then in_range 128 159 b1
                else in_range 225 239 b0 && cont b1 in
              if second_ok && cont b2 then
                ((u8 b0 - 224) * 4096 + (u8 b1 - 128) * 64 + (u8 b2 - 128),
                 [b0; b1; b2]) :: rune_chunks t2
              else
              match t2 with
              | b3 :: t3 =>
                  let second_ok4 :=
                    if u8 b0 =? 240 then in_range 144 191 b1
                    else if u8 b0 =? 244 then in_range 128 143 b1
                    else in_range 241 243 b0 && cont b1 in
                  if second_ok4 && cont b2 && cont b3 then
                    ((u8 b0 - 240) * 262144 + (u8 b1 - 128) * 4096 +
                       (u8 b2 - 128) * 64 + (u8 b3 - 128),
                     [b0; b1; b2; b3]) :: rune_chunks t3
                  else (rune_error, [b0]) :: rune_chunks t0
              | [] => (rune_error, [b0]) :: rune_chunks t0
              end
          | [] => (rune_error, [b0]) :: rune_chunks t0
          end
      | [] => (rune_error, [b0]) :: rune_chunks t0
      end
  end.

(** Nothing is lost: the chunks spell the string. *)
Lemma rune_chunks_concat s : concat (rune_chunks s).*2 = s.
Proof.
  induction s as [s IH] using (induction_ltof1 _ length).
  unfold ltof in IH. destruct s as [|b0 t0]; [done|].
  unfold rune_chunks; fold rune_chunks.
  repeat case_match; subst; rewrite fmap_cons; cbn [snd concat app];
    rewrite IH by (cbn [length]; lia); reflexivity.
Qed.

(** An ASCII string is its own rune sequence. *)
Lemma rune_chunks_ascii s :
  Forall (λ b, u8 b < 128) s → rune_chunks s = (λ b, (u8 b, [b])) <$> s.
Proof.
  induction 1 as [|b s Hb _ IH]; [done|]. simpl.
  rewrite (proj2 (Z.ltb_lt _ _) Hb). by rewrite IH.
Qed.

(** [unicode.IsSpace]. *)
Definition unicode_IsSpace (r : Z) : bool :=
  ((9 <=? r) && (r <=? 13)) || (r =? 32) || (r =? 133) || (r =? 160) ||
  (r =? 5760) || ((8192 <=? r) && (r <=? 8202)) || (r =? 8232) || (r =? 8233) ||
  (r =? 8239) || (r =? 8287) || (r =? 12288).

(** [unicode.IsDigit]: the ASCII digits, and the table of the category Nd
    beyond Latin-1. *)
Definition unicode_IsDigit (nd : Z → bool) (r : Z) : bool :=
  if r <=? 255 then (48 <=? r) && (r <=? 57) else nd r.

Fixpoint drop_spaces (l : list (Z * list byte)) : list (Z * list byte) :=
  match l with
  | (r, bs) :: l' => if unicode_IsSpace r then drop_spaces l' else l
  | [] => []
  end.

(** [strings.TrimSpace]. *)
Definition strings_TrimSpace (s : string) : string :=
  string_of (concat
    (reverse (drop_spaces (reverse (drop_spaces (rune_chunks (bytes_of s)))))).*2).

(* ------------------------------------------------------------------ *)
(** ** Package strconv *)

Inductive num_error := ErrSyntax | ErrRange.

(** The digit loop of [strconv.ParseUint(s, 10, bitSize)], with [n] the value
    read so far and [max] the largest value of [bitSize] bits. *)
Fixpoint parse_uint_loop (max n : Z) (s : list byte) : result num_error Z :=
  match s with
  | [] => Ok n
  | b :: s' =>
      if (48 <=? u8 b) && (u8 b <=? 57) then
        let n1 := n * 10 + (u8 b - 48) in
        if max <? n1 then Err ErrRange else parse_uint_loop max n1 s'
      else Err ErrSyntax
  end.

Definition strconv_ParseUint (s : string) (bitSize : Z) : result num_error Z :=
  match bytes_of s with
  | [] => Err ErrSyntax
  | bs => parse_uint_loop (2 ^ bitSize - 1) 0 bs
  end.

(** The value of a string of decimal digits, most significant first. *)
Definition decimal_value (s : list byte) : Z :=
  foldl (λ n b, n * 10 + (u8 b - 48)) 0 s.

Lemma foldl_decimal_mono s n :
  0 ≤ n → Forall (λ b, 48 ≤ u8 b ≤ 57) s →
  n ≤ foldl (λ n b, n * 10 + (u8 b - 48)) n s.
Proof.
  intros Hn Hs. revert n Hn.
  induction Hs as [|b s Hb _ IH]; intros n Hn; simpl; [lia|].
  etrans; [|apply IH; lia]. lia.
Qed.

Lemma parse_uint_loop_spec max n s v :
  0 ≤ n ≤ max →
  parse_uint_loop max n s = Ok v ↔
  Forall (λ b, 48 ≤ u8 b ≤ 57) s ∧
  v = foldl (λ n b, n * 10 + (u8 b - 48)) n s ∧ v ≤ max.
Proof.
  revert n. induction s as [|b s IH]; intros n Hn; simpl.
  - split; [intros [= <-]; split_and!; [constructor|done|lia]|by intros (_&->&_)].
  - destruct ((48 <=? u8 b) && (u8 b <=? 57)) eqn:Hd.
    + destruct (max <? n * 10 + (u8 b - 48)) eqn:Hm.
      * split; [done|]. intros (Hs & -> & Hle). exfalso.
        inversion Hs as [|? ? ? Hs']; subst.
        pose proof (foldl_decimal_mono s (n * 10 + (u8 b - 48)) ltac:(lia) Hs').
        lia.
      * rewrite IH by lia. rewrite Forall_cons.
        split; [intros (?&?&?)|intros ((_&?)&?&?)]; split_and!; first [done | lia].
    + split; [done|]. intros (Hs & _). inversion Hs; subst. lia.
Qed.

(** [strconv.ParseUint] in base ten accepts exactly the non-empty strings of
    digits whose value fits. *)
Lemma strconv_ParseUint_spec s bitSize v :
  0 ≤ bitSize →
  strconv_ParseUint s bitSize = Ok v ↔
  bytes_of s ≠ [] ∧ Forall (λ b, 48 ≤ u8 b ≤ 57) (bytes_of s) ∧
  v = decimal_value (bytes_of s) ∧ v < 2 ^ bitSize.
Proof.
  intros Hb. unfold strconv_ParseUint, decimal_value.
  assert (0 < 2 ^ bitSize) by (apply Z.pow_pos_nonneg; lia).
  destruct (bytes_of s) as [|b bs] eqn:E; [by split; [|intros (?&_)]|].
  rewrite parse_uint_loop_spec by lia.
  split; [intros (?&?&?)|intros (_&?&?&?)]; split_and!; first [done | lia].
Qed.

(* ------------------------------------------------------------------ *)
(** ** Package sort *)

(** The result of [sort.Strings]: Go orders strings byte by byte, the order
    [String.le] is. *)
Definition sort_Strings (l : list string) : list string := merge_sort String.le l.

(** [sort.SliceStable(l, func(i, j) { return key(l[i]) < key(l[j]) })]. *)
Definition sort_by_key {A} (key : A → string) (l : list A) : list A :=
  merge_sort (λ x y, String.le (key x) (key y)) l.

Lemma sort_Strings_sorted l : Sorted String.le (sort_Strings l).
Proof. apply Sorted_merge_sort, _. Qed.

Lemma sort_Strings_perm l : sort_Strings l ≡ₚ l.
Proof. apply merge_sort_Permutation. Qed.

Lemma sort_by_key_perm {A} (key : A → string) l : sort_by_key key l ≡ₚ l.
Proof. apply merge_sort_Permutation. Qed.

Lemma sort_by_key_sorted {A} (key : A → string) l :
  Sorted String.le (key <$> sort_by_key key l).
Proof.
  assert (Total (λ x y, String.le (key x) (key y))).
  { intros x y. apply (total String.le). }
  eapply Sorted_fmap; [|apply Sorted_merge_sort, _]. done.
Qed.

(** Sorting by a key and then reading the keys is sorting the keys. *)
Lemma sort_by_key_keys {A} (key : A → string) l :
  key <$> sort_by_key key l = sort_Strings (key <$> l).
Proof.
  apply (Sorted_unique String.le).
  - apply sort_by_key_sorted.
  - apply sort_Strings_sorted.
  - by rewrite sort_Strings_perm, sort_by_key_perm.
Qed.

Lemma sort_Strings_eq_iff l1 l2 : sort_Strings l1 = sort_Strings l2 ↔ l1 ≡ₚ l2.
Proof.
  split.
  - intros H. by rewrite <-(sort_Strings_perm l1), H, sort_Strings_perm.
  - intros H. apply (Sorted_unique String.le);
      [apply sort_Strings_sorted..|by rewrite !sort_Strings_perm].
Qed.
