(* ===== verification/Asn1.v ===== *)
(** * DER decoding

    The part of Go's [encoding/asn1] that the extension validator runs:
    [asn1.Unmarshal] into a [RawValue] and into a [[]ObjectIdentifier], with
    the headers, lengths and base-128 integers below them.  Go's functions take
    a slice and an offset; here a function takes the bytes from the offset on
    and returns those it did not consume.

    The lemmas relate the decoder to an encoder: a value with a low tag number
    decodes from exactly one byte sequence, its DER encoding. *)

From S2P Require Import Prelude.

Open Scope Z_scope.

Inductive asn1_error :=
| SyntaxError (msg : string)
| StructuralError (msg : string).

Definition asn1_result := result asn1_error.

Definition ClassUniversal : Z := 0.
Definition TagOID : Z := 6.
Definition TagSequence : Z := 16.

Definition ObjectIdentifier := list Z.

(** [oi.Equal(other)]: same length, same components. *)
Definition oid_Equal (oi other : ObjectIdentifier) : bool := bool_decide (oi = other).

Record RawValue := {
  rv_Class : Z;
  rv_Tag : Z;
  rv_IsCompound : bool;
  rv_Bytes : list byte;
  rv_FullBytes : list byte;
}.

(* ------------------------------------------------------------------ *)
(** ** Decoder *)

(** [parseBase128Int]: [shifted] counts the bytes read. *)
Fixpoint parseBase128Int_loop (shifted : nat) (ret : Z) (bs : list byte)
    : asn1_result (Z * list byte) :=
  match bs with
  | [] => Err (SyntaxError "truncated base 128 integer")
  | b :: bs' =>
      if (shifted =? 5)%nat then Err (StructuralError "base 128 integer too large")
      else if (shifted =? 0)%nat && (u8 b =? 128)
      then Err (SyntaxError "integer is not minimally encoded")
      else
        let ret' := Z.lor (Z.shiftl ret 7) (Z.land (u8 b) 127) in
        if Z.land (u8 b) 128 =? 0 then
          if 2 ^ 31 - 1 <? ret'
          then Err (StructuralError "base 128 integer too large")
          else Ok (ret', bs')
        else parseBase128Int_loop (S shifted) ret' bs'
  end.

Definition parseBase128Int (bs : list byte) : asn1_result (Z * list byte) :=
  parseBase128Int_loop 0 0 bs.

Record tagAndLength := {
  tl_class : Z;
  tl_tag : Z;
  tl_length : Z;
  tl_isCompound : bool;
}.

(** The loop of [parseTagAndLength] over the [numBytes] bytes of a long length. *)
Fixpoint parse_long_length (numBytes : nat) (len : Z) (bs : list byte)
    : asn1_result (Z * list byte) :=
  match numBytes with
  | O => Ok (len, bs)
  | S n =>
      match bs with
      | [] => Err (SyntaxError "truncated tag or length")
      | b :: bs' =>
          if 2 ^ 23 <=? len then Err (StructuralError "length too large")
          else
            let len' := Z.lor (Z.shiftl len 8) (u8 b) in
            if len' =? 0
            then Err (StructuralError "superfluous leading zeros in length")
            else parse_long_length n len' bs'
      end
  end.

(** The length octets of [parseTagAndLength]. *)
Definition parse_length (bs : list byte) : asn1_result (Z * list byte) :=
  match bs with
  | [] => Err (SyntaxError "truncated tag or length")
  | b :: bs' =>
      if Z.land (u8 b) 128 =? 0 then Ok (Z.land (u8 b) 127, bs')
      else
        let numBytes := Z.land (u8 b) 127 in
        if numBytes =? 0
        then Err (SyntaxError "indefinite length found (not DER)")
        else
          '(len, rest) ← parse_long_length (Z.to_nat numBytes) 0 bs';
          if len <? 128 then Err (StructuralError "non-minimal length")
          else mret (len, rest)
  end.

(** The tag number of [parseTagAndLength], after the first octet gave [tag]. *)
Definition parse_tag (tag : Z) (bs : list byte) : asn1_result (Z * list byte) :=
  if tag =? 31 then
    '(t, rest) ← parseBase128Int bs;
    if t <? 31 then Err (SyntaxError "non-minimal tag") else mret (t, rest)
  else Ok (tag, bs).

Definition parseTagAndLength (bs : list byte) : asn1_result (tagAndLength * list byte) :=
  match bs with
  | [] => Err (SyntaxError "internal error in parseTagAndLength")
  | b :: bs1 =>
      '(tag, bs2) ← parse_tag (Z.land (u8 b) 31) bs1;
      '(len, bs3) ← parse_length bs2;
      mret ({| tl_class := Z.shiftr (u8 b) 6;
               tl_tag := tag;
               tl_length := len;
               tl_isCompound := Z.land (u8 b) 32 =? 32 |}, bs3)
  end.

(** [parseField]'s cut of the contents: [innerBytes] and what follows. *)
Definition cut_contents (trunc : string) (len : Z) (bs : list byte)
    : asn1_result (list byte * list byte) :=
  if Z.of_nat (length bs) <? len then Err (SyntaxError trunc)
  else Ok (take (Z.to_nat len) bs, drop (Z.to_nat len) bs).

(** [asn1.Unmarshal(bs, &rawValue)]. *)
Definition Unmarshal_RawValue (bs : list byte) : asn1_result (RawValue * list byte) :=
  match bs with
  | [] => Err (SyntaxError "sequence truncated")
  | _ =>
      '(t, bs1) ← parseTagAndLength bs;
      '(inner, rest) ← cut_contents "data truncated" (tl_length t) bs1;
      mret ({| rv_Class := tl_class t;
               rv_Tag := tl_tag t;
               rv_IsCompound := tl_isCompound t;
               rv_Bytes := inner;
               rv_FullBytes := take (length bs - length rest) bs |}, rest)
  end.

(** The components after the first two of [parseObjectIdentifier]; [fuel]
    bounds the bytes left, and every component takes at least one. *)
Fixpoint parse_oid_tail (fuel : nat) (bs : list byte) : asn1_result (list Z) :=
  match bs, fuel with
  | [], _ => Ok []
  | _, O => Err (SyntaxError "truncated base 128 integer")
  | _, S fuel' =>
      '(v, rest) ← parseBase128Int bs;
      vs ← parse_oid_tail fuel' rest;
      mret (v :: vs)
  end.

Definition parseObjectIdentifier (bs : list byte) : asn1_result ObjectIdentifier :=
  match bs with
  | [] => Err (SyntaxError "zero length OBJECT IDENTIFIER")
  | _ =>
      '(v, rest) ← parseBase128Int bs;
      vs ← parse_oid_tail (length rest) rest;
      mret (if v <? 80 then v / 40 :: v mod 40 :: vs else 2 :: v - 80 :: vs)
  end.

(** [parseField] for an [ObjectIdentifier]: a primitive universal OID. *)
Definition parseField_OID (bs : list byte) : asn1_result (ObjectIdentifier * list byte) :=
  match bs with
  | [] => Err (SyntaxError "sequence truncated")
  | _ =>
      '(t, bs1) ← parseTagAndLength bs;
      if negb ((tl_class t =? ClassUniversal) && (tl_tag t =? TagOID)) || tl_isCompound t
      then Err (StructuralError "tags don't match")
      else
        '(inner, rest) ← cut_contents "data truncated" (tl_length t) bs1;
        oid ← parseObjectIdentifier inner;
        mret (oid, rest)
  end.

(** The first loop of [parseSequenceOf]: every element is a primitive universal
    OID, and how many there are.  The tags Go folds together before the test
    (string and time types) are none of them [TagOID]. *)
Fixpoint count_oids (fuel : nat) (bs : list byte) : asn1_result nat :=
  match bs, fuel with
  | [], _ => Ok O
  | _, O => Err (SyntaxError "truncated sequence")
  | _, S fuel' =>
      '(t, bs1) ← parseTagAndLength bs;
      if negb (tl_class t =? ClassUniversal) || tl_isCompound t || negb (tl_tag t =? TagOID)
      then Err (StructuralError "sequence tag mismatch")
      else
        '(_, rest) ← cut_contents "truncated sequence" (tl_length t) bs1;
        n ← count_oids fuel' rest;
        mret (S n)
  end.

(** Its second loop: decode that many elements. *)
Fixpoint parse_oids (n : nat) (bs : list byte) : asn1_result (list ObjectIdentifier) :=
  match n with
  | O => Ok []
  | S n' =>
      '(oid, rest) ← parseField_OID bs;
      oids ← parse_oids n' rest;
      mret (oid :: oids)
  end.

(** [asn1.Unmarshal(bs, &oids)] for [oids []asn1.ObjectIdentifier]. *)
Definition Unmarshal_OIDs (bs : list byte) : asn1_result (list ObjectIdentifier * list byte) :=
  match bs with
  | [] => Err (SyntaxError "sequence truncated")
  | _ =>
      '(t, bs1) ← parseTagAndLength bs;
      if negb ((tl_class t =? ClassUniversal) && (tl_tag t =? TagSequence)) ||
         negb (tl_isCompound t)
      then Err (StructuralError "tags don't match")
      else
        '(inner, rest) ← cut_contents "data truncated" (tl_length t) bs1;
        n ← count_oids (length inner) inner;
        oids ← parse_oids n inner;
        mret (oids, rest)
  end.

(* ------------------------------------------------------------------ *)
(** ** Encoder *)

(** The big-endian digits of [n], most significant first, none of them a
    leading zero.  Three rounds cover every length below [2^32]. *)
Fixpoint be_bytes (fuel : nat) (n : Z) : list byte :=
  match fuel with
  | O => [byte_of_Z n]
  | S fuel' =>
      if n <? 256 then [byte_of_Z n]
      else be_bytes fuel' (n / 256) ++ [byte_of_Z (n mod 256)]
  end.

Definition encode_length (n : Z) : list byte :=
  if n <? 128 then [byte_of_Z n]
  else let ds := be_bytes 3 n in byte_of_Z (128 + Z.of_nat (length ds)) :: ds.

Definition encode_ident (class : Z) (compound : bool) (tag : Z) : byte :=
  byte_of_Z (class * 64 + (if compound then 32 else 0) + tag).

(** The DER encoding of a value with a tag number below 31. *)
Definition encode_tlv (class : Z) (compound : bool) (tag : Z) (body : list byte)
    : list byte :=
  encode_ident class compound tag ::
  encode_length (Z.of_nat (length body)) ++ body.

(* ------------------------------------------------------------------ *)
(** ** Bits of a byte *)

Lemma lor_shiftl n k b :
  0 ≤ k → 0 ≤ b < 2 ^ k → Z.lor (Z.shiftl n k) b = n * 2 ^ k + b.
Proof.
  intros Hk Hb. rewrite <-Z.add_nocarry_lor.
  - by rewrite Z.shiftl_mul_pow2.
  - apply Z.bits_inj'. intros i Hi. rewrite Z.land_spec, Z.bits_0.
    destruct (decide (i < k)).
    + by rewrite Z.shiftl_spec_low.
    + destruct (decide (b = 0)) as [->|]; [by rewrite Z.bits_0, andb_false_r|].
      rewrite (Z.bits_above_log2 b), andb_false_r; [done|lia|].
      apply Z.log2_lt_pow2; [lia|]. eapply Z.lt_le_trans; [apply Hb|].
      apply Z.pow_le_mono_r; lia.
Qed.

Lemma u8_bits b :
  Z.shiftr (u8 b) 6 = u8 b / 64 ∧ Z.land (u8 b) 31 = u8 b mod 32 ∧
  Z.land (u8 b) 32 = 32 * (u8 b / 32 mod 2) ∧
  Z.land (u8 b) 128 = 128 * (u8 b / 128) ∧ Z.land (u8 b) 127 = u8 b mod 128.
Proof. destruct b; vm_compute; auto. Qed.

Lemma byte_of_Z_u8 b : byte_of_Z (u8 b) = b.
Proof.
  apply u8_inj. rewrite u8_byte_of_Z. pose proof (u8_range b).
  by rewrite Z.mod_small.
Qed.

Lemma u8_byte_of_Z_small z : 0 ≤ z < 256 → u8 (byte_of_Z z) = z.
Proof. intros. rewrite u8_byte_of_Z. by apply Z.mod_small. Qed.

(* ------------------------------------------------------------------ *)
(** ** Lengths *)

Definition be_value (n : Z) (ds : list byte) : Z := foldl (λ n b, n * 256 + u8 b) n ds.

Lemma be_value_lower n ds : 0 ≤ n → n * 256 ^ Z.of_nat (length ds) ≤ be_value n ds.
Proof.
  unfold be_value. revert n. induction ds as [|b ds IH]; intros n Hn.
  { cbn [foldl length]. change (Z.of_nat 0) with 0. rewrite Z.pow_0_r. lia. }
  cbn [foldl length]. pose proof (u8_range b). etrans; [|apply IH; lia].
  rewrite Nat2Z.inj_succ, Z.pow_succ_r by lia.
  assert (0 ≤ 256 ^ Z.of_nat (length ds)) by (apply Z.pow_nonneg; lia). nia.
Qed.

Lemma be_value_ge n ds : 0 ≤ n → n ≤ be_value n ds.
Proof.
  intros Hn. etrans; [|by apply be_value_lower].
  assert (1 ≤ 256 ^ Z.of_nat (length ds)); [|nia].
  change 1 with (256 ^ 0). apply Z.pow_le_mono_r; lia.
Qed.

Lemma parse_long_length_spec k n bs v rest :
  0 < n < 2 ^ 31 →
  parse_long_length k n bs = Ok (v, rest) ↔
  ∃ ds, length ds = k ∧ bs = ds ++ rest ∧ v = be_value n ds ∧ v < 2 ^ 31.
Proof.
  revert n bs. induction k as [|k IH]; intros n bs Hn; cbn [parse_long_length].
  - split.
    + intros [= <- <-]. exists []. split_and!; [done|done|done|lia].
    + intros (ds & Hk & -> & -> & _). by destruct ds.
  - destruct bs as [|b bs].
    { split; [done|]. intros ([|] & ? & ? & _); simplify_eq/=. }
    pose proof (u8_range b). rewrite lor_shiftl by lia. change (2 ^ 8) with 256.
    destruct (Z.leb_spec (2 ^ 23) n).
    { split; [done|]. intros ([|b' ds] & ? & ? & -> & Hv); simplify_eq/=.
      exfalso. pose proof (be_value_ge (n * 256 + u8 b') ds ltac:(lia)).
      unfold be_value in *. cbn [foldl] in Hv. lia. }
    destruct (Z.eqb_spec (n * 256 + u8 b) 0); [lia|].
    rewrite IH by lia. split.
    + intros (ds & <- & -> & -> & ?). by exists (b :: ds).
    + intros ([|b' ds] & ? & ? & -> & ?); simplify_eq/=. by exists ds.
Qed.

Lemma be_bytes_digits fuel d ds :
  0 < u8 d → (length ds ≤ fuel)%nat →
  be_bytes fuel (be_value (u8 d) ds) = d :: ds.
Proof.
  intros Hd. revert fuel. pose proof (u8_range d).
  induction ds as [|b ds IH] using rev_ind; intros fuel Hf.
  - unfold be_value. simpl. destruct fuel; simpl; [by rewrite byte_of_Z_u8|].
    destruct (Z.ltb_spec (u8 d) 256); [by rewrite byte_of_Z_u8|lia].
  - rewrite length_app in Hf; simpl in Hf. destruct fuel as [|fuel]; [lia|].
    unfold be_value. rewrite foldl_app. cbn [foldl be_bytes].
    change (foldl _ (u8 d) ds) with (be_value (u8 d) ds).
    pose proof (be_value_ge (u8 d) ds ltac:(lia)). pose proof (u8_range b).
    destruct (Z.ltb_spec (be_value (u8 d) ds * 256 + u8 b) 256); [lia|].
    rewrite Z.div_add_l, Z.div_small, Z.add_0_r, IH by lia.
    rewrite (Z.add_comm (_ * 256)), Z_mod_plus_full, Z.mod_small, byte_of_Z_u8 by lia.
    done.
Qed.

Lemma be_bytes_spec fuel n :
  0 < n < 256 ^ Z.of_nat (S fuel) →
  ∃ d ds, be_bytes fuel n = d :: ds ∧ 0 < u8 d ∧ be_value (u8 d) ds = n ∧
          (length ds ≤ fuel)%nat.
Proof.
  revert n. induction fuel as [|fuel IH]; intros n Hn; cbn [be_bytes].
  - exists (byte_of_Z n), []. change (256 ^ Z.of_nat 1) with 256 in Hn.
    rewrite u8_byte_of_Z_small by lia.
    split_and!; [done|lia|done|simpl; lia].
  - destruct (Z.ltb_spec n 256).
    + exists (byte_of_Z n), []. rewrite u8_byte_of_Z_small by lia.
      split_and!; [done|lia|done|simpl; lia].
    + rewrite Nat2Z.inj_succ, Z.pow_succ_r in Hn by lia.
      destruct (IH (n / 256)) as (d & ds & -> & Hd & Hv & Hl).
      { split; [apply Z.div_str_pos; lia|apply Z.div_lt_upper_bound; lia]. }
      exists d, (ds ++ [byte_of_Z (n mod 256)]). split_and!; [done|done| |].
      * unfold be_value in *. rewrite foldl_app. simpl. rewrite Hv.
        rewrite u8_byte_of_Z_small by (apply Z.mod_pos_bound; lia).
        pose proof (Z.div_mod n 256). lia.
      * rewrite length_app. simpl. lia.
Qed.

(** A decoded length was written in its DER form. *)
Lemma parse_length_canonical bs len rest :
  parse_length bs = Ok (len, rest) → bs = encode_length len ++ rest ∧ 0 ≤ len < 2 ^ 31.
Proof.
  unfold parse_length, encode_length.
  destruct bs as [|b bs]; [done|].
  pose proof (u8_range b). destruct (u8_bits b) as (_ & _ & _ & H128 & H127).
  rewrite H128, H127. destruct (Z.eqb_spec (128 * (u8 b / 128)) 0) as [E|E].
  { intros [= <- <-]. assert (u8 b < 128) by div_lia.
    rewrite Z.mod_small by lia. destruct (Z.ltb_spec (u8 b) 128); [|lia].
    rewrite byte_of_Z_u8. split; [done|lia]. }
  assert (128 ≤ u8 b) by div_lia.
  assert (u8 b mod 128 = u8 b - 128) as -> by div_lia.
  destruct (Z.eqb_spec (u8 b - 128) 0); [done|].
  destruct (Z.to_nat (u8 b - 128)) as [|k] eqn:Hk; [lia|].
  cbn [parse_long_length]. destruct bs as [|d bs]; [done|].
  change (2 ^ 23 <=? 0) with false. cbn match.
  pose proof (u8_range d). rewrite lor_shiftl by lia. rewrite Z.mul_0_l, Z.add_0_l.
  destruct (Z.eqb_spec (u8 d) 0); [done|].
  destruct (parse_long_length k (u8 d) bs) as [[v r]|] eqn:Hp; [|done].
  apply parse_long_length_spec in Hp as (ds & Hds & -> & -> & Hv); [|lia].
  cbn [mbind result_bind]. destruct (Z.ltb_spec (be_value (u8 d) ds) 128); [done|]. intros [= <- <-].
  destruct (Z.ltb_spec (be_value (u8 d) ds) 128); [lia|].
  assert (length ds ≤ 3)%nat.
  { destruct (decide (length ds ≤ 3)%nat); [done|]. exfalso.
    pose proof (be_value_lower (u8 d) ds ltac:(lia)).
    pose proof (Z.pow_le_mono_r 256 4 (Z.of_nat (length ds)) ltac:(lia) ltac:(lia)).
    change (256 ^ 4) with (2 ^ 32) in *. nia. }
  rewrite be_bytes_digits by lia. split; [|lia]. cbn [length app].
  assert (128 + Z.of_nat (S (length ds)) = u8 b) as -> by lia. by rewrite byte_of_Z_u8.
Qed.

(** The DER form of a length decodes to it. *)
Lemma parse_length_encode len rest :
  0 ≤ len < 2 ^ 31 → parse_length (encode_length len ++ rest) = Ok (len, rest).
Proof.
  unfold parse_length, encode_length.
  intros Hlen. destruct (Z.ltb_spec len 128).
  + cbn [app]. destruct (u8_bits (byte_of_Z len)) as (_ & _ & _ & H128 & H127).
    rewrite H128, H127, u8_byte_of_Z_small by lia.
    rewrite Z.div_small, Z.mod_small by lia. done.
  + destruct (be_bytes_spec 3 len) as (d & ds & -> & Hd & Hv & Hl).
    { change (256 ^ Z.of_nat 4) with (2 ^ 32). lia. }
    cbn [app length].
    destruct (u8_bits (byte_of_Z (128 + Z.of_nat (S (length ds)))))
      as (_ & _ & _ & H128 & H127).
    rewrite H128, H127, u8_byte_of_Z_small by lia.
    destruct (Z.eqb_spec (128 * ((128 + Z.of_nat (S (length ds))) / 128)) 0); [div_lia|].
    assert ((128 + Z.of_nat (S (length ds))) mod 128 = Z.of_nat (S (length ds)))
      as -> by div_lia.
    destruct (Z.eqb_spec (Z.of_nat (S (length ds))) 0); [lia|].
    rewrite Nat2Z.id. cbn [parse_long_length].
    change (2 ^ 23 <=? 0) with false. cbn match. pose proof (u8_range d).
    rewrite lor_shiftl by lia. rewrite Z.mul_0_l, Z.add_0_l.
    destruct (Z.eqb_spec (u8 d) 0); [lia|].
    assert (parse_long_length (length ds) (u8 d) (ds ++ rest) = Ok (len, rest)) as ->.
    { apply parse_long_length_spec; [lia|]. exists ds.
      split_and!; [done|done|by rewrite Hv|lia]. }
    cbn [mbind result_bind]. destruct (Z.ltb_spec len 128); [lia|done].
Qed.

(* ------------------------------------------------------------------ *)
(** ** Headers and values *)

Lemma encode_length_nonempty n : (0 < length (encode_length n))%nat.
Proof. unfold encode_length. destruct (n <? 128); simpl; lia. Qed.

Lemma parseBase128Int_loop_progress k n bs v rest :
  parseBase128Int_loop k n bs = Ok (v, rest) → (length rest < length bs)%nat.
Proof.
  revert k n. induction bs as [|b bs IH]; intros k n; cbn [parseBase128Int_loop]; [done|].
  repeat case_match; intros; simplify_eq/=; [lia|].
  etrans; [by eapply IH|lia].
Qed.

Lemma parse_tag_progress t bs v rest :
  parse_tag t bs = Ok (v, rest) → (length rest ≤ length bs)%nat.
Proof.
  unfold parse_tag, parseBase128Int. case_match; [|intros; by simplify_eq].
  destruct (parseBase128Int_loop 0 0 bs) as [[u r]|] eqn:E; [|done].
  cbn. case_match; [done|]. intros [= <- <-].
  apply parseBase128Int_loop_progress in E. lia.
Qed.

Lemma parse_tag_low t bs v rest :
  parse_tag t bs = Ok (v, rest) → v < 31 → t = v ∧ t ≠ 31 ∧ rest = bs.
Proof.
  unfold parse_tag. destruct (Z.eqb_spec t 31).
  - destruct (parseBase128Int bs) as [[u r]|]; [|done]. cbn.
    destruct (Z.ltb_spec u 31); [done|]. intros [= <- <-]. lia.
  - intros [= <- <-]. done.
Qed.

Lemma encode_ident_u8 class compound tag :
  0 ≤ class < 4 → 0 ≤ tag < 32 →
  u8 (encode_ident class compound tag) = class * 64 + (if compound then 32 else 0) + tag.
Proof. intros. apply u8_byte_of_Z_small. destruct compound; lia. Qed.

Lemma parseTagAndLength_inv bs t rest :
  parseTagAndLength bs = Ok (t, rest) →
  (length rest < length bs)%nat ∧ 0 ≤ tl_length t < 2 ^ 31 ∧
  (tl_tag t < 31 →
   bs = encode_ident (tl_class t) (tl_isCompound t) (tl_tag t) ::
        encode_length (tl_length t) ++ rest ∧
   0 ≤ tl_class t < 4 ∧ 0 ≤ tl_tag t).
Proof.
  unfold parseTagAndLength. destruct bs as [|b bs1]; [done|].
  destruct (parse_tag (Z.land (u8 b) 31) bs1) as [[tag bs2]|] eqn:Ht; [|done]. cbn.
  destruct (parse_length bs2) as [[len bs3]|] eqn:Hl; [|done]. cbn.
  intros [= <- <-]. cbn.
  apply parse_length_canonical in Hl as [-> Hlen].
  pose proof (parse_tag_progress _ _ _ _ Ht) as Hp. rewrite length_app in Hp.
  pose proof (encode_length_nonempty len).
  split_and!; [lia|lia|lia|]. intros Htag.
  apply parse_tag_low in Ht as (<- & Hne & <-); [|done].
  pose proof (u8_range b). destruct (u8_bits b) as (H6 & H31 & H32 & _).
  rewrite H6, H31, H32 in *. split; [|div_lia]. f_equal. apply u8_inj.
  destruct (Z.eqb_spec (32 * (u8 b / 32 mod 2)) 32);
    rewrite encode_ident_u8 by div_lia; div_lia.
Qed.

Lemma parseTagAndLength_encode class compound tag len rest :
  0 ≤ class < 4 → 0 ≤ tag < 31 → 0 ≤ len < 2 ^ 31 →
  parseTagAndLength (encode_ident class compound tag :: encode_length len ++ rest) =
  Ok ({| tl_class := class; tl_tag := tag; tl_length := len;
         tl_isCompound := compound |}, rest).
Proof.
  intros Hc Ht Hl. unfold parseTagAndLength.
  destruct (u8_bits (encode_ident class compound tag)) as (H6 & H31 & H32 & _).
  rewrite H6, H31, H32, !encode_ident_u8 by lia. unfold parse_tag.
  assert ((class * 64 + (if compound then 32 else 0) + tag) mod 32 = tag) as ->
    by (destruct compound; div_lia).
  destruct (Z.eqb_spec tag 31); [lia|]. cbn [mbind result_bind].
  rewrite parse_length_encode by done. cbn [mbind result_bind].
  assert ((class * 64 + (if compound then 32 else 0) + tag) / 64 = class) as ->
    by (destruct compound; div_lia).
  assert (((class * 64 + (if compound then 32 else 0) + tag) / 32) mod 2 =
          if compound then 1 else 0) as -> by (destruct compound; div_lia).
  by destruct compound.
Qed.

Lemma cut_contents_spec trunc len bs inner rest :
  0 ≤ len →
  cut_contents trunc len bs = Ok (inner, rest) ↔
  bs = inner ++ rest ∧ Z.of_nat (length inner) = len.
Proof.
  intros Hlen. unfold cut_contents. destruct (Z.ltb_spec (Z.of_nat (length bs)) len).
  - split; [done|]. intros [-> Hi]. rewrite length_app in *. lia.
  - split.
    + intros [= <- <-]. rewrite take_drop, length_take. split; [done|lia].
    + intros [-> <-]. rewrite Nat2Z.id, take_app_length, drop_app_length. done.
Qed.

(** Every decoded value takes at least one byte of the input. *)
Lemma Unmarshal_RawValue_progress bs rv rest :
  Unmarshal_RawValue bs = Ok (rv, rest) → (length rest < length bs)%nat.
Proof.
  unfold Unmarshal_RawValue. destruct bs as [|b bs]; [done|].
  destruct (parseTagAndLength (b :: bs)) as [[t bs1]|] eqn:Ht; [|done]. cbn [mbind result_bind].
  apply parseTagAndLength_inv in Ht as (Hp & Hl & _).
  destruct (cut_contents _ (tl_length t) bs1) as [[inner r]|] eqn:Hc; [|done].
  cbn [mbind result_bind]. intros [= <- <-].
  apply cut_contents_spec in Hc as [-> _]; [|lia]. rewrite length_app in Hp. lia.
Qed.

(** A raw value with a low tag number, as DER has it. *)
Definition wf_raw (rv : RawValue) : Prop :=
  0 ≤ rv_Class rv < 4 ∧ 0 ≤ rv_Tag rv < 31 ∧
  Z.of_nat (length (rv_Bytes rv)) < 2 ^ 31 ∧
  rv_FullBytes rv = encode_tlv (rv_Class rv) (rv_IsCompound rv) (rv_Tag rv) (rv_Bytes rv).

(** Decoding is the inverse of encoding, in both directions: a value with a low
    tag decodes from its encoding, and only from it. *)
Lemma Unmarshal_RawValue_spec bs rv rest :
  rv_Tag rv < 31 →
  Unmarshal_RawValue bs = Ok (rv, rest) ↔ wf_raw rv ∧ bs = rv_FullBytes rv ++ rest.
Proof.
  intros Htag. unfold Unmarshal_RawValue, wf_raw. split.
  - destruct bs as [|b bs]; [done|].
    destruct (parseTagAndLength (b :: bs)) as [[t bs1]|] eqn:Ht; [|done].
    cbn [mbind result_bind]. apply parseTagAndLength_inv in Ht as (_ & Hl & Hlow).
    destruct (cut_contents _ (tl_length t) bs1) as [[inner r]|] eqn:Hc; [|done].
    cbn [mbind result_bind]. intros [= <- <-].
    cbn [rv_Tag rv_Class rv_IsCompound rv_Bytes rv_FullBytes] in *.
    apply cut_contents_spec in Hc as [-> Hi]; [|lia].
    destruct (Hlow Htag) as (Hbs & Hcl & Htg).
    rewrite <-Hi in Hbs. rewrite app_assoc, app_comm_cons in Hbs.
    change (S (length bs)) with (length (b :: bs)).
    rewrite Hbs, take_app_sub. split_and!; first [done | lia].
  - intros [(Hc & Ht & Hl & Hf) ->].
    replace (parseTagAndLength (rv_FullBytes rv ++ rest)) with
      (Ok (E := asn1_error)
        ({| tl_class := rv_Class rv; tl_tag := rv_Tag rv;
            tl_length := Z.of_nat (length (rv_Bytes rv));
            tl_isCompound := rv_IsCompound rv |}, rv_Bytes rv ++ rest)); last first.
    { rewrite Hf. unfold encode_tlv. rewrite <-app_comm_cons, <-app_assoc.
      by rewrite parseTagAndLength_encode by lia. }
    cbn [mbind result_bind tl_length].
    rewrite (proj2 (cut_contents_spec _ (Z.of_nat (length (rv_Bytes rv))) _
                      (rv_Bytes rv) rest ltac:(lia))) by done.
    cbn [mbind result_bind tl_class tl_tag tl_isCompound].
    rewrite take_app_sub. destruct rv; cbn in *. by subst.
Qed.

(* ------------------------------------------------------------------ *)
(** ** Object identifiers *)

(** A base-128 integer below 128 is one byte. *)
Lemma parseBase128Int_loop_large k n bs v rest :
  0 < n → parseBase128Int_loop k n bs = Ok (v, rest) → 128 ≤ v.
Proof.
  revert k n. induction bs as [|b bs IH]; intros k n Hn; cbn [parseBase128Int_loop]; [done|].
  destruct (u8_bits b) as (_ & _ & _ & _ & H127). rewrite H127.
  pose proof (Z.mod_pos_bound (u8 b) 128 ltac:(lia)).
  rewrite lor_shiftl by lia. repeat case_match; intros; simplify_eq/=; [lia|].
  eapply (IH _ (n * 2 ^ 7 + u8 b mod 128)); [lia|done].
Qed.

Lemma parseBase128Int_small bs v rest :
  v < 128 → parseBase128Int bs = Ok (v, rest) ↔ 0 ≤ v ∧ bs = byte_of_Z v :: rest.
Proof.
  intros Hv. unfold parseBase128Int. split.
  - destruct bs as [|b bs]; [done|]. cbn [parseBase128Int_loop].
    change (0 =? 5)%nat with false. change (0 =? 0)%nat with true. cbn match.
    destruct (Z.eqb_spec (u8 b) 128) as [|Hb]; [done|]. cbn [andb].
    destruct (u8_bits b) as (_ & _ & _ & H128 & H127). rewrite H127, H128.
    pose proof (u8_range b). rewrite lor_shiftl by (simpl; div_lia).
    rewrite Z.mul_0_l, Z.add_0_l.
    destruct (Z.eqb_spec (128 * (u8 b / 128)) 0).
    + case_match; [done|]. intros [= <- <-].
      rewrite Z.mod_small by div_lia. rewrite byte_of_Z_u8. split; [lia|done].
    + intros H'%parseBase128Int_loop_large; [lia|div_lia].
  - intros [Hv0 ->]. cbn [parseBase128Int_loop].
    change (0 =? 5)%nat with false. change (0 =? 0)%nat with true. cbn match.
    destruct (u8_bits (byte_of_Z v)) as (_ & _ & _ & H128 & H127).
    rewrite H127, H128, u8_byte_of_Z_small by lia.
    destruct (Z.eqb_spec v 128); [lia|]. cbn [andb].
    rewrite lor_shiftl by (simpl; div_lia).
    rewrite Z.mul_0_l, Z.add_0_l, Z.div_small, Z.mod_small by lia.
    destruct (Z.ltb_spec (2 ^ 31 - 1) v); [lia|done].
Qed.

(** A tail of small components is spelled one byte each. *)
Lemma parse_oid_tail_small fuel bs vs :
  Forall (λ v, v < 128) vs → (length bs ≤ fuel)%nat →
  parse_oid_tail fuel bs = Ok vs ↔ Forall (λ v, 0 ≤ v) vs ∧ bs = byte_of_Z <$> vs.
Proof.
  intros Hvs. revert fuel bs. induction Hvs as [|v vs Hv Hvs IH]; intros fuel bs Hf.
  - destruct bs as [|b bs].
    { split; [done|]. by destruct fuel. }
    split; [|by intros [_ ?]]. destruct fuel as [|fuel]; [done|]. cbn [parse_oid_tail].
    destruct (parseBase128Int (b :: bs)) as [[u r]|]; [|done]. cbn [mbind result_bind].
    by destruct (parse_oid_tail fuel r).
  - destruct bs as [|b bs].
    { split; [by destruct fuel|]. by intros [_ ?]. }
    destruct fuel as [|fuel]; [simpl in Hf; lia|]. cbn [parse_oid_tail].
    rewrite fmap_cons, Forall_cons. split.
    + destruct (parseBase128Int (b :: bs)) as [[u r]|] eqn:E; [|done].
      cbn [mbind result_bind]. destruct (parse_oid_tail fuel r) as [us|] eqn:Er; [|done].
      cbn [mbind result_bind]. intros [= -> ->].
      apply parseBase128Int_small in E as [? [= -> ->]]; [|done].
      apply IH in Er as [? ->]; [done|]. simpl in Hf. lia.
    + intros [[? ?] [= -> ->]].
      rewrite (proj2 (parseBase128Int_small _ v _ Hv)) by done. cbn [mbind result_bind].
      assert (parse_oid_tail fuel (byte_of_Z <$> vs) = Ok vs) as ->; [|done].
      apply IH; [|done]. simpl in Hf. rewrite length_fmap in *. lia.
Qed.

(** Identifiers whose components all fit one byte, and their contents octets. *)
Definition small_oid (o : ObjectIdentifier) : Prop :=
  match o with
  | a :: b :: vs =>
      0 ≤ b ∧ (0 ≤ a < 2 ∧ b < 40 ∨ a = 2 ∧ b < 48) ∧ Forall (λ v, 0 ≤ v < 128) vs ∧
      Z.of_nat (length vs) < 2 ^ 30
  | _ => False
  end.

Definition encode_oid (o : ObjectIdentifier) : list byte :=
  match o with
  | a :: b :: vs => byte_of_Z (a * 40 + b) :: (byte_of_Z <$> vs)
  | _ => []
  end.

Lemma parseObjectIdentifier_small bs o :
  small_oid o → parseObjectIdentifier bs = Ok o ↔ bs = encode_oid o.
Proof.
  destruct o as [|a [|b vs]]; [done..|]. intros (Hb & Ha & Hvs & _).
  assert (Forall (λ v, v < 128) vs) by (eapply Forall_impl; [exact Hvs|cbn; intros; lia]).
  assert (Forall (λ v, 0 ≤ v) vs) by (eapply Forall_impl; [exact Hvs|cbn; intros; lia]).
  unfold parseObjectIdentifier, encode_oid. split.
  - destruct bs as [|c bs]; [done|].
    destruct (parseBase128Int (c :: bs)) as [[v r]|] eqn:E; [|done].
    cbn [mbind result_bind]. destruct (parse_oid_tail _ r) as [us|] eqn:Er; [|done].
    cbn [mbind result_bind]. unfold mret, result_ret.
    intros [= Hv].
    assert (v = a * 40 + b ∧ us = vs) as [-> ->].
    { destruct (Z.ltb_spec v 80); simplify_eq; split; first [done | div_lia]. }
    apply parseBase128Int_small in E as [_ ->]; [|lia].
    apply parse_oid_tail_small in Er as [_ ->]; done.
  - intros ->. rewrite (proj2 (parseBase128Int_small _ (a * 40 + b) _ ltac:(lia))) by (split; [lia|done]).
    cbn [mbind result_bind].
    assert (parse_oid_tail (length (byte_of_Z <$> vs)) (byte_of_Z <$> vs) = Ok vs) as ->.
    { by apply parse_oid_tail_small. }
    cbn [mbind result_bind]. unfold mret, result_ret.
    destruct (Z.ltb_spec (a * 40 + b) 80); repeat f_equal; div_lia.
Qed.

Definition encode_oid_tlv (o : ObjectIdentifier) : list byte :=
  encode_tlv ClassUniversal false TagOID (encode_oid o).

Lemma encode_oid_length o :
  small_oid o → Z.of_nat (length (encode_oid o)) < 2 ^ 31.
Proof.
  destruct o as [|a [|b vs]]; [done..|]. intros (_ & _ & _ & Hl).
  unfold encode_oid. cbn [length]. rewrite length_fmap. lia.
Qed.

(** The header and the cut of one element of the sequence. *)
Lemma parse_oid_header o rest :
  small_oid o →
  parseTagAndLength (encode_oid_tlv o ++ rest) =
  Ok ({| tl_class := ClassUniversal; tl_tag := TagOID;
         tl_length := Z.of_nat (length (encode_oid o)); tl_isCompound := false |},
      encode_oid o ++ rest).
Proof.
  intros Ho%encode_oid_length. unfold encode_oid_tlv, encode_tlv.
  rewrite <-app_comm_cons, <-app_assoc.
  by rewrite parseTagAndLength_encode by (unfold ClassUniversal, TagOID; lia).
Qed.

Lemma count_oids_encode os fuel :
  Forall small_oid os → (length (concat (encode_oid_tlv <$> os)) ≤ fuel)%nat →
  count_oids fuel (concat (encode_oid_tlv <$> os)) = Ok (length os).
Proof.
  intros Hos. revert fuel. induction Hos as [|o os Ho _ IH]; intros fuel Hf.
  { by destruct fuel. }
  rewrite fmap_cons in *. cbn [concat] in *. rewrite length_app in Hf.
  assert (length (encode_oid_tlv o) = S (length (encode_length (Z.of_nat (length (encode_oid o))) ++ encode_oid o))) as He by done.
  destruct fuel as [|fuel]; [lia|].
  pose proof (parse_oid_header o (concat (encode_oid_tlv <$> os)) Ho) as Hh.
  cbn [count_oids]. destruct (encode_oid_tlv o ++ _) as [|c bs] eqn:E; [done|].
  rewrite Hh. cbn [mbind result_bind tl_class tl_tag tl_isCompound tl_length].
  change (negb (ClassUniversal =? ClassUniversal) || false || negb (TagOID =? TagOID)) with false.
  cbn match. rewrite (proj2 (cut_contents_spec _ (Z.of_nat (length (encode_oid o))) _
                      (encode_oid o) _ ltac:(lia))) by done.
  cbn [mbind result_bind]. rewrite IH by lia. done.
Qed.

Lemma parse_oids_encode os :
  Forall small_oid os → parse_oids (length os) (concat (encode_oid_tlv <$> os)) = Ok os.
Proof.
  induction 1 as [|o os Ho _ IH]; [done|].
  rewrite fmap_cons. cbn [concat length parse_oids]. unfold parseField_OID.
  pose proof (parse_oid_header o (concat (encode_oid_tlv <$> os)) Ho) as Hh.
  destruct (encode_oid_tlv o ++ _) as [|c bs] eqn:E; [done|].
  rewrite Hh. cbn [mbind result_bind tl_class tl_tag tl_isCompound tl_length].
  change (negb ((ClassUniversal =? ClassUniversal) && (TagOID =? TagOID)) || false) with false.
  cbn match. rewrite (proj2 (cut_contents_spec _ (Z.of_nat (length (encode_oid o))) _
                      (encode_oid o) _ ltac:(lia))) by done.
  cbn [mbind result_bind]. rewrite (proj2 (parseObjectIdentifier_small _ o Ho)) by done.
  cbn [mbind result_bind mret result_ret]. by rewrite IH.
Qed.

(** Elements that decode to small identifiers are their encodings, end to end. *)
Lemma parse_oids_canonical fuel bs n os :
  count_oids fuel bs = Ok n → parse_oids n bs = Ok os → Forall small_oid os →
  bs = concat (encode_oid_tlv <$> os).
Proof.
  revert fuel n bs. induction os as [|o os IH]; intros fuel n bs Hc Hp Hs.
  - destruct bs as [|b bs]; [done|]. destruct fuel as [|fuel]; [done|]. exfalso.
    cbn [count_oids] in Hc. destruct (parseTagAndLength _) as [[t bs1]|]; [|done].
    cbn [mbind result_bind] in Hc. case_match; [done|].
    destruct (cut_contents _ _ _) as [[i r]|]; [|done]. cbn [mbind result_bind] in Hc.
    destruct (count_oids fuel r) as [m|]; [|done]. injection Hc as <-.
    cbn [parse_oids] in Hp. destruct (parseField_OID _) as [[? ?]|]; [|done].
    cbn [mbind result_bind] in Hp. by destruct (parse_oids m _).
  - inversion Hs as [|? ? Ho Hs']; subst. destruct n as [|n]; [done|].
    destruct bs as [|b bs]; [done|]. destruct fuel as [|fuel]; [done|].
    cbn [count_oids parse_oids] in *. unfold parseField_OID in Hp.
    destruct (parseTagAndLength (b :: bs)) as [[t bs1]|] eqn:Ht; [|done].
    cbn [mbind result_bind] in *.
    destruct (negb ((tl_class t =? ClassUniversal) && (tl_tag t =? TagOID)) ||
              tl_isCompound t) eqn:Hg; [done|].
    apply parseTagAndLength_inv in Ht as (_ & Hl & Hlow).
    assert (tl_class t = ClassUniversal ∧ tl_tag t = TagOID ∧ tl_isCompound t = false)
      as (E1 & E2 & E3) by (destruct (tl_isCompound t); unfold TagOID, ClassUniversal in *; lia).
    rewrite E1, E2, E3 in *. cbn in Hc.
    destruct (cut_contents "truncated sequence" _ bs1) as [[i r]|] eqn:Hcut; [|done].
    apply cut_contents_spec in Hcut as [-> Hi]; [|lia].
    rewrite (proj2 (cut_contents_spec "data truncated" (tl_length t) _ i r ltac:(lia))) in Hp by done.
    cbn [mbind result_bind] in *.
    destruct (count_oids fuel r) as [m|] eqn:Hm; [|done]. injection Hc as ->.
    destruct (parseObjectIdentifier i) as [o'|] eqn:Eo; [|done].
    cbn [mbind result_bind mret result_ret] in Hp.
    destruct (parse_oids n r) as [os'|] eqn:Ep; [|done]. injection Hp as -> ->.
    apply parseObjectIdentifier_small in Eo as ->; [|done].
    destruct (Hlow ltac:(unfold TagOID; lia)) as (Hbs & _).
    rewrite fmap_cons. cbn [concat]. rewrite <-(IH fuel n r) by done. rewrite Hbs.
    unfold encode_oid_tlv, encode_tlv. by rewrite Hi, <-app_comm_cons, <-app_assoc.
Qed.

(** A sequence of small identifiers decodes from its DER encoding, whatever
    follows it, and from nothing else. *)
Lemma Unmarshal_OIDs_spec bs os rest :
  Forall small_oid os →
  Unmarshal_OIDs bs = Ok (os, rest) ↔
  bs = encode_tlv ClassUniversal true TagSequence (concat (encode_oid_tlv <$> os)) ++ rest ∧
  Z.of_nat (length (concat (encode_oid_tlv <$> os))) < 2 ^ 31.
Proof.
  intros Hs. unfold Unmarshal_OIDs. split.
  - destruct bs as [|b bs]; [done|].
    destruct (parseTagAndLength (b :: bs)) as [[t bs1]|] eqn:Ht; [|done].
    cbn [mbind result_bind].
    destruct (negb ((tl_class t =? ClassUniversal) && (tl_tag t =? TagSequence)) ||
              negb (tl_isCompound t)) eqn:Hg; [done|].
    apply parseTagAndLength_inv in Ht as (_ & Hl & Hlow).
    assert (tl_class t = ClassUniversal ∧ tl_tag t = TagSequence ∧ tl_isCompound t = true)
      as (E1 & E2 & E3)
      by (destruct (tl_isCompound t); unfold TagSequence, ClassUniversal in *; lia).
    rewrite E1, E2, E3 in *.
    destruct (cut_contents _ (tl_length t) bs1) as [[i r]|] eqn:Hcut; [|done].
    apply cut_contents_spec in Hcut as [-> Hi]; [|lia]. cbn [mbind result_bind].
    destruct (count_oids (length i) i) as [n|] eqn:Hn; [|done]. cbn [mbind result_bind].
    destruct (parse_oids n i) as [os'|] eqn:Ho; [|done]. cbn [mbind result_bind].
    intros [= -> ->]. pose proof (parse_oids_canonical _ _ _ _ Hn Ho Hs) as ->.
    destruct (Hlow ltac:(unfold TagSequence; lia)) as (-> & _). split; [|lia].
    unfold encode_tlv. by rewrite Hi, <-app_comm_cons, <-app_assoc.
  - intros [-> Hl]. unfold encode_tlv. rewrite <-app_comm_cons, <-app_assoc.
    rewrite parseTagAndLength_encode by (unfold ClassUniversal, TagSequence; lia).
    cbn [mbind result_bind tl_class tl_tag tl_isCompound tl_length].
    change (negb ((ClassUniversal =? ClassUniversal) && (TagSequence =? TagSequence)) || negb true)
      with false. cbn match.
    rewrite (proj2 (cut_contents_spec _ (Z.of_nat (length (concat (encode_oid_tlv <$> os)))) _
                      _ rest ltac:(lia))) by done.
    cbn [mbind result_bind]. rewrite count_oids_encode by done.
    cbn [mbind result_bind]. by rewrite parse_oids_encode.
Qed.
