(* ===== verification/Extensions.v ===== *)
(** * CSR extension validation

    [pkg/server/internal/extensions]: which X.509 extensions a workload's
    certificate signing request may carry.  The validators are translated
    function by function; [ext_allowed] is the declarative policy they
    implement, in terms of DER encodings. *)

From S2P Require Import Prelude Asn1.
From Equations Require Import Equations.

Open Scope Z_scope.

(* ------------------------------------------------------------------ *)
(** ** Data *)

(** [pkix.Extension]. *)
Record Extension := {
  ext_Id : ObjectIdentifier;
  ext_Critical : bool;
  ext_Value : list byte;
}.

Definition asn1TagURI : Z := 6.

Definition oidExtensionKeyUsage : ObjectIdentifier := [2; 5; 29; 15].
Definition oidExtensionExtendedKeyUsage : ObjectIdentifier := [2; 5; 29; 37].
Definition oidExtensionSubjectAltName : ObjectIdentifier := [2; 5; 29; 17].

Definition oidExtKeyUsageServerAuth : ObjectIdentifier := [1; 3; 6; 1; 5; 5; 7; 3; 1].
Definition oidExtKeyUsageClientAuth : ObjectIdentifier := [1; 3; 6; 1; 5; 5; 7; 3; 2].

Definition allowedKeyUsages : list (list byte) :=
  [ [x03; x02; x07; x80];   (* x509.KeyUsageDigitalSignature *)
    [x03; x02; x05; x20] ]. (* x509.KeyUsageKeyEncipherment *)

(** The errors, one constructor for each place that builds one. *)
#[warnings="-register-all"]
Inductive ext_error :=
| ForbiddenExtensions (exts : list Extension)
| ForbiddenExtension (id : ObjectIdentifier)
| ForbiddenKeyUsage (value : list byte)
| NonExtendedKeyUsageExtension (id : ObjectIdentifier)
| ExtendedKeyUsageParse (e : asn1_error)
| ForbiddenExtendedKeyUsage (usage : ObjectIdentifier)
| NotSubjectAltName (id : ObjectIdentifier)
| SubjectAltNameUnmarshal (e : asn1_error)
| SubjectAltNameEncoding (value : list byte)
| SubjectAltNameEntry (e : asn1_error)
| NonURISubjectAltName (contents : list byte)
| Aggregate (el : list ext_error).

(** [utilerrors.NewAggregate] of k8s.io/apimachinery, and what it documents: no
    error comes out when no error went in, nil entries being skipped. *)
Class Aggregator (E : Type) := NewAggregate : list (option E) → option E.
#[global] Hint Mode Aggregator ! : typeclass_instances.

Class AggregatorSpec (E : Type) `{Aggregator E} : Prop :=
  NewAggregate_nil (el : list (option E)) :
    NewAggregate el = None ↔ Forall (λ e, e = None) el.

(* ------------------------------------------------------------------ *)
(** ** The validators *)

(** [x &^ y] on bytes. *)
Definition byte_andnot (x y : byte) : byte := byte_of_Z (Z.ldiff (u8 x) (u8 y)).

(** [for i, b := range usage { extValue[i] &^= b }]. *)
Definition clear_usage (extValue usage : list byte) : list byte :=
  imap (λ i v, match usage !! i with Some b => byte_andnot v b | None => v end) extValue.

Definition validateKeyUsageExtension (value : list byte) : option ext_error :=
  if negb (length value =? 4)%nat then Some (ForbiddenKeyUsage value)
  else
    let extValue := foldl clear_usage value allowedKeyUsages in
    if negb (bool_decide (extValue = [x00; x00; x00; x00]))
    then Some (ForbiddenKeyUsage value)
    else None.

Definition validateExtendedKeyUsageExtension `{Aggregator ext_error} (extension : Extension)
    : option ext_error :=
  if negb (oid_Equal (ext_Id extension) oidExtensionExtendedKeyUsage)
  then Some (NonExtendedKeyUsageExtension (ext_Id extension))
  else
    match Unmarshal_OIDs (ext_Value extension) with
    | Err err => Some (ExtendedKeyUsageParse err)
    | Ok (asn1ExtendedUsages, _) =>
        let el := omap (λ usage,
          if negb (oid_Equal usage oidExtKeyUsageClientAuth) &&
             negb (oid_Equal usage oidExtKeyUsageServerAuth)
          then Some (Some (ForbiddenExtendedKeyUsage usage)) else None) asn1ExtendedUsages in
        NewAggregate el
    end.

Definition inspect {A} (a : A) : { b : A | a = b } := exist _ a eq_refl.

(** The loop over the general names of [validateSubjectAltNameExtension].  It
    terminates because decoding a value always consumes input. *)
Equations? san_entries (bytes : list byte) : option ext_error by wf (length bytes) lt :=
  san_entries [] := None;
  san_entries (b :: bs) with inspect (Unmarshal_RawValue (b :: bs)) := {
    | exist _ (Err err) _ => Some (SubjectAltNameEntry err);
    | exist _ (Ok (rawValue, rest)) H =>
        if negb (rv_Tag rawValue =? asn1TagURI)
        then Some (NonURISubjectAltName (rv_Bytes rawValue))
        else san_entries rest }.
Proof. by apply (Unmarshal_RawValue_progress (b :: bs)) in H. Qed.

Definition validateSubjectAltNameExtension (ext : Extension) : option ext_error :=
  if negb (oid_Equal (ext_Id ext) oidExtensionSubjectAltName)
  then Some (NotSubjectAltName (ext_Id ext))
  else
    match Unmarshal_RawValue (ext_Value ext) with
    | Err err => Some (SubjectAltNameUnmarshal err)
    | Ok (sequence, rest) =>
        if negb (length rest =? 0)%nat then Some (SubjectAltNameEncoding (ext_Value ext))
        else if negb (rv_IsCompound sequence) || negb (rv_Tag sequence =? TagSequence) ||
                negb (rv_Class sequence =? ClassUniversal)
        then Some (SubjectAltNameEncoding (ext_Value ext))
        else san_entries (rv_Bytes sequence)
    end.

(** One iteration of the loop of [ValidateCSRExtentions]. *)
Definition validate_extension `{Aggregator ext_error} (extension : Extension)
    : option ext_error :=
  if oid_Equal (ext_Id extension) oidExtensionSubjectAltName then
    validateSubjectAltNameExtension extension
  else if oid_Equal (ext_Id extension) oidExtensionKeyUsage then
    validateKeyUsageExtension (ext_Value extension)
  else if oid_Equal (ext_Id extension) oidExtensionExtendedKeyUsage then
    validateExtendedKeyUsageExtension extension
  else Some (ForbiddenExtension (ext_Id extension)).

(** [ValidateCSRExtentions], on the two fields of the request it reads. *)
Definition ValidateCSRExtentions `{Aggregator ext_error}
    (ExtraExtensions Extensions : list Extension) : option ext_error :=
  let el := if (0 <? length ExtraExtensions)%nat
            then [Some (ForbiddenExtensions Extensions)] else [] in
  NewAggregate (el ++ (validate_extension <$> Extensions)).

(* ------------------------------------------------------------------ *)
(** ** The policy *)

(** The bits a key usage value may have set, byte by byte: tag, length, unused
    bits, and digitalSignature | keyEncipherment. *)
Definition key_usage_mask : list Z := [3; 2; 7; 160].

Definition key_usage_allowed (value : list byte) : Prop :=
  Forall2 (λ b m, ∀ i, 0 ≤ i → Z.testbit (u8 b) i = true → Z.testbit m i = true)
    value key_usage_mask.

(** A general name the validator lets through: a DER value with tag number 6. *)
Definition uri_entry (rv : RawValue) : Prop := wf_raw rv ∧ rv_Tag rv = asn1TagURI.

Definition san_allowed (value : list byte) : Prop :=
  ∃ names : list RawValue,
    Forall uri_entry names ∧
    Z.of_nat (length (concat (rv_FullBytes <$> names))) < 2 ^ 31 ∧
    value = encode_tlv ClassUniversal true TagSequence (concat (rv_FullBytes <$> names)).

(** A sequence of serverAuth and clientAuth; bytes after it are not looked at. *)
Definition eku_allowed (value : list byte) : Prop :=
  ∃ (usages : list ObjectIdentifier) (rest : list byte),
    Forall (λ u, u = oidExtKeyUsageClientAuth ∨ u = oidExtKeyUsageServerAuth) usages ∧
    Z.of_nat (length (concat (encode_oid_tlv <$> usages))) < 2 ^ 31 ∧
    value = encode_tlv ClassUniversal true TagSequence
              (concat (encode_oid_tlv <$> usages)) ++ rest.

Inductive ext_allowed (e : Extension) : Prop :=
| allowed_SAN :
    ext_Id e = oidExtensionSubjectAltName → san_allowed (ext_Value e) → ext_allowed e
| allowed_KeyUsage :
    ext_Id e = oidExtensionKeyUsage → key_usage_allowed (ext_Value e) → ext_allowed e
| allowed_ExtKeyUsage :
    ext_Id e = oidExtensionExtendedKeyUsage → eku_allowed (ext_Value e) → ext_allowed e.

(* ------------------------------------------------------------------ *)
(** ** Key usages *)

Lemma andnot_zero b m :
  Z.ldiff (u8 b) m = 0 ↔
  ∀ i, 0 ≤ i → Z.testbit (u8 b) i = true → Z.testbit m i = true.
Proof.
  split.
  - intros H i Hi Hb. assert (Z.testbit (Z.ldiff (u8 b) m) i = false) as Hz.
    { rewrite H. apply Z.bits_0. }
    rewrite Z.ldiff_spec, Hb in Hz by done. by destruct (Z.testbit m i).
  - intros H. apply Z.bits_inj'. intros i Hi. rewrite Z.ldiff_spec, Z.bits_0 by done.
    specialize (H i Hi). destruct (Z.testbit (u8 b) i); [|done]. by rewrite H.
Qed.

(** Clearing the two allowed usages of a byte clears the union of their bits. *)
Lemma byte_andnot2_zero b m1 m2 m :
  Z.lor (u8 m1) (u8 m2) = m →
  byte_andnot (byte_andnot b m1) m2 = x00 ↔
  ∀ i, 0 ≤ i → Z.testbit (u8 b) i = true → Z.testbit m i = true.
Proof.
  intros <-. rewrite <-andnot_zero.
  assert (∀ x y, u8 (byte_andnot x y) = Z.ldiff (u8 x) (u8 y)) as Hu.
  { intros x y. unfold byte_andnot. rewrite u8_byte_of_Z, Z.ldiff_land.
    change 256 with (2 ^ 8). rewrite <-Z.land_ones by lia.
    rewrite <-Z.land_assoc, (Z.land_comm (Z.lnot _)), Z.land_assoc, Z.land_ones by lia.
    rewrite (Z.mod_small (u8 x)) by auto with golang. done. }
  rewrite <-(Z.ldiff_ldiff_l (u8 b)), <-!Hu. split; [by intros ->|].
  intros Hz. by apply u8_inj.
Qed.

Lemma validateKeyUsageExtension_spec value :
  validateKeyUsageExtension value = None ↔ key_usage_allowed value.
Proof.
  unfold validateKeyUsageExtension, key_usage_allowed. split.
  - destruct value as [|b0 [|b1 [|b2 [|b3 [|? ?]]]]]; try done. cbn [length Nat.eqb negb].
    case_bool_decide as E; [|done]. intros _. injection E as E0 E1 E2 E3.
    pose proof (proj1 (byte_andnot2_zero b0 x03 x03 3 eq_refl) E0).
    pose proof (proj1 (byte_andnot2_zero b1 x02 x02 2 eq_refl) E1).
    pose proof (proj1 (byte_andnot2_zero b2 x07 x05 7 eq_refl) E2).
    pose proof (proj1 (byte_andnot2_zero b3 x80 x20 160 eq_refl) E3).
    by repeat (constructor; [assumption|]).
  - intros H. inversion H as [|b0 ? ? ? H0 H']; subst. inversion H' as [|b1 ? ? ? H1 H'']; subst.
    inversion H'' as [|b2 ? ? ? H2 H3']; subst. inversion H3' as [|b3 ? ? ? H3 Hn]; subst.
    inversion Hn; subst. cbn [length Nat.eqb negb].
    rewrite bool_decide_eq_true_2; [done|].
    change (foldl clear_usage [b0; b1; b2; b3] allowedKeyUsages) with
      [byte_andnot (byte_andnot b0 x03) x03; byte_andnot (byte_andnot b1 x02) x02;
       byte_andnot (byte_andnot b2 x07) x05; byte_andnot (byte_andnot b3 x80) x20].
    rewrite (proj2 (byte_andnot2_zero b0 x03 x03 3 eq_refl)),
      (proj2 (byte_andnot2_zero b1 x02 x02 2 eq_refl)),
      (proj2 (byte_andnot2_zero b2 x07 x05 7 eq_refl)),
      (proj2 (byte_andnot2_zero b3 x80 x20 160 eq_refl)) by done.
    done.
Qed.

(* ------------------------------------------------------------------ *)
(** ** Extended key usages *)

Lemma client_server_small u :
  u = oidExtKeyUsageClientAuth ∨ u = oidExtKeyUsageServerAuth → small_oid u.
Proof.
  intros [->| ->]; cbn; (split_and!; [lia|lia|repeat constructor; lia|lia]).
Qed.

Lemma forbidden_usages_nil (usages : list ObjectIdentifier) :
  Forall (λ e, e = None) (omap (λ usage,
    if negb (oid_Equal usage oidExtKeyUsageClientAuth) &&
       negb (oid_Equal usage oidExtKeyUsageServerAuth)
    then Some (Some (ForbiddenExtendedKeyUsage usage)) else None) usages) ↔
  Forall (λ u, u = oidExtKeyUsageClientAuth ∨ u = oidExtKeyUsageServerAuth) usages.
Proof.
  unfold oid_Equal. induction usages as [|u us IH]; [done|]. csimpl.
  rewrite Forall_cons, <-IH. clear IH.
  case_bool_decide; [naive_solver|]. case_bool_decide; [naive_solver|]. simpl.
  rewrite Forall_cons. naive_solver.
Qed.

Lemma validateExtendedKeyUsageExtension_spec `{AggregatorSpec ext_error} e :
  validateExtendedKeyUsageExtension e = None ↔
  ext_Id e = oidExtensionExtendedKeyUsage ∧ eku_allowed (ext_Value e).
Proof.
  unfold validateExtendedKeyUsageExtension, eku_allowed. unfold oid_Equal at 1.
  case_bool_decide as Hid; [|naive_solver]. cbn [negb].
  assert (∀ us, Forall (λ u, u = oidExtKeyUsageClientAuth ∨ u = oidExtKeyUsageServerAuth) us →
                Forall small_oid us) as Hsmall.
  { intros us Hu. eapply Forall_impl; [exact Hu|]. apply client_server_small. }
  split.
  - destruct (Unmarshal_OIDs (ext_Value e)) as [[us rest]|] eqn:E; [|done].
    rewrite NewAggregate_nil, forbidden_usages_nil. intros Hus. split; [done|].
    exists us, rest. apply Unmarshal_OIDs_spec in E as [-> ?]; auto.
  - intros [_ (us & rest & Hus & Hl & Hv)].
    rewrite (proj2 (Unmarshal_OIDs_spec _ us rest (Hsmall us Hus))) by done.
    by rewrite NewAggregate_nil, forbidden_usages_nil.
Qed.

(* ------------------------------------------------------------------ *)
(** ** Subject alternative names *)

Lemma uri_entries_cons b bs names :
  Forall uri_entry names → b :: bs = concat (rv_FullBytes <$> names) →
  ∃ rv names', names = rv :: names' ∧
    Unmarshal_RawValue (b :: bs) = Ok (rv, concat (rv_FullBytes <$> names')).
Proof.
  intros Hn Hb. destruct Hn as [|rv names' [Hwf Ht] _]; [done|].
  exists rv, names'. split; [done|]. apply Unmarshal_RawValue_spec; [|by rewrite Hb].
  rewrite Ht. by vm_compute.
Qed.

(** The loop accepts exactly the concatenations of tag-6 values. *)
Lemma san_entries_spec bs :
  san_entries bs = None ↔
  ∃ names, Forall uri_entry names ∧ bs = concat (rv_FullBytes <$> names).
Proof.
  funelim (san_entries bs); clear Heqcall.
  - split; [|done]. intros _. by exists [].
  - destruct (Z.eqb_spec (rv_Tag rawValue) asn1TagURI) as [Ht|Ht]; cbn [negb].
    + rewrite H0. split.
      * intros (names & Hn & ->).
        assert (rv_Tag rawValue < 31) as Hlow by (rewrite Ht; by vm_compute).
        destruct (proj1 (Unmarshal_RawValue_spec _ _ _ Hlow) H) as [Hwf Hbs].
        exists (rawValue :: names). split; [by constructor|done].
      * intros (names & Hn & Hb).
        destruct (uri_entries_cons _ _ _ Hn Hb) as (rv & names' & -> & Hu).
        rewrite H in Hu. injection Hu as -> ->. inversion Hn; subst. eauto.
    + split; [done|]. intros (names & Hn & Hb).
      destruct (uri_entries_cons _ _ _ Hn Hb) as (rv & names' & -> & Hu).
      rewrite H in Hu. injection Hu as -> ->. inversion Hn as [|? ? [? ?]]; subst. done.
  - split; [done|]. intros (names & Hn & Hb).
    destruct (uri_entries_cons _ _ _ Hn Hb) as (rv & names' & -> & Hu).
    congruence.
Qed.

Lemma validateSubjectAltNameExtension_spec e :
  validateSubjectAltNameExtension e = None ↔
  ext_Id e = oidExtensionSubjectAltName ∧ san_allowed (ext_Value e).
Proof.
  unfold validateSubjectAltNameExtension, san_allowed, oid_Equal.
  case_bool_decide as Hid; [|naive_solver]. cbn [negb]. split.
  - destruct (Unmarshal_RawValue (ext_Value e)) as [[sq rest]|] eqn:E; [|done].
    destruct rest; [|done]. cbn [length Nat.eqb negb].
    case_match eqn:Hg; [done|]. apply orb_false_iff in Hg as [[Hc Ht]%orb_false_iff Hk].
    apply negb_false_iff in Hc, Ht, Hk. apply Z.eqb_eq in Ht, Hk.
    intros (names & Hn & Hb)%san_entries_spec. split; [done|].
    apply Unmarshal_RawValue_spec in E as [(_ & _ & Hl & Hf) ->];
      [|rewrite Ht; by vm_compute].
    exists names. rewrite <-Hb. split_and!; [done|done|].
    by rewrite app_nil_r, Hf, Hc, Ht, Hk.
  - intros [_ (names & Hn & Hl & Hv)].
    set (body := concat (rv_FullBytes <$> names)) in *.
    set (sq := {| rv_Class := ClassUniversal; rv_Tag := TagSequence; rv_IsCompound := true;
                  rv_Bytes := body; rv_FullBytes := ext_Value e |}).
    assert (Unmarshal_RawValue (ext_Value e) = Ok (sq, [])) as ->.
    { apply Unmarshal_RawValue_spec; [by vm_compute|]. cbn. rewrite app_nil_r.
      split; [|done]. unfold wf_raw; cbn. unfold ClassUniversal, TagSequence.
      split_and!; [lia|lia|lia|lia|done|done]. }
    cbn. apply san_entries_spec. by exists names.
Qed.

(* ------------------------------------------------------------------ *)
(** ** The whole request *)

Lemma validate_extension_spec `{AggregatorSpec ext_error} e :
  validate_extension e = None ↔ ext_allowed e.
Proof.
  unfold validate_extension. unfold oid_Equal at 1 2 3. split.
  - case_bool_decide as H1.
    { intros [? ?]%validateSubjectAltNameExtension_spec. by constructor 1. }
    case_bool_decide as H2.
    { intros Hk%validateKeyUsageExtension_spec. by constructor 2. }
    case_bool_decide as H3; [|done].
    intros [? ?]%validateExtendedKeyUsageExtension_spec. by constructor 3.
  - intros [Hid Hv|Hid Hv|Hid Hv].
    + rewrite bool_decide_eq_true_2 by done. by apply validateSubjectAltNameExtension_spec.
    + rewrite Hid. rewrite (bool_decide_eq_false_2 (_ = oidExtensionSubjectAltName)) by done.
      rewrite bool_decide_eq_true_2 by done. by apply validateKeyUsageExtension_spec.
    + rewrite (bool_decide_eq_false_2 (_ = oidExtensionSubjectAltName)) by (by rewrite Hid).
      rewrite (bool_decide_eq_false_2 (_ = oidExtensionKeyUsage)) by (by rewrite Hid).
      rewrite bool_decide_eq_true_2 by done. by apply validateExtendedKeyUsageExtension_spec.
Qed.

Lemma ValidateCSRExtentions_spec `{AggregatorSpec ext_error} extra exts :
  ValidateCSRExtentions extra exts = None ↔ extra = [] ∧ Forall ext_allowed exts.
Proof.
  unfold ValidateCSRExtentions. rewrite NewAggregate_nil, Forall_app, Forall_fmap.
  assert (Forall ((λ e, e = None) ∘ validate_extension) exts ↔ Forall ext_allowed exts) as ->.
  { rewrite !Forall_forall. unfold compose. setoid_rewrite validate_extension_spec. done. }
  destruct extra as [|x extra]; cbn.
  - split; intros [? ?]; split; [done..|constructor|done].
  - split; [|naive_solver]. intros [Hf _]. by inversion Hf.
Qed.

(* ------------------------------------------------------------------ *)
(** ** Theorems *)

(** C6: [ValidateCSRExtentions] accepts a signing request exactly when it has no
    extra extensions and each of its extensions is one of three kinds: a subject
    alternative name that is the DER encoding of a sequence of tag-6 names and
    nothing else, a key usage within digitalSignature and keyEncipherment, or an
    extended key usage that is a DER sequence of clientAuth and serverAuth. *)
Theorem csr_extensions_policy `{AggregatorSpec ext_error} extra exts :
  ValidateCSRExtentions extra exts = None ↔ extra = [] ∧ Forall ext_allowed exts.
Proof. apply ValidateCSRExtentions_spec. Qed.

(** A key usage of one octet of flags (bit string tag, length 2, number of
    unused bits, flags) is accepted exactly when no flag but digitalSignature
    (bit 7) and keyEncipherment (bit 5) is set; longer encodings, which are
    needed for decipherOnly, are refused. *)
Theorem key_usage_flags (value : list byte) :
  (∀ unused flags, value = [x03; x02; unused; flags] → u8 unused < 8 →
    validateKeyUsageExtension value = None ↔
    ∀ i, 0 ≤ i < 8 → Z.testbit (u8 flags) i = true → i = 7 ∨ i = 5) ∧
  (length value ≠ 4%nat → validateKeyUsageExtension value = Some (ForbiddenKeyUsage value)).
Proof.
  split.
  - intros unused flags -> Hu. rewrite validateKeyUsageExtension_spec. unfold key_usage_allowed.
    assert (∀ b i, 0 ≤ i → Z.testbit (u8 b) i = true → i < 8) as Hhigh.
    { intros b i Hi Hb. destruct (decide (i < 8)) as [|Hge]; [done|].
      rewrite Z.testbit_eqb, Z.div_small in Hb by (try lia; pose proof (u8_range b);
        pose proof (Z.pow_le_mono_r 2 8 i); lia). done. }
    assert (∀ i, 0 ≤ i < 8 → Z.testbit 160 i = true ↔ i = 7 ∨ i = 5) as Hmask.
    { intros i Hi. assert (i ∈ [0; 1; 2; 3; 4; 5; 6; 7]) as Hin
        by (rewrite !elem_of_cons; lia).
      repeat (apply elem_of_cons in Hin as [->|Hin]; [cbn; naive_solver lia|]).
      by apply elem_of_nil in Hin. }
    split.
    + intros Hf i Hi Hb. inversion Hf as [|? ? ? ? _ Hf1]; subst.
      inversion Hf1 as [|? ? ? ? _ Hf2]; subst. inversion Hf2 as [|? ? ? ? _ Hf3]; subst.
      inversion Hf3 as [|? ? ? ? H3 _]; subst. apply Hmask, H3; [done|lia|done].
    + intros Hf. repeat constructor; try done.
      * intros i Hi Hb. pose proof (u8_range unused).
        assert (u8 unused = u8 unused mod 2 ^ 3) as Hm by (rewrite Z.mod_small; lia).
        rewrite Hm, <-Z.land_ones, Z.land_spec in Hb by lia.
        apply andb_prop in Hb as [_ Hb]. done.
      * intros i Hi Hb. pose proof (Hhigh _ _ Hi Hb). apply Hmask; [lia|]. apply Hf; [lia|done].
  - intros Hl. unfold validateKeyUsageExtension.
    by rewrite (proj2 (Nat.eqb_neq _ _) Hl).
Qed.

(** The test of the names of a subject alternative name looks at the tag
    number only: a sequence of one value with tag 6 is accepted whatever its
    class is, for instance an OBJECT IDENTIFIER (universal class, tag 6), which
    is no general name and in particular no URI (context-specific class). *)
Theorem san_class_not_checked class compound contents critical :
  0 ≤ class < 4 → Z.of_nat (length contents) < 2 ^ 31 →
  Z.of_nat (length (encode_tlv class compound asn1TagURI contents)) < 2 ^ 31 →
  validateSubjectAltNameExtension
    {| ext_Id := oidExtensionSubjectAltName; ext_Critical := critical;
       ext_Value := encode_tlv ClassUniversal true TagSequence
                      (encode_tlv class compound asn1TagURI contents) |} = None.
Proof.
  intros Hc Hl Hl'. apply validateSubjectAltNameExtension_spec. split; [done|].
  exists [ {| rv_Class := class; rv_Tag := asn1TagURI; rv_IsCompound := compound;
              rv_Bytes := contents;
              rv_FullBytes := encode_tlv class compound asn1TagURI contents |} ].
  cbn [fmap list_fmap concat rv_FullBytes ext_Value]. rewrite app_nil_r.
  split_and!; [|done|done]. repeat constructor; cbn; done || lia.
Qed.

(* ------------------------------------------------------------------ *)
(** ** Instances *)

(** An aggregation as the interface asks for. *)
Definition example_aggregate : Aggregator ext_error := λ el,
  match omap id el with [] => None | errs => Some (Aggregate errs) end.

Lemma example_aggregate_spec : @AggregatorSpec ext_error example_aggregate.
Proof.
  intros el. unfold NewAggregate, example_aggregate.
  induction el as [|[e|] el IH]; csimpl; [done| |].
  - split; [done|]. intros Hf. by inversion Hf.
  - rewrite Forall_cons, <-IH. tauto.
Qed.

(** The extensions of a workload's request: its SPIFFE URI, the digital
    signature usage, and client and server authentication. *)
Definition example_extensions : list Extension :=
  [ {| ext_Id := oidExtensionSubjectAltName; ext_Critical := true;
       ext_Value := encode_tlv ClassUniversal true TagSequence
                      (encode_tlv 2 false asn1TagURI
                         [x73; x70; x69; x66; x66; x65; x3a; x2f; x2f; x74; x64]) |};
    {| ext_Id := oidExtensionKeyUsage; ext_Critical := true;
       ext_Value := [x03; x02; x07; x80] |};
    {| ext_Id := oidExtensionExtendedKeyUsage; ext_Critical := false;
       ext_Value := encode_tlv ClassUniversal true TagSequence
                      (concat (encode_oid_tlv <$>
                                 [oidExtKeyUsageClientAuth; oidExtKeyUsageServerAuth])) |} ].

(** The extensions of an ordinary workload request satisfy the policy. *)
Lemma csr_extensions_policy_witness :
  [] = @nil Extension ∧ Forall ext_allowed example_extensions.
Proof.
  apply (@csr_extensions_policy example_aggregate example_aggregate_spec []).
  vm_compute. reflexivity.
Defined.

(** The object identifier 1.3 as a subject alternative name. *)
Example san_class_not_checked_example :
  validateSubjectAltNameExtension
    {| ext_Id := oidExtensionSubjectAltName; ext_Critical := false;
       ext_Value := [x30; x03; x06; x01; x2b] |} = None.
Proof. apply (san_class_not_checked ClassUniversal false [x2b] false); vm_compute; done. Qed.
