(* ===== verification/NodeAuth.v ===== *)
(** * Node authorisation

    [pkg/server/node_auth.go]: a node proxy may ask for a certificate in the
    name of a workload, if a pod with that workload's service account runs on
    the proxy's own node.  The pod informer and its index are a third-party
    client, [KClient]; the index function is the program's. *)

From S2P Require Import Prelude.

(* ------------------------------------------------------------------ *)
(** ** Data *)

(** [types.NamespacedName]. *)
Record NamespacedName := { nn_Namespace : string; nn_Name : string }.

#[export] Instance NamespacedName_eq_dec : EqDecision NamespacedName.
Proof. solve_decision. Defined.
#[export] Program Instance NamespacedName_countable : Countable NamespacedName :=
  inj_countable' (λ n, (nn_Namespace n, nn_Name n))
                 (λ p, {| nn_Namespace := p.1; nn_Name := p.2 |}) _.
Next Obligation. by intros []. Qed.

(** The fields of [v1.Pod] the authorizer reads. *)
Record Pod := {
  pod_Name : string;
  pod_Namespace : string;
  pod_UID : string;
  pod_NodeName : string;
  pod_ServiceAccountName : string;
}.

(** [ca.SaNode], the key of the index. *)
Record SaNode := { sn_ServiceAccount : NamespacedName; sn_Node : string }.

#[export] Instance SaNode_eq_dec : EqDecision SaNode.
Proof. solve_decision. Defined.

(** [security.KubernetesInfo]: what authentication found out about the caller. *)
Record KubernetesInfo := {
  ki_PodName : string;
  ki_PodNamespace : string;
  ki_PodUID : string;
  ki_PodServiceAccount : string;
}.

(** [spiffe.Identity]. *)
Record Identity := {
  id_TrustDomain : string;
  id_Namespace : string;
  id_ServiceAccount : string;
}.

Inductive impersonation_error (PE : Type) :=
| CallerNotAllowed (caller : KubernetesInfo)
| IdentityParse (e : PE)
| PodNotFound (namespace name : string)
| PodUIDMismatch (pod caller : string)
| PodServiceAccountMismatch (pod caller : string)
| NoInstances (k : SaNode).
Arguments CallerNotAllowed {PE} _.
Arguments IdentityParse {PE} _.
Arguments PodNotFound {PE} _ _.
Arguments PodUIDMismatch {PE} _ _.
Arguments PodServiceAccountMismatch {PE} _ _.
Arguments NoInstances {PE} _.

(* ------------------------------------------------------------------ *)
(** ** The pod client *)

(** Istio's [kclient.Client] over pods: the pods in the informer's cache, a
    lookup by name, and indexes made from an index function. *)
Record KClient := {
  kc_List : list Pod;
  kc_Get : string → string → option Pod;
  kc_CreateIndex : (Pod → list SaNode) → SaNode → list Pod;
}.

(** What that client documents: [Get] returns the cached object of that name
    and namespace, and an index lookup returns the cached objects whose index
    function yields the key. *)
Class KClientSpec (c : KClient) : Prop := {
  kc_Get_spec name ns p :
    kc_Get c name ns = Some p →
    p ∈ kc_List c ∧ pod_Name p = name ∧ pod_Namespace p = ns;
  kc_CreateIndex_spec f k p :
    p ∈ kc_CreateIndex c f k ↔ p ∈ kc_List c ∧ k ∈ f p;
}.

(* ------------------------------------------------------------------ *)
(** ** The authorizer *)

Record ClusterNodeAuthorizer := {
  trustedNodeAccounts : gset NamespacedName;
  pods : KClient;
  nodeIndex : SaNode → list Pod;
}.

(** The index function: the service account and node of a scheduled pod. *)
Definition podSANode (pod : Pod) : list SaNode :=
  if decide (pod_NodeName pod = "") then []
  else if decide (pod_ServiceAccountName pod = "") then []
  else [ {| sn_ServiceAccount :=
              {| nn_Namespace := pod_Namespace pod; nn_Name := pod_ServiceAccountName pod |};
            sn_Node := pod_NodeName pod |} ].

Definition NewClusterNodeAuthorizer (client : KClient) (trusted : gset NamespacedName)
    : ClusterNodeAuthorizer :=
  {| pods := client;
     nodeIndex := kc_CreateIndex client podSANode;
     trustedNodeAccounts := trusted |}.

Section authenticate.
Context {PE : Type} (ParseIdentity : string → result PE Identity).

Definition authenticateImpersonation (na : ClusterNodeAuthorizer)
    (caller : KubernetesInfo) (requestedIdentityString : string)
    : option (impersonation_error PE) :=
  let callerSa := {| nn_Namespace := ki_PodNamespace caller;
                     nn_Name := ki_PodServiceAccount caller |} in
  if decide (callerSa ∉ trustedNodeAccounts na) then Some (CallerNotAllowed caller)
  else
  match ParseIdentity requestedIdentityString with
  | Err err => Some (IdentityParse err)
  | Ok requestedIdentity =>
      match kc_Get (pods na) (ki_PodName caller) (ki_PodNamespace caller) with
      | None => Some (PodNotFound (ki_PodNamespace caller) (ki_PodName caller))
      | Some callerPod =>
          if decide (pod_UID callerPod ≠ ki_PodUID caller)
          then Some (PodUIDMismatch (pod_UID callerPod) (ki_PodUID caller))
          else if decide (pod_ServiceAccountName callerPod ≠ ki_PodServiceAccount caller)
          then Some (PodServiceAccountMismatch (pod_ServiceAccountName callerPod)
                       (ki_PodServiceAccount caller))
          else
            let k := {| sn_ServiceAccount :=
                          {| nn_Name := id_ServiceAccount requestedIdentity;
                             nn_Namespace := id_Namespace requestedIdentity |};
                        sn_Node := pod_NodeName callerPod |} in
            let res := nodeIndex na k in
            if (length res =? 0)%nat then Some (NoInstances k) else None
      end
  end.

(** ** The policy *)

(** Pod [p] is scheduled on node [node] under service account [sa] of [ns]. *)
Definition runs_on (c : KClient) (p : Pod) (node ns sa : string) : Prop :=
  p ∈ kc_List c ∧ pod_NodeName p = node ∧ node ≠ "" ∧
  pod_Namespace p = ns ∧ pod_ServiceAccountName p = sa ∧ sa ≠ "".

(** [caller] is a trusted node proxy, its pod is the one in the cache, and a
    pod of the requested identity's service account runs on the same node. *)
Definition may_impersonate (c : KClient) (trusted : gset NamespacedName)
    (caller : KubernetesInfo) (requested : string) : Prop :=
  {| nn_Namespace := ki_PodNamespace caller; nn_Name := ki_PodServiceAccount caller |} ∈ trusted ∧
  ∃ ident callerPod p,
    ParseIdentity requested = Ok ident ∧
    kc_Get c (ki_PodName caller) (ki_PodNamespace caller) = Some callerPod ∧
    pod_UID callerPod = ki_PodUID caller ∧
    pod_ServiceAccountName callerPod = ki_PodServiceAccount caller ∧
    runs_on c p (pod_NodeName callerPod) (id_Namespace ident) (id_ServiceAccount ident).

Lemma elem_of_podSANode k p :
  k ∈ podSANode p ↔
  pod_NodeName p ≠ "" ∧ pod_ServiceAccountName p ≠ "" ∧
  k = {| sn_ServiceAccount :=
           {| nn_Namespace := pod_Namespace p; nn_Name := pod_ServiceAccountName p |};
         sn_Node := pod_NodeName p |}.
Proof. unfold podSANode. repeat case_decide; set_solver. Qed.

(** An index lookup is non-empty exactly when such a pod runs on the node. *)
Lemma nodeIndex_nonempty `{!KClientSpec c} trusted ns sa node :
  nodeIndex (NewClusterNodeAuthorizer c trusted)
    {| sn_ServiceAccount := {| nn_Name := sa; nn_Namespace := ns |}; sn_Node := node |} ≠ []
  ↔ ∃ p, runs_on c p node ns sa.
Proof.
  cbn [nodeIndex NewClusterNodeAuthorizer]. unfold runs_on.
  set (k := {| sn_ServiceAccount := _; sn_Node := _ |}). split.
  - intros Hne. destruct (kc_CreateIndex c podSANode k) as [|p l] eqn:E; [done|].
    assert (p ∈ kc_CreateIndex c podSANode k) as [Hp Hk]%kc_CreateIndex_spec
      by (rewrite E; set_solver).
    apply elem_of_podSANode in Hk as (Hn & Hsa & [= -> -> ->]). eauto 10.
  - intros (p & Hp & Hnode & Hne & Hns & Hsa & Hsane) E.
    assert (p ∈ kc_CreateIndex c podSANode k) as Hin.
    { apply kc_CreateIndex_spec. split; [done|]. apply elem_of_podSANode.
      by subst k node ns sa. }
    rewrite E in Hin. set_solver.
Qed.

Lemma authenticateImpersonation_spec `{!KClientSpec c} trusted caller requested :
  authenticateImpersonation (NewClusterNodeAuthorizer c trusted) caller requested = None ↔
  may_impersonate c trusted caller requested.
Proof.
  unfold authenticateImpersonation, may_impersonate.
  cbn [trustedNodeAccounts pods NewClusterNodeAuthorizer].
  case_decide as Ht; [naive_solver|].
  destruct (ParseIdentity requested) as [ident|]; [|naive_solver].
  destruct (kc_Get c _ _) as [callerPod|]; [|naive_solver].
  case_decide as Hu; [naive_solver|].
  case_decide as Hs; [naive_solver|].
  pose proof (nodeIndex_nonempty trusted (id_Namespace ident) (id_ServiceAccount ident)
                (pod_NodeName callerPod)) as Hidx.
  change (kc_CreateIndex c podSANode) with (nodeIndex (NewClusterNodeAuthorizer c trusted)).
  destruct (nodeIndex (NewClusterNodeAuthorizer c trusted) _) as [|p l]; cbn.
  - split; [done|]. intros (_ & ident' & pod' & p & [= <-] & [= <-] & _ & _ & Hr).
    exfalso. by apply Hidx; eauto.
  - split; [|done]. intros _. split; [done|].
    destruct (proj1 Hidx) as [p' Hr]; [done|]. exists ident, callerPod, p'. auto.
Qed.

(* ------------------------------------------------------------------ *)
(** ** Theorems *)

(** C7: a caller may impersonate an identity exactly when its own service
    account is trusted for it, the pod it claims to be is in the cache with that
    UID and that service account, and some pod of the requested namespace and
    service account is scheduled on the node of the caller's pod. *)
Theorem impersonation_policy `{!KClientSpec c} trusted caller requested :
  authenticateImpersonation (NewClusterNodeAuthorizer c trusted) caller requested = None ↔
  may_impersonate c trusted caller requested.
Proof. apply authenticateImpersonation_spec. Qed.

(** A caller whose pod has no node yet, because it is not scheduled, and a
    request for an identity without a service account, are always refused. *)
Theorem impersonation_needs_a_node `{!KClientSpec c} trusted caller requested :
  authenticateImpersonation (NewClusterNodeAuthorizer c trusted) caller requested = None →
  ∃ pod ident,
    kc_Get c (ki_PodName caller) (ki_PodNamespace caller) = Some pod ∧ pod_NodeName pod ≠ "" ∧
    ParseIdentity requested = Ok ident ∧ id_ServiceAccount ident ≠ "".
Proof.
  intros (_ & ident & pod & p & Hi & Hg & _ & _ & _ & _ & Hn & _ & _ & Hsa)%authenticateImpersonation_spec.
  eauto 10.
Qed.

End authenticate.

(* ------------------------------------------------------------------ *)
(** ** Instances *)

(** A pod client over a list of pods. *)
Definition list_client (l : list Pod) : KClient :=
  {| kc_List := l;
     kc_Get := λ name ns,
       snd <$> list_find (λ p, pod_Name p = name ∧ pod_Namespace p = ns) l;
     kc_CreateIndex := λ f k, filter (λ p, k ∈ f p) l |}.

#[export] Instance list_client_spec l : KClientSpec (list_client l).
Proof.
  split; cbn.
  - intros name ns p Hf. destruct (list_find _ l) as [[i p']|] eqn:E; [|done].
    cbn in Hf. injection Hf as ->.
    apply list_find_Some in E as (Hl & [? ?] & _).
    split_and!; [|done|done]. by apply list_elem_of_lookup_2 in Hl.
  - intros f k p. rewrite list_elem_of_filter. tauto.
Qed.

(** A node proxy and a workload on one node, and a parser for one identity. *)
Definition example_ztunnel : Pod :=
  {| pod_Name := "ztunnel-x"; pod_Namespace := "istio-system"; pod_UID := "uid-1";
     pod_NodeName := "node-a"; pod_ServiceAccountName := "ztunnel" |}.
Definition example_workload : Pod :=
  {| pod_Name := "web-0"; pod_Namespace := "shop"; pod_UID := "uid-2";
     pod_NodeName := "node-a"; pod_ServiceAccountName := "web" |}.
Definition example_client : KClient := list_client [example_ztunnel; example_workload].
Definition example_trusted : gset NamespacedName :=
  {[ {| nn_Namespace := "istio-system"; nn_Name := "ztunnel" |} ]}.
Definition example_info : KubernetesInfo :=
  {| ki_PodName := "ztunnel-x"; ki_PodNamespace := "istio-system"; ki_PodUID := "uid-1";
     ki_PodServiceAccount := "ztunnel" |}.
Definition example_identity : string := "spiffe://td/ns/shop/sa/web".
Definition example_ParseIdentity (s : string) : result unit Identity :=
  if decide (s = example_identity)
  then Ok {| id_TrustDomain := "td"; id_Namespace := "shop"; id_ServiceAccount := "web" |}
  else Err tt.

(** The proxy may act for the workload on its node. *)
Lemma impersonation_policy_witness :
  may_impersonate example_ParseIdentity example_client example_trusted example_info
    example_identity.
Proof.
  apply (@impersonation_policy unit example_ParseIdentity example_client (list_client_spec _)).
  vm_compute. reflexivity.
Defined.
