(* ===== verification/Auth.v ===== *)
(** * Request authentication

    [pkg/server/auth.go]: [authRequest] decides whether a certificate request
    is served, and for which identities; [identitiesMatch] compares the
    caller's identities with the URIs of the signing request.

    The authenticators, the PEM/X.509 decoder with its signature check, and the
    SPIFFE parser are code outside the repository and arguments of the model. *)

From S2P Require Import Prelude GoStrings Asn1 Extensions NodeAuth.

(* ------------------------------------------------------------------ *)
(** ** Data *)

(** Go's [String()] method. *)
Class Stringer (A : Type) := ToString : A → string.
#[global] Hint Mode Stringer ! : typeclass_instances.

(** [security.Caller]. *)
Record Caller := {
  Identities : list string;
  CallerKubernetesInfo : KubernetesInfo;
}.

(** A [structpb.Value] of the request's metadata. *)
Inductive pb_value :=
| NullValue
| NumberValue (n : Z)
| StringValue (s : string)
| BoolValue (b : bool)
| CompositeValue.

(** [v.GetStringValue()], on a nil value too. *)
Definition GetStringValue (v : option pb_value) : string :=
  match v with Some (StringValue s) => s | _ => "" end.

(** [securityapi.IstioCertificateRequest]. *)
Record IstioCertificateRequest := {
  icr_Csr : string;
  icr_ValidityDuration : Z;
  icr_Metadata : option (gmap string pb_value);
}.

(** [icr.GetMetadata().GetFields()]; a nil message has no fields. *)
Definition GetFields (icr : IstioCertificateRequest) : gmap string pb_value :=
  default ∅ (icr_Metadata icr).

(** The fields of [x509.CertificateRequest] the server reads. *)
Record CertificateRequest (URL : Type) := {
  csr_CommonName : string;
  csr_DNSNames : list string;
  csr_EmailAddresses : list string;
  csr_IPAddresses : list (list byte);
  csr_URIs : list URL;
  csr_Extensions : list Extension;
  csr_ExtraExtensions : list Extension;
}.
Arguments csr_CommonName {URL} _.
Arguments csr_DNSNames {URL} _.
Arguments csr_EmailAddresses {URL} _.
Arguments csr_IPAddresses {URL} _.
Arguments csr_URIs {URL} _.
Arguments csr_Extensions {URL} _.
Arguments csr_ExtraExtensions {URL} _.

(* ------------------------------------------------------------------ *)
(** ** identitiesMatch *)

Section identities.
Context {URL : Type} `{Stringer URL}.

(** The loop [for i, v := range aa] over two slices of one length. *)
Fixpoint all_equal (aa : list string) (bb : list URL) : bool :=
  match aa, bb with
  | v :: aa', u :: bb' =>
      if negb (bool_decide (ToString u = v)) then false else all_equal aa' bb'
  | _, _ => true
  end.

Definition identitiesMatch (a : list string) (b : list URL) : bool :=
  if negb (length a =? length b)%nat then false
  else
    let aa := sort_Strings a in
    let bb := sort_by_key ToString b in
    all_equal aa bb.

Lemma all_equal_spec aa bb :
  length aa = length bb → all_equal aa bb = true ↔ aa = ToString <$> bb.
Proof.
  revert bb. induction aa as [|v aa IH]; intros [|u bb] Hl; try done.
  cbn [all_equal]. rewrite fmap_cons. case_bool_decide as Hu; cbn [negb].
  - rewrite IH by (simpl in Hl; lia). subst. naive_solver.
  - naive_solver.
Qed.

Lemma identitiesMatch_spec a b :
  identitiesMatch a b = true ↔ a ≡ₚ (ToString <$> b).
Proof.
  unfold identitiesMatch. destruct (Nat.eqb_spec (length a) (length b)) as [Hl|Hl]; cbn [negb].
  - rewrite all_equal_spec, sort_by_key_keys.
    + apply sort_Strings_eq_iff.
    + by rewrite sort_Strings_perm, sort_by_key_perm.
  - split; [done|]. intros Hp%Permutation_length. by rewrite length_fmap in Hp.
Qed.

(** The order of the identities and of the URIs does not matter. *)
#[export] Instance identitiesMatch_Proper :
  Proper ((≡ₚ) ==> (≡ₚ) ==> (=)) identitiesMatch.
Proof.
  intros a a' Ha b b' Hb. apply eq_true_iff_eq. rewrite !identitiesMatch_spec.
  by rewrite Ha, Hb.
Qed.
End identities.

(* ------------------------------------------------------------------ *)
(** ** authRequest *)

Section auth.
Context {Ctx AE PE CE SE URL : Type} `{Stringer URL} `{Aggregator ext_error}.

(** [security.Authenticator]: [Authenticate] returns a caller and an error. *)
Definition Authenticator := Ctx → option Caller * option AE.

(** Istio's name of the metadata field for impersonation. *)
Context (ImpersonatedIdentity : string).
Context (ParsePemEncodedCSR : string → result CE (CertificateRequest URL)).
Context (CheckSignature : CertificateRequest URL → option SE).
Context (ParseIdentity : string → result PE Identity).

(** The loop over the authenticators: [Some caller] when one of them returned
    without an error. *)
Fixpoint authenticate (authenticators : list Authenticator) (ctx : Ctx)
    : option (option Caller) :=
  match authenticators with
  | [] => None
  | a :: rest =>
      match a ctx with
      | (caller, None) => Some caller
      | (_, Some _) => authenticate rest ctx
      end
  end.

(** The tests on the decoded signing request, up to and including the match of
    its URIs with [wanted]. *)
Definition checkCSR (icr : IstioCertificateRequest) (wanted : list string) : bool :=
  match ParsePemEncodedCSR (icr_Csr icr) with
  | Err _ => false
  | Ok csr =>
      match CheckSignature csr with
      | Some _ => false
      | None =>
          if (0 <? length (csr_DNSNames csr))%nat || (0 <? length (csr_IPAddresses csr))%nat ||
             (0 <? String.length (csr_CommonName csr))%nat ||
             (0 <? length (csr_EmailAddresses csr))%nat
          then false
          else
            match ValidateCSRExtentions (csr_ExtraExtensions csr) (csr_Extensions csr) with
            | Some _ => false
            | None => identitiesMatch wanted (csr_URIs csr)
            end
      end
  end.

(** The value of the impersonation field, empty when there is none. *)
Definition impersonated (icr : IstioCertificateRequest) : string :=
  GetStringValue (GetFields icr !! ImpersonatedIdentity).

Definition authRequest (authenticators : list Authenticator)
    (nodeAuthorizer : option ClusterNodeAuthorizer)
    (ctx : Ctx) (icr : IstioCertificateRequest) : outcome (string * bool) :=
  match authenticate authenticators ctx with
  | None => Ret ("", false)
  | Some None => Panic                     (* caller.Identities of a nil caller *)
  | Some (Some caller) =>
      if (length (Identities caller) =? 0)%nat then Ret ("", false)
      else
        let impersonatedIdentity := impersonated icr in
        if decide (impersonatedIdentity ≠ "") then
          match nodeAuthorizer with
          | None => Ret ("", false)
          | Some na =>
              match authenticateImpersonation ParseIdentity na
                      (CallerKubernetesInfo caller) impersonatedIdentity with
              | Some _ => Ret ("", false)
              | None => Ret (impersonatedIdentity, checkCSR icr [impersonatedIdentity])
              end
          end
        else Ret (strings_Join (Identities caller) ",", checkCSR icr (Identities caller))
  end.

(* ------------------------------------------------------------------ *)
(** ** What a positive answer means *)

(** A signing request that decodes, is self-signed correctly, names nothing but
    URIs, carries only allowed extensions, and whose URIs are [wanted]. *)
Definition csr_for (csr : CertificateRequest URL) (wanted : list string) : Prop :=
  CheckSignature csr = None ∧
  csr_DNSNames csr = [] ∧ csr_IPAddresses csr = [] ∧ csr_CommonName csr = "" ∧
  csr_EmailAddresses csr = [] ∧
  csr_ExtraExtensions csr = [] ∧ Forall ext_allowed (csr_Extensions csr) ∧
  wanted ≡ₚ (ToString <$> csr_URIs csr).

Lemma checkCSR_spec `{!AggregatorSpec ext_error} icr wanted :
  checkCSR icr wanted = true ↔
  ∃ csr, ParsePemEncodedCSR (icr_Csr icr) = Ok csr ∧ csr_for csr wanted.
Proof.
  unfold checkCSR, csr_for. destruct (ParsePemEncodedCSR _) as [csr|]; [|naive_solver].
  destruct (CheckSignature csr) eqn:Hs; [naive_solver|].
  destruct (csr_DNSNames csr) eqn:H1, (csr_IPAddresses csr) eqn:H2,
    (csr_CommonName csr) eqn:H3, (csr_EmailAddresses csr) eqn:H4;
    cbn; try (split; [done|]; intros (? & [= <-] & ?); destruct_and!; congruence).
  destruct (ValidateCSRExtentions _ _) eqn:Hx.
  - split; [done|]. intros (csr' & [= <-] & _ & _ & _ & _ & _ & Hex & Hal & _).
    rewrite (proj2 (ValidateCSRExtentions_spec _ _)) in Hx by done. done.
  - apply ValidateCSRExtentions_spec in Hx as [He Ha]. rewrite identitiesMatch_spec.
    split; [|naive_solver]. intros Hm. exists csr. split_and!; done.
Qed.

(** The authenticators that were tried before the one that accepted. *)
Lemma authenticate_Some auths ctx caller :
  authenticate auths ctx = Some caller ↔
  ∃ before a after, auths = before ++ a :: after ∧
    Forall (λ a', is_Some (a' ctx).2) before ∧ a ctx = (caller, None).
Proof.
  induction auths as [|a auths IH]; cbn [authenticate].
  { split; [done|]. by intros ([|] & ? & ? & ? & _). }
  destruct (a ctx) as [c [e|]] eqn:Ea.
  - rewrite IH. split.
    + intros (before & a' & after & -> & Hb & Ha). exists (a :: before), a', after.
      split_and!; [done| |done]. constructor; [|done]. rewrite Ea. by eexists.
    + intros ([|a0 before] & a' & after & [= -> ->] & Hb & Ha); [congruence|].
      inversion Hb; subst. eauto 10.
  - split.
    + intros [= ->]. exists [], a, auths. done.
    + intros ([|a0 before] & a' & after & [= -> ->] & Hb & Ha); [congruence|].
      inversion Hb as [|? ? Hs]; subst. rewrite Ea in Hs. by destruct Hs.
Qed.

Lemma authenticate_None auths ctx :
  authenticate auths ctx = None ↔ Forall (λ a, is_Some (a ctx).2) auths.
Proof.
  induction auths as [|a auths IH]; cbn [authenticate]; [done|].
  rewrite Forall_cons, <-IH. destruct (a ctx) as [c [e|]]; cbn.
  - split; [|naive_solver]. intros ?. split; [by eexists|done].
  - split; [done|]. by intros [[? ?] _].
Qed.

(** A granted request: who the caller is, what was asked for, and why. *)
Inductive granted (auths : list Authenticator) (na : option ClusterNodeAuthorizer)
    (ctx : Ctx) (icr : IstioCertificateRequest) (ids : string) : Prop :=
| granted_self caller csr :
    authenticate auths ctx = Some (Some caller) → Identities caller ≠ [] →
    impersonated icr = "" →
    ParsePemEncodedCSR (icr_Csr icr) = Ok csr → csr_for csr (Identities caller) →
    ids = strings_Join (Identities caller) "," →
    granted auths na ctx icr ids
| granted_impersonation caller a csr :
    authenticate auths ctx = Some (Some caller) → Identities caller ≠ [] →
    impersonated icr ≠ "" → na = Some a →
    authenticateImpersonation ParseIdentity a (CallerKubernetesInfo caller)
      (impersonated icr) = None →
    ParsePemEncodedCSR (icr_Csr icr) = Ok csr → csr_for csr [impersonated icr] →
    ids = impersonated icr →
    granted auths na ctx icr ids.

Lemma authRequest_granted `{!AggregatorSpec ext_error} auths na ctx icr ids :
  authRequest auths na ctx icr = Ret (ids, true) ↔ granted auths na ctx icr ids.
Proof.
  unfold authRequest. split.
  - destruct (authenticate auths ctx) as [[caller|]|] eqn:Ha; [|done..].
    destruct (Identities caller) as [|i ids'] eqn:Hi; [done|]. cbn [length Nat.eqb].
    rewrite <-Hi. case_decide as Himp.
    + destruct na as [a|]; [|done].
      destruct (authenticateImpersonation _ _ _ _) eqn:Hna; [done|].
      intros [= <- (csr & Hp & Hc)%checkCSR_spec].
      eapply granted_impersonation; eauto. congruence.
    + intros [= <- (csr & Hp & Hc)%checkCSR_spec].
      eapply granted_self; eauto. congruence.
  - intros [caller csr Ha Hi Himp Hp Hc ->|caller a csr Ha Hi Himp -> Hna Hp Hc ->];
      rewrite Ha; (destruct (Identities caller) as [|i ids'] eqn:E; [done|]);
      cbn [length Nat.eqb]; rewrite <-E in *.
    + rewrite Himp. rewrite decide_False by (by intros ?). do 2 f_equal.
      apply checkCSR_spec. eauto.
    + rewrite decide_True by done. rewrite Hna. do 2 f_equal. apply checkCSR_spec. eauto.
Qed.

(** [authRequest] returns, provided no authenticator answers with neither a
    caller nor an error. *)
Lemma authRequest_no_panic auths na ctx icr :
  (∀ a, a ∈ auths → a ctx ≠ (None, None)) →
  ∃ ids ok, authRequest auths na ctx icr = Ret (ids, ok).
Proof.
  intros Hc. unfold authRequest.
  destruct (authenticate auths ctx) as [[caller|]|] eqn:Ha; [|exfalso|eauto].
  - repeat case_match; eauto.
  - apply authenticate_Some in Ha as (before & a & after & -> & _ & Ha).
    apply (Hc a); [set_solver|done].
Qed.

(* ------------------------------------------------------------------ *)
(** ** Theorems *)

(** The first authenticator that does not fail says the caller is [caller]. *)
Definition authenticated_as (auths : list Authenticator) (ctx : Ctx) (caller : Caller) : Prop :=
  ∃ before a after, auths = before ++ a :: after ∧
    Forall (λ a', is_Some (a' ctx).2) before ∧ a ctx = (Some caller, None).

(** The policy of the service, where [trusted] are the accounts trusted to
    impersonate, [None] if impersonation is off: a caller asks for its own
    identities, or a trusted node proxy asks for the identity of a workload on
    its node; either way the signing request is for exactly those identities. *)
Inductive may_request (auths : list Authenticator) (c : KClient)
    (trusted : option (gset NamespacedName)) (ctx : Ctx) (icr : IstioCertificateRequest)
    (ids : string) : Prop :=
| request_own caller csr :
    authenticated_as auths ctx caller → Identities caller ≠ [] →
    impersonated icr = "" →
    ParsePemEncodedCSR (icr_Csr icr) = Ok csr → csr_for csr (Identities caller) →
    ids = strings_Join (Identities caller) "," →
    may_request auths c trusted ctx icr ids
| request_impersonated caller accounts csr :
    authenticated_as auths ctx caller → Identities caller ≠ [] →
    ids ≠ "" → impersonated icr = ids → trusted = Some accounts →
    may_impersonate ParseIdentity c accounts (CallerKubernetesInfo caller) ids →
    ParsePemEncodedCSR (icr_Csr icr) = Ok csr → csr_for csr [ids] →
    may_request auths c trusted ctx icr ids.

(** C2: [authRequest] grants a request, and for which identities, exactly as the
    policy says: the caller is the one the first successful authenticator
    found, it has an identity, the signing request decodes, is correctly
    self-signed, names no DNS name, IP address, e-mail address or common name,
    carries only allowed extensions, and its URIs are, as a multiset, the
    caller's identities or the one impersonated identity, which the node
    authorizer allows. *)
Theorem authRequest_policy `{!AggregatorSpec ext_error} `{!KClientSpec c}
    auths trusted ctx icr ids :
  authRequest auths (NewClusterNodeAuthorizer c <$> trusted) ctx icr = Ret (ids, true) ↔
  may_request auths c trusted ctx icr ids.
Proof.
  rewrite authRequest_granted. split.
  - intros [caller csr Ha|caller a csr Ha ? ? Hna Hi ? ? ->];
      apply authenticate_Some in Ha.
    + by eapply request_own.
    + destruct trusted as [t|]; [|done]. injection Hna as <-.
      apply authenticateImpersonation_spec in Hi; [|done].
      by eapply request_impersonated.
  - intros [caller csr Ha|caller accounts csr Ha ? ? <- -> Hi];
      apply authenticate_Some in Ha.
    + by eapply granted_self.
    + eapply granted_impersonation; try done. by apply authenticateImpersonation_spec.
Qed.

(** [authRequest] always answers, if every authenticator returns a caller or
    an error; when all of them fail the answer is a refusal. *)
Theorem authRequest_answers auths na ctx icr :
  (∀ a, a ∈ auths → a ctx ≠ (None, None)) →
  (∃ ids ok, authRequest auths na ctx icr = Ret (ids, ok)) ∧
  (Forall (λ a, is_Some (a ctx).2) auths → authRequest auths na ctx icr = Ret ("", false)).
Proof.
  intros Hc. split; [by apply authRequest_no_panic|].
  intros Hf%authenticate_None. unfold authRequest. by rewrite Hf.
Qed.

End auth.

(** C17: [identitiesMatch], which sorts both sides and compares them element by
    element, decides equality of multisets: it holds exactly when the strings of
    the URLs are a permutation of the identities, duplicates counted. *)
Theorem identitiesMatch_permutation {URL} `{Stringer URL} (a : list string) (b : list URL) :
  identitiesMatch a b = true ↔ a ≡ₚ (ToString <$> b).
Proof. apply identitiesMatch_spec. Qed.

(* ------------------------------------------------------------------ *)
(** ** Instances *)

#[local] Instance example_Stringer : Stringer string := id.
#[local] Instance example_Aggregator : Aggregator ext_error := example_aggregate.

(** A node proxy's request for a workload's certificate. *)
Definition example_caller : Caller :=
  {| Identities := ["spiffe://td/ns/istio-system/sa/ztunnel"];
     CallerKubernetesInfo := example_info |}.
Definition example_auths : list (@Authenticator unit unit) :=
  [λ _, (None, Some tt); λ _, (Some example_caller, None)].
Definition example_csr : CertificateRequest string :=
  {| csr_CommonName := ""; csr_DNSNames := []; csr_EmailAddresses := [];
     csr_IPAddresses := []; csr_URIs := [example_identity];
     csr_Extensions := example_extensions; csr_ExtraExtensions := [] |}.
Definition example_decode (pem : string) : result unit (CertificateRequest string) :=
  if decide (pem = "CSR") then Ok example_csr else Err tt.
Definition example_signature (csr : CertificateRequest string) : option unit := None.
Definition example_field : string := "ImpersonatedIdentity".
Definition example_icr : IstioCertificateRequest :=
  {| icr_Csr := "CSR"; icr_ValidityDuration := 3600;
     icr_Metadata := Some {[ example_field := StringValue example_identity ]} |}.

Lemma authRequest_policy_witness :
  may_request example_field example_decode example_signature example_ParseIdentity
    example_auths example_client (Some example_trusted) tt example_icr example_identity.
Proof.
  apply (@authRequest_policy _ _ _ _ _ _ _ _ example_field example_decode example_signature
           example_ParseIdentity example_aggregate_spec example_client (list_client_spec _)).
  vm_compute. reflexivity.
Defined.
