(* ===== verification/Kube.v ===== *)
(** * Kubernetes and cert-manager objects

    The object types the program exchanges with the API server, restricted to
    the fields it reads or writes, and the events of a watch. *)

From S2P Require Import Prelude.

(** [watch.EventType]. *)
Inductive EventType :=
| Added
| Modified
| Deleted
| Bookmark
| ErrorEvent
| UnknownEvent (name : string).

#[export] Instance EventType_eq_dec : EqDecision EventType.
Proof. solve_decision. Defined.

(** [cmmeta.IssuerReference]. *)
Record IssuerReference := {
  issuer_Name : string;
  issuer_Kind : string;
  issuer_Group : string;
}.

#[export] Instance IssuerReference_eq_dec : EqDecision IssuerReference.
Proof. solve_decision. Defined.

(** Every field is set. *)
Definition issuer_complete (r : IssuerReference) : Prop :=
  issuer_Name r ≠ "" ∧ issuer_Kind r ≠ "" ∧ issuer_Group r ≠ "".

(** [cmapi.KeyUsage], the two values the program uses. *)
Inductive KeyUsage := UsageServerAuth | UsageClientAuth.

#[export] Instance KeyUsage_eq_dec : EqDecision KeyUsage.
Proof. solve_decision. Defined.

(** [cmapi.CertificateRequestCondition]. *)
Record Condition := {
  cond_Type : string;
  cond_Status : string;
  cond_Reason : string;
}.

(** [cmapi.CertificateRequest]; a [Duration] is in nanoseconds. *)
Record CertRequest := {
  cr_Namespace : string;
  cr_Name : string;
  cr_GenerateName : string;
  cr_Annotations : gmap string string;
  cr_Duration : Z;
  cr_IsCA : bool;
  cr_Request : string;
  cr_Usages : list KeyUsage;
  cr_IssuerRef : IssuerReference;
  cr_Conditions : list Condition;
  cr_Certificate : string;
  cr_CA : string;
}.

(** [corev1.ConfigMap]; a nil map is [None]. *)
Record ConfigMap := {
  cm_Namespace : string;
  cm_Name : string;
  cm_Labels : option (gmap string string);
  cm_Data : option (gmap string string);
}.

(** The dynamic type of a watch event's [runtime.Object]. *)
Inductive Object :=
| ObjCertificateRequest (cr : CertRequest)
| ObjConfigMap (cm : ConfigMap)
| ObjOther.

(** [watch.Event]. *)
Record Event := { ev_Type : EventType; ev_Object : Object }.

(** Reading a Go map, nil included: the value, or [None] when absent. *)
Definition map_get (m : option (gmap string string)) (k : string) : option string :=
  default ∅ m !! k.

(** Errors of the API, by what [apierrors.IsNotFound] says. *)
Inductive api_error (E : Type) := NotFound | OtherError (e : E).
Arguments NotFound {E}.
Arguments OtherError {E} _.

(** [ctrl.Request]. *)
Record Request := { req_Namespace : string; req_Name : string }.

#[export] Instance Request_eq_dec : EqDecision Request.
Proof. solve_decision. Defined.
#[export] Instance Request_countable : Countable Request.
Proof.
  apply (inj_countable' (λ r, (req_Namespace r, req_Name r))
           (λ '(ns, n), {| req_Namespace := ns; req_Name := n |})).
  by intros [].
Defined.

(** [ctrl.Result]; a duration is in nanoseconds. *)
Record CtrlResult := { RequeueAfter : Z }.
Definition noRequeue : CtrlResult := {| RequeueAfter := 0 |}.
