(* ===== verification/CertManager.v ===== *)
(** * Signing through cert-manager

    [pkg/certmanager/certmanager.go], first half: how the manager is built
    ([New]), and how a request is signed ([Sign] and
    [waitForCertificateRequest]).

    The API server is an argument: its answers are arbitrary functions of the
    calls made so far.  A Go call is a computation over the log of those calls
    and of the goroutines it started. *)

From S2P Require Import Prelude Kube.

(* ------------------------------------------------------------------ *)
(** ** Options and construction *)

Definition identityAnnotation : string := "istio.cert-manager.io/identities".

Record Options := {
  PreserveCertificateRequests : bool;
  OptNamespace : string;
  DefaultIssuerEnabled : bool;
  IssuerRef : IssuerReference;
  IssuanceConfigMapName : string;
  IssuanceConfigMapNamespace : string;
  AdditionalAnnotations : gmap string string;
}.

Definition HasRuntimeConfiguration (o : Options) : bool :=
  negb (bool_decide (IssuanceConfigMapName o = "")) &&
  negb (bool_decide (IssuanceConfigMapNamespace o = "")).

Inductive issuer_error :=
| errNoOriginalIssuer
| IssuerNameRequired
| IssuerKindRequired
| IssuerGroupRequired.

Definition handleOriginalIssuerRef (opts : Options) : result issuer_error IssuerReference :=
  if negb (DefaultIssuerEnabled opts) then Err errNoOriginalIssuer
  else
    let ref := IssuerRef opts in
    let no_name := bool_decide (issuer_Name ref = "") in
    let no_kind := bool_decide (issuer_Kind ref = "") in
    let no_group := bool_decide (issuer_Group ref = "") in
    if no_name && no_kind && no_group then Err errNoOriginalIssuer
    else if no_name then Err IssuerNameRequired
    else if no_kind then Err IssuerKindRequired
    else if no_group then Err IssuerGroupRequired
    else Ok ref.

(** The fields of [manager] that [New] sets and that never change, and the
    active issuer; subscriptions are in the file on notification. *)
Record manager := {
  opts : Options;
  activeIssuerRef : option IssuerReference;
  originalIssuerRef : option IssuerReference;
}.

Inductive new_error (E : Type) :=
| KubernetesClientError (e : E)
| CertManagerClientError (e : E)
| InvalidIssuerRef (e : issuer_error)
| RuntimeConfigurationRequired.
Arguments KubernetesClientError {E} _.
Arguments CertManagerClientError {E} _.
Arguments InvalidIssuerRef {E} _.
Arguments RuntimeConfigurationRequired {E}.

(** [New]; the two arguments are what building the clients returned. *)
Definition New {E} (k8sClient cmClient : result E unit) (o : Options)
    : result (new_error E) manager :=
  _ ← wrap_err KubernetesClientError k8sClient;
  _ ← wrap_err CertManagerClientError cmClient;
  match handleOriginalIssuerRef o with
  | Ok ref =>
      mret {| opts := o; activeIssuerRef := Some ref; originalIssuerRef := Some ref |}
  | Err errNoOriginalIssuer =>
      if negb (HasRuntimeConfiguration o) then Err RuntimeConfigurationRequired
      else mret {| opts := o; activeIssuerRef := None; originalIssuerRef := None |}
  | Err err => Err (InvalidIssuerRef err)
  end.

(* ------------------------------------------------------------------ *)
(** ** The API server *)

Inductive api_call :=
| CallCreate (cr : CertRequest)
| CallWatch (name : string)
| CallGet (name : string)
| CallDelete (name : string).

(** What a watch delivers: its events in order, and whether the channel is
    then closed or stays silent. *)
Record WatchStream := { ws_Events : list Event; ws_Closed : bool }.

(** The server's answers, given the calls it has seen. *)
Record CRServer (E : Type) := {
  srv_Create : list api_call → CertRequest → result E CertRequest;
  srv_Watch : list api_call → string → result E WatchStream;
  srv_Get : list api_call → string → result E CertRequest;
}.
Arguments srv_Create {E} _ _ _.
Arguments srv_Watch {E} _ _ _.
Arguments srv_Get {E} _ _ _.

(** The calls made so far, and the calls of the goroutines started so far. *)
Record world := { calls : list api_call; spawned : list api_call }.

Definition record_call (c : api_call) (w : world) : world :=
  {| calls := calls w ++ [c]; spawned := spawned w |}.

(** Call the server and note the call. *)
Definition ask {A} (c : api_call) (answer : list api_call → A) : go world A := λ w,
  (Ret (answer (calls w)), record_call c w).

(** [go func() { ... }()] around one call. *)
Definition spawn (c : api_call) : go world unit :=
  go_modify (λ w, {| calls := calls w; spawned := spawned w ++ [c] |}).

(* ------------------------------------------------------------------ *)
(** ** Waiting for a CertificateRequest *)

Inductive wait_error (E : Type) :=
| BuildWatcher (e : E)
| GetRequest (e : E)
| RequestDenied (conditions : list Condition)
| RequestFailed (conditions : list Condition)
| WatcherClosed
| RequestDeleted.
Arguments BuildWatcher {E} _.
Arguments GetRequest {E} _.
Arguments RequestDenied {E} _.
Arguments RequestFailed {E} _.
Arguments WatcherClosed {E}.
Arguments RequestDeleted {E}.

Inductive sign_error (E : Type) :=
| NoActiveIssuer
| CreateRequest (e : E)
| WaitRequest (namespace name : string) (e : wait_error E).
Arguments NoActiveIssuer {E}.
Arguments CreateRequest {E} _.
Arguments WaitRequest {E} _ _ _.

(** [Bundle]. *)
Record Bundle := { bundle_Certificate : string; bundle_CA : string }.

Section sign.
Context {E : Type}.

(** cert-manager's [apiutil.CertificateRequestIsDenied] and
    [apiutil.CertificateRequestHasCondition]. *)
Context (IsDenied : CertRequest → bool).
Context (HasCondition : CertRequest → Condition → bool).
Context (server : CRServer E).

(** The condition of a failed request: Ready, False, Failed. *)
Definition failedCondition : Condition :=
  {| cond_Type := "Ready"; cond_Status := "False"; cond_Reason := "Failed" |}.

(** The three tests at the head of the outer loop: a verdict on [cr], or none. *)
Definition verdict (cr : CertRequest) : option (result (wait_error E) CertRequest) :=
  if IsDenied cr then Some (Err (RequestDenied (cr_Conditions cr)))
  else if HasCondition cr failedCondition then Some (Err (RequestFailed (cr_Conditions cr)))
  else if (0 <? String.length (cr_Certificate cr))%nat then Some (Ok cr)
  else None.

(** The two nested loops, from the receive of the inner one on. *)
Fixpoint receive_loop (events : list Event) (closed : bool)
    : outcome (result (wait_error E) CertRequest) :=
  match events with
  | [] => if closed then Ret (Err WatcherClosed) else Blocked
  | w :: events' =>
      if decide (ev_Type w = Deleted) then Ret (Err RequestDeleted)
      else
        match ev_Object w with
        | ObjCertificateRequest cr =>
            match verdict cr with
            | Some r => Ret r
            | None => receive_loop events' closed
            end
        | _ => receive_loop events' closed
        end
  end.

Definition waitForCertificateRequest (cr : CertRequest)
    : go world (result (wait_error E) CertRequest) :=
  watcher ← ask (CallWatch (cr_Name cr)) (λ h, srv_Watch server h (cr_Name cr));
  match watcher with
  | Err err => mret (Err (BuildWatcher err))
  | Ok stream =>
      got ← ask (CallGet (cr_Name cr)) (λ h, srv_Get server h (cr_Name cr));
      match got with
      | Err err => mret (Err (GetRequest err))
      | Ok cr' =>
          match verdict cr' with
          | Some r => mret r
          | None => go_outcome (receive_loop (ws_Events stream) (ws_Closed stream))
          end
      end
  end.

(* ------------------------------------------------------------------ *)
(** ** Sign *)

(** The request [Sign] sends: [maps.Copy] lets the additional annotations
    replace the identity annotation. *)
Definition newCertificateRequest (m : manager) (ref : IssuerReference)
    (identities csrPEM : string) (duration : Z) (usages : list KeyUsage) : CertRequest :=
  {| cr_Namespace := "";
     cr_Name := "";
     cr_GenerateName := "istio-csr-";
     cr_Annotations := AdditionalAnnotations (opts m) ∪ {[ identityAnnotation := identities ]};
     cr_Duration := duration;
     cr_IsCA := false;
     cr_Request := csrPEM;
     cr_Usages := usages;
     cr_IssuerRef := ref;
     cr_Conditions := [];
     cr_Certificate := "";
     cr_CA := "" |}.

Definition Sign (m : manager) (identities csrPEM : string) (duration : Z)
    (usages : list KeyUsage) : go world (result (sign_error E) Bundle) :=
  match activeIssuerRef m with
  | None => mret (Err NoActiveIssuer)
  | Some ref =>
      let cr := newCertificateRequest m ref identities csrPEM duration usages in
      created ← ask (CallCreate cr) (λ h, srv_Create server h cr);
      match created with
      | Err err => mret (Err (CreateRequest err))
      | Ok cr =>
          signed ← waitForCertificateRequest cr;
          (* the deferred function runs on return *)
          _ ← (if PreserveCertificateRequests (opts m) then mret tt
               else spawn (CallDelete (cr_Name cr)));
          match signed with
          | Err err => mret (Err (WaitRequest (cr_Namespace cr) (cr_Name cr) err))
          | Ok signedCR =>
              mret (Ok {| bundle_Certificate := cr_Certificate signedCR;
                          bundle_CA := cr_CA signedCR |})
          end
      end
  end.

(* ------------------------------------------------------------------ *)
(** ** Properties of waiting *)

Lemma verdict_Ok cr r :
  verdict cr = Some (Ok r) ↔
  r = cr ∧ IsDenied cr = false ∧ HasCondition cr failedCondition = false ∧
  cr_Certificate cr ≠ "".
Proof.
  unfold verdict. destruct (IsDenied cr); [naive_solver|].
  destruct (HasCondition cr failedCondition); [naive_solver|].
  destruct (cr_Certificate cr); cbn; naive_solver.
Qed.

(** What one event of the watch decides. *)
Definition decides (w : Event) : option (result (wait_error E) CertRequest) :=
  if decide (ev_Type w = Deleted) then Some (Err RequestDeleted)
  else match ev_Object w with ObjCertificateRequest cr => verdict cr | _ => None end.

(** The loops return the verdict of the first event that decides something. *)
Lemma receive_loop_first events closed :
  receive_loop events closed =
  match head (omap decides events) with
  | Some r => Ret r
  | None => if closed then Ret (Err WatcherClosed) else Blocked
  end.
Proof.
  induction events as [|w events IH]; [done|]. cbn [receive_loop]. csimpl.
  unfold decides at 1. case_decide; [done|].
  destruct (ev_Object w) as [cr| |]; [|done..]. by destruct (verdict cr).
Qed.

(** An event at or before which nothing was decided decides the wait. *)
Lemma receive_loop_decided pre w post closed r :
  Forall (λ e, decides e = None) pre → decides w = Some r →
  receive_loop (pre ++ w :: post) closed = Ret r.
Proof.
  intros Hpre Hw. rewrite receive_loop_first, omap_app. csimpl. rewrite Hw.
  assert (omap decides pre = []) as ->; [|done].
  induction Hpre as [|e pre He _ IH]; [done|]. csimpl. by rewrite He.
Qed.

(** The requests the wait looks at: the server's answer to the Get, then the
    requests of the watch's events. *)
Definition observed (got : CertRequest) (stream : WatchStream) (cr : CertRequest) : Prop :=
  cr = got ∨
  ∃ w, w ∈ ws_Events stream ∧ ev_Type w ≠ Deleted ∧ ev_Object w = ObjCertificateRequest cr.

Lemma receive_loop_Ok events closed r :
  receive_loop events closed = Ret (Ok r) →
  ∃ w, w ∈ events ∧ ev_Type w ≠ Deleted ∧ ev_Object w = ObjCertificateRequest r ∧
       verdict r = Some (Ok r).
Proof.
  induction events as [|w events IH]; cbn [receive_loop]; [by destruct closed|].
  case_decide; [done|]. intros Hr.
  assert (receive_loop events closed = Ret (Ok r) ∨
          ev_Object w = ObjCertificateRequest r ∧ verdict r = Some (Ok r)) as [Ht|Hh].
  { destruct (ev_Object w) as [cr| |]; [|by left..].
    destruct (verdict cr) as [v|] eqn:Hv; [|by left]. right. simplify_eq.
    pose proof Hv as (-> & _)%verdict_Ok. done. }
  - destruct (IH Ht) as (w' & Hin & ?). exists w'. split; [by right|done].
  - exists w. split; [by left|naive_solver].
Qed.

(** The calls of the wait, and its answer. *)
Lemma wait_spec cr w o w' :
  waitForCertificateRequest cr w = (o, w') →
  spawned w' = spawned w ∧
  ∃ cs, calls w' = calls w ++ cs ∧ (∀ c, CallCreate c ∉ cs) ∧
        (∀ r, o = Ret (Ok r) →
          ∃ got stream,
            srv_Watch server (calls w) (cr_Name cr) = Ok stream ∧
            srv_Get server (calls w ++ [CallWatch (cr_Name cr)]) (cr_Name cr) = Ok got ∧
            observed got stream r ∧ verdict r = Some (Ok r)).
Proof.
  unfold waitForCertificateRequest, ask, mbind, go_bind, observed. cbn.
  destruct (srv_Watch server _ _) as [stream|e].
  - destruct (srv_Get server _ _) as [got|e].
    + intros H. assert (w' = record_call (CallGet (cr_Name cr))
                             (record_call (CallWatch (cr_Name cr)) w)) as ->.
      { destruct (verdict got); by injection H as _ <-. }
      split; [done|]. exists [CallWatch (cr_Name cr); CallGet (cr_Name cr)]. cbn.
      split_and!; [by rewrite <-app_assoc|set_solver|].
      intros r ->. exists got, stream. split_and!; [done|done| |].
      * destruct (verdict got) as [v|] eqn:Hv; injection H as H.
        { subst. apply verdict_Ok in Hv as (-> & _). by left. }
        apply receive_loop_Ok in H as (e & ? & ? & ? & _). eauto 6.
      * destruct (verdict got) as [v|] eqn:Hv; injection H as H.
        { subst. by pose proof Hv as (-> & _)%verdict_Ok. }
        by apply receive_loop_Ok in H as (e & ? & ? & ? & ?).
    + intros [= <- <-]. split; [done|].
      exists [CallWatch (cr_Name cr); CallGet (cr_Name cr)]. cbn.
      split_and!; [by rewrite <-app_assoc|set_solver|done].
  - intros [= <- <-]. split; [done|]. exists [CallWatch (cr_Name cr)].
    split_and!; [done|set_solver|done].
Qed.

(** A successful [Sign]: the one request it creates, the deletion it schedules,
    and the signed request its answer is taken from. *)
Lemma Sign_Ok_spec m identities csrPEM duration usages w b w' :
  Sign m identities csrPEM duration usages w = (Ret (Ok b), w') →
  ∃ ref created cr cs,
    activeIssuerRef m = Some ref ∧
    srv_Create server (calls w)
      (newCertificateRequest m ref identities csrPEM duration usages) = Ok created ∧
    calls w' = calls w ++
      CallCreate (newCertificateRequest m ref identities csrPEM duration usages) :: cs ∧
    (∀ c, CallCreate c ∉ cs) ∧
    spawned w' = spawned w ++
      (if PreserveCertificateRequests (opts m) then [] else [CallDelete (cr_Name created)]) ∧
    verdict cr = Some (Ok cr) ∧
    b = {| bundle_Certificate := cr_Certificate cr; bundle_CA := cr_CA cr |}.
Proof.
  unfold Sign. destruct (activeIssuerRef m) as [ref|]; [|done].
  set (req := newCertificateRequest m ref identities csrPEM duration usages). intros H.
  go_inv H as [created|e] w1 Hc; [|done]. injection Hc as Hc <-.
  go_inv H as signed w2 Hw. apply wait_spec in Hw as (Hsp & cs & Hcs & Hn & Hok).
  cbn in Hsp, Hcs. go_inv H as [] w3 Hdel.
  destruct signed as [cr|e]; [|done]. injection H as <- <-.
  destruct (Hok cr eq_refl) as (? & ? & _ & _ & _ & Hv).
  exists ref, created, cr, cs. split_and!; try done.
  - destruct (PreserveCertificateRequests (opts m)); injection Hdel as <-; cbn;
      by rewrite Hcs, <-app_assoc.
  - destruct (PreserveCertificateRequests (opts m)); injection Hdel as <-; cbn;
      by rewrite Hsp, ?app_nil_r.
Qed.

End sign.

(* ------------------------------------------------------------------ *)
(** ** Properties of construction *)

Lemma handleOriginalIssuerRef_Ok o ref :
  handleOriginalIssuerRef o = Ok ref ↔
  DefaultIssuerEnabled o = true ∧ ref = IssuerRef o ∧ issuer_complete ref.
Proof.
  unfold handleOriginalIssuerRef, issuer_complete. destruct (DefaultIssuerEnabled o); cbn;
    [|naive_solver]. repeat case_bool_decide; cbn; naive_solver.
Qed.

Lemma handleOriginalIssuerRef_none o :
  handleOriginalIssuerRef o = Err errNoOriginalIssuer ↔
  DefaultIssuerEnabled o = false ∨
  issuer_Name (IssuerRef o) = "" ∧ issuer_Kind (IssuerRef o) = "" ∧
  issuer_Group (IssuerRef o) = "".
Proof.
  unfold handleOriginalIssuerRef. destruct (DefaultIssuerEnabled o); cbn; [|naive_solver].
  repeat case_bool_decide; cbn; naive_solver.
Qed.

(** A manager has an issuer, or a configuration to get one from. *)
Lemma New_issuer_source {E} (k8sClient cmClient : result E unit) o m :
  New k8sClient cmClient o = Ok m →
  activeIssuerRef m ≠ None ∨ HasRuntimeConfiguration o = true.
Proof.
  unfold New. destruct k8sClient, cmClient; cbn; try done.
  destruct (handleOriginalIssuerRef o) as [r|[]]; try done.
  - intros [= <-]. by left.
  - destruct (HasRuntimeConfiguration o); [by right|done].
Qed.

(** [New] succeeds, once the clients are built, in exactly two situations:
    the default issuer is enabled and its reference is complete, and then it is
    both the original and the active issuer; or there is no default issuer
    (disabled, or with every field empty) and a runtime configuration is named,
    and then the manager starts without an issuer. *)
Theorem New_issuers {E} (k8sClient cmClient : result E unit) (o : Options) (m : manager) :
  New k8sClient cmClient o = Ok m ↔
  k8sClient = Ok tt ∧ cmClient = Ok tt ∧ opts m = o ∧
  activeIssuerRef m = originalIssuerRef m ∧
  match originalIssuerRef m with
  | Some ref => DefaultIssuerEnabled o = true ∧ ref = IssuerRef o ∧ issuer_complete ref
  | None =>
      (DefaultIssuerEnabled o = false ∨
       issuer_Name (IssuerRef o) = "" ∧ issuer_Kind (IssuerRef o) = "" ∧
       issuer_Group (IssuerRef o) = "") ∧
      IssuanceConfigMapName o ≠ "" ∧ IssuanceConfigMapNamespace o ≠ ""
  end.
Proof.
  unfold New. destruct k8sClient as [[]|]; [|naive_solver].
  destruct cmClient as [[]|]; [|naive_solver]. cbn.
  destruct m as [mo ma [ref|]]; cbn.
  - rewrite <-handleOriginalIssuerRef_Ok.
    destruct (handleOriginalIssuerRef o) as [r|[]]; cbn; try case_match;
      (split; [intros [=]; by subst|intros (_ & _ & <- & -> & [=]); by subst]).
  - rewrite <-handleOriginalIssuerRef_none. unfold HasRuntimeConfiguration.
    destruct (handleOriginalIssuerRef o) as [r|[]]; cbn; repeat case_bool_decide; cbn;
      (split; [intros [=]; by subst|intros (_ & _ & <- & -> & [=] & ? & ?); by subst]).
Qed.

(* ------------------------------------------------------------------ *)
(** ** Properties of signing *)

Section sign_properties.
Context {E : Type} (IsDenied : CertRequest → bool)
  (HasCondition : CertRequest → Condition → bool) (server : CRServer E).

(** With an active issuer [Sign] makes one call that creates a request, its first:
    for the request with that issuer. *)
Lemma Sign_calls m ref identities csrPEM duration usages w o w' :
  activeIssuerRef m = Some ref →
  Sign IsDenied HasCondition server m identities csrPEM duration usages w = (o, w') →
  ∃ cs, calls w' = calls w ++
          CallCreate (newCertificateRequest m ref identities csrPEM duration usages) :: cs ∧
        (∀ c, CallCreate c ∉ cs).
Proof.
  unfold Sign. intros ->. set (cr := newCertificateRequest m ref identities csrPEM duration usages).
  unfold mbind at 1, go_bind at 1, ask at 1. intros H.
  destruct (srv_Create server (calls w) cr) as [cr'|e]; last first.
  { injection H as _ <-. exists []. split; [done|set_solver]. }
  unfold mbind at 1, go_bind at 1 in H.
  destruct (waitForCertificateRequest _ _ server cr' _) as [o1 w1] eqn:Hw.
  apply wait_spec in Hw as (_ & cs & Hcs & Hn & _). cbn in Hcs.
  assert (calls w' = calls w1) as ->.
  { destruct o1 as [r| |]; [|by injection H as _ <-..].
    destruct (PreserveCertificateRequests (opts m)); cbn in H;
      destruct r; by injection H as _ <-. }
  exists cs. by rewrite Hcs, <-app_assoc.
Qed.

(** C8: without an active issuer [Sign] fails and the API server is not called;
    with one, exactly one CertificateRequest is created, the first call made,
    for the active issuer, and it asks for the caller's CSR, duration and
    usages, is no CA, and is annotated with the identities unless the
    configured additional annotations use that key themselves. *)
Theorem Sign_creates_one_request m identities csrPEM duration usages w o w' :
  Sign IsDenied HasCondition server m identities csrPEM duration usages w = (o, w') →
  match activeIssuerRef m with
  | None => o = Ret (Err NoActiveIssuer) ∧ w' = w
  | Some ref =>
      ∃ cr cs,
        calls w' = calls w ++ CallCreate cr :: cs ∧ (∀ c, CallCreate c ∉ cs) ∧
        cr_IssuerRef cr = ref ∧ cr_Request cr = csrPEM ∧ cr_Duration cr = duration ∧
        cr_Usages cr = usages ∧ cr_IsCA cr = false ∧
        (∀ k v, AdditionalAnnotations (opts m) !! k = Some v →
                cr_Annotations cr !! k = Some v) ∧
        (AdditionalAnnotations (opts m) !! identityAnnotation = None →
         cr_Annotations cr !! identityAnnotation = Some identities)
  end.
Proof.
  intros H. destruct (activeIssuerRef m) as [ref|] eqn:Hact;
    [|unfold Sign in H; rewrite Hact in H; by injection H as <- <-].
  destruct (Sign_calls _ _ _ _ _ _ _ _ _ Hact H) as (cs & Hc & Hn). eexists _, cs.
  split_and!; [exact Hc|done..| |].
  - intros k v Hk. by apply lookup_union_Some_l.
  - intros Hk. unfold newCertificateRequest, cr_Annotations.
    rewrite lookup_union_r by done. apply lookup_singleton_eq.
Qed.

(** When [Sign] returns, the created CertificateRequest is scheduled for
    deletion, whether or not it was signed, exactly when requests are not
    preserved; a request that could not be created is never deleted. *)
Theorem Sign_cleans_up m ref identities csrPEM duration usages w r w' :
  activeIssuerRef m = Some ref →
  Sign IsDenied HasCondition server m identities csrPEM duration usages w = (Ret r, w') →
  let cr := newCertificateRequest m ref identities csrPEM duration usages in
  spawned w' = spawned w ++
    match srv_Create server (calls w) cr with
    | Err _ => []
    | Ok created =>
        if PreserveCertificateRequests (opts m) then [] else [CallDelete (cr_Name created)]
    end.
Proof.
  intros Hact H cr. unfold Sign in H. rewrite Hact in H.
  unfold mbind at 1, go_bind at 1, ask at 1 in H. fold cr in H.
  destruct (srv_Create server (calls w) cr) as [cr'|e]; last first.
  { injection H as _ <-. by rewrite app_nil_r. }
  unfold mbind at 1, go_bind at 1 in H.
  destruct (waitForCertificateRequest _ _ server cr' _) as [o1 w1] eqn:Hw.
  apply wait_spec in Hw as (Hs & _). cbn in Hs.
  destruct o1 as [r1| |]; [|done..].
  destruct (PreserveCertificateRequests (opts m)); cbn in H;
    destruct r1; injection H as _ <-; cbn; by rewrite Hs, ?app_nil_r.
Qed.

(** A bundle [Sign] returns is the certificate and CA of a
    CertificateRequest the server showed for the created request (in answer to
    the Get or in a watch event that is not a deletion), which is not denied,
    has not failed, and has a non-empty certificate. *)
Theorem Sign_bundle_is_signed m identities csrPEM duration usages w b w' :
  Sign IsDenied HasCondition server m identities csrPEM duration usages w = (Ret (Ok b), w') →
  ∃ ref created got stream cr h,
    activeIssuerRef m = Some ref ∧
    srv_Create server (calls w)
      (newCertificateRequest m ref identities csrPEM duration usages) = Ok created ∧
    srv_Watch server h (cr_Name created) = Ok stream ∧
    srv_Get server (h ++ [CallWatch (cr_Name created)]) (cr_Name created) = Ok got ∧
    observed got stream cr ∧
    IsDenied cr = false ∧ HasCondition cr failedCondition = false ∧
    cr_Certificate cr ≠ "" ∧
    b = {| bundle_Certificate := cr_Certificate cr; bundle_CA := cr_CA cr |}.
Proof.
  unfold Sign. destruct (activeIssuerRef m) as [ref|]; [|done].
  set (cr := newCertificateRequest m ref identities csrPEM duration usages).
  unfold mbind at 1, go_bind at 1, ask at 1. intros H.
  destruct (srv_Create server (calls w) cr) as [created|e] eqn:Hc; [|done].
  unfold mbind at 1, go_bind at 1 in H.
  destruct (waitForCertificateRequest _ _ server created _) as [o1 w1] eqn:Hw.
  apply wait_spec in Hw as (_ & cs & _ & _ & Hok). destruct o1 as [r1| |]; [|done..].
  assert (∃ scr, r1 = Ok scr ∧
    b = {| bundle_Certificate := cr_Certificate scr; bundle_CA := cr_CA scr |})
    as (scr & -> & ->).
  { destruct (PreserveCertificateRequests (opts m)); cbn in H;
      (destruct r1 as [scr|]; [|done]); injection H as <- _; eauto. }
  destruct (Hok scr eq_refl) as (got & stream & Hwa & Hg & Ho & Hv).
  apply verdict_Ok in Hv as (_ & ? & ? & ?). eauto 20.
Qed.

(** C24: the wait ends as soon as it can: if the server's answer to the Get
    decides nothing and the watch delivers an event that does (a deletion, or a
    request that is denied, failed or signed), with no such event before it,
    then [waitForCertificateRequest] returns that event's verdict, whatever
    would arrive later and even if the channel never closes. *)
Theorem wait_returns_first_verdict cr got pre e post closed v w :
  srv_Watch server (calls w) (cr_Name cr) =
    Ok {| ws_Events := pre ++ e :: post; ws_Closed := closed |} →
  srv_Get server (calls w ++ [CallWatch (cr_Name cr)]) (cr_Name cr) = Ok got →
  verdict (E := E) IsDenied HasCondition got = None →
  Forall (λ e, decides (E := E) IsDenied HasCondition e = None) pre →
  decides IsDenied HasCondition e = Some v →
  (waitForCertificateRequest IsDenied HasCondition server cr w).1 = Ret v.
Proof.
  intros Hw Hg Hv Hpre He. unfold waitForCertificateRequest, mbind, go_bind, ask. cbn.
  rewrite Hw. cbn. rewrite Hg, Hv. unfold go_outcome. cbn. by apply receive_loop_decided.
Qed.

End sign_properties.

(* ------------------------------------------------------------------ *)
(** ** Instances *)

(** A server that signs: the request it stores is pending, and its watch shows
    first a bookmark and then the signed request. *)
Definition example_issuer : IssuerReference :=
  {| issuer_Name := "mesh-ca"; issuer_Kind := "Issuer"; issuer_Group := "cert-manager.io" |}.
Definition example_opts : Options :=
  {| PreserveCertificateRequests := false; OptNamespace := "istio-system";
     DefaultIssuerEnabled := true; IssuerRef := example_issuer;
     IssuanceConfigMapName := ""; IssuanceConfigMapNamespace := "";
     AdditionalAnnotations := {[ "team" := "mesh" ]} |}.
Definition example_manager : manager :=
  {| opts := example_opts; activeIssuerRef := Some example_issuer;
     originalIssuerRef := Some example_issuer |}.
Definition example_usages : list KeyUsage := [UsageClientAuth; UsageServerAuth].
Definition example_request (certificate : string) : CertRequest :=
  {| cr_Namespace := "istio-system"; cr_Name := "istio-csr-x7"; cr_GenerateName := "istio-csr-";
     cr_Annotations := ∅; cr_Duration := 3600; cr_IsCA := false; cr_Request := "CSR";
     cr_Usages := example_usages; cr_IssuerRef := example_issuer; cr_Conditions := [];
     cr_Certificate := certificate; cr_CA := "CA" |}.
Definition example_bookmark : Event := {| ev_Type := Bookmark; ev_Object := ObjOther |}.
Definition example_signed : Event :=
  {| ev_Type := Modified; ev_Object := ObjCertificateRequest (example_request "CERT") |}.
Definition example_crserver : CRServer unit :=
  {| srv_Create := λ _ _, Ok (example_request "");
     srv_Watch := λ _ _, Ok {| ws_Events := [example_bookmark; example_signed];
                               ws_Closed := false |};
     srv_Get := λ _ _, Ok (example_request "") |}.
Definition example_denied (cr : CertRequest) : bool := false.
Definition example_condition (cr : CertRequest) (c : Condition) : bool := false.
Definition example_world : world := {| calls := []; spawned := [] |}.

Definition example_sign (m : manager) : go world (result (sign_error unit) Bundle) :=
  Sign example_denied example_condition example_crserver m "id" "CSR" 3600 example_usages.

Lemma Sign_creates_one_request_witness :
  ∃ cr cs,
    calls (example_sign example_manager example_world).2 = [] ++ CallCreate cr :: cs ∧
    (∀ c, CallCreate c ∉ cs) ∧
    cr_IssuerRef cr = example_issuer ∧ cr_Request cr = "CSR" ∧ cr_Duration cr = 3600%Z ∧
    cr_Usages cr = example_usages ∧ cr_IsCA cr = false ∧
    (∀ k v, ({[ "team" := "mesh" ]} : gmap string string) !! k = Some v →
            cr_Annotations cr !! k = Some v) ∧
    (({[ "team" := "mesh" ]} : gmap string string) !! identityAnnotation = None →
     cr_Annotations cr !! identityAnnotation = Some "id").
Proof.
  exact (Sign_creates_one_request example_denied example_condition example_crserver
           example_manager "id" "CSR" 3600 example_usages example_world _ _
           (surjective_pairing _)).
Defined.

Example Sign_cleans_up_example :
  spawned (example_sign example_manager example_world).2 = [CallDelete "istio-csr-x7"].
Proof.
  apply (Sign_cleans_up example_denied example_condition example_crserver example_manager
           example_issuer "id" "CSR" 3600 example_usages example_world
           (Ok {| bundle_Certificate := "CERT"; bundle_CA := "CA" |}));
    vm_compute; reflexivity.
Qed.

Lemma wait_returns_first_verdict_witness :
  (waitForCertificateRequest example_denied example_condition example_crserver
     (example_request "") example_world).1 = Ret (Ok (example_request "CERT")).
Proof.
  apply (wait_returns_first_verdict example_denied example_condition example_crserver
           (example_request "") (example_request "") [example_bookmark] example_signed []
           false); vm_compute; try reflexivity.
  repeat constructor.
Defined.
