(* ===== verification/IssuerConfig.v ===== *)
(** * Runtime issuer configuration

    [pkg/certmanager/certmanager.go], second half: the active issuer follows a
    ConfigMap, subscribers are told about changes, and [WaitForIssuerConfig]
    waits for a first issuer.

    The methods are translated as functions on the manager's state; each runs
    under the manager's mutexes, so it is one atomic step.  The goroutines
    [notifyIssuerChange] starts are part of the state, and [sys_step] is the
    interleaving of everything that can run. *)

From S2P Require Import Prelude Kube CertManager.

(* ------------------------------------------------------------------ *)
(** ** State *)

(** The manager with its subscriptions.  A subscription is a pointer: an index
    into the subscriptions made so far, of which [is_closed] holds the closed
    ones. *)
Record mstate := {
  mgr : manager;
  issuerChangeSubscriptions : list nat;
  is_closed : gset nat;
  made : nat;
  (** goroutines of [notifyIssuerChange] that have yet to evaluate
      [m.issuerChangeSubscriptions[i]] *)
  starting : list (nat * option IssuerReference);
  (** goroutines blocked sending on the channel of a subscription *)
  sending : list (nat * option IssuerReference);
}.

Definition initial (m : manager) : mstate :=
  {| mgr := m; issuerChangeSubscriptions := []; is_closed := ∅; made := 0;
     starting := []; sending := [] |}.

Definition set_active (r : option IssuerReference) (s : mstate) : mstate :=
  {| mgr := {| opts := opts (mgr s); activeIssuerRef := r;
               originalIssuerRef := originalIssuerRef (mgr s) |};
     issuerChangeSubscriptions := issuerChangeSubscriptions s;
     is_closed := is_closed s; made := made s;
     starting := starting s; sending := sending s |}.

Definition active (s : mstate) : option IssuerReference := activeIssuerRef (mgr s).
Definition original (s : mstate) : option IssuerReference := originalIssuerRef (mgr s).

(* ------------------------------------------------------------------ *)
(** ** Operations *)

Definition HasIssuerConfig (s : mstate) : bool :=
  match active s with Some _ => true | None => false end.

Definition InitialIssuer (s : mstate) : option IssuerReference := original s.

(** [sub.Close()]. *)
Definition CloseSubscription (id : nat) (s : mstate) : mstate :=
  {| mgr := mgr s; issuerChangeSubscriptions := issuerChangeSubscriptions s;
     is_closed := {[id]} ∪ is_closed s; made := made s;
     starting := starting s; sending := sending s |}.

(** [sub.Closed()]. *)
Definition Closed (s : mstate) (id : nat) : bool := bool_decide (id ∈ is_closed s).

Definition SubscribeIssuerChange (s : mstate) : nat * mstate :=
  let sub := made s in
  (sub,
   {| mgr := mgr s; issuerChangeSubscriptions := issuerChangeSubscriptions s ++ [sub];
      is_closed := is_closed s; made := S (made s);
      starting := starting s; sending := sending s |}).

(** The goroutines the loop of [notifyIssuerChange] starts: one for each
    subscription that is not closed, remembering its index [i]. *)
Fixpoint notify_goroutines (s : mstate) (i : nat) (l : list nat)
    (issuerRef : option IssuerReference) : list (nat * option IssuerReference) :=
  match l with
  | [] => []
  | sub :: l' =>
      if Closed s sub then notify_goroutines s (S i) l' issuerRef
      else (i, issuerRef) :: notify_goroutines s (S i) l' issuerRef
  end.

Definition notifyIssuerChange (issuerRef : option IssuerReference) (s : mstate) : mstate :=
  let filteredSubscriptions :=
    List.filter (λ sub, negb (Closed s sub)) (issuerChangeSubscriptions s) in
  {| mgr := mgr s; issuerChangeSubscriptions := filteredSubscriptions;
     is_closed := is_closed s; made := made s;
     starting := starting s ++
       notify_goroutines s 0 (issuerChangeSubscriptions s) issuerRef;
     sending := sending s |}.

Definition issuerNameKey : string := "issuer-name".
Definition issuerKindKey : string := "issuer-kind".
Definition issuerGroupKey : string := "issuer-group".

Inductive config_error :=
| UnexpectedObject
| MissingKeys (keys : list string).

(** A key that is absent or empty is an error. *)
Definition data_error (cm : ConfigMap) (key : string) : list string :=
  match map_get (cm_Data cm) key with
  | Some v => if (String.length v =? 0)%nat then [key] else []
  | None => [key]
  end.

Definition handleRuntimeConfigIssuerChange (event : Event) (s : mstate)
    : option config_error * mstate :=
  match ev_Object event with
  | ObjConfigMap cm =>
      let issuerRef :=
        {| issuer_Name := default "" (map_get (cm_Data cm) issuerNameKey);
           issuer_Kind := default "" (map_get (cm_Data cm) issuerKindKey);
           issuer_Group := default "" (map_get (cm_Data cm) issuerGroupKey) |} in
      let dataErrs := data_error cm issuerNameKey ++ data_error cm issuerKindKey ++
                      data_error cm issuerGroupKey in
      if (0 <? length dataErrs)%nat then (Some (MissingKeys dataErrs), s)
      else (None, notifyIssuerChange (Some issuerRef) (set_active (Some issuerRef) s))
  | _ => (Some UnexpectedObject, s)
  end.

Definition handleRuntimeConfigIssuerDeletion (s : mstate) : mstate :=
  match original s with
  | None => set_active None s
  | Some _ => notifyIssuerChange None (set_active (original s) s)
  end.

(** The switch on [event.Type] in [RuntimeConfigurationWatcher.Start]. *)
Definition handle_event (event : Event) (s : mstate) : mstate :=
  match ev_Type event with
  | Deleted => handleRuntimeConfigIssuerDeletion s
  | Added => (handleRuntimeConfigIssuerChange event s).2
  | Modified => (handleRuntimeConfigIssuerChange event s).2
  | Bookmark => s
  | ErrorEvent => s
  | UnknownEvent _ => s
  end.

(* ------------------------------------------------------------------ *)
(** ** The watcher's loop *)

(** The watcher runs on every replica. *)
Definition Watcher_NeedLeaderElection : bool := false.

(** What the loop of [RuntimeConfigurationWatcher.Start] meets next. *)
Inductive rcw_input :=
| WatchFailed
| WatchCreated
| ContextDone
| ChannelClosed
| Received (event : Event).

(** Creating a watch, selecting on it, or returned. *)
Inductive rcw_phase := Creating | Selecting | Stopped.

Inductive rcw_step : rcw_phase * mstate → rcw_input → rcw_phase * mstate → Prop :=
| rcw_failed s : rcw_step (Creating, s) WatchFailed (Creating, s)
| rcw_created s : rcw_step (Creating, s) WatchCreated (Selecting, s)
| rcw_done s : rcw_step (Selecting, s) ContextDone (Stopped, s)
| rcw_closed s : rcw_step (Selecting, s) ChannelClosed (Creating, s)
| rcw_event s e : rcw_step (Selecting, s) (Received e) (Selecting, handle_event e s).

(** A run of the loop on a sequence of inputs. *)
Inductive rcw_run : rcw_phase * mstate → list rcw_input → rcw_phase * mstate → Prop :=
| rcw_run_nil c : rcw_run c [] c
| rcw_run_cons c i c' ins c'' :
    rcw_step c i c' → rcw_run c' ins c'' → rcw_run c (i :: ins) c''.

(* ------------------------------------------------------------------ *)
(** ** Interleaving *)

(** Where a call of [WaitForIssuerConfig] is: not running, past the failed
    [HasIssuerConfig] test, selecting on its subscription, or about to run its
    deferred [Close]. *)
Inductive waiter :=
| Idle
| Unsubscribed
| Waiting (sub : nat)
| Closing (sub : nat).

Record sys := { st : mstate; wait : waiter }.

(** The labels tell apart what comes from outside: configuration events, the
    end of the waiter's context, and other subscribers. *)
Inductive label :=
| Config (event : Event)
| ContextEnd
| Subscribe
| Internal.

Definition set_starting (l : list (nat * option IssuerReference)) (s : mstate) : mstate :=
  {| mgr := mgr s; issuerChangeSubscriptions := issuerChangeSubscriptions s;
     is_closed := is_closed s; made := made s; starting := l; sending := sending s |}.
Definition set_sending (l : list (nat * option IssuerReference)) (s : mstate) : mstate :=
  {| mgr := mgr s; issuerChangeSubscriptions := issuerChangeSubscriptions s;
     is_closed := is_closed s; made := made s; starting := starting s; sending := l |}.

Inductive sys_step : sys → label → sys → Prop :=
| step_config s w e :
    sys_step {| st := s; wait := w |} (Config e) {| st := handle_event e s; wait := w |}
| step_subscribe s w :
    sys_step {| st := s; wait := w |} Subscribe
             {| st := (SubscribeIssuerChange s).2; wait := w |}
(* a goroutine evaluates m.issuerChangeSubscriptions[i] and starts to send *)
| step_resolve s w l1 i v l2 sub :
    starting s = l1 ++ (i, v) :: l2 →
    issuerChangeSubscriptions s !! i = Some sub →
    sys_step {| st := s; wait := w |} Internal
             {| st := set_sending (sending s ++ [(sub, v)]) (set_starting (l1 ++ l2) s);
                wait := w |}
(* a subscriber other than the waiter receives *)
| step_receive s w l1 sub v l2 :
    sending s = l1 ++ (sub, v) :: l2 → w ≠ Waiting sub →
    sys_step {| st := s; wait := w |} Internal
             {| st := set_sending (l1 ++ l2) s; wait := w |}
(* WaitForIssuerConfig *)
| step_wait_fast s :
    HasIssuerConfig s = true →
    sys_step {| st := s; wait := Idle |} Internal {| st := s; wait := Idle |}
| step_wait_slow s :
    HasIssuerConfig s = false →
    sys_step {| st := s; wait := Idle |} Internal {| st := s; wait := Unsubscribed |}
| step_wait_subscribe s :
    sys_step {| st := s; wait := Unsubscribed |} Internal
             {| st := (SubscribeIssuerChange s).2;
                wait := Waiting (SubscribeIssuerChange s).1 |}
| step_wait_receive s l1 sub v l2 :
    sending s = l1 ++ (sub, v) :: l2 →
    sys_step {| st := s; wait := Waiting sub |} Internal
             {| st := set_sending (l1 ++ l2) s;
                wait := match v with Some _ => Closing sub | None => Waiting sub end |}
| step_wait_context s sub :
    sys_step {| st := s; wait := Waiting sub |} ContextEnd {| st := s; wait := Closing sub |}
| step_wait_close s sub :
    sys_step {| st := s; wait := Closing sub |} Internal
             {| st := CloseSubscription sub s; wait := Idle |}.

Definition any_step (x y : sys) : Prop := ∃ l, sys_step x l y.

(** The process starts with no call of [WaitForIssuerConfig]. *)
Definition start (m : manager) : sys := {| st := initial m; wait := Idle |}.

(** A goroutine is about to index the slice out of range, which panics. *)
Definition panics (s : mstate) : Prop :=
  ∃ i v, (i, v) ∈ starting s ∧ issuerChangeSubscriptions s !! i = None.

(* ------------------------------------------------------------------ *)
(** ** Configuration events *)

Lemma data_error_nil cm key :
  data_error cm key = [] ↔ ∃ v, map_get (cm_Data cm) key = Some v ∧ v ≠ "".
Proof.
  unfold data_error. destruct (map_get _ key) as [v|]; [|naive_solver].
  destruct v; cbn; naive_solver.
Qed.

(** The issuer a ConfigMap names, when it names one completely. *)
Definition configured_issuer (cm : ConfigMap) : option IssuerReference :=
  n ← map_get (cm_Data cm) issuerNameKey;
  k ← map_get (cm_Data cm) issuerKindKey;
  g ← map_get (cm_Data cm) issuerGroupKey;
  let r := {| issuer_Name := n; issuer_Kind := k; issuer_Group := g |} in
  if bool_decide (n = "") || bool_decide (k = "") || bool_decide (g = "") then None else Some r.

Lemma configured_issuer_complete cm r : configured_issuer cm = Some r → issuer_complete r.
Proof.
  unfold configured_issuer, issuer_complete. intros.
  simplify_option_eq. repeat case_bool_decide; naive_solver.
Qed.

(** The event handler on a ConfigMap, by whether it names an issuer. *)
Lemma handle_change_spec t cm s :
  handleRuntimeConfigIssuerChange {| ev_Type := t; ev_Object := ObjConfigMap cm |} s =
  match configured_issuer cm with
  | Some r => (None, notifyIssuerChange (Some r) (set_active (Some r) s))
  | None => (Some (MissingKeys (data_error cm issuerNameKey ++ data_error cm issuerKindKey ++
                                data_error cm issuerGroupKey)), s)
  end.
Proof.
  unfold handleRuntimeConfigIssuerChange, configured_issuer, data_error; cbn.
  destruct (map_get _ issuerNameKey) as [n|]; [|done].
  destruct (map_get _ issuerKindKey) as [k|]; cbn; [|by destruct n].
  destruct (map_get _ issuerGroupKey) as [g|]; cbn; [|by destruct n, k].
  by destruct n, k, g.
Qed.

(** What one event does to the active issuer, as the contract has it: nothing,
    or set it to the given value. *)
Definition event_effect (orig : option IssuerReference) (e : Event)
    : option (option IssuerReference) :=
  match ev_Type e with
  | Deleted => Some orig
  | Added | Modified =>
      match ev_Object e with
      | ObjConfigMap cm => Some <$> configured_issuer cm
      | _ => None
      end
  | _ => None
  end.

Lemma handle_event_active e s :
  active (handle_event e s) = default (active s) (event_effect (original s) e).
Proof.
  unfold handle_event, event_effect. destruct e as [t ob]; cbn.
  assert (∀ t', active (handleRuntimeConfigIssuerChange
                         {| ev_Type := t'; ev_Object := ob |} s).2 =
    default (active s) match ob with
      | ObjConfigMap cm => Some <$> configured_issuer cm | _ => None end) as Hc.
  { intros t'. destruct ob as [|cm|]; [done| |done]. rewrite handle_change_spec.
    by destruct (configured_issuer cm). }
  destruct t; [apply Hc|apply Hc| |done..].
  unfold handleRuntimeConfigIssuerDeletion.
  by destruct (original s) eqn:Ho; cbn; rewrite ?Ho.
Qed.

Lemma handle_event_original e s : original (handle_event e s) = original s.
Proof.
  unfold handle_event. destruct e as [t ob]; cbn.
  assert (∀ t', original (handleRuntimeConfigIssuerChange
                         {| ev_Type := t'; ev_Object := ob |} s).2 = original s) as Hc.
  { intros t'. destruct ob as [|cm|]; [done| |done]. rewrite handle_change_spec.
    by destruct (configured_issuer cm). }
  destruct t; [apply Hc|apply Hc| |done..].
  unfold handleRuntimeConfigIssuerDeletion. by destruct (original s) eqn:Ho.
Qed.

(** The events a run of the loop received. *)
Definition received (ins : list rcw_input) : list Event :=
  omap (λ i, match i with Received e => Some e | _ => None end) ins.

Lemma rcw_run_active c ins c' :
  rcw_run c ins c' →
  original c'.2 = original c.2 ∧
  active c'.2 = default (active c.2) (last (omap (event_effect (original c.2)) (received ins))).
Proof.
  induction 1 as [c|c i c1 ins c2 Hs _ [IHo IHa]]; [done|].
  unfold received in *.
  inversion Hs; subst; csimpl in *; rewrite ?handle_event_original, ?handle_event_active in *;
    split; try done.
  rewrite IHa. destruct (event_effect (original s) e) as [r|]; [|done].
  rewrite last_cons. by destruct (last _).
Qed.

(* ------------------------------------------------------------------ *)
(** ** Invariants of the interleaving *)

(** Steps other than configuration events leave the issuers alone. *)
Lemma step_issuers x l y :
  sys_step x l y →
  original (st y) = original (st x) ∧
  active (st y) = match l with
                  | Config e => default (active (st x)) (event_effect (original (st x)) e)
                  | _ => active (st x)
                  end.
Proof.
  intros H; destruct H; cbn; rewrite ?handle_event_original, ?handle_event_active; done.
Qed.

Definition issuers_ok (s : mstate) : Prop :=
  (∀ r, active s = Some r → issuer_complete r) ∧
  (∀ r, original s = Some r → issuer_complete r) ∧
  (original s ≠ None → active s ≠ None).

Lemma event_effect_ok o e r :
  event_effect o e = Some r → r = o ∨ ∃ r', r = Some r' ∧ issuer_complete r'.
Proof.
  unfold event_effect. destruct (ev_Type e); try done; [| |by intros [= <-]; left].
  all: destruct (ev_Object e) as [|cm|]; [done| |done].
  all: destruct (configured_issuer cm) as [r'|] eqn:Hc; [|done].
  all: intros [= <-]; right; eauto using configured_issuer_complete.
Qed.

Lemma step_issuers_ok x l y : sys_step x l y → issuers_ok (st x) → issuers_ok (st y).
Proof.
  intros [Ho Ha]%step_issuers (Hc & Hoc & Hn). unfold issuers_ok. rewrite Ho, Ha.
  destruct l as [e| | |]; try done.
  destruct (event_effect _ e) as [r|] eqn:He; cbn; [|done].
  destruct (event_effect_ok _ _ _ He) as [->|(r' & -> & ?)]; split_and!; naive_solver.
Qed.

(** While no subscription is closed, the slice holds the subscriptions in the
    order they were made, and every goroutine's index is one of them. *)
Definition all_open (s : mstate) : Prop :=
  is_closed s = ∅ →
  issuerChangeSubscriptions s = seq 0 (made s) ∧
  Forall (λ g, (g.1 < made s)%nat) (starting s).

Lemma filter_all {A} (f : A → bool) l : Forall (λ x, f x = true) l → List.filter f l = l.
Proof. induction 1 as [|x l Hx _ IH]; cbn; [done|]. by rewrite Hx, IH. Qed.

Lemma notify_goroutines_range s i l v :
  Forall (λ g, (g.1 < i + length l)%nat) (notify_goroutines s i l v).
Proof.
  revert i. induction l as [|sub l IH]; intros i; cbn [notify_goroutines]; [done|].
  assert (Forall (λ g, (g.1 < i + length (sub :: l))%nat) (notify_goroutines s (S i) l v)).
  { eapply Forall_impl; [apply IH|]. cbn. intros. lia. }
  case_match; [done|]. constructor; [cbn; lia|done].
Qed.

Lemma notify_all_open v s : all_open s → all_open (notifyIssuerChange v s).
Proof.
  intros Ho Hc. destruct (Ho Hc) as [Hs Hr]. cbn in *. split.
  - rewrite filter_all; [done|]. apply Forall_forall. intros sub _.
    unfold Closed. rewrite bool_decide_eq_false_2; [done|]. rewrite Hc. set_solver.
  - apply Forall_app. split; [done|].
    eapply Forall_impl; [apply notify_goroutines_range|]. cbn.
    rewrite Hs, length_seq. intros. lia.
Qed.

Lemma subscribe_all_open s : all_open s → all_open (SubscribeIssuerChange s).2.
Proof.
  intros Ho Hc. destruct (Ho Hc) as [Hs Hr]. cbn [SubscribeIssuerChange snd made
    issuerChangeSubscriptions starting] in *.
  rewrite Hs, seq_S. split; [done|]. eapply Forall_impl; [exact Hr|]. cbn. intros; lia.
Qed.

Lemma handle_event_all_open e s : all_open s → all_open (handle_event e s).
Proof.
  intros Ho. unfold handle_event. destruct e as [t ob]; cbn.
  assert (∀ t', all_open (handleRuntimeConfigIssuerChange
                         {| ev_Type := t'; ev_Object := ob |} s).2) as Hc.
  { intros t'. destruct ob as [|cm|]; [done| |done]. rewrite handle_change_spec.
    destruct (configured_issuer cm); [|done]. by apply notify_all_open. }
  destruct t; [apply Hc|apply Hc| |done..].
  unfold handleRuntimeConfigIssuerDeletion.
  destruct (original s); [by apply notify_all_open|done].
Qed.

#[local] Hint Resolve handle_event_all_open subscribe_all_open : golang.

Lemma step_all_open x l y : sys_step x l y → all_open (st x) → all_open (st y).
Proof.
  intros H Ho. destruct H as [s w e|s w|s w l1 i v l2 sub Hst _| | | |s| | |s sub];
    cbn [st] in *; auto with golang; try done.
  - intros Hc. destruct (Ho Hc) as [Hs Hr]. split; [done|]. cbn.
    rewrite Hst, !Forall_app, Forall_cons in *. naive_solver.
  - intros Hc. cbn in Hc. exfalso. set_solver.
Qed.

(** Invariants of single steps hold of every reachable state. *)
Lemma reachable_ind (P : mstate → Prop) m x :
  P (initial m) → (∀ x l y, sys_step x l y → P (st x) → P (st y)) →
  rtc any_step (start m) x → P (st x).
Proof.
  intros H0 Hstep Hr. remember (start m) as x0 eqn:E.
  assert (P (st x0)) as HP by (by subst). clear E H0.
  induction Hr as [|x0 x1 x2 [l Hs] _ IH]; eauto.
Qed.

(* ------------------------------------------------------------------ *)
(** ** Theorems *)

(** C9: the active issuer refines the contract of runtime configuration: after
    any run of the watcher's loop, through lost and re-created watches, it is
    what the last effective event received says (the issuer of a ConfigMap that
    names one completely, or the original issuer after a deletion), and it is
    unchanged when no event was effective; incomplete ConfigMaps, foreign
    objects, bookmarks and errors change nothing. *)
Theorem active_issuer_follows_config ph s ins ph' s' :
  rcw_run (ph, s) ins (ph', s') →
  active s' = default (active s) (last (omap (event_effect (original s)) (received ins))).
Proof. intros H. by apply rcw_run_active in H as [_ ?]. Qed.

(** A ConfigMap event either names an issuer completely, and then the
    handler succeeds and makes it the active one, or it leaves the whole state
    as it was and reports exactly the missing or empty keys, in order. *)
Theorem config_change_all_or_nothing t cm s :
  (∃ r, configured_issuer cm = Some r ∧
    (handleRuntimeConfigIssuerChange {| ev_Type := t; ev_Object := ObjConfigMap cm |} s).1 = None ∧
    active (handleRuntimeConfigIssuerChange
              {| ev_Type := t; ev_Object := ObjConfigMap cm |} s).2 = Some r) ∨
  (∃ keys,
    handleRuntimeConfigIssuerChange {| ev_Type := t; ev_Object := ObjConfigMap cm |} s =
      (Some (MissingKeys keys), s) ∧
    keys ≠ [] ∧
    keys = filter (λ k, default "" (map_get (cm_Data cm) k) = "")
             [issuerNameKey; issuerKindKey; issuerGroupKey]).
Proof.
  rewrite handle_change_spec. destruct (configured_issuer cm) as [r|] eqn:Hc.
  { left. by exists r. }
  right. eexists. split; [done|].
  assert (∀ k, data_error cm k = filter (λ k, default "" (map_get (cm_Data cm) k) = "") [k]) as Hd.
  { intros k. unfold data_error. rewrite filter_cons, filter_nil.
    destruct (map_get _ k) as [[|a v]|]; cbn; case_decide; done. }
  rewrite !Hd, <-!filter_app. split; [|done]. rewrite !filter_app, <-!Hd. cbn.
  intros [H1 [H2 H3]%app_eq_nil]%app_eq_nil.
  apply data_error_nil in H1 as (n & Hn & ?), H2 as (k & Hk & ?), H3 as (g & Hg & ?).
  unfold configured_issuer in Hc. rewrite Hn, Hk, Hg in Hc. cbn in Hc.
  by rewrite !bool_decide_eq_false_2 in Hc.
Qed.

(** C25: whatever is interleaved, the active issuer of a manager built by [New]
    always has all its fields set, and a manager built with a default issuer is
    never without an active one. *)
Theorem active_issuer_complete {E} (k8sClient cmClient : result E unit) o m x :
  New k8sClient cmClient o = Ok m → rtc any_step (start m) x →
  (∀ r, active (st x) = Some r → issuer_complete r) ∧
  (originalIssuerRef m ≠ None → HasIssuerConfig (st x) = true).
Proof.
  intros HN Hr.
  assert (issuers_ok (initial m) ∧ original (initial m) = originalIssuerRef m) as [Hi _].
  { unfold issuers_ok, initial, active, original; cbn. unfold New in HN.
    destruct k8sClient as [[]|]; [|done]. destruct cmClient as [[]|]; [|done]. cbn in HN.
    destruct (handleOriginalIssuerRef o) as [r|[]] eqn:Hh; [| |done..].
    - injection HN as <-. apply handleOriginalIssuerRef_Ok in Hh as (_ & -> & ?).
      cbn. naive_solver.
    - case_match; [done|]. injection HN as <-. cbn. naive_solver. }
  assert (issuers_ok (st x) ∧ original (st x) = originalIssuerRef m) as [(Hc & _ & Hn) Ho].
  { apply (reachable_ind (λ s, issuers_ok s ∧ original s = originalIssuerRef m) m x);
      [done| |done].
    intros x0 l y Hs [? Heq]. split; [by eapply step_issuers_ok|].
    apply step_issuers in Hs as [-> _]. done. }
  split; [done|]. rewrite <-Ho. intros Hne%Hn. unfold HasIssuerConfig.
  by destruct (active (st x)).
Qed.

(** As long as no subscription has been closed, no goroutine started by
    [notifyIssuerChange] indexes the slice out of range, whenever it gets to
    run, and each one sends to the subscription it was started for (the one
    with that index when it was started). *)
Theorem notify_safe_without_close m x :
  rtc any_step (start m) x → is_closed (st x) = ∅ →
  ¬ panics (st x) ∧
  ∀ i v, (i, v) ∈ starting (st x) → issuerChangeSubscriptions (st x) !! i = Some i.
Proof.
  intros Hr Hc.
  assert (all_open (st x)) as Ho.
  { apply (reachable_ind all_open m x); [|apply step_all_open|done].
    intros _. cbn. done. }
  destruct (Ho Hc) as [Hs Hf].
  assert (∀ i v, (i, v) ∈ starting (st x) →
                 issuerChangeSubscriptions (st x) !! i = Some i) as Hi.
  { intros i v Hin. rewrite Forall_forall in Hf. specialize (Hf _ Hin). cbn in Hf.
    rewrite Hs. by apply lookup_seq_lt. }
  split; [|done]. intros (i & v & Hin & Hn). rewrite (Hi _ _ Hin) in Hn. done.
Qed.

(** A complete runtime configuration, and the events that add and remove it. *)
Definition example_data : gmap string string :=
  {[ issuerNameKey := "mesh-ca"; issuerKindKey := "Issuer"; issuerGroupKey := "cert-manager.io" ]}.
Definition example_configmap : ConfigMap :=
  {| cm_Namespace := "istio-system"; cm_Name := "istio-issuer"; cm_Labels := None;
     cm_Data := Some example_data |}.
Definition example_added : Event :=
  {| ev_Type := Added; ev_Object := ObjConfigMap example_configmap |}.
Definition example_deleted : Event :=
  {| ev_Type := Deleted; ev_Object := ObjConfigMap example_configmap |}.

Tactic Notation "run_step" open_constr(c) :=
  eapply rtc_l; [eexists; eapply c; try reflexivity; try done|].

(** C34: a manager that starts without a default issuer can crash: the goroutines
    of [notifyIssuerChange] read [m.issuerChangeSubscriptions[i]] after the
    slice was replaced by the filtered one, so once a first
    [WaitForIssuerConfig] has returned and closed its subscription, a
    configuration that is removed and added again while a second call waits
    makes a goroutine index out of range. *)
Theorem notify_index_out_of_range m :
  activeIssuerRef m = None → originalIssuerRef m = None →
  ∃ x, rtc any_step (start m) x ∧ panics (st x).
Proof.
  destruct m as [o a orig]; cbn. intros -> ->. eexists. split.
  - unfold start, initial.
    run_step step_wait_slow. run_step step_wait_subscribe. cbn.
    run_step (step_config _ _ example_added). cbn.
    run_step (step_resolve _ _ []). cbn.
    run_step (step_wait_receive _ []). cbn.
    run_step step_wait_close. cbn.
    run_step (step_config _ _ example_deleted). cbn.
    run_step step_wait_slow. run_step step_wait_subscribe. cbn.
    run_step (step_config _ _ example_added).
    apply rtc_refl.
  - eexists 1%nat, _. cbn. split; [by left|done].
Qed.

(** No step but a configuration event, or the end of its context, lets a waiter
    go on for which nothing is under way. *)
Lemma waiter_stuck x l y sub :
  sys_step x l y → (l = Internal ∨ l = Subscribe) →
  wait x = Waiting sub → starting (st x) = [] → sending (st x) = [] →
  wait y = Waiting sub ∧ starting (st y) = [] ∧ sending (st y) = [].
Proof.
  intros H Hl Hw Hst Hse.
  destruct H as [| |s w l1 i v l2 sub' Hs _|s w l1 sub' v l2 Hs _| | | |s l1 sub' v l2 Hs| |];
    cbn in *; try naive_solver.
  - rewrite Hst in Hs. by destruct l1.
  - rewrite Hse in Hs. by destruct l1.
  - rewrite Hse in Hs. by destruct l1.
Qed.

(** C35: [WaitForIssuerConfig] can miss the issuer it waits for: from the start
    of a manager without an issuer, a configuration that arrives between its
    [HasIssuerConfig] test and its subscription leaves it waiting although an
    issuer is active, and it goes on waiting, whatever else runs, until the
    configuration changes again or its context ends. *)
Theorem wait_can_miss_configuration m :
  activeIssuerRef m = None →
  ∃ x sub, rtc any_step (start m) x ∧
    HasIssuerConfig (st x) = true ∧ wait x = Waiting sub ∧
    ∀ y, rtc (λ a b, sys_step a Internal b ∨ sys_step a Subscribe b) x y →
         wait y = Waiting sub.
Proof.
  destruct m as [o a orig]; cbn. intros ->. eexists _, _. split_and!.
  - unfold start, initial. run_step step_wait_slow.
    run_step (step_config _ _ example_added). run_step step_wait_subscribe. apply rtc_refl.
  - done.
  - done.
  - cbn. intros y Hr.
    enough (wait y = Waiting 0 ∧ starting (st y) = [] ∧ sending (st y) = []) by naive_solver.
    revert Hr. match goal with |- rtc _ ?x y → _ =>
      assert (wait x = Waiting 0 ∧ starting (st x) = [] ∧ sending (st x) = []) as Hx by done;
      revert Hx; generalize x end.
    intros x Hx Hr. induction Hr as [|x0 x1 x2 Hs _ IH]; [done|]. apply IH.
    destruct Hs as [Hs|Hs]; eapply waiter_stuck in Hs; naive_solver.
Qed.

(** [RuntimeConfigurationWatcher.Start] looks at its context only while a
    watch is open: if creating the watch keeps failing, as it does once the
    context is cancelled, every run of the loop is back at creating the watch
    and the function never returns. *)
Theorem watcher_ignores_context_while_failing s n ph s' :
  rcw_run (Creating, s) (replicate n WatchFailed) (ph, s') → ph = Creating ∧ s' = s.
Proof.
  induction n as [|n IH]; cbn; intros H; inversion H as [|? ? c' ? ? Hs Hr]; subst; [done|].
  inversion Hs; subst. by apply IH.
Qed.

(* ------------------------------------------------------------------ *)
(** ** Instances *)

(** A run that loses its watch, and is told of a configuration and a broken one. *)
Definition example_broken : Event :=
  {| ev_Type := Modified;
     ev_Object := ObjConfigMap {| cm_Namespace := "istio-system"; cm_Name := "istio-issuer";
                                  cm_Labels := None; cm_Data := None |} |}.
Definition example_unconfigured : manager :=
  {| opts := example_opts; activeIssuerRef := None; originalIssuerRef := None |}.
Definition example_inputs : list rcw_input :=
  [WatchFailed; WatchCreated; Received example_added; ChannelClosed; WatchCreated;
   Received example_broken].

Lemma active_issuer_follows_config_witness :
  active (handle_event example_broken (handle_event example_added
            (initial example_unconfigured))) =
  default None (last (omap (event_effect None) (received example_inputs))).
Proof.
  apply (active_issuer_follows_config Creating (initial example_unconfigured) example_inputs
           Selecting).
  repeat (eapply rcw_run_cons; [constructor|]). constructor.
Defined.

Lemma active_issuer_complete_witness :
  (∀ r, active (handle_event example_deleted (initial example_manager)) = Some r →
        issuer_complete r) ∧
  (Some example_issuer ≠ None →
   HasIssuerConfig (handle_event example_deleted (initial example_manager)) = true).
Proof.
  apply (active_issuer_complete (Ok tt : result unit unit) (Ok tt) example_opts example_manager
           {| st := handle_event example_deleted (initial example_manager); wait := Idle |}).
  - reflexivity.
  - apply rtc_once. exists (Config example_deleted). constructor.
Defined.

Example notify_safe_without_close_example :
  ¬ panics (handle_event example_added (SubscribeIssuerChange (initial example_manager)).2).
Proof.
  apply (notify_safe_without_close example_manager
    {| st := handle_event example_added (SubscribeIssuerChange (initial example_manager)).2;
       wait := Idle |}).
  - eapply rtc_l; [exists Subscribe; constructor|].
    apply rtc_once. exists (Config example_added). constructor.
  - reflexivity.
Qed.

Lemma notify_index_out_of_range_witness :
  ∃ x, rtc any_step (start example_unconfigured) x ∧ panics (st x).
Proof. apply (notify_index_out_of_range example_unconfigured); reflexivity. Defined.

Lemma wait_can_miss_configuration_witness :
  ∃ x sub, rtc any_step (start example_unconfigured) x ∧
    HasIssuerConfig (st x) = true ∧ wait x = Waiting sub ∧
    ∀ y, rtc (λ a b, sys_step a Internal b ∨ sys_step a Subscribe b) x y →
         wait y = Waiting sub.
Proof. apply (wait_can_miss_configuration example_unconfigured); reflexivity. Defined.
