(* ===== verification/IssuerLock.v ===== *)
(** * The lock on the active issuer

    [pkg/certmanager/certmanager.go]: [activeIssuerRefMutex], a [sync.RWMutex].
    [Sign] holds it for reading until the CertificateRequest it created has been
    decided, [HasIssuerConfig] for the moment of its test, and the handlers of
    configuration events need it for writing.  A writer that waits keeps new
    readers out, as the documentation of [sync.RWMutex] says.

    The steps are those of the goroutines that use the lock; the state they
    guard is the manager's, from the file on runtime configuration, and what a
    call of [Sign] does while it holds the lock is [CertManager.Sign]: the file
    shows that the manager such a call has read is the manager throughout, which
    is why [Sign] can be a function of it. *)

From S2P Require Import Prelude Kube CertManager IssuerConfig.

(* ------------------------------------------------------------------ *)
(** ** State *)

(** The goroutine of the configuration watcher: it waits for an event, or for
    the lock with an event in hand. *)
Inductive config_thread := AwaitEvent | AwaitLock (event : Event).

Record locked := {
  guarded : mstate;
  signing : list CertRequest;
  thread : config_thread;
}.

(** The requests that the calls of [Sign] in progress create; each of the calls
    holds the lock for reading. *)
Definition readers (x : locked) : nat := length (signing x).

(** Go's rule for readers: none gets in while a writer waits. *)
Definition may_read (x : locked) : bool :=
  match thread x with AwaitEvent => true | AwaitLock _ => false end.

(** [HasIssuerConfig] through the lock: [Blocked] until it may read. *)
Definition HasIssuerConfig_call (x : locked) : outcome bool :=
  if may_read x then Ret (HasIssuerConfig (guarded x)) else Blocked.

(* ------------------------------------------------------------------ *)
(** ** Steps *)

(** What happens: a call of [Sign] takes the lock and finds an issuer (without
    one it returns at once, and nothing has changed), its
    request is decided (or its wait fails) and it returns, a configuration event
    arrives, or its handler gets the lock and runs. *)
Inductive lock_label := SignBegins | SignReturns | ConfigArrives (event : Event) | ConfigApplied.

Inductive lock_step : locked → lock_label → locked → Prop :=
| lock_sign_begins s l t ref identities csrPEM duration usages :
    may_read {| guarded := s; signing := l; thread := t |} = true → active s = Some ref →
    lock_step {| guarded := s; signing := l; thread := t |} SignBegins
              {| guarded := s;
                 signing := newCertificateRequest (mgr s) ref identities csrPEM duration usages :: l;
                 thread := t |}
| lock_sign_returns s l1 cr l2 t :
    lock_step {| guarded := s; signing := l1 ++ cr :: l2; thread := t |} SignReturns
              {| guarded := s; signing := l1 ++ l2; thread := t |}
| lock_config_arrives s l e :
    lock_step {| guarded := s; signing := l; thread := AwaitEvent |} (ConfigArrives e)
              {| guarded := s; signing := l; thread := AwaitLock e |}
| lock_config_applied s e :
    lock_step {| guarded := s; signing := []; thread := AwaitLock e |} ConfigApplied
              {| guarded := handle_event e s; signing := []; thread := AwaitEvent |}.

Inductive lock_run : locked → list lock_label → locked → Prop :=
| lock_run_nil x : lock_run x [] x
| lock_run_cons x l y ls z : lock_step x l y → lock_run y ls z → lock_run x (l :: ls) z.

Definition lock_start (m : manager) : locked :=
  {| guarded := initial m; signing := []; thread := AwaitEvent |}.

(* ------------------------------------------------------------------ *)
(** ** Lemmas *)

(** [cr] is the request that a call of [Sign] creates with the manager [m]. *)
Definition created_by (m : manager) (cr : CertRequest) : Prop :=
  ∃ ref identities csrPEM duration usages,
    activeIssuerRef m = Some ref ∧
    cr = newCertificateRequest m ref identities csrPEM duration usages.

(** Requests in progress are those [Sign] creates with the manager as it is. *)
Definition signing_ok (x : locked) : Prop := Forall (created_by (mgr (guarded x))) (signing x).

Lemma signing_ok_step x l y : lock_step x l y → signing_ok x → signing_ok y.
Proof.
  intros Hs Hx. destruct Hs; unfold signing_ok in *; cbn in *; [| |done|done].
  - constructor; [|done]. by eexists _, _, _, _, _.
  - rewrite Forall_app, Forall_cons in Hx. apply Forall_app. naive_solver.
Qed.

Lemma lock_run_app x ls1 y ls2 z :
  lock_run x ls1 y → lock_run y ls2 z → lock_run x (ls1 ++ ls2) z.
Proof. induction 1; cbn; [done|]. intros Hz. econstructor; eauto. Qed.

(** All calls in progress can return. *)
Lemma signs_return s l t :
  lock_run {| guarded := s; signing := l; thread := t |} (replicate (length l) SignReturns)
           {| guarded := s; signing := []; thread := t |}.
Proof.
  induction l as [|cr l IH]; cbn; [constructor|].
  econstructor; [apply (lock_sign_returns s [] cr l t)|]. exact IH.
Qed.

(** The state in which the waiting event [e] has been handled. *)
Definition applied (e : Event) (x : locked) : locked :=
  {| guarded := handle_event e (guarded x); signing := []; thread := AwaitEvent |}.

(** While a change waits nothing happens but the return of calls, until the last
    of them has returned and the change is applied. *)
Lemma waiting_change_is_next x e ls y :
  thread x = AwaitLock e → lock_run x ls y →
  (∃ k, (k ≤ readers x)%nat ∧ ls = replicate k SignReturns ∧
        guarded y = guarded x ∧ thread y = AwaitLock e) ∨
  ∃ ls', ls = replicate (readers x) SignReturns ++ ConfigApplied :: ls' ∧
         lock_run (applied e x) ls' y.
Proof.
  intros Ht Hr. induction Hr as [x|x l y ls z Hs Hr IH]; [left; exists 0%nat; split_and!; [lia|done..]|].
  destruct Hs as [s l t ref ids csr d us Hm _|s l1 cr l2 t|s l e'|s e']; cbn in Ht; try done.
  - unfold may_read in Hm. cbn in Hm. by rewrite Ht in Hm.
  - assert (readers {| guarded := s; signing := l1 ++ cr :: l2; thread := t |} =
            S (readers {| guarded := s; signing := l1 ++ l2; thread := t |})) as ->.
    { unfold readers. cbn. rewrite !length_app. cbn. lia. }
    destruct (IH Ht) as [(k & Hk & -> & Hy)|(ls' & -> & Hr')].
    + left. exists (S k). split_and!; [lia|done|apply Hy..].
    + right. by exists ls'.
  - injection Ht as ->. right. by exists ls.
Qed.

(* ------------------------------------------------------------------ *)
(** ** Theorems *)

(** C26: the lock serialises issuance and configuration.  In every run, each call of
    [Sign] in progress is creating the request that [Sign] creates with the
    manager as it is now, for the issuer that is active now, so that a request is
    never in flight for an issuer that has been replaced.  And while a
    configuration change waits for the lock, it is next: whatever happens, no call
    of [Sign] begins and the state is unchanged until every call in progress has
    returned and the change has been applied; and that can happen. *)
Theorem sign_and_config_are_serialised m ls x :
  lock_run (lock_start m) ls x →
  Forall (λ cr,
    active (guarded x) = Some (cr_IssuerRef cr) ∧
    ∃ identities csrPEM duration usages, ∀ E denied condition (server : CRServer E) w,
      ∃ cs, calls (Sign denied condition server (mgr (guarded x)) identities csrPEM duration
                     usages w).2 = calls w ++ CallCreate cr :: cs ∧
            (∀ c, CallCreate c ∉ cs)) (signing x) ∧
  ∀ e, thread x = AwaitLock e →
    (∀ ls' y, lock_run x ls' y →
       (∃ k, (k ≤ readers x)%nat ∧ ls' = replicate k SignReturns ∧
             guarded y = guarded x ∧ thread y = AwaitLock e) ∨
       ∃ ls'', ls' = replicate (readers x) SignReturns ++ ConfigApplied :: ls'' ∧
               lock_run (applied e x) ls'' y) ∧
    lock_run x (replicate (readers x) SignReturns ++ [ConfigApplied]) (applied e x).
Proof.
  intros Hr. split.
  - assert (signing_ok (lock_start m)) as H0 by constructor.
    assert (signing_ok x) as Hok by (induction Hr; eauto using signing_ok_step).
    eapply Forall_impl; [exact Hok|].
    intros cr (ref & ids & csr & d & us & Ha & ->). split; [exact Ha|].
    exists ids, csr, d, us. intros E denied condition server w.
    by eapply Sign_calls; [|apply surjective_pairing].
  - intros e Ht. split; [intros ls' y; by apply waiting_change_is_next|].
    destruct x as [s l t]. cbn in Ht. subst t. eapply lock_run_app; [apply signs_return|].
    econstructor; [apply lock_config_applied|constructor].
Qed.

(** One request that is never decided stops everything: with a call of [Sign]
    in progress and a configuration change waiting, as long as no call of [Sign]
    returns the change is not applied, whatever happens, no other request is
    accepted, and every test for an issuer blocks, the readiness checks'
    included; so a change that would replace a broken issuer waits for the
    requests to that issuer. *)
Theorem undecided_request_blocks_configuration x e ls y :
  signing x ≠ [] → thread x = AwaitLock e →
  SignReturns ∉ ls → lock_run x ls y →
  y = x ∧ ls = [] ∧ HasIssuerConfig_call y = Blocked.
Proof.
  intros Hs Ht Hn Hr. assert (HasIssuerConfig_call x = Blocked) as Hb.
  { unfold HasIssuerConfig_call, may_read. by rewrite Ht. }
  destruct Hr as [x|x l y ls z Hstep _]; [done|]. exfalso.
  destruct Hstep as [s sl t ref ids csr d us Hm _|s l1 cr l2 t|s sl e'|s e']; cbn in *.
  - unfold may_read in Hm. cbn in Hm. by rewrite Ht in Hm.
  - apply Hn. by left.
  - done.
  - done.
Qed.

(* ------------------------------------------------------------------ *)
(** ** Instances *)

(** A request to the issuer of the configuration is in progress, and the
    configuration has just been deleted. *)
Definition example_in_progress : CertRequest :=
  newCertificateRequest example_manager example_issuer "id" "CSR" 3600 example_usages.
Definition example_locked : locked :=
  {| guarded := initial example_manager; signing := [example_in_progress];
     thread := AwaitLock example_deleted |}.

Lemma sign_and_config_are_serialised_witness :
  active (guarded example_locked) = Some (cr_IssuerRef example_in_progress) ∧
  (∀ y, ¬ lock_run example_locked [SignBegins] y) ∧
  lock_run example_locked [SignReturns; ConfigApplied] (applied example_deleted example_locked).
Proof.
  destruct (sign_and_config_are_serialised example_manager
              [SignBegins; ConfigArrives example_deleted] example_locked) as (Hs & Ht).
  { econstructor; [constructor; reflexivity|]. econstructor; [constructor|constructor]. }
  destruct (Ht example_deleted eq_refl) as (Hruns & Hrun). split_and!; [|intros y Hy|exact Hrun].
  - by apply Forall_cons in Hs as [[Ha _] _].
  - apply Hruns in Hy as [([|k] & _ & [=] & _)|(ls & [=] & _)].
Defined.

Example undecided_request_blocks_configuration_example :
  example_locked = example_locked ∧ @nil lock_label = [] ∧
  HasIssuerConfig_call example_locked = Blocked.
Proof.
  apply (undecided_request_blocks_configuration example_locked example_deleted);
    [discriminate|reflexivity|apply not_elem_of_nil|constructor].
Qed.
