(* ===== verification/RootCA.v ===== *)
(** * Root CA bundle

    [pkg/tls/rootca/rootca.go]: the mesh's root CAs, read from a file that is
    watched for changes.  The file's contents and the PEM decoder are arguments;
    the watcher's goroutine is a step relation on what it last loaded and what
    it has broadcast. *)

From S2P Require Import Prelude.

Open Scope Z_scope.

(* ------------------------------------------------------------------ *)
(** ** Certificate pools *)

Section pools.
Context {Cert : Type} `{EqDecision Cert}.

(** [x509.CertPool]: the certificates added, each once, in order. *)
Definition CertPool := list Cert.

Definition AddCert (pool : CertPool) (c : Cert) : CertPool :=
  if decide (c ∈ pool) then pool else pool ++ [c].

(** [x509.NewCertPool()] followed by the loop of [AddCert]. *)
Definition pool_of (certs : list Cert) : CertPool := foldl AddCert [] certs.

Lemma foldl_AddCert_spec certs pool :
  NoDup pool →
  NoDup (foldl AddCert pool certs) ∧
  ∀ c, c ∈ foldl AddCert pool certs ↔ c ∈ pool ∨ c ∈ certs.
Proof.
  revert pool. induction certs as [|c0 certs IH]; intros pool Hn; cbn [foldl].
  { split; [done|]. set_solver. }
  assert (NoDup (AddCert pool c0) ∧ ∀ c, c ∈ AddCert pool c0 ↔ c ∈ pool ∨ c = c0) as [Hn' He].
  { unfold AddCert. case_decide as Hd; [split; [done|naive_solver]|].
    split; [|set_solver]. apply NoDup_app. split_and!; [done|set_solver|apply NoDup_singleton]. }
  destruct (IH _ Hn') as [? Hin]. split; [done|]. intros c. rewrite Hin, He. set_solver.
Qed.

Lemma elem_of_pool_of certs c : c ∈ pool_of certs ↔ c ∈ certs.
Proof.
  unfold pool_of. rewrite (proj2 (foldl_AddCert_spec certs [] (NoDup_nil_2))). set_solver.
Qed.
End pools.
Arguments CertPool : clear implicits.

(** [RootCAs]; a nil [CertPool] is [None], a nil [PEM] the empty string. *)
Record RootCAs (Cert : Type) := {
  PEM : string;
  Pool : option (CertPool Cert);
}.
Arguments PEM {Cert} _.
Arguments Pool {Cert} _.

Definition noRootCAs {Cert} : RootCAs Cert := {| PEM := ""; Pool := None |}.

(* ------------------------------------------------------------------ *)
(** ** The watcher *)

Inductive load_error (FE DE : Type) :=
| ReadError (e : FE)
| DecodeError (e : DE).
Arguments ReadError {FE DE} _.
Arguments DecodeError {FE DE} _.

Inductive watch_error (FE DE : Type) :=
| LoadBundle (e : load_error FE DE)
| EmptyBundle
| CreateFileWatch (e : FE)
| AddFileWatch (e : FE).
Arguments LoadBundle {FE DE} _.
Arguments EmptyBundle {FE DE}.
Arguments CreateFileWatch {FE DE} _.
Arguments AddFileWatch {FE DE} _.

Section watcher.
Context {Cert FE DE : Type} `{EqDecision Cert}.
Context (DecodeX509CertificateSetBytes : string → result DE (list Cert)).

(** [loadRootCAsFile] when the watcher last loaded [rootCAsPEM] and reading the
    file gives [file]: [Ok None] is "no change". *)
Definition loadRootCAsFile (rootCAsPEM : string) (file : result FE string)
    : result (load_error FE DE) (option (RootCAs Cert)) :=
  match file with
  | Err err => Err (ReadError err)
  | Ok pem =>
      if decide (pem = rootCAsPEM) then Ok None
      else
        match DecodeX509CertificateSetBytes pem with
        | Err err => Err (DecodeError err)
        | Ok certs => Ok (Some {| PEM := pem; Pool := Some (pool_of certs) |})
        end
  end.

(** The watcher's goroutine: the bundle it last loaded, what it has sent on
    [broadcastChan], whether the file is still being watched, and whether the
    goroutine is running. *)
Record watcher := {
  w_rootCAsPEM : string;
  w_broadcasts : list (RootCAs Cert);
  w_watching : bool;
  w_running : bool;
}.

(** [Watch]: load the file, set up the notification, start the goroutine, whose
    first action is to send the initial bundle.  The send is taken as completed:
    the channel has no buffer, but until it is received the goroutine does
    nothing else, so the states before are those in which no event was handled. *)
Definition Watch (file : result FE string) (newWatcher add : result FE unit)
    : result (watch_error FE DE) watcher :=
  match loadRootCAsFile "" file with
  | Err err => Err (LoadBundle err)
  | Ok None => Err EmptyBundle
  | Ok (Some rootCAs) =>
      match newWatcher with
      | Err err => Err (CreateFileWatch err)
      | Ok _ =>
          match add with
          | Err err => Err (AddFileWatch err)
          | Ok _ => Ok {| w_rootCAsPEM := PEM rootCAs; w_broadcasts := [rootCAs];
                          w_watching := true; w_running := true |}
          end
      end
  end.

Definition reloadConfig (file : result FE string) (w : watcher) : watcher :=
  match loadRootCAsFile (w_rootCAsPEM w) file with
  | Err _ => w
  | Ok None => w
  | Ok (Some rootCAs) =>
      {| w_rootCAsPEM := PEM rootCAs; w_broadcasts := w_broadcasts w ++ [rootCAs];
         w_watching := w_watching w; w_running := w_running w |}
  end.

(** The bits of an [fsnotify.Op]. *)
Definition fsnotify_Write : Z := 2.
Definition fsnotify_Remove : Z := 4.

(** What the select of the goroutine meets. *)
Inductive fs_input :=
| FsContextDone
| FsEvent (op : Z) (readd : result FE unit) (file : result FE string)
| FsError (e : FE).

(** One iteration of the loop.  A [Remove] event re-adds the watch, and the
    file is not watched any more when that fails. *)
Definition handle_fs (i : fs_input) (w : watcher) : watcher :=
  match i with
  | FsContextDone =>
      {| w_rootCAsPEM := w_rootCAsPEM w; w_broadcasts := w_broadcasts w;
         w_watching := false; w_running := false |}
  | FsEvent op readd file =>
      let w1 :=
        if op =? fsnotify_Remove then
          reloadConfig file
            {| w_rootCAsPEM := w_rootCAsPEM w; w_broadcasts := w_broadcasts w;
               w_watching := is_Ok readd; w_running := w_running w |}
        else w in
      if Z.land op fsnotify_Write =? fsnotify_Write then reloadConfig file w1 else w1
  | FsError _ => w
  end.

(** Iterations happen while the goroutine runs, and file events while the file
    is watched. *)
Inductive fs_step (w : watcher) : fs_input → watcher → Prop :=
| fs_step_done : w_running w = true → fs_step w FsContextDone (handle_fs FsContextDone w)
| fs_step_event op readd file :
    w_running w = true → w_watching w = true →
    fs_step w (FsEvent op readd file) (handle_fs (FsEvent op readd file) w)
| fs_step_error e : w_running w = true → fs_step w (FsError e) (handle_fs (FsError e) w).

Inductive fs_run (w : watcher) : list fs_input → watcher → Prop :=
| fs_run_nil : fs_run w [] w
| fs_run_snoc ins w1 i w2 : fs_run w ins w1 → fs_step w1 i w2 → fs_run w (ins ++ [i]) w2.

(* ------------------------------------------------------------------ *)
(** ** What is broadcast *)

(** A bundle as the loader builds it. *)
Definition bundle_ok (r : RootCAs Cert) : Prop :=
  ∃ certs, DecodeX509CertificateSetBytes (PEM r) = Ok certs ∧ Pool r = Some (pool_of certs).

(** No two bundles sent one after the other are the same file. *)
Fixpoint changes (l : list (RootCAs Cert)) : Prop :=
  match l with
  | r1 :: (r2 :: _) as l' => PEM r1 ≠ PEM r2 ∧ changes l'
  | _ => True
  end.

Lemma changes_snoc l r :
  changes (l ++ [r]) ↔ changes l ∧ (∀ r', last l = Some r' → PEM r' ≠ PEM r).
Proof.
  induction l as [|r1 l IH]; [naive_solver|].
  destruct l as [|r2 l]; [cbn; naive_solver|].
  change (changes ((r1 :: r2 :: l) ++ [r])) with
    (PEM r1 ≠ PEM r2 ∧ changes ((r2 :: l) ++ [r])).
  rewrite IH. change (changes (r1 :: r2 :: l)) with (PEM r1 ≠ PEM r2 ∧ changes (r2 :: l)).
  rewrite last_cons_cons. tauto.
Qed.

Definition watcher_ok (w : watcher) : Prop :=
  Forall bundle_ok (w_broadcasts w) ∧ changes (w_broadcasts w) ∧
  ∃ r, last (w_broadcasts w) = Some r ∧ PEM r = w_rootCAsPEM w.

Lemma loadRootCAsFile_updated cur file r :
  loadRootCAsFile cur file = Ok (Some r) ↔
  file = Ok (PEM r) ∧ PEM r ≠ cur ∧ bundle_ok r.
Proof.
  unfold loadRootCAsFile, bundle_ok. destruct file as [pem|]; [|naive_solver].
  case_decide as Hd; [naive_solver|].
  destruct (DecodeX509CertificateSetBytes pem) as [certs|] eqn:E.
  - destruct r as [rp rpool]; cbn. split; [intros [= <- <-]; eauto 6|].
    intros ([= ->] & _ & certs' & Hc & ->). rewrite E in Hc. by injection Hc as ->.
  - split; [done|]. intros ([= ->] & _ & certs' & Hc & _). congruence.
Qed.

Lemma reloadConfig_ok file w : watcher_ok w → watcher_ok (reloadConfig file w).
Proof.
  intros (Hb & Hc & r0 & Hl & Hp). unfold reloadConfig.
  destruct (loadRootCAsFile _ file) as [[r|]|] eqn:E; [|by split_and!; eauto..].
  apply loadRootCAsFile_updated in E as (_ & Hne & Hok). split_and!; cbn.
  - apply Forall_app. auto.
  - apply changes_snoc. split; [done|]. rewrite Hl. intros r' [= <-]. congruence.
  - exists r. by rewrite last_snoc.
Qed.

Lemma handle_fs_ok i w : watcher_ok w → watcher_ok (handle_fs i w).
Proof.
  intros Hw. destruct i as [|op readd file|e]; cbn [handle_fs]; [done| |done].
  set (w1 := if op =? fsnotify_Remove then _ else w).
  assert (watcher_ok w1).
  { unfold w1. destruct (op =? fsnotify_Remove); [by apply reloadConfig_ok|done]. }
  destruct (Z.land op fsnotify_Write =? fsnotify_Write); [by apply reloadConfig_ok|done].
Qed.

Lemma Watch_ok file nw add w : Watch file nw add = Ok w → watcher_ok w.
Proof.
  unfold Watch. destruct (loadRootCAsFile "" file) as [[r|]|] eqn:E; [|done..].
  destruct nw; [|done]. destruct add; [|done]. intros [= <-].
  apply loadRootCAsFile_updated in E as (_ & _ & Hok).
  split_and!; cbn; [by constructor|done|]. by exists r.
Qed.

#[local] Hint Resolve reloadConfig_ok handle_fs_ok : golang.

Lemma fs_run_ok w ins w' : watcher_ok w → fs_run w ins w' → watcher_ok w'.
Proof.
  intros Hw. induction 1 as [|ins w1 i w2 _ IH Hs]; [done|].
  destruct Hs; auto with golang.
Qed.

(** The content an input makes the watcher load: the file, if the event is a
    removal or a write and the content decodes. *)
Definition loads (i : fs_input) : option string :=
  match i with
  | FsEvent op _ (Ok pem) =>
      if (op =? fsnotify_Remove) || (Z.land op fsnotify_Write =? fsnotify_Write) then
        match DecodeX509CertificateSetBytes pem with Ok _ => Some pem | Err _ => None end
      else None
  | _ => None
  end.

Lemma reloadConfig_PEM file w :
  w_rootCAsPEM (reloadConfig file w) =
  match file with
  | Ok pem =>
      match DecodeX509CertificateSetBytes pem with Ok _ => pem | Err _ => w_rootCAsPEM w end
  | Err _ => w_rootCAsPEM w
  end.
Proof.
  unfold reloadConfig, loadRootCAsFile. destruct file as [pem|]; [|done].
  case_decide as Hd.
  - subst. by case_match.
  - by destruct (DecodeX509CertificateSetBytes pem).
Qed.

Lemma handle_fs_PEM i w :
  w_rootCAsPEM (handle_fs i w) = default (w_rootCAsPEM w) (loads i).
Proof.
  destruct i as [|op readd file|e]; cbn [handle_fs loads]; [done| |done].
  destruct (Z.eqb_spec op fsnotify_Remove) as [->|Hne]; cbn [orb].
  - change (Z.land fsnotify_Remove fsnotify_Write =? fsnotify_Write) with false.
    cbn match. rewrite reloadConfig_PEM. destruct file as [pem|]; [|done].
    by destruct (DecodeX509CertificateSetBytes pem).
  - destruct (Z.land op fsnotify_Write =? fsnotify_Write); rewrite ?reloadConfig_PEM;
      (destruct file as [pem|]; [|done]); [|done].
    by destruct (DecodeX509CertificateSetBytes pem).
Qed.

Lemma fs_run_PEM w ins w' :
  fs_run w ins w' →
  w_rootCAsPEM w' = default (w_rootCAsPEM w) (last (omap loads ins)).
Proof.
  induction 1 as [|ins w1 i w2 _ IH Hs]; [done|].
  assert (w2 = handle_fs i w1) as -> by (by destruct Hs).
  rewrite handle_fs_PEM, IH, omap_app. csimpl.
  destruct (loads i); [by rewrite last_snoc|by rewrite app_nil_r].
Qed.

(* ------------------------------------------------------------------ *)
(** ** Theorems *)

(** Whatever file events, read errors and broken contents the watcher
    meets after a successful [Watch], everything it has broadcast is a file
    content that decodes, with the pool of exactly its certificates; no bundle
    repeats the one before it; and the last one sent is the content the watcher
    holds. *)
Theorem watcher_broadcasts_ok file nw add w ins w' :
  Watch file nw add = Ok w → fs_run w ins w' →
  Forall bundle_ok (w_broadcasts w') ∧ changes (w_broadcasts w') ∧
  ∃ r, last (w_broadcasts w') = Some r ∧ PEM r = w_rootCAsPEM w'.
Proof. intros HW Hr. eapply fs_run_ok; [by eapply Watch_ok|done]. Qed.

(** C23: the last bundle broadcast is the most recent content of the file that
    decodes, among those the watcher read after a removal or write event, and
    the initial content if there is none: a file that is unreadable or broken
    for a while is ignored until it is good again. *)
Theorem watcher_holds_last_good_file pem nw add w ins w' :
  Watch (Ok pem) nw add = Ok w → fs_run w ins w' →
  ∃ r, last (w_broadcasts w') = Some r ∧
       PEM r = default pem (last (omap loads ins)).
Proof.
  intros HW Hr.
  assert (w_rootCAsPEM w = pem) as Hpem.
  { unfold Watch in HW. destruct (loadRootCAsFile "" (Ok pem)) as [[r|]|] eqn:E; [|done..].
    apply loadRootCAsFile_updated in E as ([= ->] & _).
    destruct nw; [|done]. destruct add; [|done]. by injection HW as <-. }
  pose proof (fs_run_ok _ _ _ (Watch_ok _ _ _ _ HW) Hr) as (_ & _ & r & Hl & Hp).
  exists r. split; [done|]. rewrite Hp, (fs_run_PEM _ _ _ Hr). by rewrite Hpem.
Qed.

End watcher.

(* ------------------------------------------------------------------ *)
(** ** Instances *)

(** A file that is replaced, briefly broken, and then rewritten; the decoder
    reads one certificate and refuses the text "broken". *)
Definition example_decoder (pem : string) : result unit (list string) :=
  if decide (pem = "broken") then Err tt else Ok [pem].
Definition example_started : @watcher string :=
  {| w_rootCAsPEM := "root-1";
     w_broadcasts := [{| PEM := "root-1"; Pool := Some ["root-1"] |}];
     w_watching := true; w_running := true |}.
Definition example_events : list (@fs_input unit) :=
  [FsEvent fsnotify_Remove (Ok tt) (Ok "broken"); FsError tt;
   FsEvent fsnotify_Write (Ok tt) (Ok "root-2")].
Definition example_after : @watcher string :=
  foldl (λ w i, handle_fs (FE := unit) example_decoder i w) example_started example_events.

Lemma example_fs_run : fs_run (FE := unit) example_decoder example_started example_events
  example_after.
Proof.
  change example_events with ((([] ++ [FsEvent fsnotify_Remove (Ok tt) (Ok "broken")]) ++
    [FsError tt]) ++ [FsEvent fsnotify_Write (Ok tt) (Ok "root-2") : @fs_input unit]).
  repeat (eapply fs_run_snoc || apply fs_run_nil || (constructor; vm_compute; reflexivity)).
Qed.

Example watcher_broadcasts_ok_example :
  Forall (bundle_ok example_decoder) (w_broadcasts example_after) ∧
  changes (w_broadcasts example_after) ∧
  ∃ r, last (w_broadcasts example_after) = Some r ∧ PEM r = w_rootCAsPEM example_after.
Proof.
  eapply (watcher_broadcasts_ok (FE := unit) example_decoder (Ok "root-1") (Ok tt) (Ok tt)).
  - vm_compute. reflexivity.
  - apply example_fs_run.
Qed.

Lemma watcher_holds_last_good_file_witness :
  ∃ r, last (w_broadcasts example_after) = Some r ∧
       PEM r = default "root-1" (last (omap (loads example_decoder) example_events)).
Proof.
  eapply (watcher_holds_last_good_file (FE := unit) example_decoder "root-1" (Ok tt) (Ok tt)).
  - vm_compute. reflexivity.
  - apply example_fs_run.
Defined.
