(* ===== verification/TLSInterface.v ===== *)
(** * The interface of the TLS provider

    [tls.Interface] of [pkg/tls/tls.go], as far as its clients (the certificate
    service and the ConfigMap controller) use it for the mesh's roots, and what
    it promises them. *)

From S2P Require Import Prelude RootCA.

(** [tls.Interface], the method the server's requests use, and [ctx.Err()]. *)
Class TLSRoots (Ctx W CtxE Cert : Type) := {
  tls_RootCAs : Ctx → go W (option (RootCAs Cert));
  ctx_Err : Ctx → W → option CtxE;
}.
#[global] Hint Mode TLSRoots ! ! - - : typeclass_instances.

(** What the interface promises: [RootCAs] waits for the roots, so it returns
    nil only when the context has ended, and otherwise a loaded bundle. *)
Class TLSRootsSpec (Ctx W CtxE Cert : Type) `{TLSRoots Ctx W CtxE Cert} : Prop := {
  RootCAs_nil (ctx : Ctx) (w w' : W) :
    tls_RootCAs ctx w = (Ret None, w') → is_Some (ctx_Err ctx w');
  RootCAs_loaded (ctx : Ctx) (w : W) (r : RootCAs Cert) (w' : W) :
    tls_RootCAs ctx w = (Ret (Some r), w') → PEM r ≠ "" ∧ is_Some (Pool r);
}.
