(* ===== verification/Server.v ===== *)
(** * The certificate service

    [pkg/server/server.go]: [CreateCertificate] authenticates a request, has it
    signed through the [Signer] interface and checks the issued chain against
    the mesh's current roots, which it gets through the TLS provider's
    interface.  Both interfaces are type classes here: the theorems below hold
    of every implementation, and the files on the certificate manager and the
    TLS provider give the program's own. *)

From Stdlib Require Import Ascii.
From S2P Require Import Prelude GoStrings Asn1 Extensions NodeAuth Auth Kube CertManager RootCA TLSInterface.

Open Scope Z_scope.

(* ------------------------------------------------------------------ *)
(** ** The signer *)

(** [certmanager.Signer]. *)
Class Signer (W SE : Type) :=
  signer_Sign : string → string → Z → list KeyUsage → go W (result SE Bundle).
#[global] Hint Mode Signer ! - : typeclass_instances.

(* ------------------------------------------------------------------ *)
(** ** Options and construction *)

Record ServerOptions := {
  ClusterID : string;
  ServingAddress : string;
  MaximumClientCertificateDuration : Z;
  EnableClientCert : bool;
  CATrustedNodeAccounts : list string;
}.

(** The loop over [CATrustedNodeAccounts]: "namespace/account" pairs, others
    are ignored. *)
Definition parseTrustedNodeAccounts (accounts : list string) : gset NamespacedName :=
  foldl (λ trusted v,
    let '(ns, sa, valid) := strings_Cut v "/"%char in
    if valid then {[ {| nn_Namespace := ns; nn_Name := sa |} ]} ∪ trusted else trusted)
    ∅ accounts.

Definition newNodeAuthorizer (client : KClient) (o : ServerOptions)
    : option ClusterNodeAuthorizer :=
  if (0 <? length (CATrustedNodeAccounts o))%nat
  then Some (NewClusterNodeAuthorizer client (parseTrustedNodeAccounts (CATrustedNodeAccounts o)))
  else None.

(** The authenticators in the order they are tried. *)
Definition newAuthenticators {Ctx AE} (clientCert kubeJWT : @Authenticator Ctx AE)
    (o : ServerOptions) : list (@Authenticator Ctx AE) :=
  (if EnableClientCert o then [clientCert] else []) ++ [kubeJWT].

(** The fields of [Server] a request reads. *)
Record Server (Ctx AE : Type) := {
  srv_opts : ServerOptions;
  authenticators : list (@Authenticator Ctx AE);
  nodeAuthorizer : option ClusterNodeAuthorizer;
}.
Arguments srv_opts {Ctx AE} _.
Arguments authenticators {Ctx AE} _.
Arguments nodeAuthorizer {Ctx AE} _.

(** [New]; [client] is the result of building the Kubernetes client,
    [trustDomain] what the TLS provider says, and [NewKubeJWTAuthenticator] makes
    an authenticator for a mesh's trust domain and a cluster. *)
Definition NewServer {Ctx AE E} (client : result E KClient)
    (clientCert : @Authenticator Ctx AE)
    (NewKubeJWTAuthenticator : string → string → @Authenticator Ctx AE)
    (trustDomain : string) (o : ServerOptions) : result E (Server Ctx AE) :=
  c ← client;
  mret {| srv_opts := o;
          authenticators :=
            newAuthenticators clientCert (NewKubeJWTAuthenticator trustDomain (ClusterID o)) o;
          nodeAuthorizer := newNodeAuthorizer c o |}.

(* ------------------------------------------------------------------ *)
(** ** Issued chains *)

Inductive ExtKeyUsage := ExtKeyUsageServerAuth | ExtKeyUsageClientAuth.

(** [x509.VerifyOptions]. *)
Record VerifyOptions (Cert : Type) := {
  vo_Intermediates : CertPool Cert;
  vo_Roots : option (CertPool Cert);
  vo_KeyUsages : list ExtKeyUsage;
}.
Arguments vo_Intermediates {Cert} _.
Arguments vo_Roots {Cert} _.
Arguments vo_KeyUsages {Cert} _.

(** [pki.PEMBundle]. *)
Record PEMBundle := { ChainPEM : string; CAPEM : string }.

Inductive bundle_error (XE VE CtxE : Type) :=
| ParseChain (e : XE)
| DecodeChain (e : XE)
| VerifyChain (e : VE)
| EncodeCert (e : XE)
| ContextError (e : CtxE).
Arguments ParseChain {XE VE CtxE} _.
Arguments DecodeChain {XE VE CtxE} _.
Arguments VerifyChain {XE VE CtxE} _.
Arguments EncodeCert {XE VE CtxE} _.
Arguments ContextError {XE VE CtxE} _.

(** gRPC status codes the service answers with. *)
Inductive status :=
| Unauthenticated (msg : string)
| StatusInternal (msg : string).

Section server.
Context {Ctx W AE PE CE SE CSE URL Cert XE VE CtxE : Type}.
Context `{Stringer URL} `{Aggregator ext_error} `{EqDecision Cert}.
Context `{Signer W SE} `{TLSRoots Ctx W CtxE Cert}.
Context (ImpersonatedIdentity : string).
Context (ParsePemEncodedCSR : string → result CE (CertificateRequest URL)).
Context (CheckSignature : CertificateRequest URL → option CSE).
Context (ParseIdentity : string → result PE Identity).
(** cert-manager's [pki] functions and [x509.Certificate.Verify]. *)
Context (ParseSingleCertificateChainPEM : string → result XE PEMBundle).
Context (DecodeX509CertificateChainBytes : string → result XE (list Cert)).
Context (EncodeX509 : Cert → result XE string).
Context (Verify : Cert → VerifyOptions Cert → option VE).

(** The loop that encodes the chain. *)
Fixpoint encodeChain (certs : list Cert) : result XE (list string) :=
  match certs with
  | [] => mret []
  | cert :: rest =>
      certEncoded ← EncodeX509 cert;
      chain ← encodeChain rest;
      mret (certEncoded :: chain)
  end.

(** [parseCertificateBundle]: the chain and the error, both of which the caller
    sees. *)
Definition parseCertificateBundle (ctx : Ctx) (bundle : Bundle)
    : go W (list string * option (bundle_error XE VE CtxE)) :=
  match ParseSingleCertificateChainPEM (bundle_Certificate bundle) with
  | Err err => mret ([], Some (ParseChain err))
  | Ok respBundle =>
      match DecodeX509CertificateChainBytes (ChainPEM respBundle) with
      | Err err => mret ([], Some (DecodeChain err))
      | Ok respCerts =>
          match respCerts with
          | [] => go_outcome Panic                  (* respCerts[1:] *)
          | leaf :: intermediates =>
              let intermediatePool := pool_of intermediates in
              roots ← tls_RootCAs ctx;
              match roots with
              | None => w ← go_read (λ w, ctx_Err ctx w); mret ([], ContextError <$> w)
              | Some rootCAs =>
                  let o := {| vo_Intermediates := intermediatePool;
                              vo_Roots := Pool rootCAs;
                              vo_KeyUsages := [ExtKeyUsageClientAuth; ExtKeyUsageServerAuth] |} in
                  match Verify leaf o with
                  | Some err => mret ([], Some (VerifyChain err))
                  | None =>
                      match encodeChain respCerts with
                      | Err err => mret ([], Some (EncodeCert err))
                      | Ok certChain => mret (certChain ++ [PEM rootCAs], None)
                      end
                  end
              end
          end
      end
  end.

(** The duration a request is signed for: [time.Duration] multiplication wraps
    around at 64 bits. *)
Definition requestDuration (o : ServerOptions) (icr : IstioCertificateRequest) : Z :=
  Z.min (int64 (icr_ValidityDuration icr * time_Second)) (MaximumClientCertificateDuration o).

(** [s.authRequest]. *)
Definition server_auth (s : Server Ctx AE) ctx icr : outcome (string * bool) :=
  authRequest ImpersonatedIdentity ParsePemEncodedCSR CheckSignature ParseIdentity
    (authenticators s) (nodeAuthorizer s) ctx icr.

Definition CreateCertificate (s : Server Ctx AE) (ctx : Ctx) (icr : IstioCertificateRequest)
    : go W (result status (list string)) :=
  '(identities, ok) ← go_outcome (server_auth s ctx icr);
  if negb ok then mret (Err (Unauthenticated "request authenticate failure"))
  else
    let duration := requestDuration (srv_opts s) icr in
    signed ← signer_Sign identities (icr_Csr icr) duration [UsageClientAuth; UsageServerAuth];
    match signed with
    | Err err => mret (Err (StatusInternal "failed to sign certificate request"))
    | Ok bundle =>
        '(certChain, err) ← parseCertificateBundle ctx bundle;
        match err with
        | Some _ =>
            mret (Err (StatusInternal
                         "failed to parse and verify signed certificate from issuer"))
        | None => mret (Ok certChain)
        end
    end.

(* ------------------------------------------------------------------ *)
(** ** Lemmas *)

Lemma encodeChain_spec certs chain :
  encodeChain certs = Ok chain ↔ Forall2 (λ c e, EncodeX509 c = Ok e) certs chain.
Proof.
  revert chain. induction certs as [|c certs IH]; intros chain; cbn.
  - split; [by intros [= <-]|]. by inversion 1.
  - destruct (EncodeX509 c) as [e|] eqn:E; cbn.
    + destruct (encodeChain certs) as [es|] eqn:Es; cbn.
      * split; [intros [= <-]; constructor; [done|by apply IH]|].
        inversion 1 as [|? e' ? es' He Hes]; subst.
        apply (proj2 (IH _)) in Hes. unfold mret, result_ret. congruence.
      * split; [done|]. inversion 1 as [|? e' ? es' He Hes]; subst.
        by apply (proj2 (IH _)) in Hes.
    + split; [done|]. inversion 1; congruence.
Qed.

(** A chain is handed out only after the leaf verified against the roots the
    provider had, and it ends with those roots. *)
Definition verified_chain (bundle : Bundle) (roots : RootCAs Cert) (chain : list string) : Prop :=
  ∃ respBundle leaf intermediates encoded,
    ParseSingleCertificateChainPEM (bundle_Certificate bundle) = Ok respBundle ∧
    DecodeX509CertificateChainBytes (ChainPEM respBundle) = Ok (leaf :: intermediates) ∧
    Verify leaf {| vo_Intermediates := pool_of intermediates;
                   vo_Roots := Pool roots;
                   vo_KeyUsages := [ExtKeyUsageClientAuth; ExtKeyUsageServerAuth] |} = None ∧
    Forall2 (λ c e, EncodeX509 c = Ok e) (leaf :: intermediates) encoded ∧
    chain = encoded ++ [PEM roots].

Lemma parseCertificateBundle_Ok `{!TLSRootsSpec Ctx W CtxE Cert} ctx bundle w chain w' :
  parseCertificateBundle ctx bundle w = (Ret (chain, None), w') →
  ∃ roots, tls_RootCAs ctx w = (Ret (Some roots), w') ∧ verified_chain bundle roots chain.
Proof.
  unfold parseCertificateBundle, verified_chain.
  destruct (ParseSingleCertificateChainPEM _) as [rb|] eqn:E1; [|done].
  destruct (DecodeX509CertificateChainBytes _) as [[|leaf ims]|] eqn:E2; [done| |done].
  intros H'. apply go_bind_inv in H' as (roots & w1 & Hr & H').
  destruct roots as [roots|].
  - destruct (Verify leaf _) eqn:E3; [done|].
    destruct (encodeChain (leaf :: ims)) as [encoded|] eqn:E4; [|done].
    injection H' as <- <-. apply encodeChain_spec in E4. eauto 12.
  - cbn in H'. injection H' as _ H' _. exfalso.
    destruct (RootCAs_nil _ _ _ Hr) as [e He]. by rewrite He in H'.
Qed.

(** Conversely, a chain that verifies is handed on. *)
Lemma parseCertificateBundle_complete ctx bundle w roots chain w' :
  tls_RootCAs ctx w = (Ret (Some roots), w') → verified_chain bundle roots chain →
  parseCertificateBundle ctx bundle w = (Ret (chain, None), w').
Proof.
  intros Hr (rb & leaf & ims & encoded & E1 & E2 & E3 & E4 & ->).
  apply encodeChain_spec in E4. unfold parseCertificateBundle. rewrite E1, E2.
  unfold mbind, go_bind. by rewrite Hr, E3, E4.
Qed.

(** The chain a decoder produced is never empty, so its head exists. *)
Lemma parseCertificateBundle_no_panic ctx bundle w :
  (∀ pem, DecodeX509CertificateChainBytes pem ≠ Ok []) →
  (tls_RootCAs ctx w).1 ≠ Panic →
  (parseCertificateBundle ctx bundle w).1 ≠ Panic.
Proof.
  intros Hne Ht. unfold parseCertificateBundle.
  destruct (ParseSingleCertificateChainPEM _) as [rb|]; [|done].
  destruct (DecodeX509CertificateChainBytes _) as [[|leaf ims]|] eqn:E2; [|..|done].
  { by apply Hne in E2. }
  unfold mbind, go_bind. destruct (tls_RootCAs ctx w) as [[[roots|]| |] w1]; try done.
  destruct (Verify leaf _); [done|]. by destruct (encodeChain _).
Qed.

Lemma server_auth_returns (s : Server Ctx AE) ctx icr :
  (∀ a, a ∈ authenticators s → a ctx ≠ (None, None)) →
  ∃ p, server_auth s ctx icr = Ret p.
Proof.
  intros Hc. destruct (authRequest_no_panic ImpersonatedIdentity ParsePemEncodedCSR
    CheckSignature ParseIdentity (authenticators s) (nodeAuthorizer s) ctx icr Hc)
    as (ids & ok & Hr). by exists (ids, ok).
Qed.

(** What [CreateCertificate] does once the request is authenticated. *)
Lemma CreateCertificate_granted (s : Server Ctx AE) ctx icr ids w :
  server_auth s ctx icr = Ret (ids, true) →
  CreateCertificate s ctx icr w =
    (signed ← signer_Sign ids (icr_Csr icr) (requestDuration (srv_opts s) icr)
                [UsageClientAuth; UsageServerAuth];
     match signed with
     | Err err => mret (Err (StatusInternal "failed to sign certificate request"))
     | Ok bundle =>
         '(certChain, err) ← parseCertificateBundle ctx bundle;
         match err with
         | Some _ =>
             mret (Err (StatusInternal
                          "failed to parse and verify signed certificate from issuer"))
         | None => mret (Ok certChain)
         end
     end) w.
Proof.
  unfold CreateCertificate, mbind at 1, go_bind at 1, go_outcome.
  by intros ->.
Qed.

(* ------------------------------------------------------------------ *)
(** ** Theorems on requests *)

Context `{!AggregatorSpec ext_error} `{!TLSRootsSpec Ctx W CtxE Cert}.

(** The policy on requests, for this server. *)
Definition request_granted (s : Server Ctx AE) (ctx : Ctx) (icr : IstioCertificateRequest)
    (ids : string) : Prop :=
  granted ImpersonatedIdentity ParsePemEncodedCSR CheckSignature ParseIdentity
    (authenticators s) (nodeAuthorizer s) ctx icr ids.

(** C5: a request the policy does not grant never reaches the signer: whatever
    the signer, the roots and the world are, the answer is no certificate
    chain, and the world is untouched; it is the status Unauthenticated whenever
    the authenticators keep their promise of a caller when there is no error. *)
Theorem ungranted_requests_change_nothing (s : Server Ctx AE) ctx icr w :
  (∀ ids, ¬ request_granted s ctx icr ids) →
  (CreateCertificate s ctx icr w).2 = w ∧
  (∀ chain, (CreateCertificate s ctx icr w).1 ≠ Ret (Ok chain)) ∧
  ((∀ a, a ∈ authenticators s → a ctx ≠ (None, None)) →
   (CreateCertificate s ctx icr w).1 =
     Ret (Err (Unauthenticated "request authenticate failure"))).
Proof.
  intros Hn. unfold CreateCertificate, mbind, go_bind, go_outcome.
  destruct (server_auth s ctx icr) as [[ids [|]]| |] eqn:Ha; cbn.
  - exfalso. by apply (Hn ids), authRequest_granted.
  - done.
  - split_and!; [done..|]. intros Hc.
    apply (server_auth_returns s ctx icr) in Hc as [? Hr]. by rewrite Ha in Hr.
  - split_and!; [done..|]. intros Hc.
    apply (server_auth_returns s ctx icr) in Hc as [? Hr]. by rewrite Ha in Hr.
Qed.

(** A chain handed out, taken apart: the grant, the signer's answer, the roots
    and the verification. *)
Lemma CreateCertificate_Ok (s : Server Ctx AE) ctx icr w chain w' :
  CreateCertificate s ctx icr w = (Ret (Ok chain), w') →
  ∃ ids bundle w1 roots,
    request_granted s ctx icr ids ∧
    signer_Sign ids (icr_Csr icr) (requestDuration (srv_opts s) icr)
      [UsageClientAuth; UsageServerAuth] w = (Ret (Ok bundle), w1) ∧
    requestDuration (srv_opts s) icr ≤ MaximumClientCertificateDuration (srv_opts s) ∧
    tls_RootCAs ctx w1 = (Ret (Some roots), w') ∧
    verified_chain bundle roots chain ∧ last chain = Some (PEM roots).
Proof.
  intros Hc. destruct (server_auth s ctx icr) as [[ids [|]]| |] eqn:Ha;
    [|unfold CreateCertificate, mbind, go_bind, go_outcome in Hc; rewrite Ha in Hc; done..].
  rewrite (CreateCertificate_granted _ _ _ _ _ Ha) in Hc.
  apply go_bind_inv in Hc as ([bundle|err] & w1 & Hs & Hc); [|done].
  apply go_bind_inv in Hc as ([chain' [err|]] & w2 & Hp & Hc); [done|].
  injection Hc as -> ->. apply parseCertificateBundle_Ok in Hp as (roots & Hr & Hv).
  exists ids, bundle, w1, roots. split_and!; try done.
  - by apply authRequest_granted.
  - unfold requestDuration. lia.
  - destruct Hv as (? & ? & ? & ? & _ & _ & _ & _ & ->). by rewrite last_snoc.
Qed.

(** C3: every chain [CreateCertificate] hands out was earned: the request is one
    the policy grants, the signer was asked once, in the name of exactly the
    granted identities, for the CSR of the request, the capped duration and the
    client and server usages, and it signed; and the chain is the signer's,
    leaf first, verified for both usages against the roots the provider holds,
    which are its last entry. *)
Theorem issued_chains_are_granted_and_verified (s : Server Ctx AE) ctx icr w chain w' :
  CreateCertificate s ctx icr w = (Ret (Ok chain), w') →
  ∃ ids bundle w1 roots,
    request_granted s ctx icr ids ∧
    signer_Sign ids (icr_Csr icr) (requestDuration (srv_opts s) icr)
      [UsageClientAuth; UsageServerAuth] w = (Ret (Ok bundle), w1) ∧
    requestDuration (srv_opts s) icr ≤ MaximumClientCertificateDuration (srv_opts s) ∧
    tls_RootCAs ctx w1 = (Ret (Some roots), w') ∧
    verified_chain bundle roots chain ∧ last chain = Some (PEM roots).
Proof. apply CreateCertificate_Ok. Qed.

(** C20: a granted request is answered by what the signer and the roots say, on
    every branch: a signer error stops before the roots are asked for and is
    reported as Internal; a bundle that fails to decode, to verify or to encode,
    or a context that ends while the roots are awaited, is reported as Internal
    too; and a chain that verifies against the roots is handed out. *)
Theorem granted_requests_are_answered (s : Server Ctx AE) ctx icr ids w :
  request_granted s ctx icr ids →
  let signed := signer_Sign ids (icr_Csr icr) (requestDuration (srv_opts s) icr)
                  [UsageClientAuth; UsageServerAuth] w in
  (∀ e w1, signed = (Ret (Err e), w1) →
    CreateCertificate s ctx icr w =
      (Ret (Err (StatusInternal "failed to sign certificate request")), w1)) ∧
  (∀ bundle w1 e l w2, signed = (Ret (Ok bundle), w1) →
    parseCertificateBundle ctx bundle w1 = (Ret (l, Some e), w2) →
    CreateCertificate s ctx icr w =
      (Ret (Err (StatusInternal
                   "failed to parse and verify signed certificate from issuer")), w2)) ∧
  (∀ bundle w1 roots chain w2, signed = (Ret (Ok bundle), w1) →
    tls_RootCAs ctx w1 = (Ret (Some roots), w2) → verified_chain bundle roots chain →
    CreateCertificate s ctx icr w = (Ret (Ok chain), w2)).
Proof.
  intros Hg%authRequest_granted signed; [|done].
  pose proof (CreateCertificate_granted s ctx icr ids w Hg) as Hc.
  unfold mbind, go_bind in Hc. fold signed in Hc. split_and!.
  - intros e w1 Hs. by rewrite Hc, Hs.
  - intros bundle w1 e l w2 Hs Hp. by rewrite Hc, Hs, Hp.
  - intros bundle w1 roots chain w2 Hs Hr Hv.
    by rewrite Hc, Hs, (parseCertificateBundle_complete _ _ _ _ _ _ Hr Hv).
Qed.

End server.

(* ------------------------------------------------------------------ *)
(** ** Theorems on options *)

(** The duration a request is signed for never exceeds the configured
    maximum, and when the requested number of seconds fits in a
    [time.Duration] it is the smaller of the two. *)
Theorem requestDuration_capped o icr :
  requestDuration o icr ≤ MaximumClientCertificateDuration o ∧
  (in_int64 (icr_ValidityDuration icr * time_Second) →
   requestDuration o icr =
     Z.min (icr_ValidityDuration icr * time_Second) (MaximumClientCertificateDuration o)).
Proof.
  unfold requestDuration. split; [lia|]. intros H. by rewrite int64_id by auto with golang.
Qed.

(** C36: a request for more seconds than fit in a [time.Duration] is not
    overridden with the maximum: the multiplication wraps around, so that under
    every maximum there is a request above it for which the issuer is asked for
    a negative duration. *)
Theorem requestDuration_wraps o :
  in_int64 (MaximumClientCertificateDuration o) →
  0 < MaximumClientCertificateDuration o →
  ∃ icr, in_int64 (icr_ValidityDuration icr) ∧
    MaximumClientCertificateDuration o < icr_ValidityDuration icr * time_Second ∧
    requestDuration o icr < 0.
Proof.
  intros [_ Hmax] Hpos.
  exists {| icr_Csr := ""; icr_ValidityDuration := 9223372037; icr_Metadata := None |}.
  unfold requestDuration, in_int64, max_int64 in *; cbn [icr_ValidityDuration].
  assert (int64 (9223372037 * time_Second) = -9223372036709551616) as -> by reflexivity.
  split_and!; [done..| |]; unfold time_Second; lia.
Qed.

Lemma foldl_trusted accounts trusted nn :
  nn ∈ foldl (λ trusted v,
    let '(ns, sa, valid) := strings_Cut v "/"%char in
    if valid then {[ {| nn_Namespace := ns; nn_Name := sa |} ]} ∪ trusted else trusted)
    trusted accounts ↔
  nn ∈ (trusted : gset NamespacedName) ∨
  ∃ v, v ∈ accounts ∧ strings_Cut v "/"%char = (nn_Namespace nn, nn_Name nn, true).
Proof.
  revert trusted. induction accounts as [|v accounts IH]; intros trusted; cbn [foldl];
    [set_solver|].
  rewrite IH. destruct (strings_Cut v "/"%char) as [[ns sa] [|]] eqn:E.
  - rewrite elem_of_union, elem_of_singleton. setoid_rewrite elem_of_cons.
    destruct nn as [ns' sa']; cbn. split.
    { intros [[[= -> ->]|?]|(v' & ? & ?)]; eauto. }
    intros [?|(v' & [->|?] & Hv)]; [by left; right| |by eauto].
    rewrite E in Hv. injection Hv as -> ->. by left; left.
  - setoid_rewrite elem_of_cons. split; [naive_solver|].
    intros [?|(v' & [->|?] & Hv)]; [by left|congruence|eauto].
Qed.

(** The accounts trusted to impersonate are exactly those configured as
    "namespace/name", split at the first slash; entries without a slash name
    nobody, and impersonation is switched off exactly when nothing is
    configured. *)
Theorem trusted_accounts_parsed client o :
  match newNodeAuthorizer client o with
  | None => CATrustedNodeAccounts o = []
  | Some na =>
      CATrustedNodeAccounts o ≠ [] ∧ pods na = client ∧
      ∀ nn, nn ∈ trustedNodeAccounts na ↔
        contains_byte "/"%char (nn_Namespace nn) = false ∧
        nn_Namespace nn +:+ "/" +:+ nn_Name nn ∈ CATrustedNodeAccounts o
  end.
Proof.
  unfold newNodeAuthorizer. destruct (CATrustedNodeAccounts o) as [|a l] eqn:E; [done|].
  cbn [length Nat.ltb Nat.leb]. split_and!; [done..|]. intros nn.
  cbn [trustedNodeAccounts NewClusterNodeAuthorizer]. unfold parseTrustedNodeAccounts.
  rewrite foldl_trusted. setoid_rewrite strings_Cut_found. split.
  - intros [?|(v & Hv & -> & ?)]; [set_solver|]. done.
  - intros [? ?]. right. eexists. split; [done|]. done.
Qed.

(* ------------------------------------------------------------------ *)
(** ** Instances *)

(** A server in a world that counts the calls of the signer.  Certificates are
    strings, the signer returns a leaf and an intermediate, and the provider
    has one root. *)
#[local] Instance example_Stringer : Stringer string := id.
#[local] Instance example_Aggregator : Aggregator ext_error := example_aggregate.
#[local] Instance example_Signer : Signer nat unit := λ ids csr duration usages n,
  (Ret (Ok {| bundle_Certificate := "CHAIN"; bundle_CA := "CA" |}), S n).
Definition example_roots : RootCAs string :=
  {| PEM := "ROOTS"; Pool := Some (pool_of ["root"]) |}.
#[local] Instance example_TLSRoots : TLSRoots unit nat unit string :=
  {| tls_RootCAs := λ _ n, (Ret (Some example_roots), n);
     ctx_Err := λ _ _, None |}.

Lemma example_TLSRoots_spec : TLSRootsSpec unit nat unit string.
Proof.
  split; [by intros [] ? ?|].
  intros [] n r n' [= <- <-]. split; [done|]. by eexists.
Qed.

Definition example_parse (s : string) : result unit PEMBundle :=
  if decide (s = "CHAIN") then Ok {| ChainPEM := s; CAPEM := "" |} else Err tt.
Definition example_certs (s : string) : result unit (list string) := Ok ["leaf"; "intermediate"].
Definition example_encode (c : string) : result unit string := Ok ("PEM " +:+ c).
Definition example_verify (c : string) (o : VerifyOptions string) : option unit :=
  if decide ("root" ∈ default [] (vo_Roots o)) then None else Some tt.

Definition example_options (maximum : Z) : ServerOptions :=
  {| ClusterID := "Kubernetes"; ServingAddress := ":6443";
     MaximumClientCertificateDuration := maximum; EnableClientCert := false;
     CATrustedNodeAccounts := ["istio-system/ztunnel"; "nobody"] |}.
Definition example_server : Server unit unit :=
  {| srv_opts := example_options (3600 * time_Second);
     authenticators := example_auths;
     nodeAuthorizer := newNodeAuthorizer example_client (example_options 3600) |}.

(** The same request without its metadata asks for the proxy's own identity,
    which is not the one in its signing request. *)
Definition example_bad_icr : IstioCertificateRequest :=
  {| icr_Csr := "CSR"; icr_ValidityDuration := 3600; icr_Metadata := None |}.

Lemma ungranted_requests_change_nothing_witness :
  (CreateCertificate example_field example_decode example_signature example_ParseIdentity
     example_parse example_certs example_encode example_verify
     example_server tt example_bad_icr 7%nat).2 = 7%nat.
Proof.
  apply (ungranted_requests_change_nothing (AE := unit) (W := nat) (SE := unit)
    example_field example_decode example_signature
    example_ParseIdentity example_parse example_certs example_encode example_verify
    (AggregatorSpec0 := example_aggregate_spec)).
  intros ids Hg. apply authRequest_granted in Hg; [|apply example_aggregate_spec].
  vm_compute in Hg. discriminate Hg.
Defined.

Definition example_chain : list string := ["PEM leaf"; "PEM intermediate"; "ROOTS"].

Lemma issued_chains_are_granted_and_verified_witness :
  ∃ ids bundle w1 roots,
    request_granted example_field example_decode example_signature example_ParseIdentity
      example_server tt example_icr ids ∧
    signer_Sign ids "CSR" (3600 * time_Second) [UsageClientAuth; UsageServerAuth] 0%nat =
      (Ret (Ok bundle), w1) ∧
    3600 * time_Second ≤ 3600 * time_Second ∧
    tls_RootCAs tt w1 = (Ret (Some roots), 1%nat) ∧
    verified_chain example_parse example_certs example_encode example_verify bundle roots
      example_chain ∧ last example_chain = Some (PEM roots).
Proof.
  apply (issued_chains_are_granted_and_verified (AE := unit) (W := nat) (SE := unit)
    example_field example_decode example_signature
    example_ParseIdentity example_parse example_certs example_encode example_verify
    (AggregatorSpec0 := example_aggregate_spec) (TLSRootsSpec0 := example_TLSRoots_spec)
    example_server tt example_icr 0%nat).
  vm_compute. reflexivity.
Defined.

(** A parser that refuses the signed chain. *)
Definition example_parse_error (s : string) : result unit PEMBundle := Err tt.

Lemma granted_requests_are_answered_witness :
  CreateCertificate example_field example_decode example_signature example_ParseIdentity
    example_parse_error example_certs example_encode example_verify
    example_server tt example_icr 0%nat =
  (Ret (Err (StatusInternal
               "failed to parse and verify signed certificate from issuer")), 1%nat).
Proof.
  eapply (granted_requests_are_answered (AE := unit) (W := nat) (SE := unit)
    example_field example_decode example_signature
    example_ParseIdentity example_parse_error example_certs example_encode example_verify
    (AggregatorSpec0 := example_aggregate_spec)
    example_server tt example_icr example_identity).
  - apply authRequest_granted; [apply example_aggregate_spec|]. vm_compute. reflexivity.
  - reflexivity.
  - reflexivity.
Defined.

Lemma requestDuration_wraps_witness :
  ∃ icr, in_int64 (icr_ValidityDuration icr) ∧
    3600 * time_Second < icr_ValidityDuration icr * time_Second ∧
    requestDuration (example_options (3600 * time_Second)) icr < 0.
Proof.
  apply (requestDuration_wraps (example_options (3600 * time_Second))).
  - vm_compute. split; discriminate.
  - vm_compute. reflexivity.
Defined.
