(* ===== verification/Fakes.v ===== *)
(** * The test doubles

    [pkg/certmanager/fake/fake.go] and [pkg/tls/fake/fake.go]: the signer and the
    TLS provider the unit tests of the service run against.  They implement the
    interfaces of [Server] and [TLSInterface]; the theorems say when the fake
    provider keeps the interface's promise, and that a service over the fakes
    shows a test what the service proper would do. *)

From Stdlib Require Import Ascii.
From S2P Require Import Prelude GoStrings Asn1 Extensions NodeAuth Auth Kube CertManager RootCA TLSInterface Server.

Open Scope Z_scope.

(* ------------------------------------------------------------------ *)
(** ** The signer *)

Section fake.
Context {W SE : Type}.

Definition signFn : Type := string → string → Z → list KeyUsage → go W (result SE Bundle).

Record Fake := { sign : signFn }.

(** [New] and [WithSign]. *)
Definition NewFake : Fake :=
  {| sign := λ _ _ _ _, mret (Ok {| bundle_Certificate := ""; bundle_CA := "" |}) |}.
Definition WithSign (fn : signFn) (f : Fake) : Fake := {| sign := fn |}.

Definition Fake_Sign (f : Fake) : signFn :=
  λ identities csrPEM duration usages, sign f identities csrPEM duration usages.

Definition fake_signer (f : Fake) : Signer W SE := Fake_Sign f.
End fake.
Arguments Fake : clear implicits.
Arguments signFn : clear implicits.

(* ------------------------------------------------------------------ *)
(** ** The TLS provider *)

Section fake_tls.
Context {Ctx W E CtxE Cert Config Chan : Type}.
(** [make(chan event.GenericEvent)], and the error of a context. *)
Context (make_chan : go W Chan) (ctx_error : Ctx → W → option CtxE).

Record FakeTLS := {
  funcTrustDomain : string;
  funcRootCAs : Ctx → go W (option (RootCAs Cert));
  funcConfig : Ctx → go W (option Config * option E);
  funcSubscribeRootCAsEvent : go W Chan;
}.

(** [New]: its bundle is there, but has neither bytes nor a pool. *)
Definition NewFakeTLS : FakeTLS := {|
  funcTrustDomain := "";
  funcRootCAs := λ _, mret (Some {| PEM := ""; Pool := None |});
  funcConfig := λ _, mret (None, None);
  funcSubscribeRootCAsEvent := make_chan;
|}.

Definition WithRootCAs (rootCAsPEM : string) (rootCAsPool : option (CertPool Cert)) (f : FakeTLS)
    : FakeTLS := {|
  funcTrustDomain := funcTrustDomain f;
  funcRootCAs := λ _, mret (Some {| PEM := rootCAsPEM; Pool := rootCAsPool |});
  funcConfig := funcConfig f;
  funcSubscribeRootCAsEvent := funcSubscribeRootCAsEvent f;
|}.

Definition FakeTLS_TrustDomain (f : FakeTLS) : string := funcTrustDomain f.
Definition FakeTLS_RootCAs (f : FakeTLS) (ctx : Ctx) : go W (option (RootCAs Cert)) :=
  funcRootCAs f ctx.
Definition FakeTLS_Config (f : FakeTLS) (ctx : Ctx) : go W (option Config * option E) :=
  funcConfig f ctx.
Definition FakeTLS_SubscribeRootCAsEvent (f : FakeTLS) : go W Chan := funcSubscribeRootCAsEvent f.

Definition fake_roots (f : FakeTLS) : TLSRoots Ctx W CtxE Cert :=
  {| tls_RootCAs := FakeTLS_RootCAs f; ctx_Err := ctx_error |}.

(** The fake keeps the promise of the interface once a test has given it a
    bundle; as [New] makes it, it does not. *)
Lemma WithRootCAs_keeps_promise pem pool f :
  pem ≠ "" → @TLSRootsSpec Ctx W CtxE Cert (fake_roots (WithRootCAs pem (Some pool) f)).
Proof.
  intros Hpem. split; [done|]. intros ctx w r w' [= <- <-]. split; [done|]. by eexists.
Qed.

(** A provider as [New] makes it breaks the promise of the interface that
    the bundle [RootCAs] returns is loaded, for every context and world. *)
Theorem new_fake_breaks_promise (ctx : Ctx) (w : W) :
  ¬ @TLSRootsSpec Ctx W CtxE Cert (fake_roots NewFakeTLS).
Proof. intros H. by destruct (@RootCAs_loaded _ _ _ _ _ H ctx w _ _ eq_refl). Qed.
End fake_tls.
Arguments FakeTLS : clear implicits.

(* ------------------------------------------------------------------ *)
(** ** The service over the fakes *)

Section service.
Context {Ctx W AE PE CE SE CSE URL Cert XE VE CtxE E Config Chan : Type}.
Context `{Stringer URL} `{Aggregator ext_error} `{EqDecision Cert}.
Context `{!AggregatorSpec ext_error}.
Context (ImpersonatedIdentity : string).
Context (ParsePemEncodedCSR : string → result CE (CertificateRequest URL)).
Context (CheckSignature : CertificateRequest URL → option CSE).
Context (ParseIdentity : string → result PE Identity).
Context (ParseSingleCertificateChainPEM : string → result XE PEMBundle).
Context (DecodeX509CertificateChainBytes : string → result XE (list Cert)).
Context (EncodeX509 : Cert → result XE string).
Context (Verify : Cert → VerifyOptions Cert → option VE).
Context (ctx_error : Ctx → W → option CtxE).

(** The service of the tests: a signer that answers with [answer], and a provider
    with the given roots. *)
Definition faked_CreateCertificate (answer : result SE Bundle) (pem : string)
    (pool : CertPool Cert) (f : Fake W SE) (t : FakeTLS Ctx W E Cert Config Chan)
    (s : Server Ctx AE) : Ctx → IstioCertificateRequest → go W (result status (list string)) :=
  @CreateCertificate Ctx W AE PE CE SE CSE URL Cert XE VE CtxE _ _ _
    (fake_signer (WithSign (λ _ _ _ _, mret answer) f))
    (fake_roots ctx_error (WithRootCAs pem (Some pool) t))
    ImpersonatedIdentity ParsePemEncodedCSR CheckSignature ParseIdentity
    ParseSingleCertificateChainPEM DecodeX509CertificateChainBytes EncodeX509 Verify s.

(** A service over the test doubles answers a granted request as the doubles
    were told, and changes nothing: with Internal when the signer was given an
    error, and with the chain, the given roots last, exactly when the bundle the
    signer was given verifies against the pool the provider was given. *)
Theorem faked_service_answers pem pool f t s ctx icr ids w :
  request_granted ImpersonatedIdentity ParsePemEncodedCSR CheckSignature ParseIdentity s ctx icr ids →
  pem ≠ "" →
  (∀ e, faked_CreateCertificate (Err e) pem pool f t s ctx icr w =
        (Ret (Err (StatusInternal "failed to sign certificate request")), w)) ∧
  (∀ bundle chain,
     faked_CreateCertificate (Ok bundle) pem pool f t s ctx icr w = (Ret (Ok chain), w) ↔
     verified_chain ParseSingleCertificateChainPEM DecodeX509CertificateChainBytes EncodeX509
       Verify bundle {| PEM := pem; Pool := Some pool |} chain).
Proof.
  intros Hg Hpem.
  pose proof (WithRootCAs_keeps_promise (CtxE := CtxE) ctx_error pem pool t Hpem) as Hspec.
  apply authRequest_granted in Hg; [|done].
  split; [intros e|intros bundle chain]; unfold faked_CreateCertificate;
    rewrite (CreateCertificate_granted _ _ _ _ _ _ _ _ _ _ _ _ _ Hg).
  - done.
  - unfold mbind at 1, go_bind at 1. cbn -[parseCertificateBundle]. split.
    + intros Hc. apply go_bind_inv in Hc as ([chain' [err|]] & w2 & Hp & Hc); [done|].
      injection Hc as -> ->. apply parseCertificateBundle_Ok in Hp as (r & [= <-] & Hv); done.
    + intros Hv. unfold mbind, go_bind.
      by erewrite parseCertificateBundle_complete; [|reflexivity|exact Hv].
Qed.
End service.

(* ------------------------------------------------------------------ *)
(** ** Witness *)

#[local] Existing Instance example_Stringer.
#[local] Existing Instance example_Aggregator.

Definition example_answer : result unit Bundle :=
  Ok {| bundle_Certificate := "CHAIN"; bundle_CA := "CA" |}.
Definition example_fake_tls : FakeTLS unit nat unit string unit nat :=
  NewFakeTLS (λ n, (Ret n, S n)).

Example faked_service_answers_example :
  faked_CreateCertificate (XE := unit) example_field example_decode example_signature
    example_ParseIdentity example_parse example_certs example_encode example_verify
    (CtxE := unit) (λ _ _, None) example_answer "ROOTS" ["root"] NewFake example_fake_tls
    example_server tt example_icr 0%nat = (Ret (Ok example_chain), 0%nat).
Proof.
  apply (faked_service_answers (XE := unit) (VE := unit) (CtxE := unit) (SE := unit)
    (AggregatorSpec0 := example_aggregate_spec)
    example_field example_decode example_signature example_ParseIdentity example_parse
    example_certs example_encode example_verify (λ _ _, None) "ROOTS" ["root"] NewFake
    example_fake_tls example_server tt example_icr example_identity 0%nat).
  - apply authRequest_granted; [apply example_aggregate_spec|]. vm_compute. reflexivity.
  - discriminate.
  - exists {| ChainPEM := "CHAIN"; CAPEM := "" |}, "leaf", ["intermediate"],
      ["PEM leaf"; "PEM intermediate"].
    split_and!; [reflexivity|reflexivity|vm_compute; reflexivity| |reflexivity].
    repeat constructor.
Qed.
