(* ===== verification/Serving.v ===== *)
(** * Serving and readiness

    [pkg/server/server.go], [Start] and [Check]: [Start] waits for the TLS
    configuration, registers metrics, listens, starts the goroutine that shuts
    the gRPC server down when the context ends, marks the server ready and
    serves.  The two threads share the [ready] flag; every step below is one of
    their atomic actions, and the relation is their interleaving. *)

From S2P Require Import Prelude.

(* ------------------------------------------------------------------ *)
(** ** State *)

(** How [Start] can end. *)
Inductive start_error (E : Type) :=
| ConfigError (e : E)
| RegisterError (e : E)
| ListenError (e : E)
| AcceptError (e : E)
| ErrServerStopped.
Arguments ConfigError {E} _.
Arguments RegisterError {E} _.
Arguments ListenError {E} _.
Arguments AcceptError {E} _.
Arguments ErrServerStopped {E}.

(** The next action of [Start]. *)
Inductive main_pc (E : Type) :=
| GetConfig
| RegisterMetrics
| Listen
| SetReady
| CallServe
| InServe
| Returned (err : option (start_error E)).
Arguments GetConfig {E}.
Arguments RegisterMetrics {E}.
Arguments Listen {E}.
Arguments SetReady {E}.
Arguments CallServe {E}.
Arguments InServe {E}.
Arguments Returned {E} _.

(** The next action of the shutdown goroutine. *)
Inductive shutdown_pc := NotStarted | AwaitDone | ClearReady | GracefulStop | Finished.

Record serving (E : Type) := {
  main : main_pc E;
  shutdown : shutdown_pc;
  ready : bool;
  cancelled : bool;
  stopped : bool;
}.
Arguments main {E} _.
Arguments shutdown {E} _.
Arguments ready {E} _.
Arguments cancelled {E} _.
Arguments stopped {E} _.

Section serving.
Context {E : Type}.

Definition not_started : serving E :=
  {| main := GetConfig; shutdown := NotStarted; ready := false; cancelled := false;
     stopped := false |}.

(** The service runs on every replica. *)
Definition Server_NeedLeaderElection : bool := false.

(** [Check]. *)
Definition Check (s : serving E) : option string :=
  if ready s then None else Some "not ready".

Definition goto (pc : main_pc E) (s : serving E) : serving E :=
  {| main := pc; shutdown := shutdown s; ready := ready s; cancelled := cancelled s;
     stopped := stopped s |}.

(** After a fallible call of [Start]: go on, or return the error. *)
Definition proceed (pc : main_pc E) (wrap : E → start_error E) (r : result E unit)
    (s : serving E) : serving E :=
  match r with Ok _ => goto pc s | Err e => goto (Returned (Some (wrap e))) s end.

(** One action of [Start], given the answer of the call it makes, if any; gRPC's
    [Serve] fails at once on a server that was stopped, returns nil when it is
    stopped, and an error when accepting a connection fails. *)
Definition main_step (answer : result E unit) (s : serving E) : option (serving E) :=
  match main s with
  | GetConfig => Some (proceed RegisterMetrics ConfigError answer s)
  | RegisterMetrics => Some (proceed Listen RegisterError answer s)
  | Listen =>
      Some (match answer with
            | Err e => goto (Returned (Some (ListenError e))) s
            | Ok _ => {| main := SetReady; shutdown := AwaitDone; ready := ready s;
                         cancelled := cancelled s; stopped := stopped s |}
            end)
  | SetReady => Some {| main := CallServe; shutdown := shutdown s; ready := true;
                        cancelled := cancelled s; stopped := stopped s |}
  | CallServe => Some (goto (if stopped s then Returned (Some ErrServerStopped) else InServe) s)
  | InServe =>
      match answer with
      | Err e => Some (goto (Returned (Some (AcceptError e))) s)
      | Ok _ => if stopped s then Some (goto (Returned None) s) else None
      end
  | Returned _ => None
  end.

(** One action of the shutdown goroutine. *)
Definition shutdown_step (s : serving E) : option (serving E) :=
  let with_shutdown pc r st := {| main := main s; shutdown := pc; ready := r;
                                  cancelled := cancelled s; stopped := st |} in
  match shutdown s with
  | NotStarted => None
  | AwaitDone => if cancelled s then Some (with_shutdown ClearReady (ready s) (stopped s)) else None
  | ClearReady => Some (with_shutdown GracefulStop false (stopped s))
  | GracefulStop => Some (with_shutdown Finished (ready s) true)
  | Finished => None
  end.

Definition cancel (s : serving E) : serving E :=
  {| main := main s; shutdown := shutdown s; ready := ready s; cancelled := true;
     stopped := stopped s |}.

Inductive serving_step (s : serving E) : serving E → Prop :=
| step_main answer s' : main_step answer s = Some s' → serving_step s s'
| step_shutdown s' : shutdown_step s = Some s' → serving_step s s'
| step_cancel : serving_step s (cancel s).

(* ------------------------------------------------------------------ *)
(** ** Invariants *)

(** [Start] has got its TLS configuration and bound its listener. *)
Definition bound (s : serving E) : Prop :=
  match main s with
  | SetReady | CallServe | InServe
  | Returned (Some (AcceptError _)) | Returned (Some ErrServerStopped) | Returned None => True
  | _ => False
  end.

(** The gRPC server has its listener, serves on it or is about to, and nobody has
    stopped it. *)
Definition listening (s : serving E) : Prop :=
  stopped s = false ∧
  match main s with SetReady | CallServe | InServe => True | _ => False end.

(** Only a cancelled context stops the server, and [Serve] returns without an
    error of the listener only when it was stopped. *)
Definition serving_ok (s : serving E) : Prop :=
  (bound s ↔ shutdown s ≠ NotStarted) ∧ (ready s = true → bound s) ∧
  (match shutdown s with
   | NotStarted | AwaitDone => stopped s = false
   | ClearReady | GracefulStop => stopped s = false ∧ cancelled s = true
   | Finished => stopped s = true ∧ cancelled s = true
   end) ∧
  match main s with
  | Returned (Some ErrServerStopped) | Returned None => stopped s = true
  | _ => True
  end.

(** The cases of a step of the state with the given components. *)
Ltac step_cases H :=
  destruct H as [answer s' H|s' H|];
  [unfold main_step, proceed, goto in H|unfold shutdown_step in H|];
  cbn in *;
  repeat match type of H with
         | context [match ?x with _ => _ end] => destruct x; try discriminate H
         end;
  simplify_eq/=.

Lemma serving_ok_step s s' : serving_step s s' → serving_ok s → serving_ok s'.
Proof.
  destruct s as [m sd r c st]. intros H Hok.
  step_cases H; unfold serving_ok, bound in *; cbn in *;
    repeat case_match; intuition congruence.
Qed.

(** Once [ready] was set before the goroutine cleared it, it stays cleared. *)
Definition unready_after (s : serving E) : Prop :=
  match main s with CallServe | InServe | Returned _ => True | _ => False end ∧
  match shutdown s with GracefulStop | Finished => ready s = false | _ => True end.

Lemma unready_after_step s s' : serving_step s s' → unready_after s → unready_after s'.
Proof.
  destruct s as [m sd r c st]. intros H Hok.
  step_cases H; unfold unready_after in *; cbn in *; intuition congruence.
Qed.

Lemma invariant_rtc (P : serving E → Prop) s s' :
  (∀ s s', serving_step s s' → P s → P s') → P s → rtc serving_step s s' → P s'.
Proof. intros Hstep Hs Hr. induction Hr; eauto. Qed.

Lemma serving_reachable_ok s : rtc serving_step not_started s → serving_ok s.
Proof.
  intros Hr. eapply invariant_rtc; [apply serving_ok_step| |done].
  unfold serving_ok, bound; cbn. naive_solver.
Qed.

(* ------------------------------------------------------------------ *)
(** ** Theorems *)

(** What a passing check says of a server, in every interleaving: it listens, or
    its context has ended, or [Serve] has returned because a connection could
    not be accepted. *)
Lemma ready_spec s :
  rtc serving_step not_started s → Check s = None →
  listening s ∨ cancelled s = true ∨ ∃ e, main s = Returned (Some (AcceptError e)).
Proof.
  intros (Hb & Hr & Hsd & Hm)%serving_reachable_ok Hc.
  unfold Check in Hc. destruct (ready s); [|done]. specialize (Hr eq_refl). clear Hc Hb.
  destruct s as [m sd r c st]. unfold bound, listening in *. cbn in *.
  destruct c; [by right; left|]. assert (st = false) as -> by (by destruct sd; naive_solver).
  destruct m as [| | | | | |[[]|]]; try done; eauto.
Qed.

(** In every interleaving, the readiness check passes only after [Start] has
    obtained its TLS configuration, registered its metrics and bound its
    listener; it never passes on a server whose start failed before that. *)
Theorem ready_only_when_bound s :
  rtc serving_step not_started s → Check s = None → bound s ∧ shutdown s ≠ NotStarted.
Proof.
  intros (Hl & Hlr & _)%serving_reachable_ok Hc.
  unfold Check in Hc. destruct (ready s); [|done]. naive_solver.
Qed.

(** When the context ends after the server was marked ready, and before the
    goroutine has cleared the mark, the check fails for good from the moment
    the mark is cleared: no later state with the gRPC server stopping passes
    it. *)
Theorem unready_while_stopping s s' :
  main s = CallServe ∨ main s = InServe → shutdown s = AwaitDone ∨ shutdown s = ClearReady →
  rtc serving_step s s' → shutdown s' = GracefulStop ∨ shutdown s' = Finished →
  Check s' = Some "not ready".
Proof.
  intros Hm Hs Hr Hs'. assert (unready_after s') as [_ Hu].
  { eapply invariant_rtc; [apply unready_after_step| |done]. unfold unready_after.
    destruct Hm as [-> | ->], Hs as [-> | ->]; done. }
  unfold Check. destruct Hs' as [E'|E']; rewrite E' in Hu; by rewrite Hu.
Qed.

(** A context that ends between [Listen] and the moment the server is marked
    ready leaves it marked ready for ever: the goroutine clears the mark first,
    [Start] sets it afterwards, [Serve] returns at once, and the readiness
    check keeps passing although nothing is served. *)
Theorem ready_after_stop :
  ∃ s, rtc serving_step not_started s ∧ stopped s = true ∧
    main s = Returned (Some ErrServerStopped) ∧
    ∀ s', rtc serving_step s s' → Check s' = None.
Proof.
  set (s1 := {| main := SetReady; shutdown := AwaitDone; ready := false; cancelled := false;
                stopped := false |} : serving E).
  set (s2 := {| main := SetReady; shutdown := Finished; ready := false; cancelled := true;
                stopped := true |} : serving E).
  set (s3 := {| main := Returned (Some ErrServerStopped); shutdown := Finished; ready := true;
                cancelled := true; stopped := true |} : serving E).
  exists s3. split_and!; [|done..|].
  - trans s1; [|trans s2].
    + do 3 (eapply rtc_l; [by eapply (step_main _ (Ok tt))|]). apply rtc_refl.
    + eapply rtc_l; [apply step_cancel|].
      do 3 (eapply rtc_l; [by eapply step_shutdown|]). apply rtc_refl.
    + do 2 (eapply rtc_l; [by eapply (step_main _ (Ok tt))|]). apply rtc_refl.
  - intros s' Hr. enough (s' = s3) as ->; [done|].
    refine (invariant_rtc (λ x, x = s3) s3 s' _ eq_refl Hr).
    clear. intros x y H ->. step_cases H; done.
Qed.

End serving.

(* ------------------------------------------------------------------ *)
(** ** Instances *)

(** A server that is serving. *)
Definition example_serving : serving unit :=
  {| main := InServe; shutdown := AwaitDone; ready := true; cancelled := false;
     stopped := false |}.
