(* ===== verification/Controller.v ===== *)
(** * The ConfigMap controller

    [pkg/controller/configmap.go]: every namespace the selector matches gets a
    ConfigMap with the mesh's root CAs.  The Kubernetes client and the informer
    cache are an interface, [ConfigMapClient], with what the controller relies
    on as its laws; the last section gives an implementation on maps. *)

From S2P Require Import Prelude Kube RootCA TLSInterface.

Open Scope Z_scope.

(* ------------------------------------------------------------------ *)
(** ** Data *)

Definition configMapNameIstioRoot : string := "istio-ca-root-cert".
Definition configMapLabelKey : string := "istio.io/config".
Definition rootCertKey : string := "root-cert.pem".

(** [corev1.Namespace], as far as it is read. *)
Record Namespace := {
  ns_Name : string;
  ns_Labels : option (gmap string string);
  ns_Phase : string;
}.

Definition NamespaceTerminating : string := "Terminating".

Definition time_Millisecond : Z := 1000000.

(** ** The client *)

(** [client.Client] for ConfigMaps, [client.Reader] for namespaces. *)
Class ConfigMapClient (W E : Type) := {
  lister_GetNamespace : string → go W (result (api_error E) Namespace);
  lister_ListNamespaces : go W (result (api_error E) (list Namespace));
  client_Get : string → string → go W (result (api_error E) ConfigMap);
  client_Create : ConfigMap → go W (option (api_error E));
  client_Update : ConfigMap → go W (option (api_error E));
}.
#[global] Hint Mode ConfigMapClient ! - : typeclass_instances.

(** Objects are stored by namespace and name. *)
Definition cm_key (cm : ConfigMap) : string * string := (cm_Namespace cm, cm_Name cm).

(** What the client promises, of the objects a world stores and the namespaces
    its cache holds: reads return what is stored and change nothing, and a
    write that reports no error has stored the object, and only it. *)
Class ConfigMapClientSpec (W E : Type) `{ConfigMapClient W E} := {
  stored : W → gmap (string * string) ConfigMap;
  cached : W → gmap string Namespace;
  GetNamespace_returns (n : string) (w : W) :
    ∃ r w', lister_GetNamespace n w = (Ret r, w') ∧ stored w' = stored w ∧
      cached w' = cached w ∧ (∀ ns, r = Ok ns → cached w !! n = Some ns) ∧
      (r = Err NotFound → cached w !! n = None);
  ListNamespaces_returns (w w' : W) (l : list Namespace) :
    lister_ListNamespaces w = (Ret (Ok l), w') →
    stored w' = stored w ∧ cached w' = cached w ∧
    ∀ ns, ns ∈ l ↔ cached w !! ns_Name ns = Some ns;
  client_Get_returns (ns n : string) (w : W) :
    ∃ r w', client_Get ns n w = (Ret r, w') ∧ stored w' = stored w ∧ cached w' = cached w ∧
      (∀ cm, r = Ok cm → stored w !! (ns, n) = Some cm) ∧
      (r = Err NotFound → stored w !! (ns, n) = None);
  stored_key (w : W) (ns n : string) (cm : ConfigMap) :
    stored w !! (ns, n) = Some cm → cm_key cm = (ns, n);
  cached_key (w : W) (n : string) (ns : Namespace) :
    cached w !! n = Some ns → ns_Name ns = n;
  client_Create_returns (cm : ConfigMap) (w : W) :
    ∃ r w', client_Create cm w = (Ret r, w') ∧ cached w' = cached w ∧
      (r = None → stored w' = <[cm_key cm := cm]> (stored w));
  client_Update_returns (cm : ConfigMap) (w : W) :
    ∃ r w', client_Update cm w = (Ret r, w') ∧ cached w' = cached w ∧
      (r = None → stored w' = <[cm_key cm := cm]> (stored w));
}.

(* ------------------------------------------------------------------ *)
(** ** Reconcile *)

Section reconcile.
Context {W E : Type} `{ConfigMapClient W E}.

(** [labels.Selector.Matches] of the parsed selector, on a set of labels. *)
Context (Matches : gmap string string → bool).

Definition namespace_matches (ns : Namespace) : bool := Matches (default ∅ (ns_Labels ns)).

(** The object that is created when there is none. *)
Definition newConfigMap (ns rootCAsPEM : string) : ConfigMap :=
  {| cm_Namespace := ns; cm_Name := configMapNameIstioRoot;
     cm_Labels := Some {[ configMapLabelKey := "true" ]};
     cm_Data := Some {[ rootCertKey := rootCAsPEM ]} |}.

Definition set_data (d : option (gmap string string)) (cm : ConfigMap) : ConfigMap :=
  {| cm_Namespace := cm_Namespace cm; cm_Name := cm_Name cm; cm_Labels := cm_Labels cm;
     cm_Data := d |}.
Definition set_labels (l : option (gmap string string)) (cm : ConfigMap) : ConfigMap :=
  {| cm_Namespace := cm_Namespace cm; cm_Name := cm_Name cm; cm_Labels := l;
     cm_Data := cm_Data cm |}.

(** [make(map[string]string)] in place of a nil map. *)
Definition non_nil (m : option (gmap string string)) : option (gmap string string) :=
  match m with None => Some ∅ | Some m => Some m end.

(** Both maps of a fetched object are made non-nil. *)
Definition initMaps (cm : ConfigMap) : ConfigMap :=
  set_labels (non_nil (cm_Labels cm)) (set_data (non_nil (cm_Data cm)) cm).

(** The loop over the keys: one that is not expected replaces the whole data. *)
Definition has_unexpected (d : gmap string string) : bool :=
  existsb (λ k, negb (bool_decide (k = rootCertKey))) (map_to_list d).*1.

Definition dropUnexpected (cm : ConfigMap) : ConfigMap * bool :=
  if has_unexpected (default ∅ (cm_Data cm)) then (set_data (Some ∅) cm, true) else (cm, false).

Definition setRootCert (rootCAsPEM : string) (cm : ConfigMap) : outcome (ConfigMap * bool) :=
  if bool_decide (map_get (cm_Data cm) rootCertKey = Some rootCAsPEM) then mret (cm, false)
  else
    d ← map_assign (cm_Data cm) rootCertKey rootCAsPEM;
    mret (set_data d cm, true).

Definition setLabel (cm : ConfigMap) : outcome (ConfigMap * bool) :=
  if bool_decide (map_get (cm_Labels cm) configMapLabelKey = Some "true") then mret (cm, false)
  else
    l ← map_assign (cm_Labels cm) configMapLabelKey "true";
    mret (set_labels l cm, true).

(** The changes to an object that exists, and whether an update is needed. *)
Definition syncConfigMap (rootCAsPEM : string) (configMap : ConfigMap)
    : outcome (ConfigMap * bool) :=
  let '(cm1, update1) := dropUnexpected (initMaps configMap) in
  '(cm2, update2) ← setRootCert rootCAsPEM cm1;
  '(cm3, update3) ← setLabel cm2;
  mret (cm3, update1 || update2 || update3).

(** [Reconcile], when the controller's cached bundle is [rootCAsPEM]: the result
    and the error. *)
Definition Reconcile (rootCAsPEM : string) (req : Request)
    : go W (CtrlResult * option (api_error E)) :=
  namespace ← lister_GetNamespace (req_Namespace req);
  match namespace with
  | Err NotFound => mret (noRequeue, None)
  | Err err => mret (noRequeue, Some err)
  | Ok namespace =>
      if negb (namespace_matches namespace) then mret (noRequeue, None)
      else if bool_decide (ns_Phase namespace = NamespaceTerminating) then mret (noRequeue, None)
      else if bool_decide (rootCAsPEM = "")
      then mret ({| RequeueAfter := 100 * time_Millisecond |}, None)
      else
        configMap ← client_Get (req_Namespace req) configMapNameIstioRoot;
        match configMap with
        | Err NotFound =>
            err ← client_Create (newConfigMap (req_Namespace req) rootCAsPEM);
            mret (noRequeue, err)
        | Err err => mret (noRequeue, Some err)
        | Ok configMap =>
            '(configMap, updateNeeded) ← go_outcome (syncConfigMap rootCAsPEM configMap);
            if (updateNeeded : bool) then
              err ← client_Update configMap;
              mret (noRequeue, err)
            else mret (noRequeue, None)
        end
  end.

(* ------------------------------------------------------------------ *)
(** ** Triggers *)

(** The predicate on ConfigMaps, and the request of a namespace event. *)
Definition configMapPredicate (name : string) : bool :=
  bool_decide (name = configMapNameIstioRoot).

Definition namespaceRequest (name : string) : list Request :=
  [{| req_Namespace := name; req_Name := configMapNameIstioRoot |}].

(** How the handler of root CA events ends: with requests to enqueue, or by
    exiting the process. *)
Inductive handler_end := Enqueue (requests : list Request) | OsExit.

(** The loop over the namespaces. *)
Definition namespaceRequests (l : list Namespace) : list Request :=
  omap (λ ns, if negb (namespace_matches ns) then None
              else Some {| req_Namespace := ns_Name ns; req_Name := configMapNameIstioRoot |}) l.

(** The handler, from the cached bundle to the new one. *)
Definition rootCAsHandler {Ctx CtxE Cert} `{TLSRoots Ctx W CtxE Cert} (ctx : Ctx)
    (rootCAsPEM : string) : go W (handler_end * string) :=
  rootCAs ← tls_RootCAs ctx;
  match rootCAs with
  | None => mret (Enqueue [], rootCAsPEM)
  | Some r =>
      namespaceList ← lister_ListNamespaces;
      match namespaceList with
      | Err _ => mret (OsExit, PEM r)
      | Ok l => mret (Enqueue (namespaceRequests l), PEM r)
      end
  end.

(* ------------------------------------------------------------------ *)
(** ** Synchronised objects *)

(** The data is exactly the bundle, and the label is set. *)
Definition synced (rootCAsPEM : string) (cm : ConfigMap) : Prop :=
  cm_Data cm = Some {[ rootCertKey := rootCAsPEM ]} ∧
  map_get (cm_Labels cm) configMapLabelKey = Some "true".

(** The labels of [cm] other than the controller's are those of [cm0]. *)
Definition other_labels_kept (cm0 cm : ConfigMap) : Prop :=
  ∀ k, k ≠ configMapLabelKey → map_get (cm_Labels cm) k = map_get (cm_Labels cm0) k.

Lemma has_unexpected_false (d : gmap string string) :
  has_unexpected d = false ↔ ∀ k, is_Some (d !! k) → k = rootCertKey.
Proof.
  unfold has_unexpected. rewrite <-not_true_iff_false, existsb_exists. split.
  - intros Hn k [v Hk]. destruct (decide (k = rootCertKey)) as [|Hne]; [done|].
    exfalso. apply Hn. exists k. split; [|by rewrite bool_decide_eq_false_2].
    apply list_elem_of_In, list_elem_of_fmap. exists (k, v). split; [done|].
    by apply elem_of_map_to_list.
  - intros Hd (k & Hin & Hb).
    apply list_elem_of_In, list_elem_of_fmap in Hin as ([k' v] & -> & Hkv).
    apply elem_of_map_to_list in Hkv. rewrite (Hd k') in Hb by eauto. done.
Qed.

Lemma only_root_insert (d : gmap string string) v :
  (∀ k, is_Some (d !! k) → k = rootCertKey) → <[rootCertKey := v]> d = {[rootCertKey := v]}.
Proof.
  intros Hd. apply map_eq. intros k. destruct (decide (k = rootCertKey)) as [->|Hne].
  - by rewrite lookup_insert_eq, lookup_singleton_eq.
  - rewrite lookup_insert_ne, lookup_singleton_ne by done.
    apply eq_None_not_Some. intros Hs. by apply Hne, Hd.
Qed.

Lemma has_unexpected_singleton v : has_unexpected {[ rootCertKey := v ]} = false.
Proof.
  apply has_unexpected_false. intros k [v' Hk]. by apply lookup_singleton_Some in Hk as [<- _].
Qed.

Ltac cm_simpl := unfold set_data, set_labels, map_assign, map_get in *;
  cbn [cm_Data cm_Labels cm_Namespace cm_Name from_option id orb mbind outcome_bind
       mret outcome_ret] in *.

(** The two steps on the data, on an object whose data is not nil: they leave
    exactly the bundle, and change something unless it was there already. *)
Lemma sync_data_spec pem ns n l (d : gmap string string) :
  ∃ cm1 b1 b2,
    dropUnexpected {| cm_Namespace := ns; cm_Name := n; cm_Labels := l; cm_Data := Some d |} =
      (cm1, b1) ∧
    setRootCert pem cm1 =
      Ret ({| cm_Namespace := ns; cm_Name := n; cm_Labels := l;
              cm_Data := Some {[ rootCertKey := pem ]} |}, b2) ∧
    (b1 || b2 = false ↔ d = {[ rootCertKey := pem ]}).
Proof.
  unfold dropUnexpected, setRootCert. cm_simpl.
  destruct (has_unexpected d) eqn:Hu;
    [exists (set_data (Some ∅) {| cm_Namespace := ns; cm_Name := n; cm_Labels := l;
              cm_Data := Some d |}), true, true
    |exists {| cm_Namespace := ns; cm_Name := n; cm_Labels := l; cm_Data := Some d |}, false,
       (negb (bool_decide (d !! rootCertKey = Some pem)))];
    (split; [done|]); cm_simpl.
  - rewrite lookup_empty, bool_decide_eq_false_2 by done. cm_simpl. rewrite insert_empty.
    split; [done|]. split; [done|]. intros ->. by rewrite has_unexpected_singleton in Hu.
  - pose proof (proj1 (has_unexpected_false d) Hu) as Hd. case_bool_decide as Hb; cm_simpl.
    + assert (d = {[ rootCertKey := pem ]}) as He.
      { etrans; [|by apply only_root_insert]. symmetry. by apply insert_id. }
      rewrite He. tauto.
    + rewrite only_root_insert by done. split; [done|]. split; [done|].
      intros ->. destruct Hb. apply lookup_singleton_eq.
Qed.

(** [syncConfigMap] never panics; it gives a synchronised object with the same
    key and other labels, and asks for an update exactly when the given object
    is not synchronised; otherwise it changes nothing. *)
Lemma syncConfigMap_spec pem cm :
  ∃ cm' b, syncConfigMap pem cm = Ret (cm', b) ∧ synced pem cm' ∧ cm_key cm' = cm_key cm ∧
    other_labels_kept cm cm' ∧ (b = false ↔ synced pem cm) ∧ (b = false → cm' = cm).
Proof.
  destruct cm as [ns n l d]. unfold syncConfigMap, initMaps. cm_simpl.
  set (d0 := match d with Some d => d | None => ∅ end).
  set (l0 := match l with Some l => l | None => ∅ end).
  assert (non_nil d = Some d0) as -> by (by destruct d).
  assert (non_nil l = Some l0) as -> by (by destruct l).
  destruct (sync_data_spec pem ns n (Some l0) d0) as (cm1 & b1 & b2 & -> & -> & Hb).
  unfold setLabel. cm_simpl.
  assert (d0 = {[ rootCertKey := pem ]} ↔ d = Some {[ rootCertKey := pem ]}) as Hd.
  { subst d0. destruct d as [d|]; [naive_solver|]. split; [|done].
    intros He. by apply (f_equal (lookup rootCertKey)) in He; rewrite lookup_singleton_eq in He. }
  assert (∀ k, default ∅ l !! k = l0 !! k) as Hl by (by destruct l).
  unfold synced, other_labels_kept, cm_key. case_bool_decide as Ht; cm_simpl; do 2 eexists;
    (split; [done|]); cm_simpl; setoid_rewrite Hl.
  - rewrite orb_false_r, Hb, Hd. split_and!; try done; [tauto|].
    intros ->. f_equal. destruct l; [done|]. by subst l0; rewrite lookup_empty in Ht.
  - rewrite orb_true_r. split_and!; try done.
    + apply lookup_insert_eq.
    + intros k Hk. by apply lookup_insert_ne.
    + split; [done|]. tauto.
Qed.

(* ------------------------------------------------------------------ *)
(** ** What a reconcile does *)

Context `{!ConfigMapClientSpec W E}.

(** The namespace is in the cache, matches, and is not going away. *)
Definition managed (w : W) (n : string) : Prop :=
  ∃ ns, cached w !! n = Some ns ∧ namespace_matches ns = true ∧
        ns_Phase ns ≠ NamespaceTerminating.

Definition root_key (n : string) : string * string := (n, configMapNameIstioRoot).

(** The contract of one reconcile that reports no error. *)
Definition reconciled (pem n : string) (w : W) (res : CtrlResult) (w' : W) : Prop :=
  (¬ managed w n → res = noRequeue ∧ stored w' = stored w) ∧
  (managed w n → pem = "" → res = {| RequeueAfter := 100000000 |} ∧ stored w' = stored w) ∧
  (managed w n → pem ≠ "" → res = noRequeue ∧
     ∃ cm, stored w' = <[root_key n := cm]> (stored w) ∧ synced pem cm ∧
           ∀ cm0, stored w !! root_key n = Some cm0 →
                  other_labels_kept cm0 cm ∧ (synced pem cm0 → cm = cm0)).

Lemma synced_new n pem : synced pem (newConfigMap n pem).
Proof. split; [done|]. apply lookup_singleton_eq. Qed.

(** The part of [Reconcile] after the checks of the namespace. *)
Lemma reconcile_object n pem w :
  ∃ err w',
    (configMap ← client_Get n configMapNameIstioRoot;
     match configMap with
     | Err NotFound =>
         err ← client_Create (newConfigMap n pem);
         mret (noRequeue, err)
     | Err err => mret (noRequeue, Some err)
     | Ok configMap =>
         '(configMap, updateNeeded) ← go_outcome (syncConfigMap pem configMap);
         if (updateNeeded : bool) then
           err ← client_Update configMap;
           mret (noRequeue, err)
         else mret (noRequeue, None)
     end) w = (Ret (noRequeue, err), w') ∧
    cached w' = cached w ∧
    (err = None →
     ∃ cm, stored w' = <[root_key n := cm]> (stored w) ∧ synced pem cm ∧
           ∀ cm0, stored w !! root_key n = Some cm0 →
                  other_labels_kept cm0 cm ∧ (synced pem cm0 → cm = cm0)).
Proof.
  destruct (client_Get_returns n configMapNameIstioRoot w)
    as (r & w1 & Hg & Hs1 & Hc1 & Hok & Hnf).
  unfold mbind at 1, go_bind at 1. rewrite Hg. destruct r as [cm0|[|e]].
  - destruct (syncConfigMap_spec pem cm0) as (cm & b & Hsync & Hcm & Hk & Hlab & Hb & Hbeq).
    specialize (Hok cm0 eq_refl). pose proof (stored_key _ _ _ _ Hok) as Hkey.
    unfold mbind at 1, go_bind at 1, go_outcome. rewrite Hsync. destruct b.
    + destruct (client_Update_returns cm w1) as (err & w2 & Hu & Hc2 & Hs2).
      unfold mbind, go_bind. rewrite Hu. exists err, w2. split_and!; [done|congruence|].
      intros ->. exists cm. rewrite (Hs2 eq_refl), Hk, Hkey, Hs1. split_and!; [done..|].
      unfold root_key. rewrite Hok. intros ? [= <-]. split; [done|].
      intros Hsy. by apply Hb in Hsy.
    + exists None, w1. split_and!; [done..|]. intros _. exists cm0.
      rewrite (Hbeq eq_refl) in Hcm. split_and!; [|done|].
      * rewrite Hs1. symmetry. by apply insert_id.
      * unfold root_key. rewrite Hok. intros ? [= <-]. done.
  - destruct (client_Create_returns (newConfigMap n pem) w1) as (err & w2 & Hu & Hc2 & Hs2).
    unfold mbind, go_bind. rewrite Hu. exists err, w2. split_and!; [done|congruence|].
    intros ->. exists (newConfigMap n pem). rewrite (Hs2 eq_refl), Hs1.
    split_and!; [done|apply synced_new|].
    unfold root_key. rewrite (Hnf eq_refl). done.
  - exists (Some (OtherError e)), w1. split_and!; [done..|]. done.
Qed.

(** [Reconcile] always returns, and when it reports no error it has done what
    its contract says. *)
Lemma Reconcile_spec pem req w :
  ∃ res err w',
    Reconcile pem req w = (Ret (res, err), w') ∧
    cached w' = cached w ∧ (err = None → reconciled pem (req_Namespace req) w res w').
Proof.
  destruct req as [n rn]. unfold Reconcile. cbn [req_Namespace]. unfold mbind at 1, go_bind at 1.
  destruct (GetNamespace_returns n w) as (r & w1 & -> & Hs1 & Hc1 & Hok & Hnf).
  destruct r as [ns|[|e]].
  - specialize (Hok ns eq_refl). assert (∀ ns', cached w !! n = Some ns' → ns' = ns) as Hu
      by (rewrite Hok; congruence).
    destruct (namespace_matches ns) eqn:Hm; cbn [negb]; last first.
    { eexists _, _, _. split_and!; [done..|]. intros _. split_and!; [done| |];
        intros (ns' & ->%Hu & Hm' & _); congruence. }
    case_bool_decide as Hp.
    { eexists _, _, _. split_and!; [done..|]. intros _. split_and!; [done| |];
        intros (ns' & ->%Hu & _ & Hp'); congruence. }
    assert (managed w n) as Hman by (exists ns; done).
    case_bool_decide as Hpem.
    { eexists _, _, _. split_and!; [done..|]. intros _. split_and!; done. }
    destruct (reconcile_object n pem w1) as (err & w2 & -> & Hc2 & Hpost).
    exists noRequeue, err, w2. split_and!; [done|congruence|].
    intros He. rewrite Hs1 in Hpost. split_and!; [done..|]. auto.
  - specialize (Hnf eq_refl).
    eexists _, _, _. split_and!; [done..|]. intros _. split_and!; [done| |];
      intros (ns' & Hns & _); congruence.
  - eexists _, _, _. split_and!; done.
Qed.

(** Reconcile a list of requests; [true] if no reconcile reported an error. *)
Fixpoint reconcile_all (pem : string) (reqs : list Request) : go W bool :=
  match reqs with
  | [] => mret true
  | req :: reqs' =>
      '(_, err) ← Reconcile pem req;
      ok ← reconcile_all pem reqs';
      mret (match err with None => ok | Some _ => false end)
  end.

Lemma managed_cached w w' n : cached w' = cached w → managed w' n ↔ managed w n.
Proof. unfold managed. by intros ->. Qed.

#[local] Instance managed_dec w n : Decision (managed w n).
Proof.
  destruct (cached w !! n) as [ns|] eqn:Hns.
  - destruct (decide (namespace_matches ns = true ∧ ns_Phase ns ≠ NamespaceTerminating)) as [Hd|Hd].
    + left. by exists ns.
    + right. intros (ns' & Hns' & ?). simplify_eq. naive_solver.
  - right. intros (ns & ? & _). congruence.
Defined.

(** The effect of one reconcile with a bundle, object by object. *)
Lemma reconciled_effect pem n w res w' :
  pem ≠ "" → reconciled pem n w res w' →
  (managed w n → ∃ cm, stored w' !! root_key n = Some cm ∧ synced pem cm) ∧
  (∀ key cm, stored w !! key = Some cm → synced pem cm → stored w' !! key = Some cm) ∧
  (∀ key, (managed w n → key ≠ root_key n) → stored w' !! key = stored w !! key).
Proof.
  intros Hpem (Hun & _ & Hman). destruct (decide (managed w n)) as [Hm|Hm].
  - destruct (Hman Hm Hpem) as (_ & cm & Hst & Hcm & Hold). rewrite Hst. split_and!.
    + intros _. exists cm. by rewrite lookup_insert_eq.
    + intros key cm0 H0 Hs0. destruct (decide (key = root_key n)) as [->|Hne].
      * rewrite lookup_insert_eq. f_equal. by apply Hold.
      * by rewrite lookup_insert_ne.
    + intros key Hkey. apply lookup_insert_ne. intros <-. by apply Hkey.
  - destruct (Hun Hm) as [_ ->]. split_and!; done.
Qed.

(** After reconciling, each request's namespace is as it should be, and no other
    object has changed. *)
Lemma reconcile_all_spec pem reqs w w' :
  pem ≠ "" → reconcile_all pem reqs w = (Ret true, w') →
  (∀ n, n ∈ req_Namespace <$> reqs → managed w n →
        ∃ cm, stored w' !! root_key n = Some cm ∧ synced pem cm) ∧
  (∀ key cm, stored w !! key = Some cm → synced pem cm → stored w' !! key = Some cm) ∧
  (∀ key, (∀ n, managed w n → key ≠ root_key n) → stored w' !! key = stored w !! key).
Proof.
  intros Hpem. revert w. induction reqs as [|req reqs IH]; intros w Hr.
  { injection Hr as <-. split_and!; try done. intros n Hn. by apply elem_of_nil in Hn. }
  cbn [reconcile_all] in Hr.
  destruct (Reconcile_spec pem req w) as (res & err & w1 & H1 & Hc1 & Hp).
  go_inv Hr as [res' err'] w1' H1'. rewrite H1 in H1'. injection H1' as <- <- <-.
  go_inv Hr as ok w2 Hrest. destruct err; [done|]. injection Hr as -> ->.
  destruct (reconciled_effect _ _ _ _ _ Hpem (Hp eq_refl)) as (Hn1 & Hk1 & Ho1).
  destruct (IH _ Hrest) as (Hn2 & Hk2 & Ho2).
  split_and!.
  - intros n [->|Hin]%elem_of_cons Hm.
    + destruct (Hn1 Hm) as (cm & ? & ?). eauto.
    + apply Hn2; [done|]. by apply (managed_cached w w1).
  - eauto.
  - intros key Hkey. rewrite Ho2, Ho1; [done|by apply Hkey|].
    intros n Hm. apply Hkey. by apply (managed_cached w w1).
Qed.

(* ------------------------------------------------------------------ *)
(** ** Theorems *)

(** C14: [Reconcile] always returns, never on a nil map, and unless it reports an
    error of the API: a namespace that is gone, terminating or not selected is
    left alone; before the first bundle is known the request is tried again
    after 100 ms with nothing written; otherwise exactly one object can have
    changed, the namespace's root ConfigMap, whose data is now exactly the
    bundle and whose label is set, with its other labels kept, and which is
    untouched if it was right already. *)
Theorem Reconcile_correct pem req w :
  ∃ res err w', Reconcile pem req w = (Ret (res, err), w') ∧
    (err = None → reconciled pem (req_Namespace req) w res w').
Proof. destruct (Reconcile_spec pem req w) as (res & err & w' & ? & _ & ?). eauto. Qed.

(** Reconciling is stable: a second reconcile of a request that succeeded
    changes no object. *)
Theorem Reconcile_stable pem req w res w1 res' w2 :
  Reconcile pem req w = (Ret (res, None), w1) →
  Reconcile pem req w1 = (Ret (res', None), w2) →
  stored w2 = stored w1.
Proof.
  destruct (Reconcile_spec pem req w) as (r1 & e1 & w1' & -> & Hc1 & Hp1).
  intros [= -> -> ->]. specialize (Hp1 eq_refl).
  destruct (Reconcile_spec pem req w1) as (r2 & e2 & w2' & -> & Hc2 & Hp2).
  intros [= -> -> ->]. destruct (Hp2 eq_refl) as (Hun & Hempty & Hman).
  destruct (decide (managed w1 (req_Namespace req))) as [Hm|Hm]; [|by apply Hun].
  destruct (decide (pem = "")) as [Hpem|Hpem]; [by apply Hempty|].
  destruct (reconciled_effect _ _ _ _ _ Hpem Hp1) as (Hs & _).
  destruct Hs as (cm & Hst & Hsy); [by apply (managed_cached w w1)|].
  destruct (Hman Hm Hpem) as (_ & cm' & -> & _ & Hold).
  destruct (Hold cm Hst) as [_ ->]; [|done]. by apply insert_id.
Qed.

Section propagation.
Context {Ctx CtxE Cert : Type} `{!TLSRoots Ctx W CtxE Cert} `{!TLSRootsSpec Ctx W CtxE Cert}.

(** New roots reach every namespace: when the handler of a root CA event
    obtains a bundle and its requests are reconciled, in whatever order,
    without an error, then every managed namespace has a ConfigMap with exactly
    that bundle, and no object other than theirs has changed. *)
Theorem roots_propagate (ctx : Ctx) old w (r : RootCAs Cert) w0 reqs pem w1 reqs' w2 :
  tls_RootCAs ctx w = (Ret (Some r), w0) →
  rootCAsHandler ctx old w = (Ret (Enqueue reqs, pem), w1) →
  reqs' ≡ₚ reqs → reconcile_all pem reqs' w1 = (Ret true, w2) →
  pem = PEM r ∧
  (∀ n, managed w0 n → ∃ cm, stored w2 !! root_key n = Some cm ∧ synced (PEM r) cm) ∧
  (∀ key, (∀ n, managed w0 n → key ≠ root_key n) → stored w2 !! key = stored w0 !! key).
Proof.
  intros Hroots Hh Hperm Hall. destruct (RootCAs_loaded _ _ _ _ Hroots) as [Hpem _].
  unfold rootCAsHandler in Hh. go_inv Hh as r0 w0' Hr0. rewrite Hroots in Hr0.
  injection Hr0 as <- <-. go_inv Hh as [l|e] w1' Hl; [|done]. injection Hh as <- <- <-.
  destruct (ListNamespaces_returns _ _ _ Hl) as (Hst & Hca & Hin).
  destruct (reconcile_all_spec _ _ _ _ Hpem Hall) as (Hnew & _ & Hoth).
  split_and!; [done| |].
  - intros n Hm. pose proof Hm as (ns & Hns & Hmatch & _).
    apply Hnew; [|by apply (managed_cached w0 w1')].
    rewrite Hperm. unfold namespaceRequests.
    assert (ns_Name ns = n) as Hname by (by apply cached_key in Hns).
    apply list_elem_of_fmap. eexists {| req_Namespace := n |}. split; [done|].
    apply list_elem_of_omap. exists ns. split.
    + apply Hin. by rewrite Hname.
    + rewrite Hmatch. cbn. by rewrite Hname.
  - intros key Hkey. rewrite Hoth, Hst; [done|].
    intros n Hm. apply Hkey. by apply (managed_cached w0 w1').
Qed.
End propagation.

End reconcile.

(* ------------------------------------------------------------------ *)
(** ** Construction *)

(** [Options]; the provider and the manager are those of the program. *)
Record ControllerOptions := {
  opt_ConfigMapNamespaceSelector : string;
  opt_MaxConcurrentReconciles : Z;
}.

(** The controller that is registered: its selector, its number of workers, and
    the bundle it starts with. *)
Record configmap := {
  namespaceSelector : gmap string string → bool;
  cm_workers : Z;
  cached_rootCAsPEM : string;
}.

Inductive add_error (X : Type) :=
| BuildClient (e : X)
| BadSelector (e : X)
| AddController (e : X).
Arguments BuildClient {X} _.
Arguments BadSelector {X} _.
Arguments AddController {X} _.

(** [AddConfigMapController]; the client that does not cache ConfigMaps, the
    parser of selectors and the controller's builder answer as given. *)
Definition AddConfigMapController {X} (client_New : result X unit)
    (labels_Parse : string → result X (gmap string string → bool)) (complete : result X unit)
    (o : ControllerOptions) : result (add_error X) configmap :=
  _ ← wrap_err BuildClient client_New;
  namespaceSelector ← wrap_err BadSelector (labels_Parse (opt_ConfigMapNamespaceSelector o));
  _ ← wrap_err AddController complete;
  mret {| namespaceSelector := namespaceSelector;
          cm_workers := opt_MaxConcurrentReconciles o; cached_rootCAsPEM := "" |}.

Lemma AddConfigMapController_Ok {X} (client : result X unit) parse complete o c :
  AddConfigMapController client parse complete o = Ok c →
  cm_workers c = opt_MaxConcurrentReconciles o ∧
  parse (opt_ConfigMapNamespaceSelector o) = Ok (namespaceSelector c) ∧ cached_rootCAsPEM c = "".
Proof.
  unfold AddConfigMapController. intros H.
  run_result H. injection H as <-. done.
Qed.

(* ------------------------------------------------------------------ *)
(** ** An implementation of the client *)

(** An API server without errors: the objects written, latest first, and the
    namespaces. *)
Record mapworld := { mw_objects : list ConfigMap; mw_namespaces : list Namespace }.

Definition mw_stored (w : mapworld) : gmap (string * string) ConfigMap :=
  list_to_map ((λ cm, (cm_key cm, cm)) <$> mw_objects w).
Definition mw_cached (w : mapworld) : gmap string Namespace :=
  list_to_map ((λ ns, (ns_Name ns, ns)) <$> mw_namespaces w).
Definition mw_write (cm : ConfigMap) (w : mapworld) : mapworld :=
  {| mw_objects := cm :: mw_objects w; mw_namespaces := mw_namespaces w |}.

Definition found {A} (o : option A) : result (api_error unit) A :=
  match o with Some a => Ok a | None => Err NotFound end.

#[export] Instance mapworld_client : ConfigMapClient mapworld unit := {|
  lister_GetNamespace := λ n, go_read (λ w, found (mw_cached w !! n));
  lister_ListNamespaces := go_read (λ w, Ok (map_to_list (mw_cached w)).*2);
  client_Get := λ ns n, go_read (λ w, found (mw_stored w !! (ns, n)));
  client_Create := λ cm w,
    if bool_decide (is_Some (mw_stored w !! cm_key cm)) then (Ret (Some (OtherError tt)), w)
    else (Ret None, mw_write cm w);
  client_Update := λ cm w,
    if bool_decide (is_Some (mw_stored w !! cm_key cm)) then (Ret None, mw_write cm w)
    else (Ret (Some NotFound), w);
|}.

Lemma mw_cached_key w n ns : mw_cached w !! n = Some ns → ns_Name ns = n.
Proof.
  intros Hl%elem_of_list_to_map_2. by apply list_elem_of_fmap in Hl as (? & [= -> ->] & _).
Qed.

#[export] Program Instance mapworld_spec : ConfigMapClientSpec mapworld unit := {|
  stored := mw_stored; cached := mw_cached
|}.
Next Obligation.
  intros n w. eexists _, _. split_and!; [done..| |]; cbn; destruct (mw_cached w !! n); naive_solver.
Qed.
Next Obligation.
  intros w w' l [= <- <-]. split_and!; [done..|]. intros ns. rewrite list_elem_of_fmap. split.
  - intros ([n ns'] & -> & Hin%elem_of_map_to_list). cbn.
    by rewrite (mw_cached_key _ _ _ Hin).
  - intros Hns. exists (ns_Name ns, ns). split; [done|]. by apply elem_of_map_to_list.
Qed.
Next Obligation.
  intros ns n w. eexists _, _. split_and!; [done..| |]; cbn;
    destruct (mw_stored w !! (ns, n)); naive_solver.
Qed.
Next Obligation.
  intros w ns n cm Hl%elem_of_list_to_map_2.
  apply list_elem_of_fmap in Hl as (cm' & Heq & _). unfold cm_key in *. congruence.
Qed.
Next Obligation. intros w n ns. apply mw_cached_key. Qed.
Next Obligation.
  intros cm w. cbn. case_bool_decide; eexists _, _; (split; [reflexivity|]); (split; [done|]).
  - done.
  - intros _. reflexivity.
Qed.
Next Obligation.
  intros cm w. cbn. case_bool_decide; eexists _, _; (split; [reflexivity|]); (split; [done|]).
  - intros _. reflexivity.
  - done.
Qed.

(** A cluster with a mesh namespace whose ConfigMap has a foreign key, and a
    namespace the selector leaves out. *)
Definition example_matches (l : gmap string string) : bool := bool_decide (l !! "mesh" = Some "on").
Definition example_shop : Namespace :=
  {| ns_Name := "shop"; ns_Labels := Some {[ "mesh" := "on" ]}; ns_Phase := "Active" |}.
Definition example_cluster : mapworld :=
  {| mw_objects :=
       [ {| cm_Namespace := "shop"; cm_Name := configMapNameIstioRoot;
            cm_Labels := Some {[ "team" := "web" ]}; cm_Data := Some {[ "foreign" := "x" ]} |} ];
     mw_namespaces :=
       [ example_shop; {| ns_Name := "other"; ns_Labels := None; ns_Phase := "Active" |} ] |}.
Definition example_shop_request : Request :=
  {| req_Namespace := "shop"; req_Name := configMapNameIstioRoot |}.
Definition example_synced_cluster : mapworld :=
  (Reconcile example_matches "ROOTS" example_shop_request example_cluster).2.

Lemma Reconcile_correct_witness :
  ∃ res err w',
    Reconcile example_matches "ROOTS" example_shop_request example_cluster =
      (Ret (res, err), w') ∧
    (err = None → reconciled example_matches "ROOTS" "shop" example_cluster res w').
Proof. apply (Reconcile_correct example_matches "ROOTS" example_shop_request). Defined.

#[local] Instance example_roots_provider : TLSRoots unit mapworld unit string := {|
  tls_RootCAs := λ _ w, (Ret (Some {| PEM := "ROOTS"; Pool := Some ["root"] |}), w);
  ctx_Err := λ _ _, None
|}.

Lemma example_roots_provider_spec : TLSRootsSpec unit mapworld unit string.
Proof. split; [done|]. intros [] w r w' [= <- <-]. split; [done|]. by eexists. Qed.

Example roots_propagate_example :
  "ROOTS" = "ROOTS" ∧
  (∀ n, managed example_matches example_cluster n →
        ∃ cm, stored example_synced_cluster !! root_key n = Some cm ∧ synced "ROOTS" cm) ∧
  (∀ key, (∀ n, managed example_matches example_cluster n → key ≠ root_key n) →
          stored example_synced_cluster !! key = stored example_cluster !! key).
Proof.
  apply (roots_propagate (Ctx := unit) (CtxE := unit) (Cert := string) example_matches
    (TLSRootsSpec0 := example_roots_provider_spec)
    tt "" example_cluster {| PEM := "ROOTS"; Pool := Some ["root"] |} example_cluster
    [example_shop_request] "ROOTS" example_cluster [example_shop_request]
    example_synced_cluster); [reflexivity|vm_compute; reflexivity|reflexivity|].
  vm_compute. reflexivity.
Qed.
