(* ===== verification/ControllerQueue.v ===== *)
(** * The ConfigMap controller at work

    [pkg/controller/configmap.go] again, with everything that goes on around
    [Reconcile]: requests wait in the work queue, up to
    [MaxConcurrentReconciles] of them are reconciled at the same time, the roots
    change, namespaces come and go, and others write the same objects.

    [ReconcileP] is [Reconcile] as a program of calls, so that other threads can
    run between them; interpreting the calls one after the other gives
    [Controller.Reconcile] back.  [queue_step] is the interleaving.  Of
    Kubernetes it contains what is documented: an object has a version that
    changes with every write and an update with an old version is refused; a
    watch reports every change sooner or later; the work queue holds a request
    once, never hands it out twice at the same time, and hands it out again if
    it was added meanwhile.

    Two branches of the handler of a root CA event are not steps: when the list
    of namespaces cannot be read from the cache it ends the process, with
    [os.Exit], and nothing of the controller is left to speak about; and
    [RootCAs] answers nil only when the context has ended, and then the handler
    does nothing.  The theorems that say what can still happen are about a process
    that goes on. *)

From coqutil Require Import Datatypes.RecordSetters.
From S2P Require Import Prelude Kube RootCA TLSInterface Controller.

Import OCamlLikeNotations.

Open Scope Z_scope.
#[local] Arguments cm_key : simpl never.
#[local] Arguments root_key : simpl never.
#[local] Arguments constant {E} newValue _ /.

(* ------------------------------------------------------------------ *)
(** ** Programs of calls *)

Section queue.
Context {E : Type}.

(** The calls [Reconcile] makes.  The version of an object is part of its
    metadata: it comes with the object that is read and goes back with the one
    that is written. *)
Inductive call :=
| GetNamespaceCall (n : string)
| ReadPEM
| GetCall (ns n : string)
| CreateCall (cm : ConfigMap)
| UpdateCall (version : nat) (cm : ConfigMap).

Definition answer (c : call) : Type :=
  match c with
  | GetNamespaceCall _ => result (api_error E) Namespace
  | ReadPEM => string
  | GetCall _ _ => result (api_error E) (nat * ConfigMap)
  | CreateCall _ | UpdateCall _ _ => option (api_error E)
  end.

Inductive prog (A : Type) :=
| Done (a : A)
| Do (c : call) (k : answer c → prog A)
| Crash.
Arguments Done {A} _.
Arguments Do {A} _ _.
Arguments Crash {A}.

#[local] Instance prog_ret : MRet prog := λ A a, Done a.
#[local] Instance prog_bind : MBind prog := λ A B f,
  fix bind (m : prog A) : prog B :=
    match m with
    | Done a => f a
    | Do c k => Do c (λ r, bind (k r))
    | Crash => Crash
    end.

Definition do (c : call) : prog (answer c) := Do c Done.
Definition prog_outcome {A} (o : outcome A) : prog A :=
  match o with Ret a => Done a | _ => Crash end.

(** [labels.Selector.Matches] of the parsed selector. *)
Context (Matches : gmap string string → bool).

(** What a reconcile ends with. *)
#[local] Abbreviation reconcile_end := (CtrlResult * option (api_error E))%type.

Definition ReconcileP (req : Request) : prog reconcile_end :=
  namespace ← do (GetNamespaceCall (req_Namespace req));
  match namespace with
  | Err NotFound => mret (noRequeue, None)
  | Err err => mret (noRequeue, Some err)
  | Ok namespace =>
      if negb (namespace_matches Matches namespace) then mret (noRequeue, None)
      else if bool_decide (ns_Phase namespace = NamespaceTerminating) then mret (noRequeue, None)
      else
        rootCAsPEM ← do ReadPEM;
        if bool_decide (rootCAsPEM = "")
        then mret ({| RequeueAfter := 100 * time_Millisecond |}, None)
        else
          configMap ← do (GetCall (req_Namespace req) configMapNameIstioRoot);
          match configMap with
          | Err NotFound =>
              err ← do (CreateCall (newConfigMap (req_Namespace req) rootCAsPEM));
              mret (noRequeue, err)
          | Err err => mret (noRequeue, Some err)
          | Ok (version, configMap) =>
              '(configMap, updateNeeded) ← prog_outcome (syncConfigMap rootCAsPEM configMap);
              if (updateNeeded : bool) then
                err ← do (UpdateCall version configMap);
                mret (noRequeue, err)
              else mret (noRequeue, None)
          end
  end.

(** The calls, one after the other, on a client. *)
Section interp.
Context {W : Type} `{ConfigMapClient W E} (pem : string).

Definition handle (c : call) : go W (answer c) :=
  match c with
  | GetNamespaceCall n => lister_GetNamespace n
  | ReadPEM => mret pem
  | GetCall ns n => r ← client_Get ns n; mret (pair 0%nat <$> r)
  | CreateCall cm => client_Create cm
  | UpdateCall _ cm => client_Update cm
  end.

Fixpoint interp {A} (p : prog A) : go W A :=
  match p with
  | Done a => mret a
  | Do c k => r ← handle c; interp (k r)
  | Crash => go_outcome Panic
  end.
End interp.

(* ------------------------------------------------------------------ *)
(** ** The interleaving *)

Definition key : Type := string * string.

(** The API server with its objects, their versions and everything that was
    ever stored; the namespaces of the cache; the controller's bundle, and
    whether the handler of a root CA event has set it and still has to list the
    namespaces; reports of watches under way; the work queue, the requests that
    are put off, and the running reconciles. *)
Record cluster := {
  api : gmap key (nat * ConfigMap);
  history : gmap nat ConfigMap;
  namespaces : gmap string Namespace;
  rootCAsPEM : string;
  listing : bool;
  reports : gset Request;
  queued : gset Request;
  delayed : gset Request;
  running : gmap Request (prog reconcile_end);
}.

(** The request of a change to the object [k]: the predicate, and the handler. *)
Definition configMapRequests (k : key) : gset Request :=
  if configMapPredicate k.2 then {[ {| req_Namespace := k.1; req_Name := k.2 |} ]} else ∅.

(** A write of [cm] as version [v], which is new. *)
Definition write (v : nat) (cm : ConfigMap) (s : cluster) : cluster :=
  { s with api := <[cm_key cm := (v, cm)]> (api s);
           history := <[v := cm]> (history s);
           reports := configMapRequests (cm_key cm) ∪ reports s }.

Definition set_namespace (n : string) (ns : option Namespace) (s : cluster) : cluster :=
  { s with namespaces := partial_alter (λ _, ns) n (namespaces s);
           reports := list_to_set (namespaceRequest n) ∪ reports s }.

(** The handler of a root CA event sets the bundle. *)
Definition new_roots (p : string) (s : cluster) : cluster :=
  { s with rootCAsPEM := p; listing := true }.

(** The answers a call can get.  Any call can fail, and a write that fails may
    have been done nevertheless. *)
Definition created (cm : ConfigMap) (s s' : cluster) : Prop :=
  api s !! cm_key cm = None ∧ ∃ v, history s !! v = None ∧ s' = write v cm s.
Definition updated (version : nat) (cm : ConfigMap) (s s' : cluster) : Prop :=
  (∃ cm0, api s !! cm_key cm = Some (version, cm0)) ∧
  ∃ v, history s !! v = None ∧ s' = write v cm s.

Definition api_call (c : call) (s : cluster) : answer c → cluster → Prop :=
  match c with
  | GetNamespaceCall n => λ r s', s' = s ∧
      match r with
      | Ok ns => namespaces s !! n = Some ns
      | Err NotFound => namespaces s !! n = None
      | Err (OtherError _) => True
      end
  | ReadPEM => λ r s', s' = s ∧ r = rootCAsPEM s
  | GetCall ns n => λ r s', s' = s ∧
      match r with
      | Ok vc => api s !! (ns, n) = Some vc
      | Err NotFound => api s !! (ns, n) = None
      | Err (OtherError _) => True
      end
  | CreateCall cm => λ r s',
      match r with None => created cm s s' | Some _ => s' = s ∨ created cm s s' end
  | UpdateCall v cm => λ r s',
      match r with None => updated v cm s s' | Some _ => s' = s ∨ updated v cm s s' end
  end.

(** Whether a request is put off when its reconcile has ended. *)
Definition retry (e : reconcile_end) : bool :=
  (0 <? RequeueAfter e.1) || match e.2 with Some _ => true | None => false end.

(** Who makes a step: others, or the controller. *)
Inductive who := Others | Ours.

Inductive queue_step (MaxConcurrentReconciles : nat) : who → cluster → cluster → Prop :=
(* others write or delete an object, or a namespace *)
| q_write v cm s :
    history s !! v = None → queue_step MaxConcurrentReconciles Others s (write v cm s)
| q_delete k s :
    queue_step MaxConcurrentReconciles Others s
      { s with api := delete k (api s); reports := configMapRequests k ∪ reports s }
| q_namespace n ns s :
    (∀ x, ns = Some x → ns_Name x = n) →
    queue_step MaxConcurrentReconciles Others s (set_namespace n ns s)
(* the handler of a root CA event sets the bundle, then lists the namespaces *)
| q_roots p s :
    listing s = false →
    queue_step MaxConcurrentReconciles Others s (new_roots p s)
| q_listed l s :
    listing s = true → (∀ ns, ns ∈ l ↔ namespaces s !! ns_Name ns = Some ns) →
    queue_step MaxConcurrentReconciles Ours s
      { s with listing := false; reports := list_to_set (namespaceRequests Matches l) ∪ reports s }
(* the work queue *)
| q_report r s :
    r ∈ reports s →
    queue_step MaxConcurrentReconciles Ours s
      { s with reports := reports s ∖ {[r]}; queued := {[r]} ∪ queued s }
| q_timer r s :
    r ∈ delayed s →
    queue_step MaxConcurrentReconciles Ours s
      { s with delayed := delayed s ∖ {[r]}; queued := {[r]} ∪ queued s }
(* a worker takes a request, makes a call, and ends *)
| q_get r s :
    r ∈ queued s → running s !! r = None → (size (running s) < MaxConcurrentReconciles)%nat →
    queue_step MaxConcurrentReconciles Ours s
      { s with queued := queued s ∖ {[r]}; running := <[r := ReconcileP r]> (running s) }
| q_call r c k a s s' :
    running s !! r = Some (Do c k) → api_call c s a s' →
    queue_step MaxConcurrentReconciles Ours s { s' with running := <[r := k a]> (running s') }
| q_done r e s :
    running s !! r = Some (Done e) →
    queue_step MaxConcurrentReconciles Ours s
      { s with running := delete r (running s);
               delayed := if retry e then {[r]} ∪ delayed s else delayed s }.

(** The informers report everything that is there at the start. *)
Record starts (s : cluster) : Prop := {
  start_api k v cm : api s !! k = Some (v, cm) → cm_key cm = k ∧ history s !! v = Some cm;
  start_namespaces n ns : namespaces s !! n = Some ns → ns_Name ns = n;
  start_reports n : is_Some (namespaces s !! n) → list_to_set (namespaceRequest n) ⊆ reports s;
  start_names r : r ∈ reports s → req_Name r = configMapNameIstioRoot;
  start_idle : listing s = false ∧ queued s = ∅ ∧ delayed s = ∅ ∧ running s = ∅;
}.

Definition reachable (max : nat) (s : cluster) : Prop :=
  ∃ s0, starts s0 ∧ rtc (λ x y, ∃ w, queue_step max w x y) s0 s.

(** Nothing is under way. *)
Definition quiescent (s : cluster) : Prop :=
  listing s = false ∧ reports s = ∅ ∧ queued s = ∅ ∧ delayed s = ∅ ∧ running s = ∅.

Definition to_manage (s : cluster) (n : string) : Prop :=
  ∃ ns, namespaces s !! n = Some ns ∧ namespace_matches Matches ns = true ∧
        ns_Phase ns ≠ NamespaceTerminating.

Definition synced_at (pem : string) (obj : option (nat * ConfigMap)) : Prop :=
  ∃ v cm, obj = Some (v, cm) ∧ synced pem cm.

(* ------------------------------------------------------------------ *)
(** ** What a running reconcile may still do *)

Definition root_request (n : string) : Request :=
  {| req_Namespace := n; req_Name := configMapNameIstioRoot |}.

(** It keeps to its namespace and its object, and what it writes over the version
    it read, [rd], keeps the labels of others; it never panics. *)
Definition own_call (n : string) (rd : option (nat * ConfigMap)) (c : call) : Prop :=
  match c with
  | GetNamespaceCall n' => n' = n
  | ReadPEM => True
  | GetCall ns nm => (ns, nm) = root_key n
  | CreateCall cm => cm_key cm = root_key n
  | UpdateCall v cm => cm_key cm = root_key n ∧
                       ∃ cm0, rd = Some (v, cm0) ∧ other_labels_kept cm0 cm
  end.

Definition own_read (n : string) (rd : option (nat * ConfigMap)) (c : call)
    : answer c → option (nat * ConfigMap) → Prop :=
  match c with
  | GetCall _ _ => λ a rd', match a with
                            | Ok (v, cm) => cm_key cm = root_key n ∧ rd' = Some (v, cm)
                            | Err _ => rd' = rd
                            end
  | _ => λ _ rd', rd' = rd
  end.

Fixpoint own {A} (n : string) (rd : option (nat * ConfigMap)) (p : prog A) : Prop :=
  match p with
  | Done _ => True
  | Do c k => own_call n rd c ∧ ∀ a rd', own_read n rd c a rd' → own n rd' (k a)
  | Crash => False
  end.

(** Run without interference, from this bundle, namespace and object, it leaves
    the object synchronised or is retried. *)
Definition call_lands (pem : string) (nso : option Namespace) (obj : option (nat * ConfigMap))
    (c : call) : (answer c → option (nat * ConfigMap) → Prop) → Prop :=
  match c with
  | GetNamespaceCall _ => λ post, ∀ r,
      match r with Ok ns => nso = Some ns | Err NotFound => nso = None | Err _ => True end →
      post r obj
  | ReadPEM => λ post, post pem obj
  | GetCall _ _ => λ post, ∀ r,
      match r with Ok vc => obj = Some vc | Err NotFound => obj = None | Err _ => True end →
      post r obj
  | CreateCall cm => λ post,
      (obj = None → ∀ v, post None (Some (v, cm))) ∧ ∀ e obj', post (Some e) obj'
  | UpdateCall v cm => λ post,
      ((∃ cm0, obj = Some (v, cm0)) → ∀ v', post None (Some (v', cm))) ∧
      ∀ e obj', post (Some e) obj'
  end.

Fixpoint lands (pem : string) (nso : option Namespace) (obj : option (nat * ConfigMap))
    (p : prog reconcile_end) : Prop :=
  match p with
  | Done e => retry e = true ∨ synced_at pem obj
  | Do c k => call_lands pem nso obj c (λ a obj', lands pem nso obj' (k a))
  | Crash => False
  end.

(** [Reconcile] is such a program. *)
Lemma ReconcileP_own req : own (req_Namespace req) None (ReconcileP req).
Proof.
  split; [done|]. intros [ns|[|e]] rd ->; cbn; [|done|done].
  destruct (negb _); [done|]. case_bool_decide; [done|].
  split; [done|]. intros pem rd ->. case_bool_decide; [done|].
  split; [done|]. intros [[v cm]|[|e]] rd; cbn.
  - intros [Hkey ->]. destruct (syncConfigMap_spec Matches pem cm)
      as (cm' & b & -> & _ & Hk & Hlab & _). cbn. destruct b; [|done].
    split; [|done]. split; [congruence|]. eauto.
  - intros ->. split; [done|]. done.
  - intros ->. done.
Qed.

Lemma ReconcileP_lands pem n ns obj :
  namespace_matches Matches ns = true → ns_Phase ns ≠ NamespaceTerminating →
  lands pem (Some ns) obj (ReconcileP (root_request n)).
Proof.
  intros Hm Hp. cbn. intros [ns'|[|e]]; [|done|by left]. intros [= <-]. cbn.
  rewrite Hm. cbn. rewrite bool_decide_eq_false_2 by done. cbn.
  case_bool_decide; [by left|]. cbn. intros [[v cm]|[|e]]; [| |by left]; intros ->; cbn.
  - destruct (syncConfigMap_spec Matches pem cm) as (cm' & b & -> & Hs & _ & _ & Hb & Hsame). cbn.
    destruct b; cbn.
    + split; [|by left]. intros _ v'. right. by exists v', cm'.
    + right. exists v, cm. split; [done|]. by apply Hb.
  - split; [|by left]. intros _ v. right. exists v, (newConfigMap n pem).
    split; [done|]. apply synced_new.
Qed.

(** Interpreting the calls one after the other gives [Reconcile]. *)
Lemma interp_ReconcileP {W} `{ConfigMapClient W E} p req (w : W) :
  interp p (ReconcileP req) w = Reconcile Matches p req w.
Proof.
  unfold ReconcileP, Reconcile. cbn [mbind prog_bind do interp handle].
  unfold mbind, go_bind, mret, go_ret.
  destruct (lister_GetNamespace (req_Namespace req) w) as [[[ns|[|e]]| |] w1]; try reflexivity.
  destruct (negb _); [done|]. case_bool_decide; [done|]. cbn. unfold mbind, go_bind, mret, go_ret.
  case_bool_decide; [done|]. cbn. unfold mbind, go_bind, mret, go_ret.
  destruct (client_Get _ _ w1) as [[[cm|[|e]]| |] w2]; try reflexivity; cbn.
  destruct (syncConfigMap_spec Matches p cm) as (cm' & b & -> & _). by destruct b.
Qed.

(* ------------------------------------------------------------------ *)
(** ** The invariant *)

Section invariant.
Context (max : nat).

(** A reconcile of the request will start, or the handler will ask for one. *)
Definition pending (s : cluster) (r : Request) : Prop :=
  listing s = true ∨ r ∈ reports s ∪ queued s ∪ delayed s.

(** The namespace is synchronised, or will be looked at. *)
Definition attended (s : cluster) (n : string) : Prop :=
  to_manage s n → pending s (root_request n) ∨
    match running s !! root_request n with
    | None => synced_at (rootCAsPEM s) (api s !! root_key n)
    | Some p => lands (rootCAsPEM s) (namespaces s !! n) (api s !! root_key n) p
    end.

Record queue_ok (s : cluster) : Prop := {
  ok_api k v cm : api s !! k = Some (v, cm) → cm_key cm = k ∧ history s !! v = Some cm;
  ok_namespaces n ns : namespaces s !! n = Some ns → ns_Name ns = n;
  ok_names r : r ∈ reports s ∪ queued s ∪ delayed s ∪ dom (running s) → r = root_request (req_Namespace r);
  ok_running r p : running s !! r = Some p →
    ∃ rd, own (req_Namespace r) rd p ∧ ∀ v cm, rd = Some (v, cm) → history s !! v = Some cm;
  ok_attended n : attended s n;
}.

Lemma configMapRequests_names k r : r ∈ configMapRequests k → r = root_request (req_Namespace r).
Proof.
  unfold configMapRequests, configMapPredicate. case_bool_decide as Hk; [|set_solver].
  rewrite elem_of_singleton. intros ->. unfold root_request. cbn. by rewrite Hk.
Qed.

Lemma configMapRequests_root n : configMapRequests (root_key n) = {[ root_request n ]}.
Proof. done. Qed.

Lemma starts_ok s : starts s → queue_ok s.
Proof.
  intros [Hapi Hns Hrep Hnames (Hl & Hq & Hd & Hr)]. split; [done|done| | |].
  - intros r. rewrite Hq, Hd, Hr, dom_empty_L. intros Hin.
    assert (r ∈ reports s) as Hr' by set_solver. destruct r as [ns n].
    unfold root_request. cbn. by rewrite <-(Hnames _ Hr').
  - intros r p. by rewrite Hr, lookup_empty.
  - intros n (ns & Hn & _). left. right. rewrite !elem_of_union. left. left.
    apply (Hrep n); [by eexists|]. cbn. set_solver.
Qed.

(** A call of a program that keeps to its object, on the cluster and on what the
    program sees of it. *)
Lemma api_call_lands n rd c s a s' post :
  own_call n rd c → api_call c s a s' →
  call_lands (rootCAsPEM s) (namespaces s !! n) (api s !! root_key n) c post →
  post a (api s' !! root_key n).
Proof.
  destruct c; cbn; intros Ho Hc Hp.
  - destruct Hc as [-> Hc]. subst. by apply Hp.
  - by destruct Hc as [-> ->].
  - destruct Hc as [-> Hc]. injection Ho as -> ->. apply Hp, Hc.
  - rewrite <-Ho in *. destruct Hp as [Hnone Hsome]. destruct a as [e|]; [by apply Hsome|].
    destruct Hc as (Hk & v & _ & ->). cbn. rewrite lookup_insert_eq. by apply Hnone.
  - destruct Ho as [Ho _]. rewrite <-Ho in *. destruct Hp as [Hnone Hsome].
    destruct a as [e|]; [by apply Hsome|].
    destruct Hc as (Hk & v & _ & ->). cbn. rewrite lookup_insert_eq. by apply Hnone.
Qed.

(** What a call leaves alone. *)
Lemma api_call_frame n rd c s a s' :
  own_call n rd c → api_call c s a s' →
  namespaces s' = namespaces s ∧ rootCAsPEM s' = rootCAsPEM s ∧ listing s' = listing s ∧
  queued s' = queued s ∧ delayed s' = delayed s ∧ running s' = running s ∧
  history s ⊆ history s' ∧ reports s ⊆ reports s' ∧
  (∀ r, r ∈ reports s' → r ∈ reports s ∨ r = root_request n) ∧
  (∀ k, k ≠ root_key n → api s' !! k = api s !! k) ∧
  (∀ k v cm, api s' !! k = Some (v, cm) →
     api s !! k = Some (v, cm) ∨ cm_key cm = k ∧ history s' !! v = Some cm).
Proof.
  assert (∀ cm v, cm_key cm = root_key n → history s !! v = None →
    let s' := write v cm s in
    namespaces s' = namespaces s ∧ rootCAsPEM s' = rootCAsPEM s ∧ listing s' = listing s ∧
    queued s' = queued s ∧ delayed s' = delayed s ∧ running s' = running s ∧
    history s ⊆ history s' ∧ reports s ⊆ reports s' ∧
    (∀ r, r ∈ reports s' → r ∈ reports s ∨ r = root_request n) ∧
    (∀ k, k ≠ root_key n → api s' !! k = api s !! k) ∧
    (∀ k v cm, api s' !! k = Some (v, cm) →
       api s !! k = Some (v, cm) ∨ cm_key cm = k ∧ history s' !! v = Some cm)) as Hw.
  { intros cm v Hk Hv. cbn. rewrite Hk. split_and!; try done.
    - by apply insert_subseteq.
    - set_solver.
    - intros r. rewrite configMapRequests_root. set_solver.
    - intros k Hne. by apply lookup_insert_ne, not_eq_sym.
    - intros k v' cm' [[<- [= <- <-]]|[_ ?]]%lookup_insert_Some; [|by left].
      right. split; [done|]. apply lookup_insert_eq. }
  destruct c; cbn; intros Ho Hc.
  1-3: destruct Hc as [-> _]; split_and!; try done; eauto.
  all: [> |destruct Ho as [Ho _]].
  all: destruct a as [e|]; [destruct Hc as [->|Hc]; [split_and!; try done; eauto|]|].
  all: destruct Hc as (_ & v & Hv & ->); by apply Hw.
Qed.

Lemma attended_pending s n : pending s (root_request n) → attended s n.
Proof. intros Hp _. by left. Qed.

(** Whatever does not concern a namespace leaves it attended. *)
Lemma attended_frame s s' n :
  namespaces s' !! n = namespaces s !! n → rootCAsPEM s' = rootCAsPEM s →
  api s' !! root_key n = api s !! root_key n →
  running s' !! root_request n = running s !! root_request n →
  (pending s (root_request n) → pending s' (root_request n)) →
  attended s n → attended s' n.
Proof.
  intros Hn Hp Ha Hr Hpend Hs. unfold attended, to_manage. rewrite Hn, Hp, Ha, Hr.
  intros Hm. destruct (Hs Hm); auto.
Qed.

(** Steps of others are reported. *)
Lemma write_attended v cm s n : attended s n → attended (write v cm s) n.
Proof.
  intros Hs. destruct (decide (cm_key cm = root_key n)) as [Hk|Hk].
  - apply attended_pending. right. cbn. rewrite Hk, configMapRequests_root. set_solver.
  - apply (attended_frame s); try done; cbn.
    + by apply lookup_insert_ne.
    + unfold pending. cbn. set_solver.
Qed.

Lemma delete_attended k s n :
  attended s n →
  attended { s with api := delete k (api s); reports := configMapRequests k ∪ reports s } n.
Proof.
  intros Hs. destruct (decide (k = root_key n)) as [->|Hk].
  - apply attended_pending. right. cbn. rewrite configMapRequests_root. set_solver.
  - apply (attended_frame s); try done; cbn.
    + by apply lookup_delete_ne.
    + unfold pending. cbn. set_solver.
Qed.

Lemma namespace_attended n' ns s n : attended s n → attended (set_namespace n' ns s) n.
Proof.
  intros Hs. destruct (decide (n' = n)) as [->|Hne].
  - apply attended_pending. right. cbn. unfold root_request. set_solver.
  - apply (attended_frame s); try done; cbn.
    + by apply lookup_partial_alter_ne.
    + unfold pending. cbn. set_solver.
Qed.

(** The list of the handler has every namespace that is to be managed. *)
Lemma listed_requests l s n :
  (∀ n ns, namespaces s !! n = Some ns → ns_Name ns = n) →
  (∀ ns, ns ∈ l ↔ namespaces s !! ns_Name ns = Some ns) → to_manage s n →
  root_request n ∈ namespaceRequests Matches l.
Proof.
  intros Hk Hl (ns & Hn & Hm & _). apply list_elem_of_omap. exists ns. split.
  - apply Hl. by rewrite (Hk _ _ Hn).
  - rewrite Hm. cbn. by rewrite (Hk _ _ Hn).
Qed.

Lemma get_attended r s n :
  running s !! r = None → attended s n →
  attended { s with queued := queued s ∖ {[r]}; running := <[r := ReconcileP r]> (running s) } n.
Proof.
  intros Hr Hs. destruct (decide (r = root_request n)) as [->|Hne].
  - intros (ns & Hn & Hm & Hp). right. cbn in *. rewrite lookup_insert_eq, Hn.
    by apply ReconcileP_lands.
  - apply (attended_frame s); try done; cbn.
    + by apply lookup_insert_ne.
    + unfold pending. cbn. set_solver.
Qed.

Lemma done_attended r e s n :
  running s !! r = Some (Done e) → attended s n →
  attended { s with running := delete r (running s);
                    delayed := if retry e then {[r]} ∪ delayed s else delayed s } n.
Proof.
  intros Hr Hs. destruct (decide (r = root_request n)) as [->|Hne].
  - intros Hm. destruct (Hs Hm) as [Hp|Hl].
    + left. unfold pending in *. cbn. destruct (retry e); set_solver.
    + rewrite Hr in Hl. cbn in *. destruct Hl as [->|Hl].
      * left. right. cbn. set_solver.
      * right. by rewrite lookup_delete_eq.
  - apply (attended_frame s); try done; cbn.
    + by apply lookup_delete_ne.
    + unfold pending. cbn. destruct (retry e); set_solver.
Qed.

Lemma call_attended r rd c k a s s' n :
  running s !! r = Some (Do c k) → r = root_request (req_Namespace r) →
  own_call (req_Namespace r) rd c → api_call c s a s' → attended s n →
  attended { s' with running := <[r := k a]> (running s') } n.
Proof.
  intros Hr Hroot Ho Hc Hs.
  destruct (api_call_frame _ _ _ _ _ _ Ho Hc)
    as (Hns & Hpem & Hli & Hq & Hd & Hrun & _ & Hrep & _ & Hapi & _).
  destruct (decide (r = root_request n)) as [->|Hne].
  - intros Hm. assert (to_manage s n) as Hm'
      by (destruct Hm as (ns & Hn & ?); change (namespaces s' !! n = Some ns) in Hn;
          rewrite Hns in Hn; by exists ns).
    cbn in *. destruct (Hs Hm') as [Hp|Hl].
    + left. change (pending s' (root_request n)). unfold pending in *.
      rewrite Hli, Hq, Hd. set_solver.
    + right. rewrite Hr in Hl. cbn in Hl. apply (api_call_lands _ _ _ _ _ _ _ Ho Hc) in Hl.
      rewrite <-Hns, <-Hpem in Hl. cbn. by rewrite lookup_insert_eq.
  - apply (attended_frame s).
    + change (namespaces s' !! n = namespaces s !! n). by rewrite Hns.
    + done.
    + apply Hapi. intros [= He]. apply Hne. by rewrite Hroot, He.
    + cbn. rewrite lookup_insert_ne by done. by rewrite <-Hrun.
    + change (pending s (root_request n) → pending s' (root_request n)). unfold pending.
      rewrite Hli, Hq, Hd. set_solver.
    + done.
Qed.

(** What a running reconcile knows after a call. *)
Lemma call_own n rd c k a s s' :
  queue_ok s → own n rd (Do (A := reconcile_end) c k) → api_call c s a s' →
  (∀ v cm, rd = Some (v, cm) → history s !! v = Some cm) →
  ∃ rd', own n rd' (k a) ∧ ∀ v cm, rd' = Some (v, cm) → history s' !! v = Some cm.
Proof.
  intros Hok [Ho Hk] Hc Hrd.
  destruct (api_call_frame _ _ _ _ _ _ Ho Hc) as (_ & _ & _ & _ & _ & _ & Hh & _).
  assert (∀ v cm, rd = Some (v, cm) → history s' !! v = Some cm) as Hrd'.
  { intros v cm Hv. eapply lookup_weaken; [by apply Hrd|done]. }
  destruct c as [n'| |ns nm|cm|v cm]; try (exists rd; split; [by apply Hk|done]).
  destruct a as [[v cm]|e]; [|exists rd; split; [by apply Hk|done]].
  cbn in Ho, Hc. destruct Hc as [-> Ha]. apply (ok_api _ Hok) in Ha as [Hkey Hv].
  exists (Some (v, cm)). split; [apply Hk; cbn; by rewrite Hkey|]. by intros ? ? [= <- <-].
Qed.

Lemma ok_names_weaken s s' :
  queue_ok s →
  (∀ r, r ∈ reports s' ∪ queued s' ∪ delayed s' ∪ dom (running s') →
        r ∈ reports s ∪ queued s ∪ delayed s ∪ dom (running s) ∨
        r = root_request (req_Namespace r)) →
  ∀ r, r ∈ reports s' ∪ queued s' ∪ delayed s' ∪ dom (running s') →
       r = root_request (req_Namespace r).
Proof. intros Hok Hin r Hr. destruct (Hin r Hr); [by apply (ok_names s Hok)|done]. Qed.

Lemma write_ok v cm s : history s !! v = None → queue_ok s → queue_ok (write v cm s).
Proof.
  intros Hv Hok. split; [| |apply (ok_names_weaken s _ Hok)| |].
  - intros k v' cm'. cbn. intros [[<- [= <- <-]]|[_ Ha]]%lookup_insert_Some.
    + split; [done|]. apply lookup_insert_eq.
    + apply (ok_api s Hok) in Ha as [? Hh]. split; [done|].
      rewrite lookup_insert_ne; [done|]. intros ->. congruence.
  - apply (ok_namespaces s Hok).
  - intros r. cbn. intros Hr. destruct (decide (r ∈ configMapRequests (cm_key cm))).
    + right. by eapply configMapRequests_names.
    + left. set_solver.
  - intros r p Hr. destruct (ok_running s Hok r p Hr) as (rd & Ho & Hrd). exists rd.
    split; [done|]. intros v' cm' Heq. cbn. rewrite lookup_insert_ne; [by apply Hrd|].
    intros ->. apply Hrd in Heq. congruence.
  - intros n. apply write_attended, (ok_attended s Hok).
Qed.

Lemma call_ok r c k a s s' :
  running s !! r = Some (Do c k) → api_call c s a s' → queue_ok s →
  queue_ok { s' with running := <[r := k a]> (running s') }.
Proof.
  intros Hr Hc Hok. destruct (ok_running s Hok r _ Hr) as (rd & Hown & Hrd).
  pose proof (proj1 Hown) as Ho.
  assert (r = root_request (req_Namespace r)) as Hroot.
  { apply (ok_names s Hok). rewrite !elem_of_union, elem_of_dom. right. by eexists. }
  destruct (api_call_frame _ _ _ _ _ _ Ho Hc)
    as (Hns & Hpem & Hli & Hq & Hd & Hrun & Hh & _ & Hrep & _ & Hapi).
  split.
  - intros k' v cm Ha. change (api s' !! k' = Some (v, cm)) in Ha.
    destruct (Hapi _ _ _ Ha) as [Ha'|[??]]; [|done].
    apply (ok_api s Hok) in Ha' as [? ?]. split; [done|]. by eapply lookup_weaken.
  - intros n ns Hn. change (namespaces s' !! n = Some ns) in Hn. rewrite Hns in Hn.
    by apply (ok_namespaces s Hok).
  - apply (ok_names_weaken s _ Hok). intros r'.
    change (r' ∈ reports s' ∪ queued s' ∪ delayed s' ∪ dom (<[r := k a]> (running s')) →
            r' ∈ reports s ∪ queued s ∪ delayed s ∪ dom (running s) ∨
            r' = root_request (req_Namespace r')).
    rewrite Hq, Hd, Hrun, dom_insert_lookup_L by by eexists.
    rewrite !elem_of_union. intros [[[Hin|?]|?]|?]; [|by auto..].
    apply Hrep in Hin as [?|He]; [by auto|]. right. by rewrite He.
  - intros r' p Hr'. change (<[r := k a]> (running s') !! r' = Some p) in Hr'.
    apply lookup_insert_Some in Hr' as [[<- <-]|[_ Hr']].
    + by apply (call_own _ _ _ _ _ _ _ Hok Hown Hc Hrd).
    + rewrite Hrun in Hr'. destruct (ok_running s Hok _ _ Hr') as (rd' & ? & Hrd'').
      exists rd'. split; [done|]. intros v cm Hv. eapply lookup_weaken; [by apply Hrd''|done].
  - intros n. eapply call_attended; eauto. apply (ok_attended s Hok).
Qed.

Lemma queue_ok_step w s s' : queue_step max w s s' → queue_ok s → queue_ok s'.
Proof.
  intros Hstep Hok. destruct Hstep as [v cm s Hv|k s|n ns s Hname|p s Hl|l s Hl Hlist|r s Hr|r s Hr
    |r s Hq Hr _|r c k a s s' Hr Hc|r e s Hr].
  - by apply write_ok.
  - split; [|apply Hok|apply (ok_names_weaken s _ Hok)|apply Hok|].
    + intros k' v cm. cbn. intros [_ Ha]%lookup_delete_Some. by apply (ok_api s Hok).
    + intros r. cbn. intros Hr. destruct (decide (r ∈ configMapRequests k)).
      * right. by eapply configMapRequests_names.
      * left. set_solver.
    + intros n. apply delete_attended, (ok_attended s Hok).
  - split; [apply Hok| |apply (ok_names_weaken s _ Hok)|apply Hok|].
    + intros n' ns'. cbn. destruct (decide (n' = n)) as [->|Hne].
      * rewrite lookup_partial_alter_eq. by intros ?%Hname.
      * rewrite lookup_partial_alter_ne by done. apply (ok_namespaces s Hok).
    + intros r. cbn. rewrite !elem_of_union, elem_of_singleton.
      intros [[[[[->|?]|?]|?]|?]|?]; try tauto. by right.
    + intros n'. apply namespace_attended, (ok_attended s Hok).
  - split; try apply Hok. intros n. apply attended_pending. by left.
  - split; [apply Hok|apply Hok|apply (ok_names_weaken s _ Hok)|apply Hok|].
    + intros r. cbn. rewrite !elem_of_union, elem_of_list_to_set. intros [[[[Hr|?]|?]|?]|?];
        try tauto. right. apply list_elem_of_omap in Hr as (ns & _ & Hns).
      case_match; [done|]. by injection Hns as <-.
    + intros n Hm. left. right. cbn. rewrite !elem_of_union, elem_of_list_to_set. left. left. left.
      eapply listed_requests; [apply Hok|done|exact Hm].
  - split; [apply Hok|apply Hok|apply (ok_names_weaken s _ Hok); set_solver|apply Hok|].
    intros n. apply (attended_frame s); try done; [|apply (ok_attended s Hok)].
    unfold pending. cbn. destruct (decide (r = root_request n)); set_solver.
  - split; [apply Hok|apply Hok|apply (ok_names_weaken s _ Hok); set_solver|apply Hok|].
    intros n. apply (attended_frame s); try done; [|apply (ok_attended s Hok)].
    unfold pending. cbn. destruct (decide (r = root_request n)); set_solver.
  - split; [apply Hok|apply Hok|apply (ok_names_weaken s _ Hok)| |].
    + intros r'. cbn. rewrite dom_insert_L. set_solver.
    + intros r' p. cbn. intros [[<- <-]|[_ Hr']]%lookup_insert_Some.
      * exists None. split; [apply ReconcileP_own|done].
      * by apply (ok_running s Hok).
    + intros n. apply get_attended; [done|apply (ok_attended s Hok)].
  - by apply (call_ok r c k a s s').
  - split; [apply Hok|apply Hok|apply (ok_names_weaken s _ Hok)| |].
    + intros r'. cbn. rewrite dom_delete_L. assert (r ∈ dom (running s)) by (by apply elem_of_dom_2 in Hr).
      destruct (retry e); set_solver.
    + intros r' p. cbn. intros [_ Hr']%lookup_delete_Some. by apply (ok_running s Hok).
    + intros n. apply done_attended; [done|apply (ok_attended s Hok)].
Qed.

(** The controller's own steps leave the namespaces and the bundle alone, and do
    not start the handler. *)
Lemma ours_keeps s s' :
  queue_step max Ours s s' →
  namespaces s' = namespaces s ∧ rootCAsPEM s' = rootCAsPEM s ∧
  (listing s = false → listing s' = false).
Proof.
  inversion 1; subst; try done.
  enough (namespaces s'0 = namespaces s ∧ rootCAsPEM s'0 = rootCAsPEM s ∧ listing s'0 = listing s)
    as (?&?&Hl) by (split_and!; [done..|]; intros; change (listing s'0 = false); congruence).
  match goal with Hc : api_call ?c _ ?a _ |- _ => destruct c; cbn in Hc end.
  1-3: by match goal with Hc : _ ∧ _ |- _ => destruct Hc as [-> _] end.
  all: case_match; unfold created, updated in *; naive_solver.
Qed.

Lemma reachable_ok s : reachable max s → queue_ok s.
Proof.
  intros (s0 & H0 & Hr). apply starts_ok in H0.
  induction Hr as [s|s1 s2 s3 [w Hs] _ IH]; [done|]. eauto using queue_ok_step.
Qed.

(* ------------------------------------------------------------------ *)
(** ** Coming to rest *)

#[local] Abbreviation ours := (rtc (queue_step max Ours)).

(** The requests that wait somewhere. *)
Definition waiting (s : cluster) : gset Request := reports s ∪ queued s ∪ delayed s.

(** Nothing is left to do for the namespace. *)
Definition settled (s : cluster) (n : string) : Prop :=
  to_manage s n → synced_at (rootCAsPEM s) (api s !! root_key n).

#[local] Instance to_manage_dec s n : Decision (to_manage s n).
Proof.
  destruct (namespaces s !! n) as [ns|] eqn:Hns.
  - destruct (decide (namespace_matches Matches ns = true ∧ ns_Phase ns ≠ NamespaceTerminating))
      as [Hd|Hd].
    + left. by exists ns.
    + right. intros (ns' & Hns' & ?). rewrite Hns in Hns'. injection Hns' as <-. tauto.
  - right. intros (ns & ? & _). congruence.
Defined.

#[local] Instance settled_dec s n : Decision (settled s n).
Proof.
  unfold settled. apply impl_dec; [apply _|].
  destruct (api s !! root_key n) as [[v cm]|].
  - destruct (decide (synced (rootCAsPEM s) cm)) as [Hs|Hs].
    + left. by exists v, cm.
    + right. by intros (? & ? & [= <- <-] & ?).
  - right. by intros (? & ? & ? & _).
Defined.

(** A state in which only [r] is running, at [p]. *)
Definition alone (r : Request) (p : prog reconcile_end) (s : cluster) : cluster :=
  { s with running := {[ r := p ]} }.

Lemma alone_call r c k a s s' :
  api_call c s a s' → queue_step max Ours (alone r (Do c k) s) (alone r (k a) s').
Proof.
  intros Hc. replace (alone r (k a) s')
    with { alone r (Do c k) s' with running := <[r := k a]> (running (alone r (Do c k) s')) }.
  - apply (q_call max r c k a). { apply lookup_insert_eq. }
    destruct c; cbn in *; try (destruct Hc as [-> Hc]; by split).
    + destruct a; [destruct Hc as [->|(? & v & ? & ->)]|destruct Hc as (? & v & ? & ->)];
        [by left|right; split; [done|by exists v]|split; [done|by exists v]].
    + destruct a; [destruct Hc as [->|(? & v & ? & ->)]|destruct Hc as (? & v & ? & ->)];
        [by left|right; split; [done|by exists v]|split; [done|by exists v]].
  - unfold alone. cbn. by rewrite insert_singleton_eq.
Qed.

Lemma alone_done r e s :
  queue_step max Ours (alone r (Done e) s)
    { s with running := ∅; delayed := if retry e then {[r]} ∪ delayed s else delayed s }.
Proof.
  replace { s with running := ∅; delayed := if retry e then {[r]} ∪ delayed s else delayed s }
    with { alone r (Done e) s with running := delete r (running (alone r (Done e) s));
             delayed := if retry e then {[r]} ∪ delayed (alone r (Done e) s)
                        else delayed (alone r (Done e) s) }.
  - apply q_done. apply lookup_insert_eq.
  - unfold alone. cbn. by rewrite delete_singleton_eq.
Qed.

(** The last step of a reconcile that ends well. *)
Lemma alone_ends r s : ours (alone r (Done (noRequeue, None)) s) { s with running := ∅ }.
Proof. apply rtc_once, (alone_done r (noRequeue, None) s). Qed.

(** A version that was not used. *)
Definition next_version (s : cluster) : nat := S (max_list (map_to_list (history s)).*1).

Lemma next_version_fresh s : history s !! next_version s = None.
Proof.
  apply eq_None_not_Some. intros [cm Hv].
  assert (next_version s ∈ (map_to_list (history s)).*1) as Hin%max_list_elem_of_le.
  { apply list_elem_of_fmap. exists (next_version s, cm). split; [done|]. by apply elem_of_map_to_list. }
  unfold next_version in Hin. lia.
Qed.

Lemma fresh_version (s : cluster) : ∃ v, history s !! v = None.
Proof. exists (next_version s). apply next_version_fresh. Qed.

(** An API server that fails only when it has to. *)
Definition honest (c : call) (s : cluster) : answer c * cluster :=
  match c with
  | GetNamespaceCall n =>
      (match namespaces s !! n with Some ns => Ok ns | None => Err NotFound end, s)
  | ReadPEM => (rootCAsPEM s, s)
  | GetCall ns n => (match api s !! (ns, n) with Some vc => Ok vc | None => Err NotFound end, s)
  | CreateCall cm =>
      match api s !! cm_key cm with
      | Some _ => (Some NotFound, s)
      | None => (None, write (next_version s) cm s)
      end
  | UpdateCall v cm =>
      match api s !! cm_key cm with
      | Some (v0, _) => if bool_decide (v0 = v) then (None, write (next_version s) cm s)
                        else (Some NotFound, s)
      | None => (Some NotFound, s)
      end
  end.

Lemma honest_call c s : api_call c s (honest c s).1 (honest c s).2.
Proof.
  pose proof (next_version_fresh s). destruct c as [n| |ns n|cm|v cm]; cbn.
  - by destruct (namespaces s !! n).
  - done.
  - by destruct (api s !! (ns, n)).
  - destruct (api s !! cm_key cm) eqn:Ha; cbn; [by left|]. split; eauto.
  - destruct (api s !! cm_key cm) as [[v0 cm0]|] eqn:Ha; cbn; [|by left].
    case_bool_decide as Hv; cbn; [|by left]. subst v0. split; eauto.
Qed.

(** What a reconcile on its own does to the rest. *)
Definition reconciled_from (n : string) (s s' : cluster) : Prop :=
  running s' = ∅ ∧ listing s' = listing s ∧ namespaces s' = namespaces s ∧
  rootCAsPEM s' = rootCAsPEM s ∧ queued s' = queued s ∧ delayed s' = delayed s ∧
  settled s' n ∧ (∀ k, k ≠ root_key n → api s' !! k = api s !! k) ∧
  reports s' ⊆ {[ root_request n ]} ∪ reports s ∧ (settled s n → reports s' = reports s).

(** A reconcile that ends without a write, because nothing was to do. *)
Lemma reconciled_idle n s : settled s n → reconciled_from n s { s with running := ∅ }.
Proof. intros Hs. repeat split; try done. set_solver. Qed.

Lemma reconciled_write n v cm s :
  ¬ settled s n → cm_key cm = root_key n → synced (rootCAsPEM s) cm →
  reconciled_from n s { write v cm s with running := ∅ }.
Proof.
  intros Hs Hk Hsy. repeat split; try done; cbn.
  - intros _. exists v, cm. split; [|done]. cbn. rewrite Hk. apply lookup_insert_eq.
  - intros k Hne. rewrite Hk. by apply lookup_insert_ne, not_eq_sym.
  - rewrite Hk, configMapRequests_root. done.
Qed.

(** The part of [Reconcile] after the namespace was found to be managed. *)
Lemma reconcile_alone n s p :
  (∀ k v cm, api s !! k = Some (v, cm) → cm_key cm = k) → to_manage s n →
  (∀ v cm, api s !! root_key n = Some (v, cm) →
     p (Ok (v, cm)) = ('(cm', updateNeeded) ← prog_outcome (syncConfigMap (rootCAsPEM s) cm);
                       if (updateNeeded : bool) then
                         err ← do (UpdateCall v cm'); mret (noRequeue, err)
                       else mret (noRequeue, None))) →
  p (Err NotFound) = (err ← do (CreateCall (newConfigMap n (rootCAsPEM s)));
                      mret (noRequeue, err)) →
  ∃ s', ours (alone (root_request n) (Do (GetCall n configMapNameIstioRoot) p) s) s' ∧
        reconciled_from n s s'.
Proof.
  intros Hkeys Hm Hsome Hnone. destruct (fresh_version s) as [v' Hv'].
  destruct (api s !! root_key n) as [[v cm]|] eqn:Ha.
  - destruct (syncConfigMap_spec Matches (rootCAsPEM s) cm) as (cm' & b & Hsync & Hs & Hk & _ & Hb & _).
    assert (synced (rootCAsPEM s) cm ↔ settled s n) as Hset.
    { unfold settled, synced_at. rewrite Ha. split; [by eauto|].
      intros Hs'. by destruct (Hs' Hm) as (? & ? & [= <- <-] & ?). }
    assert (api_call (GetCall n configMapNameIstioRoot) s (Ok (v, cm)) s) as H1 by done.
    specialize (Hsome v cm eq_refl). rewrite Hsync in Hsome. cbn in Hsome. destruct b.
    + exists { write v' cm' s with running := ∅ }. split.
      * eapply rtc_l; [apply alone_call, H1|]. rewrite Hsome.
        eapply rtc_l; [apply (alone_call _ (UpdateCall v cm') _ None s (write v' cm' s))|apply alone_ends].
        split; [|by exists v']. exists cm. by rewrite Hk, (Hkeys _ _ _ Ha).
      * apply reconciled_write; [|by rewrite Hk, (Hkeys _ _ _ Ha)|done].
        rewrite <-Hset. by intros ?%Hb.
    + exists { s with running := ∅ }. split.
      * eapply rtc_l; [apply alone_call, H1|]. rewrite Hsome. apply alone_ends.
      * by apply reconciled_idle, Hset, Hb.
  - assert (api_call (GetCall n configMapNameIstioRoot) s (Err NotFound) s) as H1 by done.
    exists { write v' (newConfigMap n (rootCAsPEM s)) s with running := ∅ }. split.
    + cbn in Hnone. eapply rtc_l; [apply alone_call, H1|]. rewrite Hnone.
      eapply rtc_l; [|apply alone_ends].
      apply (alone_call _ (CreateCall (newConfigMap n (rootCAsPEM s)))
               (λ r, Done (noRequeue, r)) None s
               (write v' (newConfigMap n (rootCAsPEM s)) s)).
      split; [done|by exists v'].
    + apply reconciled_write; [|done|apply synced_new].
      intros Hs. destruct (Hs Hm) as (? & ? & ? & _). congruence.
Qed.

(** A reconcile on its own, from its start. *)
Lemma process_alone n s :
  (∀ k v cm, api s !! k = Some (v, cm) → cm_key cm = k) → rootCAsPEM s ≠ "" →
  ∃ s', ours (alone (root_request n) (ReconcileP (root_request n)) s) s' ∧
        reconciled_from n s s'.
Proof.
  intros Hkeys Hpem. unfold ReconcileP. cbn [mbind prog_bind do req_Namespace root_request].
  assert (¬ to_manage s n → reconciled_from n s { s with running := ∅ }) as Hidle.
  { intros Hn. apply reconciled_idle. by intros ?%Hn. }
  destruct (namespaces s !! n) as [ns|] eqn:Hns; last first.
  { eexists. split; [|apply Hidle; intros (? & ? & _); congruence].
    eapply rtc_l; [by apply (alone_call _ (GetNamespaceCall n) _ (Err NotFound) s s)|]. apply alone_ends. }
  assert (∀ k, queue_step max Ours
            (alone (root_request n) (Do (GetNamespaceCall n) k) s)
            (alone (root_request n) (k (Ok ns)) s)) as H1.
  { intros k. by apply alone_call. }
  destruct (namespace_matches Matches ns) eqn:Hm; last first.
  { eexists. split; [|apply Hidle; intros (? & ? & ? & _); congruence].
    eapply rtc_l; [apply H1|]. cbn. rewrite Hm. apply alone_ends. }
  destruct (decide (ns_Phase ns = NamespaceTerminating)) as [Hp|Hp].
  { eexists. split; [|apply Hidle; intros (? & ? & _ & ?); congruence].
    eapply rtc_l; [apply H1|]. cbn. rewrite Hm, bool_decide_eq_true_2 by done. apply alone_ends. }
  edestruct (reconcile_alone n s) as (s' & Hrun & Hs'); [done|by exists ns| | |].
  3: { exists s'. split; [|exact Hs']. eapply rtc_l; [apply H1|]. cbn.
       rewrite Hm, bool_decide_eq_false_2 by done. cbn.
       eapply rtc_l; [by apply (alone_call _ ReadPEM _ (rootCAsPEM s) s s)|].
       cbn. rewrite (bool_decide_eq_false_2 (rootCAsPEM s = "")) by done. exact Hrun. }
  - intros v cm _. reflexivity.
  - reflexivity.
Qed.

Lemma ours_ok s s' : queue_ok s → ours s s' → queue_ok s'.
Proof. intros Hok Hr. induction Hr; eauto using queue_ok_step. Qed.

Definition kept (s s' : cluster) : Prop :=
  namespaces s' = namespaces s ∧ rootCAsPEM s' = rootCAsPEM s ∧ listing s' = listing s.

(** A running reconcile comes to its end. *)
Lemma finish_one p r s :
  queue_ok s → running s !! r = Some p →
  ∃ s', ours s s' ∧ running s' = delete r (running s) ∧ kept s s'.
Proof.
  revert s. induction p as [e|c k IH|]; intros s Hok Hr;
    destruct (ok_running s Hok r _ Hr) as (rd & Hown & _); [| |done].
  - eexists. split; [by eapply rtc_once, q_done|]. done.
  - pose proof (honest_call c s) as Hc. destruct (honest c s) as [a s1]. cbn in Hc.
    pose proof (call_ok r c k a s s1 Hr Hc Hok) as Hok'.
    destruct (api_call_frame _ _ _ _ _ _ (proj1 Hown) Hc) as (Hn & Hp & Hl & _ & _ & Hrun & _).
    destruct (IH a _ Hok') as (s' & Hs' & Hrun' & Hk); [apply lookup_insert_eq|].
    exists s'. split_and!.
    + eapply rtc_l; [by apply (q_call max r c k a s s1)|done].
    + rewrite Hrun'. cbn. rewrite delete_insert_eq. by rewrite <-Hrun.
    + destruct Hk as (Hn' & Hp' & Hl'). unfold kept. rewrite Hn', Hp', Hl'. done.
Qed.

Lemma finish_all s :
  queue_ok s → ∃ s', ours s s' ∧ running s' = ∅ ∧ kept s s'.
Proof.
  remember (size (running s)) as m eqn:Hm. revert s Hm.
  induction m as [|m IH]; intros s Hm Hok.
  - exists s. split_and!; [apply rtc_refl|by apply map_size_empty_inv|done].
  - destruct (map_choose (running s)) as (r & p & Hr); [intros He; by rewrite He, map_size_empty in Hm|].
    destruct (finish_one p r s Hok Hr) as (s1 & H1 & Hrun & Hk1).
    destruct (IH s1) as (s2 & H2 & Hrun2 & Hk2);
      [rewrite Hrun, map_size_delete, Hr; cbn; lia|by eapply ours_ok|].
    exists s2. split_and!; [by etrans|done|].
    destruct Hk1 as (?&?&?), Hk2 as (?&?&?). split_and!; congruence.
Qed.

(** The handler comes to its end. *)
Lemma finish_listing s :
  queue_ok s → ∃ s', ours s s' ∧ listing s' = false ∧ running s' = running s ∧
    namespaces s' = namespaces s ∧ rootCAsPEM s' = rootCAsPEM s.
Proof.
  intros Hok. destruct (listing s) eqn:Hl; [|by exists s].
  eexists. split; [apply rtc_once, (q_listed max (map_to_list (namespaces s)).*2 s Hl)|done].
  intros ns. rewrite list_elem_of_fmap. split.
  - intros ([n ns'] & -> & Hin%elem_of_map_to_list). cbn. by rewrite (ok_namespaces s Hok _ _ Hin).
  - intros Hn. exists (ns_Name ns, ns). split; [done|]. by apply elem_of_map_to_list.
Qed.

(** A request that waits comes to the work queue. *)
Lemma to_queue r s :
  r ∈ waiting s →
  ∃ s', ours s s' ∧ r ∈ queued s' ∧ (r ∉ reports s') ∧ (r ∉ delayed s') ∧ waiting s' = waiting s ∧
    api s' = api s ∧ history s' = history s ∧ running s' = running s ∧ kept s s'.
Proof.
  unfold waiting. intros Hr.
  assert (∃ s1, ours s s1 ∧ (r ∉ reports s1) ∧ waiting s1 = waiting s ∧ api s1 = api s ∧
            history s1 = history s ∧ running s1 = running s ∧ kept s s1)
    as (s1 & H1 & Hr1 & Hw1 & Ha1 & Hh1 & Hrun1 & Hk1).
  { destruct (decide (r ∈ reports s)) as [Hin|Hin]; [|by exists s].
    eexists. split; [by apply rtc_once, (q_report max r)|]. unfold waiting; cbn.
    split_and!; try done; [set_solver|]. apply set_eq. intros x.
    destruct (decide (x = r)); set_solver. }
  assert (∃ s2, ours s1 s2 ∧ (r ∉ reports s2) ∧ (r ∉ delayed s2) ∧ waiting s2 = waiting s1 ∧
            api s2 = api s1 ∧ history s2 = history s1 ∧ running s2 = running s1 ∧ kept s1 s2)
    as (s2 & H2 & Hr2 & Hd2 & Hw2 & Ha2 & Hh2 & Hrun2 & Hk2).
  { destruct (decide (r ∈ delayed s1)) as [Hin|Hin]; [|by exists s1].
    eexists. split; [by apply rtc_once, (q_timer max r)|]. unfold waiting; cbn.
    split_and!; try done; [set_solver|]. apply set_eq. intros x.
    destruct (decide (x = r)); set_solver. }
  exists s2. unfold waiting, kept in *.
  destruct Hk1 as (?&?&?), Hk2 as (?&?&?). split_and!; try congruence; [by etrans|set_solver].
Qed.

(** One request is taken from the queue and reconciled on its own. *)
Lemma process_one n s :
  queue_ok s → running s = ∅ → rootCAsPEM s ≠ "" → (0 < max)%nat → root_request n ∈ waiting s →
  ∃ s', ours s s' ∧ running s' = ∅ ∧ kept s s' ∧ settled s' n ∧
    (∀ n', n' ≠ n → settled s' n' ↔ settled s n') ∧ waiting s' ⊆ waiting s ∧
    (settled s n → waiting s' = waiting s ∖ {[ root_request n ]}).
Proof.
  intros Hok Hrun Hpem Hmax Hr. set (r := root_request n) in *.
  destruct (to_queue r s Hr) as (s1 & H1 & Hq1 & Hr1 & Hd1 & Hw1 & Ha1 & Hh1 & Hrun1 & Hn1 & Hp1 & Hl1).
  set (s2 := { s1 with queued := queued s1 ∖ {[r]} }).
  assert (queue_step max Ours s1 (alone r (ReconcileP r) s2)) as H2.
  { replace (alone r (ReconcileP r) s2) with
      { s1 with queued := queued s1 ∖ {[r]}; running := <[r := ReconcileP r]> (running s1) }.
    - apply q_get; [done| |]; rewrite Hrun1, Hrun; [apply lookup_empty|by rewrite map_size_empty].
    - unfold alone, s2. cbn. by rewrite Hrun1, Hrun. }
  destruct (process_alone n s2) as (s3 & H3 & Hrun3 & Hl3 & Hn3 & Hp3 & Hq3 & Hd3 & Hset & Hapi & Hrep & Hrep').
  { intros k v cm Ha. change (api s1 !! k = Some (v, cm)) in Ha. rewrite Ha1 in Ha.
    by apply (ok_api s Hok) in Ha as [? _]. }
  { change (rootCAsPEM s1 ≠ ""). congruence. }
  change (listing s3 = listing s1) in Hl3. change (namespaces s3 = namespaces s1) in Hn3.
  change (rootCAsPEM s3 = rootCAsPEM s1) in Hp3. change (queued s3 = queued s1 ∖ {[r]}) in Hq3.
  change (delayed s3 = delayed s1) in Hd3. change (reports s3 ⊆ {[r]} ∪ reports s1) in Hrep.
  assert (∀ n', api s1 !! root_key n' = api s3 !! root_key n' → settled s3 n' ↔ settled s n') as Hiff.
  { intros n' Ha. unfold settled, to_manage. by rewrite Hn3, Hn1, Hp3, Hp1, <-Ha, Ha1. }
  assert (settled s n → reports s3 = reports s1) as Hrep''.
  { intros Hs. apply Hrep'. unfold settled, to_manage. cbn. unfold settled, to_manage in Hs.
    by rewrite <-Hn1, <-Hp1, <-Ha1 in Hs. }
  exists s3. unfold waiting, kept. rewrite Hq3, Hd3. unfold waiting in Hw1.
  split_and!; try congruence; try done.
  - etrans; [exact H1|]. eapply rtc_l; [exact H2|exact H3].
  - intros n' Hne. apply Hiff. symmetry. apply (Hapi (root_key n')). intros [= He]. congruence.
  - rewrite <-Hw1. intros x. rewrite !elem_of_union, elem_of_difference.
    intros [[Hx%Hrep|[? _]]|?]; [|by auto..].
    apply elem_of_union in Hx as [->%elem_of_singleton|?]; auto.
  - intros Hs. rewrite (Hrep'' Hs), <-Hw1. clear -Hr1 Hd1.
    apply set_eq. intros x. rewrite elem_of_difference, !elem_of_union, elem_of_difference,
      elem_of_singleton. destruct (decide (x = r)) as [->|]; tauto.
Qed.

(** What is left: requests that wait, twice if they have something to do. *)
Definition unsettled (s : cluster) : gset Request :=
  filter (λ r, ¬ settled s (req_Namespace r)) (waiting s).
Definition work (s : cluster) : nat := size (waiting s) + size (unsettled s).

Lemma process_less n s s' :
  (∀ r, r ∈ waiting s → r = root_request (req_Namespace r)) → root_request n ∈ waiting s →
  settled s' n → (∀ n', n' ≠ n → settled s' n' ↔ settled s n') → waiting s' ⊆ waiting s →
  (settled s n → waiting s' = waiting s ∖ {[ root_request n ]}) → (work s' < work s)%nat.
Proof.
  intros Hnames Hin Hset Hoth Hsub Hless.
  assert (∀ r, r ∈ unsettled s' → r ∈ unsettled s ∧ r ≠ root_request n) as Hu.
  { intros r [Hns Hr]%elem_of_filter. apply Hsub in Hr.
    assert (req_Namespace r ≠ n) as Hne by (by intros <-).
    split; [|by intros ->]. apply elem_of_filter. by rewrite <-Hoth. }
  unfold work. destruct (decide (settled s n)) as [Hs|Hs].
  - rewrite (Hless Hs).
    assert (size (unsettled s') ≤ size (unsettled s))%nat by (apply subseteq_size; set_solver).
    assert (size (waiting s ∖ {[root_request n]}) < size (waiting s))%nat
      by (apply subset_size; set_solver).
    lia.
  - assert (size (waiting s') ≤ size (waiting s))%nat by (by apply subseteq_size).
    assert (root_request n ∈ unsettled s) by (by apply elem_of_filter).
    assert (size (unsettled s') < size (unsettled s))%nat by (apply subset_size; set_solver).
    lia.
Qed.

Lemma drain s :
  queue_ok s → running s = ∅ → listing s = false → rootCAsPEM s ≠ "" → (0 < max)%nat →
  ∃ s', ours s s' ∧ quiescent s' ∧ kept s s'.
Proof.
  remember (work s) as m eqn:Hm. revert s Hm.
  induction m as [m IH] using lt_wf_ind. intros s -> Hok Hrun Hl Hpem Hmax.
  destruct (set_choose_or_empty (waiting s)) as [[r Hr]|He].
  - assert (∀ r, r ∈ waiting s → r = root_request (req_Namespace r)) as Hnames.
    { intros r' Hr'. apply (ok_names s Hok). apply elem_of_union. by left. }
    pose proof (Hnames r Hr) as Hrr. revert Hrr. generalize (req_Namespace r). intros n ->.
    destruct (process_one n s Hok Hrun Hpem Hmax Hr)
      as (s1 & H1 & Hrun1 & (Hn1 & Hp1 & Hl1) & Hset & Hoth & Hsub & Hless).
    destruct (IH (work s1)) with (s := s1) as (s2 & H2 & Hq & Hn2 & Hp2 & Hl2); try done.
    + by eapply process_less.
    + by eapply ours_ok.
    + congruence.
    + congruence.
    + exists s2. split_and!; [by etrans|done|]. split_and!; congruence.
  - exists s. split_and!; try done. unfold waiting in He. split_and!; try done; set_solver.
Qed.

Lemma quiescent_ok s :
  queue_ok s → quiescent s →
  ∀ n, to_manage s n → synced_at (rootCAsPEM s) (api s !! root_key n).
Proof.
  intros Hok (Hl & Hrep & Hq & Hd & Hrun) n Hm.
  destruct (ok_attended s Hok n Hm) as [[Hp|Hp]|Hs].
  - congruence.
  - set_solver.
  - by rewrite Hrun, lookup_empty in Hs.
Qed.

(** When nothing is under way, everything is as it should be: in every state
    that can be reached, through concurrent reconciles, changes of the roots and
    of namespaces, writes of others and failing calls, if no reconcile is
    running and no request or report waits, then every namespace that is to be
    managed has the root ConfigMap with exactly the controller's bundle. *)
Theorem quiescent_synced s :
  reachable max s → quiescent s →
  ∀ n, to_manage s n → synced_at (rootCAsPEM s) (api s !! root_key n).
Proof. intros Hr. by apply quiescent_ok, reachable_ok. Qed.

(** The controller comes to rest: from every reachable state with a bundle
    there are steps of the controller alone that lead to a state in which nothing
    is under way, and then every namespace to be managed is synchronised. *)
Theorem controller_settles s :
  reachable max s → rootCAsPEM s ≠ "" → (0 < max)%nat →
  ∃ s', rtc (queue_step max Ours) s s' ∧ quiescent s' ∧
    namespaces s' = namespaces s ∧ rootCAsPEM s' = rootCAsPEM s ∧
    ∀ n, to_manage s n → synced_at (rootCAsPEM s) (api s' !! root_key n).
Proof.
  intros Hr Hpem Hmax. pose proof (reachable_ok s Hr) as Hok.
  destruct (finish_all s Hok) as (s1 & H1 & Hrun1 & Hn1 & Hp1 & _).
  assert (queue_ok s1) as Hok1 by (by eapply ours_ok).
  destruct (finish_listing s1 Hok1) as (s2 & H2 & Hl2 & Hrun2 & Hn2 & Hp2).
  assert (queue_ok s2) as Hok2 by (by eapply ours_ok).
  destruct (drain s2) as (s3 & H3 & Hq & Hn3 & Hp3 & _); [done|congruence..|done|].
  exists s3. split_and!; [by repeat (etrans; [eassumption|])|done|congruence|congruence|].
  intros n Hm. replace (rootCAsPEM s) with (rootCAsPEM s3) by congruence.
  apply quiescent_ok; [by eapply ours_ok|done|]. unfold to_manage. by rewrite Hn3, Hn2, Hn1.
Qed.

(* ------------------------------------------------------------------ *)
(** ** Theorems *)

(** C16: no update is lost: a running reconcile never panics and writes only the
    root ConfigMap of its own namespace; and when an update succeeds, it replaces
    exactly the version it was computed from, so that the labels others have set
    on the object are still there. *)
Theorem updates_keep_labels s r p :
  reachable max s → running s !! r = Some p →
  p ≠ Crash ∧
  ∀ c k, p = Do c k → ∀ a s', api_call c s a s' →
    (∀ key, key ≠ root_key (req_Namespace r) → api s' !! key = api s !! key) ∧
    ∀ v cm, c = UpdateCall v cm → s' ≠ s →
      ∃ cm0 v', api s !! root_key (req_Namespace r) = Some (v, cm0) ∧
        api s' !! root_key (req_Namespace r) = Some (v', cm) ∧ other_labels_kept cm0 cm.
Proof.
  intros Hr Hp. pose proof (reachable_ok s Hr) as Hok.
  destruct (ok_running s Hok r p Hp) as (rd & Hown & Hrd).
  split; [by intros ->|]. intros c k -> a s' Hc. destruct Hown as [Ho _].
  destruct (api_call_frame _ _ _ _ _ _ Ho Hc) as (_ & _ & _ & _ & _ & _ & _ & _ & _ & Hapi & _).
  split; [exact Hapi|]. intros v cm -> Hne. cbn in Ho, Hc. destruct Ho as [Hk (cm0 & Heq & Hlab)].
  assert (updated v cm s s') as ((cm1 & Ha) & v' & _ & ->)
    by (destruct a as [e|]; [by destruct Hc|done]).
  rewrite Hk in Ha. exists cm1, v'. split_and!; [done| |].
  - cbn. rewrite Hk. apply lookup_insert_eq.
  - apply (ok_api s Hok) in Ha as [_ Hh]. apply Hrd in Heq.
    assert (cm1 = cm0) as -> by congruence. done.
Qed.

End invariant.

(* ------------------------------------------------------------------ *)
(** ** Runs *)

(** The running reconcile [r] makes its next call, or ends. *)
Definition advance (r : Request) (s : cluster) : cluster :=
  match running s !! r with
  | Some (Do c k) =>
      let '(a, s') := honest c s in { s' with running := <[r := k a]> (running s') }
  | Some (Done e) => { s with running := delete r (running s);
                              delayed := if retry e then {[r]} ∪ delayed s else delayed s }
  | _ => s
  end.

Lemma advance_steps max r s : rtc (queue_step max Ours) s (advance r s).
Proof.
  unfold advance. destruct (running s !! r) as [[e|c k|]|] eqn:Hr; [| |done..].
  - by apply rtc_once, q_done.
  - pose proof (honest_call c s) as Hc. destruct (honest c s) as [a s']. cbn in Hc.
    by apply rtc_once, (q_call max r c k a s s').
Qed.

Lemma ours_reachable max s s' :
  reachable max s → rtc (queue_step max Ours) s s' → reachable max s'.
Proof.
  intros (s0 & H0 & Hr) Hs. exists s0. split; [done|]. etrans; [exact Hr|].
  clear H0 Hr. induction Hs as [s|s1 s2 s3 H _ IH]; [done|]. eapply rtc_l; [by exists Ours|done].
Qed.

(** The request is taken from the reports to a worker. *)
Definition dispatch (r : Request) (s : cluster) : cluster :=
  { s with reports := reports s ∖ {[r]}; queued := ({[r]} ∪ queued s) ∖ {[r]};
           running := <[r := ReconcileP r]> (running s) }.

Lemma dispatch_steps max r s :
  r ∈ reports s → running s !! r = None → (size (running s) < max)%nat →
  rtc (queue_step max Ours) s (dispatch r s).
Proof.
  intros Hr Hn Hsz. set (s1 := { s with reports := reports s ∖ {[r]}; queued := {[r]} ∪ queued s }).
  eapply rtc_l; [by apply (q_report max r)|]. apply rtc_once. change (queue_step max Ours s1 (dispatch r s)).
  replace (dispatch r s)
    with { s1 with queued := queued s1 ∖ {[r]}; running := <[r := ReconcileP r]> (running s1) }
    by (by destruct s).
  apply q_get; [cbn; set_solver|done|done].
Qed.

Lemma advance_run max n r s s' :
  rtc (queue_step max Ours) s s' → rtc (queue_step max Ours) s (Nat.iter n (advance r) s').
Proof. intros Hs. induction n as [|n IH]; [done|]. etrans; [exact IH|apply advance_steps]. Qed.

End queue.
Arguments Done {E A} _.
Arguments Do {E A} _ _.
Arguments Crash {E A}.

(* ------------------------------------------------------------------ *)
(** ** Instances *)

(** A mesh namespace whose ConfigMap has a foreign key. *)
Definition example_foreign : ConfigMap :=
  {| cm_Namespace := "shop"; cm_Name := configMapNameIstioRoot;
     cm_Labels := Some {[ "team" := "web" ]}; cm_Data := Some {[ "foreign" := "x" ]} |}.

Definition example_start : @cluster unit :=
  {| api := {[ root_key "shop" := (1%nat, example_foreign) ]};
     history := {[ 1%nat := example_foreign ]};
     namespaces := {[ "shop" := example_shop ]}; rootCAsPEM := ""; listing := false;
     reports := {[ root_request "shop" ]}; queued := ∅; delayed := ∅; running := ∅ |}.

Lemma example_starts : starts example_start.
Proof.
  split; cbn.
  - intros k v cm [<- [= <- <-]]%lookup_singleton_Some. done.
  - intros n ns [<- <-]%lookup_singleton_Some. done.
  - intros n [ns [<- _]%lookup_singleton_Some]. set_solver.
  - intros r ->%elem_of_singleton. done.
  - done.
Qed.

(** The roots are set before the namespace is looked at. *)
Definition example_roots : @cluster unit :=
  { example_start with rootCAsPEM := "ROOTS"; listing := true }.

Lemma example_roots_reachable : reachable example_matches 1 example_roots.
Proof.
  exists example_start. split; [apply example_starts|]. apply rtc_once. exists Others.
  by apply q_roots.
Qed.

Definition example_listed : @cluster unit :=
  { example_roots with listing := false;
      reports := list_to_set (namespaceRequests example_matches [example_shop]) ∪
                 reports example_roots }.

Lemma example_listed_run : rtc (queue_step example_matches 1 Ours) example_roots example_listed.
Proof.
  apply rtc_once, q_listed; [done|].
  intros ns. rewrite list_elem_of_singleton. cbn. split.
  - intros ->. done.
  - by intros [_ <-]%lookup_singleton_Some.
Qed.

#[local] Abbreviation shop_request := (root_request "shop").

(** Three calls later the reconcile is about to update the object. *)
Definition example_updating : @cluster unit :=
  Nat.iter 3 (advance shop_request) (dispatch example_matches shop_request example_listed).

Lemma example_updating_run : rtc (queue_step example_matches 1 Ours) example_roots example_updating.
Proof.
  apply advance_run. etrans; [apply example_listed_run|].
  apply dispatch_steps; [apply (bool_decide_unpack _); vm_compute; exact I|done|vm_compute; lia].
Qed.

Lemma example_updating_reachable : reachable example_matches 1 example_updating.
Proof. eapply ours_reachable; [apply example_roots_reachable|apply example_updating_run]. Qed.

(** The write is reported and looked at again, and nothing is left. *)
Definition example_quiet : @cluster unit :=
  Nat.iter 4 (advance shop_request)
    (dispatch example_matches shop_request (Nat.iter 2 (advance shop_request) example_updating)).

Lemma example_quiet_run : rtc (queue_step example_matches 1 Ours) example_roots example_quiet.
Proof.
  apply advance_run. etrans; [apply advance_run, example_updating_run|].
  apply dispatch_steps; [apply (bool_decide_unpack _); vm_compute; exact I|
    vm_compute; reflexivity|vm_compute; lia].
Qed.

Lemma updates_keep_labels_witness :
  ∃ p, running example_updating !! shop_request = Some p ∧ p ≠ Crash.
Proof.
  destruct (running example_updating !! shop_request) as [p|] eqn:Hp;
    [|vm_compute in Hp; discriminate Hp].
  exists p. split; [reflexivity|].
  apply (updates_keep_labels example_matches 1 example_updating shop_request p
           example_updating_reachable Hp).
Defined.

