(* ===== verification/IstiodCert.v ===== *)
(** * The istiod certificate

    [pkg/istiodcert]: [Options.Validate], and the provisioner that keeps the
    Certificate of istiod in line with the active issuer.  cert-manager's client
    is the interface [CertClient]; Kubernetes' DNS name validation is an
    argument. *)

From S2P Require Import Prelude GoStrings Kube.

Open Scope Z_scope.

(* ------------------------------------------------------------------ *)
(** ** Options *)

Definition minRSAKeySize : Z := 2048.

(** [cmapi.PrivateKeyAlgorithm]; [NoAlgorithm] is the zero value. *)
Inductive PrivateKeyAlgorithm := NoAlgorithm | RSAKeyAlgorithm | ECDSAKeyAlgorithm.

Record IstiodOptions := {
  Enabled : bool;
  CertificateName : string;
  CertificateNamespace : string;
  Duration : Z;
  RenewBefore : Z;
  KeyAlgorithm : string;
  KeySize : Z;
  CMKeyAlgorithm : PrivateKeyAlgorithm;
  AdditionalDNSNames : list string;
  istiod_AdditionalAnnotations : option (gmap string string);
  IstioRevisions : list string;
  MaxConcurrentReconciles : Z;
}.

Inductive option_error :=
| BadMaxConcurrentReconciles (n : Z)
| BadRenewBefore (renewBefore duration : Z)
| SmallRSAKey (size : Z)
| BadECDSAKey
| BadKeyAlgorithm (alg : string)
| BadDNSName (msg : string).

Definition set_key (alg : string) (cm : PrivateKeyAlgorithm) (size : Z) (o : IstiodOptions)
    : IstiodOptions :=
  {| Enabled := Enabled o; CertificateName := CertificateName o;
     CertificateNamespace := CertificateNamespace o; Duration := Duration o;
     RenewBefore := RenewBefore o; KeyAlgorithm := alg; KeySize := size; CMKeyAlgorithm := cm;
     AdditionalDNSNames := AdditionalDNSNames o;
     istiod_AdditionalAnnotations := istiod_AdditionalAnnotations o;
     IstioRevisions := IstioRevisions o;
     MaxConcurrentReconciles := MaxConcurrentReconciles o |}.

Section validate.
(** [k8svalidation.IsDNS1123Subdomain]: the complaints about a name. *)
Context (IsDNS1123Subdomain : string → list string).

(** The switch on the key algorithm. *)
Definition validateKey (unicode_upper : string → string) (o : IstiodOptions) : IstiodOptions * list option_error :=
  let alg := strings_ToUpper unicode_upper (KeyAlgorithm o) in
  if bool_decide (alg = "RSA") then
    let size := if KeySize o =? 0 then minRSAKeySize else KeySize o in
    (set_key alg RSAKeyAlgorithm size o,
     if size <? minRSAKeySize then [SmallRSAKey size] else [])
  else if bool_decide (alg = "ECDSA") then
    let size := if KeySize o =? 0 then 256 else KeySize o in
    (set_key alg ECDSAKeyAlgorithm size o,
     if negb (size =? 256) && negb (size =? 384) then [BadECDSAKey] else [])
  else (set_key alg (CMKeyAlgorithm o) (KeySize o) o, [BadKeyAlgorithm alg]).

Definition validateDNSNames (names : list string) : list option_error :=
  omap (λ name, match IsDNS1123Subdomain name with
                | [] => None
                | errs => Some (BadDNSName (strings_Join errs ", "))
                end) names.

(** [Validate]: the options afterwards and the errors joined. *)
Definition Validate (unicode_upper : string → string) (o : IstiodOptions)
    : IstiodOptions * list option_error :=
  if negb (Enabled o) then (o, [])
  else
    let errs1 := if MaxConcurrentReconciles o <? 1
                 then [BadMaxConcurrentReconciles (MaxConcurrentReconciles o)] else [] in
    let errs2 := if Duration o <=? RenewBefore o
                 then [BadRenewBefore (RenewBefore o) (Duration o)] else [] in
    let '(o', errs3) := validateKey unicode_upper o in
    (o', errs1 ++ errs2 ++ errs3 ++ validateDNSNames (AdditionalDNSNames o)).

(** Options the provisioner can work with. *)
Definition key_ok (o : IstiodOptions) : Prop :=
  CMKeyAlgorithm o = RSAKeyAlgorithm ∧ 2048 ≤ KeySize o ∨
  CMKeyAlgorithm o = ECDSAKeyAlgorithm ∧ (KeySize o = 256 ∨ KeySize o = 384).

Definition usable (o : IstiodOptions) : Prop :=
  1 ≤ MaxConcurrentReconciles o ∧ RenewBefore o < Duration o ∧ key_ok o ∧
  Forall (λ n, IsDNS1123Subdomain n = []) (AdditionalDNSNames o).

(** The keys that can be asked for: the algorithm and size that are given, and the
    algorithm and size the certificate gets.  No size is zero. *)
Inductive key_choice : string → Z → PrivateKeyAlgorithm → Z → Prop :=
| choose_RSA size : 2048 ≤ size → key_choice "RSA" size RSAKeyAlgorithm size
| default_RSA : key_choice "RSA" 0 RSAKeyAlgorithm 2048
| choose_P256 : key_choice "ECDSA" 256 ECDSAKeyAlgorithm 256
| choose_P384 : key_choice "ECDSA" 384 ECDSAKeyAlgorithm 384
| default_ECDSA : key_choice "ECDSA" 0 ECDSAKeyAlgorithm 256.

Lemma validateDNSNames_nil names :
  validateDNSNames names = [] ↔ Forall (λ n, IsDNS1123Subdomain n = []) names.
Proof.
  induction names as [|n names IH]; [done|]. unfold validateDNSNames in *. csimpl.
  rewrite Forall_cons, <-IH. destruct (IsDNS1123Subdomain n); naive_solver.
Qed.

End validate.

(* ------------------------------------------------------------------ *)
(** ** Certificates *)

(** [cmapi.CertificateSpec], the fields the provisioner sets; the private key is
    always rotated. *)
Record CertificateSpec := {
  CommonName : string;
  DNSNames : list string;
  URIs : list string;
  SecretName : string;
  spec_Duration : Z;
  spec_RenewBefore : Z;
  RotationPolicyAlways : bool;
  Algorithm : PrivateKeyAlgorithm;
  Size : Z;
  RevisionHistoryLimit : Z;
  spec_IssuerRef : IssuerReference;
}.

Record Certificate := {
  cert_Name : string;
  cert_Namespace : string;
  cert_Annotations : option (gmap string string);
  cert_Spec : CertificateSpec;
}.

(** [makeDNSNamesFromRevisions]. *)
Definition revisionDNSName (namespace revision : string) : string :=
  if bool_decide (revision = "default") then "istiod." +:+ namespace +:+ ".svc"
  else "istiod-" +:+ revision +:+ "." +:+ namespace +:+ ".svc".

Definition makeDNSNamesFromRevisions (namespace : string) (istioRevisions : list string)
    : string * list string :=
  let istioRevisions := if (length istioRevisions =? 0)%nat then ["default"]
                        else istioRevisions in
  let defaultSAN := "istiod." +:+ namespace +:+ ".svc" in
  (defaultSAN, revisionDNSName namespace <$> istioRevisions).

(** cert-manager's client for the Certificates of one namespace. *)
Class CertClient (W E : Type) := {
  cert_Get : string → go W (result (api_error E) Certificate);
  cert_Create : Certificate → go W (option (api_error E));
  cert_Update : Certificate → go W (option (api_error E));
}.
#[global] Hint Mode CertClient ! - : typeclass_instances.

(** What the client promises of the Certificates a world stores by name. *)
Class CertClientSpec (W E : Type) `{CertClient W E} := {
  certs : W → gmap string Certificate;
  cert_Get_returns (n : string) (w : W) :
    ∃ r w', cert_Get n w = (Ret r, w') ∧ certs w' = certs w ∧
      (∀ c, r = Ok c → certs w !! n = Some c) ∧ (r = Err NotFound → certs w !! n = None);
  certs_key (w : W) (n : string) (c : Certificate) : certs w !! n = Some c → cert_Name c = n;
  cert_Create_returns (c : Certificate) (w : W) :
    ∃ r w', cert_Create c w = (Ret r, w') ∧
      (r = None → certs w' = <[cert_Name c := c]> (certs w));
  cert_Update_returns (c : Certificate) (w : W) :
    ∃ r w', cert_Update c w = (Ret r, w') ∧
      (r = None → certs w' = <[cert_Name c := c]> (certs w));
}.

(* ------------------------------------------------------------------ *)
(** ** The provisioner *)

(** [DynamicIstiodCertProvisioner]: its options, its issuers, and the requests
    its loop has sent on [reconcileChan]. *)
Record provisioner := {
  dicp_opts : IstiodOptions;
  trustDomain : string;
  initialIssuerRef : option IssuerReference;
  issuerRef : option IssuerReference;
  triggered : list Request;
}.

(** [New], with the notifier's initial issuer. *)
Definition NewProvisioner (o : IstiodOptions) (trustDomain : string)
    (initial : option IssuerReference) : provisioner :=
  {| dicp_opts := o; trustDomain := trustDomain; initialIssuerRef := initial;
     issuerRef := initial; triggered := [] |}.

Definition certRequest (o : IstiodOptions) : Request :=
  {| req_Namespace := CertificateNamespace o; req_Name := CertificateName o |}.

(** The send on [reconcileChan] is an append: the code sends while it holds the
    lock and waits for the channel's receiver, controller-runtime's, which takes
    no lock of the provisioner and is always there to receive. *)
Definition handleNewIssuer (ref : option IssuerReference) (p : provisioner) : provisioner :=
  match ref, initialIssuerRef p with
  | None, Some _ =>
      {| dicp_opts := dicp_opts p; trustDomain := trustDomain p;
         initialIssuerRef := initialIssuerRef p; issuerRef := initialIssuerRef p;
         triggered := triggered p |}
  | _, _ =>
      {| dicp_opts := dicp_opts p; trustDomain := trustDomain p;
         initialIssuerRef := initialIssuerRef p; issuerRef := ref;
         triggered := triggered p ++ [certRequest (dicp_opts p)] |}
  end.

(** The provisioner runs in one pod only. *)
Definition Provisioner_NeedLeaderElection : bool := true.

(** [Start], after the notifications [ns] were received from the subscription. *)
Definition StartProvisioner (ns : list (option IssuerReference)) (p : provisioner)
    : provisioner :=
  let p0 := match initialIssuerRef p with
            | Some i => handleNewIssuer (Some i) p
            | None => p
            end in
  foldl (λ p ref, handleNewIssuer ref p) p0 ns.

(** The predicate on Certificate events. *)
Definition certificatePredicate (o : IstiodOptions) (name namespace : string) : bool :=
  bool_decide (name = CertificateName o) && bool_decide (namespace = CertificateNamespace o).

(** The controller that is registered: its workers, which Certificates' events it
    looks at, and the requests of an event on [reconcileChan]. *)
Record cert_controller := {
  cc_workers : Z;
  cc_predicate : string → string → bool;
  cc_channel : list Request;
}.

Definition AddControllersToManager {X} (complete add : result X unit) (p : provisioner)
    : result X cert_controller :=
  _ ← complete;
  _ ← add;
  mret {| cc_workers := MaxConcurrentReconciles (dicp_opts p);
          cc_predicate := certificatePredicate (dicp_opts p);
          cc_channel := [certRequest (dicp_opts p)] |}.

(** The specification [Reconcile] wants. *)
Definition desiredSpec (p : provisioner) (namespace : string) (ref : IssuerReference)
    : CertificateSpec :=
  let spiffeID := "spiffe://" +:+ trustDomain p +:+ "/ns/" +:+ namespace +:+
                  "/sa/istiod-service-account" in
  let '(commonName, dnsNames) :=
    makeDNSNamesFromRevisions namespace (IstioRevisions (dicp_opts p)) in
  {| CommonName := commonName;
     DNSNames := dnsNames ++ AdditionalDNSNames (dicp_opts p);
     URIs := [spiffeID];
     SecretName := "istiod-tls";
     spec_Duration := Duration (dicp_opts p);
     spec_RenewBefore := RenewBefore (dicp_opts p);
     RotationPolicyAlways := true;
     Algorithm := CMKeyAlgorithm (dicp_opts p);
     Size := KeySize (dicp_opts p);
     RevisionHistoryLimit := 1;
     spec_IssuerRef := ref |}.

Definition set_spec (spec : CertificateSpec) (c : Certificate) : Certificate :=
  {| cert_Name := cert_Name c; cert_Namespace := cert_Namespace c;
     cert_Annotations := cert_Annotations c; cert_Spec := spec |}.

Section provisioner.
Context {W E : Type} `{CertClient W E}.

Definition ReconcileCert (p : provisioner) (req : Request)
    : go W (CtrlResult * option (api_error E)) :=
  match issuerRef p with
  | None => mret (noRequeue, None)
  | Some ref =>
      let desired := desiredSpec p (req_Namespace req) ref in
      cert ← cert_Get (req_Name req);
      match cert with
      | Err (OtherError e) => mret (noRequeue, Some (OtherError e))
      | Err NotFound =>
          err ← cert_Create {| cert_Name := req_Name req; cert_Namespace := req_Namespace req;
                               cert_Annotations := istiod_AdditionalAnnotations (dicp_opts p);
                               cert_Spec := desired |};
          mret (noRequeue, err)
      | Ok cert =>
          err ← cert_Update (set_spec desired cert);
          mret (noRequeue, err)
      end
  end.

(* ------------------------------------------------------------------ *)
(** ** Lemmas *)

Context `{!CertClientSpec W E}.

Lemma ReconcileCert_spec p req w :
  ∃ err w', ReconcileCert p req w = (Ret (noRequeue, err), w') ∧
    match issuerRef p with
    | None => err = None ∧ w' = w
    | Some ref =>
        err = None →
        ∃ c, certs w' = <[req_Name req := c]> (certs w) ∧
          cert_Spec c = desiredSpec p (req_Namespace req) ref ∧
          match certs w !! req_Name req with
          | Some c0 => cert_Annotations c = cert_Annotations c0
          | None => cert_Annotations c = istiod_AdditionalAnnotations (dicp_opts p) ∧
                    cert_Namespace c = req_Namespace req
          end
    end.
Proof.
  unfold ReconcileCert. destruct (issuerRef p) as [ref|]; [|by eexists _, _].
  unfold mbind at 1, go_bind at 1.
  destruct (cert_Get_returns (req_Name req) w) as (r & w1 & -> & Hc1 & Hok & Hnf).
  destruct r as [c0|[|e]].
  - specialize (Hok c0 eq_refl). pose proof (certs_key _ _ _ Hok) as Hk.
    destruct (cert_Update_returns (set_spec (desiredSpec p (req_Namespace req) ref) c0) w1)
      as (err & w2 & Hu & Hs). unfold mbind, go_bind. rewrite Hu.
    exists err, w2. split; [done|]. intros He. rewrite (Hs He), Hc1, Hok.
    eexists. split_and!; [cbn; by rewrite Hk|done|done].
  - specialize (Hnf eq_refl). match goal with |- context [cert_Create ?c] =>
      destruct (cert_Create_returns c w1) as (err & w2 & Hu & Hs) end.
    unfold mbind, go_bind. rewrite Hu. exists err, w2. split; [done|].
    intros He. rewrite (Hs He), Hc1, Hnf. by eexists.
  - by eexists _, _.
Qed.

End provisioner.

Lemma handleNewIssuer_initial ref p :
  initialIssuerRef (handleNewIssuer ref p) = initialIssuerRef p ∧
  dicp_opts (handleNewIssuer ref p) = dicp_opts p.
Proof. unfold handleNewIssuer. by repeat case_match. Qed.

(** The issuer a notification stands for: nil means the initial one, if any. *)
Definition notified_issuer (initial ref : option IssuerReference) : option IssuerReference :=
  match ref with Some r => Some r | None => initial end.

Lemma handleNewIssuer_issuer ref p :
  issuerRef (handleNewIssuer ref p) = notified_issuer (initialIssuerRef p) ref.
Proof. unfold handleNewIssuer, notified_issuer. by destruct ref, (initialIssuerRef p). Qed.

Lemma foldl_handleNewIssuer ns p :
  let p' := foldl (λ p ref, handleNewIssuer ref p) p ns in
  initialIssuerRef p' = initialIssuerRef p ∧ dicp_opts p' = dicp_opts p ∧
  issuerRef p' = default (issuerRef p) (notified_issuer (initialIssuerRef p) <$> last ns).
Proof.
  induction ns as [|ref ns IH] using rev_ind; cbn; [done|].
  rewrite foldl_snoc. cbn in IH. destruct IH as (Hi & Ho & _).
  destruct (handleNewIssuer_initial ref (foldl (λ p ref, handleNewIssuer ref p) p ns)) as [Hi' Ho'].
  rewrite Hi', Ho', handleNewIssuer_issuer, Hi, last_snoc. done.
Qed.

Lemma revisionDNSName_inj ns r1 r2 : revisionDNSName ns r1 = revisionDNSName ns r2 → r1 = r2.
Proof.
  unfold revisionDNSName. repeat case_bool_decide; subst; [done| | |].
  - done.
  - done.
  - intros Hs%(inj (String.append "istiod-")). by apply string_app_inj_r in Hs.
Qed.

(* ------------------------------------------------------------------ *)
(** ** Theorems *)

Lemma validateKey_spec upper o :
  let '(o', errs) := validateKey upper o in
  KeyAlgorithm o' = strings_ToUpper upper (KeyAlgorithm o) ∧
  MaxConcurrentReconciles o' = MaxConcurrentReconciles o ∧
  RenewBefore o' = RenewBefore o ∧ Duration o' = Duration o ∧
  AdditionalDNSNames o' = AdditionalDNSNames o ∧ Enabled o' = Enabled o ∧
  (errs = [] ↔ (KeyAlgorithm o' = "RSA" ∨ KeyAlgorithm o' = "ECDSA") ∧ key_ok o') ∧
  (KeySize o ≠ 0 → KeySize o' = KeySize o) ∧
  (errs = [] → KeySize o' ≠ 0 ∧ validateKey upper o' = (o', [])).
Proof.
  unfold validateKey, key_ok, minRSAKeySize.
  set (alg := strings_ToUpper upper (KeyAlgorithm o)).
  case_bool_decide as Hr; [|case_bool_decide as He].
  - set (size := if KeySize o =? 0 then 2048 else KeySize o). cbn. rewrite Hr.
    change (strings_ToUpper upper "RSA") with "RSA". rewrite bool_decide_eq_true_2 by done.
    assert (KeySize o ≠ 0 → size = KeySize o) as Hsz.
    { intros Hz. unfold size. by destruct (Z.eqb_spec (KeySize o) 0). }
    destruct (Z.ltb_spec size 2048) as [Hl|Hl]; split_and!; try done.
    + split; [done|]. intros [_ [[_ ?]|[? _]]]; [lia|done].
    + split; [|done]. intros _. split; [by left|]. left. done.
    + intros _. split; [lia|].
      rewrite (proj2 (Z.eqb_neq size 0)), (proj2 (Z.ltb_ge size 2048)) by lia. done.
  - set (size := if KeySize o =? 0 then 256 else KeySize o). cbn. rewrite He.
    change (strings_ToUpper upper "ECDSA") with "ECDSA".
    rewrite (bool_decide_eq_false_2 ("ECDSA" = "RSA")), bool_decide_eq_true_2 by done.
    assert (KeySize o ≠ 0 → size = KeySize o) as Hsz.
    { intros Hz. unfold size. by destruct (Z.eqb_spec (KeySize o) 0). }
    destruct (negb (size =? 256) && negb (size =? 384)) eqn:Hb; split_and!; try done.
    + split; [done|]. intros [_ [[? _]|[_ ?]]]; [done|]. lia.
    + split; [|done]. intros _. split; [by right|]. right. split; [done|lia].
    + intros _. split; [lia|]. rewrite (proj2 (Z.eqb_neq size 0)), Hb by lia. done.
  - cbn. split_and!; try done. split; [done|]. intros [[?|?] _]; done.
Qed.

(** What [Validate] means for enabled provisioning. *)
Lemma Validate_spec upper dns o o' errs :
  Enabled o = true → Validate dns upper o = (o', errs) →
  (errs = [] ↔ (KeyAlgorithm o' = "RSA" ∨ KeyAlgorithm o' = "ECDSA") ∧ usable dns o') ∧
  (KeySize o ≠ 0 → KeySize o' = KeySize o) ∧ Enabled o' = true ∧
  (errs = [] → KeySize o' ≠ 0 ∧ Validate dns upper o' = (o', [])).
Proof.
  intros He. unfold Validate. rewrite He. cbn [negb].
  pose proof (validateKey_spec upper o) as Hk.
  destruct (validateKey upper o) as [o1 errs3]. intros [= -> <-].
  destruct Hk as (_ & Hm & Hr & Hd & Hn & Hen & Hk & Hsz & Hidem).
  rewrite Hen, He, Hm, Hr, Hd, Hn. cbn [negb].
  set (e1 := if MaxConcurrentReconciles o <? 1 then _ else _).
  set (e2 := if Duration o <=? RenewBefore o then _ else _).
  set (e4 := validateDNSNames dns (AdditionalDNSNames o)).
  assert (e1 = [] ↔ 1 ≤ MaxConcurrentReconciles o) as H1.
  { unfold e1. case_match; naive_solver lia. }
  assert (e2 = [] ↔ RenewBefore o < Duration o) as H2.
  { unfold e2. case_match; naive_solver lia. }
  pose proof (validateDNSNames_nil dns (AdditionalDNSNames o)) as H4. fold e4 in H4.
  assert (e1 ++ e2 ++ errs3 ++ e4 = [] ↔ e1 = [] ∧ e2 = [] ∧ errs3 = [] ∧ e4 = []) as Happ.
  { rewrite !app_nil. tauto. }
  split_and!; [|done|done|].
  - rewrite Happ, H1, H2, Hk, H4. unfold usable. rewrite Hm, Hr, Hd, Hn. tauto.
  - intros (-> & -> & E3 & ->)%Happ. destruct (Hidem E3) as [? ->]. done.
Qed.

(** What [validateKey] accepts, and what it makes of it. *)
Lemma validateKey_choice upper o o' :
  validateKey upper o = (o', []) ↔
  ∃ cm size, key_choice (strings_ToUpper upper (KeyAlgorithm o)) (KeySize o) cm size ∧
             o' = set_key (strings_ToUpper upper (KeyAlgorithm o)) cm size o.
Proof.
  unfold validateKey, minRSAKeySize. set (alg := strings_ToUpper upper (KeyAlgorithm o)).
  split.
  - case_bool_decide as Hr; [|case_bool_decide as He; [|done]].
    + destruct (Z.eqb_spec (KeySize o) 0) as [Hz|Hz].
      * intros [= <-]. exists RSAKeyAlgorithm, 2048. rewrite Hr, Hz. split; [constructor|done].
      * destruct (Z.ltb_spec (KeySize o) 2048); [done|]. intros [= <-].
        exists RSAKeyAlgorithm, (KeySize o). rewrite Hr. split; [by constructor|done].
    + destruct (Z.eqb_spec (KeySize o) 0) as [Hz|Hz].
      * intros [= <-]. exists ECDSAKeyAlgorithm, 256. rewrite He, Hz. split; [constructor|done].
      * destruct (Z.eqb_spec (KeySize o) 256) as [H2|H2]; [|destruct (Z.eqb_spec (KeySize o) 384) as [H3|H3]; [|done]];
          cbn; intros [= <-]; eexists ECDSAKeyAlgorithm, _; rewrite He, ?H2, ?H3;
          split; by constructor.
  - intros (cm & size & Hk & ->). remember (KeySize o) as given eqn:Hg.
    destruct Hk as [size Hs| | | |]; cbn; try done.
    destruct (Z.eqb_spec size 0); [lia|]. by rewrite (proj2 (Z.ltb_ge size 2048)) by lia.
Qed.

(** What [Validate] accepts, and what it makes of it. *)
Lemma Validate_accepts upper dns o o' :
  Enabled o = true →
  Validate dns upper o = (o', []) ↔
  1 ≤ MaxConcurrentReconciles o ∧ RenewBefore o < Duration o ∧
  Forall (λ n, dns n = []) (AdditionalDNSNames o) ∧
  ∃ cm size, key_choice (strings_ToUpper upper (KeyAlgorithm o)) (KeySize o) cm size ∧
             o' = set_key (strings_ToUpper upper (KeyAlgorithm o)) cm size o.
Proof.
  intros He. unfold Validate. rewrite He, <-validateKey_choice, <-validateDNSNames_nil. cbn [negb].
  destruct (validateKey upper o) as [o1 errs].
  destruct (Z.ltb_spec (MaxConcurrentReconciles o) 1), (Z.leb_spec (Duration o) (RenewBefore o)),
    errs, (validateDNSNames dns (AdditionalDNSNames o)); cbn; intuition (try done; try lia; congruence).
Qed.

(** C31: with provisioning enabled, [Validate] reports nothing exactly when the
    options it leaves behind are usable (at least one concurrent reconcile, a
    renewal time below the duration, an RSA key of at least 2048 bits or an
    ECDSA key of 256 or 384 bits, and valid additional names); a key size that
    is given is kept and a missing one filled in, and validating the result
    again changes nothing. *)
Theorem Validate_usable upper dns o o' errs :
  Enabled o = true → Validate dns upper o = (o', errs) →
  (errs = [] ↔ (KeyAlgorithm o' = "RSA" ∨ KeyAlgorithm o' = "ECDSA") ∧ usable dns o') ∧
  (KeySize o ≠ 0 → KeySize o' = KeySize o) ∧
  (errs = [] → KeySize o' ≠ 0 ∧ Validate dns upper o' = (o', [])).
Proof.
  intros He Hv. destruct (Validate_spec _ _ _ _ _ He Hv) as (? & ? & _ & ?). done.
Qed.

(** The istiod certificate is named after its revisions: one name for each
    revision, in order, with no revision standing for the default one; distinct
    revisions have distinct names, and the common name, which is always the
    default revision's, is among them exactly when the default revision is. *)
Theorem revision_names namespace revisions :
  let '(commonName, dnsNames) := makeDNSNamesFromRevisions namespace revisions in
  commonName = revisionDNSName namespace "default" ∧
  length dnsNames = Nat.max 1 (length revisions) ∧
  (∀ r, revisionDNSName namespace r ∈ dnsNames ↔ r ∈ revisions ∨ revisions = [] ∧ r = "default") ∧
  (NoDup revisions → NoDup dnsNames) ∧
  (commonName ∈ dnsNames ↔ "default" ∈ revisions ∨ revisions = []).
Proof.
  unfold makeDNSNamesFromRevisions.
  assert (Inj (=) (=) (revisionDNSName namespace)) by (intros ??; apply revisionDNSName_inj).
  change ("istiod." +:+ namespace +:+ ".svc") with (revisionDNSName namespace "default").
  destruct revisions as [|r0 rs]; cbn [length Nat.eqb].
  - split_and!; [done|done| | |].
    + intros r. cbn. rewrite list_elem_of_singleton, elem_of_nil. split; [|naive_solver].
      intros ?%(inj (revisionDNSName namespace)). auto.
    + intros _. apply NoDup_singleton.
    + cbn. rewrite list_elem_of_singleton, elem_of_nil. naive_solver.
  - assert (∀ r, revisionDNSName namespace r ∈ revisionDNSName namespace <$> r0 :: rs ↔
                 r ∈ r0 :: rs) as Hin.
    { intros r. apply list_elem_of_fmap_inj; apply _. }
    split_and!; [done|by rewrite length_fmap| | |].
    + intros r. rewrite Hin. naive_solver.
    + intros Hn. by apply NoDup_fmap_2.
    + rewrite Hin. naive_solver.
Qed.

(** C28: [Reconcile] always returns; without an issuer it does nothing, and with
    one, unless the API reports an error, exactly the requested Certificate has
    changed: its specification is the desired one, for the current issuer, with
    its annotations kept, or the configured ones if it is new. *)
Theorem ReconcileCert_correct {W E} `{CertClientSpec W E} p req (w : W) :
  ∃ err w', ReconcileCert p req w = (Ret (noRequeue, err), w') ∧
    match issuerRef p with
    | None => err = None ∧ w' = w
    | Some ref =>
        err = None →
        ∃ c, certs w' = <[req_Name req := c]> (certs w) ∧
          cert_Spec c = desiredSpec p (req_Namespace req) ref ∧
          match certs w !! req_Name req with
          | Some c0 => cert_Annotations c = cert_Annotations c0
          | None => cert_Annotations c = istiod_AdditionalAnnotations (dicp_opts p) ∧
                    cert_Namespace c = req_Namespace req
          end
    end.
Proof. apply ReconcileCert_spec. Qed.

(** The provisioner follows the notifications: its issuer is the one of the
    last notification, where a notification without an issuer means the initial
    one if there is one, and the initial issuer before the first. *)
Theorem provisioner_follows_notifications o td initial ns :
  issuerRef (StartProvisioner ns (NewProvisioner o td initial)) =
    default initial (notified_issuer initial <$> last ns).
Proof.
  unfold StartProvisioner. cbn [initialIssuerRef NewProvisioner].
  pose proof (foldl_handleNewIssuer ns) as Hf. cbn in Hf.
  destruct initial as [i|]; [set (p0 := handleNewIssuer _ _)|set (p0 := NewProvisioner _ _ _)];
    by destruct (Hf p0) as (_ & _ & ->).
Qed.

(** C37: going back to the initial issuer triggers nothing: whatever happened
    before, when the provisioner has an initial issuer and has reconciled the
    Certificate for another one, the notification that the configuration is gone
    switches its issuer back but sends no request to reconcile, so the
    Certificate keeps naming an issuer that is no longer the provisioner's. *)
Theorem revert_triggers_nothing {W E} `{CertClientSpec W E} o td i other ns (w w' : W) :
  let p := StartProvisioner (ns ++ [Some other]) (NewProvisioner o td (Some i)) in
  let p' := StartProvisioner (ns ++ [Some other; None]) (NewProvisioner o td (Some i)) in
  other ≠ i →
  ReconcileCert p (certRequest o) w = (Ret (noRequeue, None), w') →
  issuerRef p' = Some i ∧ triggered p' = triggered p ∧
  ∃ c, certs w' !! CertificateName o = Some c ∧ spec_IssuerRef (cert_Spec c) = other ∧
       cert_Spec c ≠ desiredSpec p' (CertificateNamespace o) i.
Proof.
  intros p p' Hne Hr.
  assert (p' = handleNewIssuer None p) as Hp'.
  { unfold p', p, StartProvisioner. rewrite !foldl_app. done. }
  assert (initialIssuerRef p = Some i ∧ issuerRef p = Some other) as [Hinit Hiss].
  { unfold p, StartProvisioner. cbn [initialIssuerRef NewProvisioner].
    set (p0 := handleNewIssuer (Some i) _).
    pose proof (foldl_handleNewIssuer (ns ++ [Some other]) p0) as (-> & _ & ->).
    by rewrite last_snoc. }
  destruct (ReconcileCert_spec p (certRequest o) w) as (err & w1 & Hr' & Hpost).
  rewrite Hr in Hr'. injection Hr' as <- <-. rewrite Hiss in Hpost.
  destruct (Hpost eq_refl) as (c & Hc & Hs & _).
  assert (∀ q n r, spec_IssuerRef (desiredSpec q n r) = r) as Hspec.
  { intros. unfold desiredSpec. by case_match. }
  rewrite Hp'. unfold handleNewIssuer. rewrite Hinit. cbn [issuerRef triggered].
  split_and!; [done..|]. exists c. cbn [certRequest req_Name] in Hc. rewrite Hc, lookup_insert_eq.
  split_and!; [done|by rewrite Hs, Hspec|].
  intros He. apply (f_equal spec_IssuerRef) in He. rewrite Hs, !Hspec in He. done.
Qed.

(* ------------------------------------------------------------------ *)
(** ** Instances *)

(** An API server without errors that keeps the Certificates written. *)
#[export] Instance list_certs : CertClient (list Certificate) unit := {|
  cert_Get := λ n, go_read (λ w, match list_find (λ c, cert_Name c = n) w with
                                 | Some (_, c) => Ok c
                                 | None => Err NotFound
                                 end);
  cert_Create := λ c w, (Ret None, c :: w);
  cert_Update := λ c w, (Ret None, c :: w)
|}.

Definition certs_of (w : list Certificate) : gmap string Certificate :=
  list_to_map ((λ c, (cert_Name c, c)) <$> w).

Lemma list_find_certs_of n w :
  match list_find (λ c, cert_Name c = n) w with
  | Some (_, c) => certs_of w !! n = Some c
  | None => certs_of w !! n = None
  end.
Proof.
  induction w as [|c w IH]; [done|]. cbn [list_find]. unfold certs_of. cbn.
  destruct (decide (cert_Name c = n)) as [<-|Hne].
  - apply lookup_insert_eq.
  - destruct (list_find _ w) as [[j c']|]; cbn; by rewrite lookup_insert_ne.
Qed.

#[export] Program Instance list_certs_spec : CertClientSpec (list Certificate) unit := {|
  certs := certs_of
|}.
Next Obligation.
  intros n w. eexists _, _. split_and!; [done|done| |]; cbn;
    pose proof (list_find_certs_of n w); destruct (list_find _ w) as [[j c']|]; naive_solver.
Qed.
Next Obligation.
  intros w n c Hl%elem_of_list_to_map_2. by apply list_elem_of_fmap in Hl as (? & [= -> ->] & _).
Qed.
Next Obligation. intros c w. by eexists _, _. Qed.
Next Obligation. intros c w. by eexists _, _. Qed.

Definition example_istiod : IstiodOptions :=
  {| Enabled := true; CertificateName := "istiod-dynamic"; CertificateNamespace := "istio-system";
     Duration := 3600 * time_Second; RenewBefore := 1800 * time_Second; KeyAlgorithm := "rsa";
     KeySize := 0; CMKeyAlgorithm := NoAlgorithm; AdditionalDNSNames := ["istiod.example.com"];
     istiod_AdditionalAnnotations := None; IstioRevisions := ["default"; "canary"];
     MaxConcurrentReconciles := 1 |}.
Definition example_validated : IstiodOptions :=
  set_key "RSA" RSAKeyAlgorithm 2048 example_istiod.

Lemma Validate_usable_witness :
  ([] = @nil option_error ↔ ("RSA" = "RSA" ∨ "RSA" = "ECDSA") ∧ usable (λ _, []) example_validated) ∧
  ((0 : Z) ≠ 0 → (2048 : Z) = 0) ∧
  ([] = @nil option_error →
   (2048 : Z) ≠ 0 ∧ Validate (λ _, []) id example_validated = (example_validated, [])).
Proof.
  apply (Validate_usable id (λ _, []) example_istiod example_validated []);
    vm_compute; reflexivity.
Defined.

Lemma ReconcileCert_correct_witness :
  ∃ c, certs (ReconcileCert (NewProvisioner example_validated "td"
         (Some {| issuer_Name := "ca"; issuer_Kind := "Issuer"; issuer_Group := "g" |}))
         (certRequest example_validated) []).2 = <[ "istiod-dynamic" := c ]> ∅ ∧
    DNSNames (cert_Spec c) =
      ["istiod.istio-system.svc"; "istiod-canary.istio-system.svc"; "istiod.example.com"].
Proof.
  destruct (ReconcileCert_correct (NewProvisioner example_validated "td"
    (Some {| issuer_Name := "ca"; issuer_Kind := "Issuer"; issuer_Group := "g" |}))
    (certRequest example_validated) []) as (err & w' & Hr & Hpost).
  rewrite Hr. cbn in Hr. injection Hr as <- <-.
  destruct Hpost as (c & Hc & Hs & _); [reflexivity|].
  exists c. split; [exact Hc|]. rewrite Hs. vm_compute. reflexivity.
Defined.

Lemma revert_triggers_nothing_witness :
  let i := {| issuer_Name := "ca"; issuer_Kind := "Issuer"; issuer_Group := "g" |} in
  let other := {| issuer_Name := "new-ca"; issuer_Kind := "Issuer"; issuer_Group := "g" |} in
  let p := StartProvisioner [Some other] (NewProvisioner example_validated "td" (Some i)) in
  let p' := StartProvisioner [Some other; None] (NewProvisioner example_validated "td" (Some i)) in
  issuerRef p' = Some i ∧ triggered p' = triggered p ∧
  ∃ c, certs (ReconcileCert p (certRequest example_validated) []).2 !! "istiod-dynamic" = Some c ∧
       spec_IssuerRef (cert_Spec c) = other ∧
       cert_Spec c ≠ desiredSpec p' "istio-system" i.
Proof.
  intros i other.
  apply (revert_triggers_nothing example_validated "td" i other [] [] _).
  - discriminate.
  - vm_compute. reflexivity.
Defined.
