(* ===== verification/Provisioning.v ===== *)
(** * The istiod certificate follows the issuer

    The certificate manager and the istiod provisioner together: configuration
    events change the active issuer and start goroutines that send on the
    provisioner's subscription, its loop receives, switches its issuer and asks
    for a reconcile, and the reconcile writes the Certificate.

    [WaitForIssuerConfig], which the TLS provider calls, is a step too: without an
    issuer it would subscribe as well.  The theorems are about a manager that was
    built with a default issuer, and for it they prove that this never happens,
    so that the provisioner's subscription stays the only one.  A manager without
    a default issuer has the two subscribers, and the defects, of the file on
    runtime configuration. *)

From S2P Require Import Prelude Kube CertManager IssuerConfig IstiodCert.

Open Scope Z_scope.

(* ------------------------------------------------------------------ *)
(** ** The notifier *)

(** [IssuerChangeNotifier], but for [WaitForIssuerConfig], which blocks: its whole
    run is part of [IssuerConfig.sys_step], its call a step below. *)
Class IssuerChangeNotifier (M : Type) := {
  notifier_SubscribeIssuerChange : M → nat * M;
  notifier_HasIssuerConfig : M → bool;
  notifier_InitialIssuer : M → option IssuerReference;
}.

#[export] Instance manager_notifier : IssuerChangeNotifier mstate := {|
  notifier_SubscribeIssuerChange := SubscribeIssuerChange;
  notifier_HasIssuerConfig := HasIssuerConfig;
  notifier_InitialIssuer := InitialIssuer;
|}.

(** [New]: the provisioner, its subscription, and the notifier afterwards. *)
Definition NewDynamicIstiodCertProvisioner {X M} `{IssuerChangeNotifier M}
    (client : result X unit) (o : IstiodOptions) (trustDomain : string) (m : M)
    : result X (provisioner * nat * M) :=
  _ ← client;
  let initial := notifier_InitialIssuer m in
  let '(sub, m') := notifier_SubscribeIssuerChange m in
  mret (NewProvisioner o trustDomain initial, sub, m').

(* ------------------------------------------------------------------ *)
(** ** The interleaving *)

Section provisioning.
Context {W E : Type} `{CertClient W E}.

(** The manager, the provisioner with its subscription, whether the work queue
    holds the request for the Certificate, and the world of the API server. *)
Record provisioning := {
  cfg : mstate;
  prov : provisioner;
  subscription : nat;
  pending : bool;
  world : W;
}.

Definition set_cfg (s : mstate) (x : provisioning) : provisioning :=
  {| cfg := s; prov := prov x; subscription := subscription x; pending := pending x;
     world := world x |}.
Definition set_pending (b : bool) (w : W) (x : provisioning) : provisioning :=
  {| cfg := cfg x; prov := prov x; subscription := subscription x; pending := b; world := w |}.

(** What the loop does with a notification; an event sent on [reconcileChan] puts
    the request into the queue. *)
Definition receive (v : option IssuerReference) (x : provisioning) : provisioning :=
  let p := handleNewIssuer v (prov x) in
  {| cfg := cfg x; prov := p; subscription := subscription x;
     pending := pending x || (length (triggered (prov x)) <? length (triggered p))%nat;
     world := world x |}.

(** [ordered]: notifications are sent and received in the order in which their
    goroutines were started, which Go does not promise.  [deletions]: the
    configuration can be deleted. *)
Inductive prov_step (ordered deletions : bool) : provisioning → provisioning → Prop :=
| p_config e x :
    (deletions = false → ev_Type e ≠ Deleted) →
    prov_step ordered deletions x (set_cfg (handle_event e (cfg x)) x)
(* WaitForIssuerConfig is called: it subscribes if there is no issuer *)
| p_wait x :
    prov_step ordered deletions x
      (set_cfg (if HasIssuerConfig (cfg x) then cfg x else (SubscribeIssuerChange (cfg x)).2) x)
(* a goroutine evaluates m.issuerChangeSubscriptions[i] and starts to send *)
| p_resolve l1 i v l2 sub x :
    starting (cfg x) = l1 ++ (i, v) :: l2 → (ordered = true → l1 = []) →
    issuerChangeSubscriptions (cfg x) !! i = Some sub →
    prov_step ordered deletions x
      (set_cfg (set_sending (sending (cfg x) ++ [(sub, v)])
                  (set_starting (l1 ++ l2) (cfg x))) x)
(* the loop of Start receives *)
| p_receive l1 v l2 x :
    sending (cfg x) = l1 ++ (subscription x, v) :: l2 → (ordered = true → l1 = []) →
    prov_step ordered deletions x
      (receive v (set_cfg (set_sending (l1 ++ l2) (cfg x)) x))
(* the request is reconciled, and put back if there was an error *)
| p_reconcile err w x :
    pending x = true →
    ReconcileCert (prov x) (certRequest (dicp_opts (prov x))) (world x) =
      (Ret (noRequeue, err), w) →
    prov_step ordered deletions x
      (set_pending match err with Some _ => true | None => false end w x)
(* others change Certificates, of which the watch reports the requested one *)
| p_others w x :
    prov_step ordered deletions x (set_pending true w x).

(** [New] and the start of the loop, which handles the initial issuer. *)
Definition provisioning_start (o : IstiodOptions) (td : string) (m : manager) (w : W)
    : provisioning :=
  let '(sub, s) := SubscribeIssuerChange (initial m) in
  let p := NewProvisioner o td (InitialIssuer (initial m)) in
  {| cfg := s; prov := StartProvisioner [] p; subscription := sub;
     pending := match initialIssuerRef p with Some _ => true | None => false end; world := w |}.

(** No notification is under way. *)
Definition delivered (x : provisioning) : Prop := starting (cfg x) = [] ∧ sending (cfg x) = [].

(* ------------------------------------------------------------------ *)
(** ** Lemmas *)

(** The start is what [New] gives, run into its loop. *)
Lemma provisioning_start_New {X} o td m w :
  NewDynamicIstiodCertProvisioner (Ok tt : result X unit) o td (initial m) =
    Ok (NewProvisioner o td (originalIssuerRef m), subscription (provisioning_start o td m w),
        cfg (provisioning_start o td m w)).
Proof. done. Qed.

(** A notification that is under way, in order of delivery. *)
Definition under_way (x : provisioning) : list (option IssuerReference) :=
  (sending (cfg x)).*2 ++ (starting (cfg x)).*2.

(** The issuer the provisioner will have. *)
Definition coming_issuer (x : provisioning) : option IssuerReference :=
  default (issuerRef (prov x))
    (last (notified_issuer (initialIssuerRef (prov x)) <$> under_way x)).

(** One subscription, open; all goroutines are for it; the initial issuer is the
    manager's, and there is one, and an active one. *)
Record prov_ok (x : provisioning) : Prop := {
  one_subscription : issuerChangeSubscriptions (cfg x) = [subscription x];
  open_subscription : is_closed (cfg x) = ∅;
  all_starting : Forall (λ g, g.1 = 0%nat) (starting (cfg x));
  all_sending : Forall (λ g, g.1 = subscription x) (sending (cfg x));
  initial_original : initialIssuerRef (prov x) = original (cfg x);
  has_original : original (cfg x) ≠ None;
  has_active : active (cfg x) ≠ None;
}.

(** With an issuer, [WaitForIssuerConfig] returns at once. *)
Lemma wait_returns x :
  prov_ok x →
  set_cfg (if HasIssuerConfig (cfg x) then cfg x else (SubscribeIssuerChange (cfg x)).2) x = x.
Proof.
  intros Hok. pose proof (has_active x Hok). unfold HasIssuerConfig.
  destruct (active (cfg x)); [|done]. by destruct x.
Qed.

(** What a configuration event leaves behind. *)
Lemma handle_event_effect e x :
  prov_ok x →
  handle_event e (cfg x) = cfg x ∨
  ∃ r v, handle_event e (cfg x) = notifyIssuerChange v (set_active r (cfg x)) ∧
         r = notified_issuer (original (cfg x)) v ∧ (ev_Type e ≠ Deleted → v ≠ None).
Proof.
  intros Hok. unfold handle_event. destruct e as [t ob]; cbn.
  assert (∀ t', (handleRuntimeConfigIssuerChange {| ev_Type := t'; ev_Object := ob |} (cfg x)).2 = cfg x ∨
    ∃ r v, (handleRuntimeConfigIssuerChange {| ev_Type := t'; ev_Object := ob |} (cfg x)).2 =
             notifyIssuerChange v (set_active r (cfg x)) ∧
           r = notified_issuer (original (cfg x)) v ∧ v ≠ None) as Hc.
  { intros t'. destruct ob as [|cm|]; [by left| |by left]. rewrite handle_change_spec.
    destruct (configured_issuer cm) as [r|]; [|by left]. right. by exists (Some r), (Some r). }
  destruct t; [| | |by left..].
  - destruct (Hc Added) as [?|(r & v & ? & ? & ?)]; [by left|right; by exists r, v].
  - destruct (Hc Modified) as [?|(r & v & ? & ? & ?)]; [by left|right; by exists r, v].
  - unfold handleRuntimeConfigIssuerDeletion. pose proof (has_original x Hok).
    destruct (original (cfg x)) as [i|] eqn:Ho; [|done]. right. by exists (Some i), None.
Qed.

(** With one open subscription a notification starts one goroutine, for it. *)
Lemma notify_one v s sub :
  issuerChangeSubscriptions s = [sub] → is_closed s = ∅ →
  notifyIssuerChange v s = set_starting (starting s ++ [(0%nat, v)]) s.
Proof.
  intros Hs Hc. unfold notifyIssuerChange, set_starting. rewrite Hs. cbn.
  assert (Closed s sub = false) as ->; [|done].
  unfold Closed. rewrite Hc. by apply bool_decide_eq_false_2.
Qed.

Lemma set_active_subs r s :
  issuerChangeSubscriptions (set_active r s) = issuerChangeSubscriptions s ∧
  is_closed (set_active r s) = is_closed s.
Proof. done. Qed.

Lemma handleNewIssuer_opts ref p :
  initialIssuerRef (handleNewIssuer ref p) = initialIssuerRef p ∧
  dicp_opts (handleNewIssuer ref p) = dicp_opts p ∧ trustDomain (handleNewIssuer ref p) = trustDomain p.
Proof. unfold handleNewIssuer. by repeat case_match. Qed.

Lemma prov_ok_config e x : prov_ok x → prov_ok (set_cfg (handle_event e (cfg x)) x).
Proof.
  intros Hok. destruct (handle_event_effect e x Hok) as [He|(r & v & He & Hr & _)].
  - destruct x. cbn in *. by rewrite He.
  - destruct Hok. rewrite He. rewrite (notify_one _ _ (subscription x)) by done.
    split; try done.
    + apply Forall_app. split; [done|]. by repeat constructor.
    + change (r ≠ None). rewrite Hr. by destruct v.
Qed.

Lemma prov_ok_step ord del x y : prov_step ord del x y → prov_ok x → prov_ok y.
Proof.
  intros Hs Hok. destruct Hs as [e x _|x|l1 i v l2 sub x Hst _ Hsub|l1 v l2 x Hse _|err w x _ _|w x].
  - by apply prov_ok_config.
  - by rewrite wait_returns.
  - destruct Hok as [H1 H2 H3 H4 H5 H6 H7]. rewrite Hst, !Forall_app, Forall_cons in H3.
    destruct H3 as (H3a & Hi & H3b). cbn in Hi. subst i. rewrite H1 in Hsub. injection Hsub as <-.
    split; try done; cbn.
    + by apply Forall_app.
    + apply Forall_app. split; [done|]. by repeat constructor.
  - destruct Hok as [H1 H2 H3 H4 H5 H6 H7]. rewrite Hse, !Forall_app, Forall_cons in H4.
    split; try done; cbn.
    + apply Forall_app. tauto.
    + change (initialIssuerRef (handleNewIssuer v (prov x)) = original (cfg x)).
      by destruct (handleNewIssuer_opts v (prov x)) as [-> _].
  - by destruct Hok.
  - by destruct Hok.
Qed.

(** In order, what is coming is the active issuer. *)
Lemma coming_step del x y :
  prov_step true del x y → prov_ok x → coming_issuer x = active (cfg x) →
  coming_issuer y = active (cfg y).
Proof.
  intros Hs Hok Hc. destruct Hs as [e x _|x|l1 i v l2 sub x Hst Hl _|l1 v l2 x Hse Hl|err w x _ _|w x];
    [|by rewrite wait_returns| | |done|done].
  - destruct (handle_event_effect e x Hok) as [He|(r & v & He & Hr & _)].
    { destruct x. cbn in *. by rewrite He. }
    pose proof (one_subscription x Hok) as H1. pose proof (open_subscription x Hok) as H2.
    rewrite (notify_one v _ (subscription x)) in He by done.
    unfold coming_issuer, under_way. cbn. rewrite He. cbn.
    rewrite (fmap_app snd), app_assoc, fmap_app. cbn. rewrite last_snoc. cbn.
    rewrite Hr. by rewrite (initial_original x Hok).
  - rewrite (Hl eq_refl) in *. revert Hc. unfold coming_issuer, under_way. cbn. rewrite Hst. cbn.
    by rewrite (fmap_app snd (sending (cfg x))), <-app_assoc.
  - rewrite (Hl eq_refl) in *. revert Hc. unfold coming_issuer, under_way.
    change (prov (receive v (set_cfg (set_sending ([] ++ l2) (cfg x)) x)))
      with (handleNewIssuer v (prov x)).
    destruct (handleNewIssuer_opts v (prov x)) as [-> _]. rewrite handleNewIssuer_issuer, Hse. cbn.
    rewrite last_cons. by destruct (last _).
Qed.

Definition reaches (ordered deletions : bool) : provisioning → provisioning → Prop :=
  rtc (prov_step ordered deletions).

Context (o : IstiodOptions) (td : string) (m : manager) (i : IssuerReference).

Lemma provisioning_start_ok w :
  originalIssuerRef m = Some i → activeIssuerRef m = Some i →
  prov_ok (provisioning_start o td m w) ∧
  coming_issuer (provisioning_start o td m w) = active (cfg (provisioning_start o td m w)).
Proof.
  intros Ho Ha. unfold provisioning_start, coming_issuer, active, original. cbn.
  unfold StartProvisioner. cbn. unfold InitialIssuer, original. cbn. rewrite Ho. cbn.
  split; [|done]. split; cbn; try done; unfold original, active; cbn; congruence.
Qed.

Lemma reaches_ok ord del x y : reaches ord del x y → prov_ok x → prov_ok y.
Proof. induction 1; eauto using prov_ok_step. Qed.

Lemma reaches_coming del x y :
  reaches true del x y → prov_ok x → coming_issuer x = active (cfg x) →
  coming_issuer y = active (cfg y).
Proof.
  induction 1 as [x|x y z Hs _ IH]; intros Hok Hc; [done|].
  apply IH; [by eapply prov_ok_step|by eapply coming_step].
Qed.

(** Steps that leave the manager's issuers alone. *)
Definition settling (deletions : bool) (y z : provisioning) : Prop :=
  prov_step true deletions y z ∧ mgr (cfg z) = mgr (cfg y).

(** What is under way can be delivered, in order. *)
Lemma all_delivered del x :
  prov_ok x → ∃ y, rtc (settling del) x y ∧ delivered y.
Proof.
  remember (2 * length (starting (cfg x)) + length (sending (cfg x)))%nat as n eqn:Hn.
  revert x Hn. induction (lt_wf n) as [n _ IH]; intros x -> Hok.
  assert (∀ y, settling del x y →
    (2 * length (starting (cfg y)) + length (sending (cfg y)) <
     2 * length (starting (cfg x)) + length (sending (cfg x)))%nat →
    ∃ z, rtc (settling del) x z ∧ delivered z) as Hgo.
  { intros y Hxy Hlt. destruct (IH _ Hlt y eq_refl) as (z & Hyz & Hz).
    - by eapply prov_ok_step; [apply Hxy|].
    - exists z. split; [by eapply rtc_l|done]. }
  destruct (starting (cfg x)) as [|[j v] l] eqn:Hst.
  - destruct (sending (cfg x)) as [|[k v] l] eqn:Hse; [by exists x|].
    pose proof (all_sending x Hok) as Hall. rewrite Hse, Forall_cons in Hall.
    destruct Hall as [Hk _]. cbn in Hk. subst k.
    apply (Hgo _ (conj (p_receive true del [] v l x Hse (λ _, eq_refl)) eq_refl)).
    cbn. rewrite Hst. cbn. lia.
  - pose proof (all_starting x Hok) as Hall. rewrite Hst, Forall_cons in Hall.
    destruct Hall as [Hj _]. cbn in Hj. subst j.
    assert (issuerChangeSubscriptions (cfg x) !! 0%nat = Some (subscription x)) as Hsub
      by (by rewrite (one_subscription x Hok)).
    apply (Hgo _ (conj (p_resolve true del [] 0 v l _ x Hst (λ _, eq_refl) Hsub) eq_refl)).
    cbn. rewrite length_app. cbn. lia.
Qed.

(** A complete configuration becomes active, and one goroutine starts. *)
Definition configured (r : IssuerReference) (x : provisioning) : provisioning :=
  set_cfg (set_starting (starting (cfg x) ++ [(0%nat, Some r)]) (set_active (Some r) (cfg x))) x.

Lemma configured_event cm r x :
  prov_ok x → configured_issuer cm = Some r →
  handle_event {| ev_Type := Added; ev_Object := ObjConfigMap cm |} (cfg x) = cfg (configured r x).
Proof.
  intros Hok Hc. unfold handle_event. cbn [ev_Type]. rewrite handle_change_spec, Hc. cbn [snd].
  by rewrite (notify_one _ _ (subscription x)) by apply Hok.
Qed.

Lemma configure_step cm r ord del x :
  prov_ok x → configured_issuer cm = Some r → prov_step ord del x (configured r x).
Proof.
  intros Hok Hc.
  pose proof (p_config ord del {| ev_Type := Added; ev_Object := ObjConfigMap cm |} x) as Hs.
  rewrite (configured_event cm r) in Hs by done. by apply Hs.
Qed.

Lemma prov_ok_configured r x : prov_ok x → prov_ok (configured r x).
Proof.
  intros Hok. destruct Hok. split; try done. apply Forall_app. split; [done|].
  by repeat constructor.
Qed.

(** With nothing under way, only a change of the manager's state leads to a
    change of the provisioner's issuer. *)
Lemma stays_behind ord del x y :
  rtc (λ y z, prov_step ord del y z ∧ cfg z = cfg y) x y → delivered x →
  cfg y = cfg x ∧ issuerRef (prov y) = issuerRef (prov x).
Proof.
  induction 1 as [x|x y z [Hs Hcfg] _ IH]; [done|]. intros [Hst Hse].
  assert (delivered y) as Hd by (split; by rewrite Hcfg).
  destruct (IH Hd) as [-> ->]. split; [done|].
  destruct Hs as [e x _|x|l1 j v l2 sub x Hl _ _|l1 v l2 x Hl _|err w x _ _|w x]; try done.
  rewrite Hse in Hl. by destruct l1.
Qed.

(** The queue holds the request, or the Certificate is for the provisioner's
    issuer. *)
Definition cert_current `{!CertClientSpec W E} (x : provisioning) : Prop :=
  pending x = true ∨
  ∃ ref c, issuerRef (prov x) = Some ref ∧ certs (world x) !! CertificateName o = Some c ∧
           cert_Spec c = desiredSpec (prov x) (CertificateNamespace o) ref.

(** Without deletions no notification is empty. *)
Definition no_reverts (x : provisioning) : Prop :=
  Forall (λ v, v ≠ None) (under_way x) ∧ issuerRef (prov x) ≠ None ∧ dicp_opts (prov x) = o.

Lemma no_reverts_step ord x y :
  prov_step ord false x y → prov_ok x → no_reverts x → no_reverts y.
Proof.
  intros Hs Hok (Hv & Hi & Ho). unfold no_reverts, under_way in *.
  destruct Hs as [e x Hd|x|l1 j v l2 sub x Hst _ _|l1 v l2 x Hse _|err w x _ _|w x];
    [|by rewrite wait_returns| | |done|done].
  - split; [|done]. destruct (handle_event_effect e x Hok) as [He|(r & v & He & _ & Hne)].
    { cbn. by rewrite He. }
    rewrite (notify_one v _ (subscription x)) in He; [|apply Hok|apply Hok].
    cbn. rewrite He. cbn. rewrite fmap_app, app_assoc, Forall_app. split; [done|].
    repeat constructor. by apply Hne, Hd.
  - split; [|done]. cbn. rewrite Hst in Hv. rewrite !fmap_app in *. cbn in Hv |- *.
    rewrite !Forall_app, !Forall_cons, ?Forall_nil in *. tauto.
  - rewrite Hse in Hv. rewrite !fmap_app, !Forall_app in Hv. cbn in Hv. rewrite Forall_cons in Hv.
    change (prov (receive v (set_cfg (set_sending (l1 ++ l2) (cfg x)) x)))
      with (handleNewIssuer v (prov x)).
    destruct (handleNewIssuer_opts v (prov x)) as (_ & -> & _). rewrite handleNewIssuer_issuer.
    cbn. rewrite fmap_app, !Forall_app. destruct v; naive_solver.
Qed.

Lemma cert_current_step `{!CertClientSpec W E} ord x y :
  prov_step ord false x y → prov_ok x → no_reverts x → cert_current x → cert_current y.
Proof.
  intros Hs Hok (Hv & Hi & Ho) Hc. destruct Hs as [e x _|x|l1 j v l2 sub x _ _ _|l1 v l2 x Hse _
    |err w x Hp Hr|w x]; [done|by rewrite wait_returns|done| | |by left].
  - left. unfold under_way in Hv. rewrite Hse, !fmap_app, !Forall_app in Hv. cbn in Hv.
    rewrite Forall_cons in Hv. destruct v as [ref|]; [|naive_solver].
    unfold receive. cbn. apply orb_true_iff. right. apply Nat.ltb_lt.
    unfold handleNewIssuer. destruct (initialIssuerRef (prov x)); cbn; rewrite length_app; cbn; lia.
  - destruct (ReconcileCert_spec (prov x) (certRequest (dicp_opts (prov x))) (world x))
      as (err' & w' & Hr' & Hs). rewrite Hr in Hr'. injection Hr' as <- <-.
    destruct err; [by left|]. right. destruct (issuerRef (prov x)) as [ref|] eqn:He; [|done].
    destruct (Hs eq_refl) as (c & Hcerts & Hspec & _). cbn [certRequest req_Name req_Namespace] in *.
    rewrite Ho in *. exists ref, c. split_and!; [done| |done].
    change (certs w !! CertificateName o = Some c). rewrite Hcerts. apply lookup_insert_eq.
Qed.

(* ------------------------------------------------------------------ *)
(** ** Theorems *)

(** C22: for a manager with a default issuer, which [New] made the active one: if
    notifications are delivered in the order in which they were sent, the
    provisioner agrees with the manager: in every reachable state, once none is
    under way, its issuer is the active one.  In any order, with such a manager,
    there is always an active issuer, so that no call of [WaitForIssuerConfig]
    subscribes and the provisioner's subscription stays the only one; therefore no
    notification goroutine indexes the manager's slice out of range (which one of
    a manager without a default issuer can); and what is under way can be
    delivered in order while the configuration stays as it is. *)
Theorem provisioner_agrees ordered deletions w x :
  originalIssuerRef m = Some i → activeIssuerRef m = Some i →
  reaches ordered deletions (provisioning_start o td m w) x →
  HasIssuerConfig (cfg x) = true ∧
  issuerChangeSubscriptions (cfg x) = [subscription x] ∧
  ¬ panics (cfg x) ∧
  (ordered = true → delivered x → issuerRef (prov x) = active (cfg x)) ∧
  ∃ y, rtc (settling deletions) x y ∧ delivered y.
Proof.
  intros Ho Ha Hr. destruct (provisioning_start_ok w Ho Ha) as [Hok0 Hc0].
  assert (prov_ok x) as Hok by (by eapply reaches_ok).
  split_and!; [|by apply one_subscription|..|by apply all_delivered].
  - pose proof (has_active x Hok). unfold HasIssuerConfig. by destruct (active (cfg x)).
  - intros (j & v & Hin & Hn). pose proof (all_starting x Hok) as Hst.
    rewrite Forall_forall in Hst. specialize (Hst _ Hin). cbn in Hst. subst j.
    by rewrite (one_subscription x Hok) in Hn.
  - intros -> [Hst Hse]. pose proof (reaches_coming _ _ _ Hr Hok0 Hc0) as Hc.
    unfold coming_issuer, under_way in Hc. by rewrite Hst, Hse in Hc.
Qed.

(** C10: the istiod certificate follows the configuration: with a manager that has
    a default issuer, which [New] made the active one, as long as the
    configuration is changed and not deleted, and notifications are delivered in
    order, then in every reachable state in which none is under way and no request waits, the
    Certificate exists and asks for the active issuer, with exactly the desired
    specification, whatever others have done to it meanwhile. *)
Theorem certificate_follows_issuer `{!CertClientSpec W E} w x :
  originalIssuerRef m = Some i → activeIssuerRef m = Some i →
  reaches true false (provisioning_start o td m w) x → delivered x → pending x = false →
  ∃ ref c, active (cfg x) = Some ref ∧ certs (world x) !! CertificateName o = Some c ∧
           cert_Spec c = desiredSpec (prov x) (CertificateNamespace o) ref.
Proof.
  intros Ho Ha Hr [Hst Hse] Hp. destruct (provisioning_start_ok w Ho Ha) as [Hok0 Hc0].
  assert (issuerRef (prov x) = active (cfg x)) as Hagree.
  { pose proof (reaches_coming _ _ _ Hr Hok0 Hc0) as Hc.
    unfold coming_issuer, under_way in Hc. by rewrite Hst, Hse in Hc. }
  assert (no_reverts (provisioning_start o td m w) ∧ cert_current (provisioning_start o td m w))
    as [Hn0 Hcc0].
  { unfold no_reverts, cert_current, provisioning_start, under_way, StartProvisioner. cbn.
    unfold InitialIssuer, original. cbn. rewrite Ho. cbn. auto. }
  assert (cert_current x) as [Hpend|(ref & c & Hi & Hrest)]; [|congruence|].
  - revert Hok0 Hn0 Hcc0. clear -Hr. induction Hr as [x|x y z Hs _ IH]; [done|].
    eauto using prov_ok_step, no_reverts_step, cert_current_step.
  - exists ref, c. by rewrite <-Hagree.
Qed.

(** C39: out of order the provisioner can be left behind, even when the manager
    has a default issuer: when two configurations follow each other, the goroutines that send the two notifications are not
    ordered, and if the second is received before the first, then every
    notification has been delivered, the second issuer is active, and the
    provisioner issues from the first; and so it stays as long as the manager
    handles no further event that changes its state. *)
Theorem stale_issuer_after_reordering w cm1 cm2 r1 r2 :
  originalIssuerRef m = Some i → activeIssuerRef m = Some i →
  configured_issuer cm1 = Some r1 → configured_issuer cm2 = Some r2 →
  ∃ x, reaches false false (provisioning_start o td m w) x ∧ delivered x ∧
    ∀ y, rtc (λ y z, prov_step false false y z ∧ cfg z = cfg y) x y →
         active (cfg y) = Some r2 ∧ issuerRef (prov y) = Some r1.
Proof.
  intros Ho Ha H1 H2. destruct (provisioning_start_ok w Ho Ha) as [Hok0 _].
  eexists. split; [|split].
  - eapply rtc_l; [apply (configure_step cm1 r1); done|].
    eapply rtc_l; [apply (configure_step cm2 r2); [by apply prov_ok_configured|done]|].
    eapply rtc_l; [eapply (p_resolve _ _ []); [reflexivity|done|reflexivity]|].
    eapply rtc_l; [eapply (p_resolve _ _ []); [reflexivity|done|reflexivity]|].
    eapply rtc_l; [eapply (p_receive _ _ [(0%nat, Some r1)]); [reflexivity|done]|].
    eapply rtc_l; [eapply (p_receive _ _ []); [reflexivity|done]|]. apply rtc_refl.
  - done.
  - intros y Hr. apply stays_behind in Hr as [-> ->]; [done|done].
Qed.
End provisioning.

(* ------------------------------------------------------------------ *)
(** ** Witnesses *)

Definition mesh_ca : IssuerReference :=
  {| issuer_Name := "mesh-ca"; issuer_Kind := "Issuer"; issuer_Group := "cert-manager.io" |}.
Definition example_data2 : gmap string string :=
  {[ issuerNameKey := "next-ca"; issuerKindKey := "Issuer"; issuerGroupKey := "cert-manager.io" ]}.
Definition example_configmap2 : ConfigMap :=
  {| cm_Namespace := "istio-system"; cm_Name := "istio-issuer"; cm_Labels := None;
     cm_Data := Some example_data2 |}.
Definition next_ca : IssuerReference :=
  {| issuer_Name := "next-ca"; issuer_Kind := "Issuer"; issuer_Group := "cert-manager.io" |}.

(** A configuration arrives, its notification is delivered, and the request is
    reconciled against an API server that has no certificates yet. *)
Definition example_start : provisioning :=
  provisioning_start (W := list Certificate) example_validated "td" example_manager [].
Definition example_received : provisioning :=
  receive (Some mesh_ca)
    (set_cfg (set_active (Some mesh_ca) (cfg example_start)) example_start).
Definition example_reconciled : provisioning :=
  set_pending false
    (ReconcileCert (prov example_received) (certRequest example_validated) []).2
    example_received.

Lemma example_received_reached del : reaches true del example_start example_received.
Proof.
  eapply rtc_l; [by eapply (p_config _ _ example_added)|].
  eapply rtc_l; [by eapply (p_resolve _ _ [])|].
  eapply rtc_l; [by eapply (p_receive _ _ [])|]. apply rtc_refl.
Qed.

Lemma example_reconciled_reached : reaches true false example_start example_reconciled.
Proof.
  eapply rtc_r; [apply example_received_reached|].
  eapply (p_reconcile _ _ None); [reflexivity|]. vm_compute. reflexivity.
Qed.

Lemma provisioner_agrees_witness :
  ¬ panics (cfg example_received) ∧ issuerRef (prov example_received) = Some mesh_ca.
Proof.
  destruct (provisioner_agrees example_validated "td" example_manager example_issuer
    true true [] example_received eq_refl eq_refl (example_received_reached true))
    as (_ & _ & Hp & Ha & _).
  split; [exact Hp|]. rewrite Ha; [reflexivity|reflexivity|by split].
Defined.

Lemma certificate_follows_issuer_witness :
  ∃ c, certs (world example_reconciled) !! "istiod-dynamic" = Some c ∧
       spec_IssuerRef (cert_Spec c) = mesh_ca.
Proof.
  destruct (certificate_follows_issuer example_validated "td" example_manager example_issuer
    [] example_reconciled eq_refl eq_refl example_reconciled_reached)
    as (ref & c & Href & Hc & Hs); [by split|reflexivity|].
  injection Href as <-. exists c. split; [exact Hc|]. by rewrite Hs.
Defined.

Lemma stale_issuer_after_reordering_witness :
  mesh_ca ≠ next_ca ∧
  ∃ x, reaches false false example_start x ∧ delivered x ∧
    ∀ y, rtc (λ y z, prov_step false false y z ∧ cfg z = cfg y) x y →
         active (cfg y) = Some next_ca ∧ issuerRef (prov y) = Some mesh_ca.
Proof.
  split; [discriminate|].
  apply (stale_issuer_after_reordering example_validated "td" example_manager example_issuer
           [] example_configmap example_configmap2); vm_compute; reflexivity.
Defined.
