(* ===== verification/Curves.v ===== *)
(** * Curve preferences

    [pkg/tls/curves.go]: parsing the configured elliptic curves.  [nd] is the
    table of decimal digits beyond Latin-1 of package [unicode]. *)

From S2P Require Import Prelude GoStrings.

Open Scope Z_scope.

Section curves.
Context (nd : Z → bool).

Inductive curve_error :=
| EmptyCurve
| InvalidCurveID (name : string) (e : num_error)
| UnknownCurve (name : string).

(** The values of [tls.CurveID]. *)
Definition tls_CurveP256 : Z := 23.
Definition tls_CurveP384 : Z := 24.
Definition tls_CurveP521 : Z := 25.
Definition tls_X25519 : Z := 29.

Definition isAllDecimal (s : string) : bool :=
  if bool_decide (s = "") then false
  else forallb (unicode_IsDigit nd) (rune_chunks (bytes_of s)).*1.

Definition parseCurveID (name : string) : result curve_error Z :=
  if isAllDecimal name then wrap_err (InvalidCurveID name) (strconv_ParseUint name 16)
  else if bool_decide (name = "X25519") then Ok tls_X25519
  else if bool_decide (name ∈ ["CurveP256"; "P-256"; "P256"]) then Ok tls_CurveP256
  else if bool_decide (name ∈ ["CurveP384"; "P-384"; "P384"]) then Ok tls_CurveP384
  else if bool_decide (name ∈ ["CurveP521"; "P-521"; "P521"]) then Ok tls_CurveP521
  else Err (UnknownCurve name).

(** The loop of [ParseCurvePreferences]. *)
Fixpoint parse_curves (names : list string) : result curve_error (list Z) :=
  match names with
  | [] => mret []
  | raw :: names' =>
      let name := strings_TrimSpace raw in
      if bool_decide (name = "") then Err EmptyCurve
      else
        id ← parseCurveID name;
        out ← parse_curves names';
        mret (id :: out)
  end.

(** [ParseCurvePreferences]; a nil slice and an empty one are both []. *)
Definition ParseCurvePreferences (names : list string) : result curve_error (list Z) :=
  if (length names =? 0)%nat then Ok [] else parse_curves names.

(* ------------------------------------------------------------------ *)
(** ** What a name denotes *)

Definition curve_names : list (string * Z) :=
  [("X25519", 29); ("CurveP256", 23); ("P-256", 23); ("P256", 23); ("CurveP384", 24);
   ("P-384", 24); ("P384", 24); ("CurveP521", 25); ("P-521", 25); ("P521", 25)].

(** A well-known name, or a decimal number of sixteen bits. *)
Inductive denotes (name : string) (id : Z) : Prop :=
| denotes_name : (name, id) ∈ curve_names → denotes name id
| denotes_number :
    bytes_of name ≠ [] → Forall (λ b, 48 ≤ u8 b ≤ 57) (bytes_of name) →
    id = decimal_value (bytes_of name) → id < 2 ^ 16 → denotes name id.

Lemma isAllDecimal_ascii name :
  bytes_of name ≠ [] → Forall (λ b, 48 ≤ u8 b ≤ 57) (bytes_of name) → isAllDecimal name = true.
Proof.
  intros Hne Hd. unfold isAllDecimal. rewrite bool_decide_eq_false_2 by (by intros ->).
  rewrite rune_chunks_ascii by (eapply Forall_impl; [exact Hd|]; cbn; lia).
  apply forallb_forall. intros r. rewrite <-list_elem_of_In, <-list_fmap_compose.
  intros (b & -> & Hb)%list_elem_of_fmap. cbn. rewrite Forall_forall in Hd.
  specialize (Hd b Hb). unfold unicode_IsDigit. rewrite (proj2 (Z.leb_le _ _)) by lia. lia.
Qed.

(** A well-known name is not a number. *)
Lemma curve_names_not_decimal name id :
  (name, id) ∈ curve_names →
  isAllDecimal name = false ∧ parseCurveID name = Ok id.
Proof.
  unfold curve_names. rewrite !elem_of_cons, elem_of_nil.
  intros H. repeat destruct H as [[= -> ->]|H]; [..|done]; split; reflexivity.
Qed.

Lemma parseCurveID_spec name id : parseCurveID name = Ok id ↔ denotes name id.
Proof.
  split.
  - unfold parseCurveID. destruct (isAllDecimal name) eqn:Hd.
    + destruct (strconv_ParseUint name 16) as [v|e] eqn:Hp; [|done]. intros [= ->].
      apply strconv_ParseUint_spec in Hp as (? & ? & ? & ?); [|lia]. by apply denotes_number.
    + intros H. apply denotes_name. unfold curve_names. rewrite !elem_of_cons, !pair_equal_spec.
      repeat case_bool_decide; try discriminate H; injection H as <-;
        unfold tls_X25519, tls_CurveP256, tls_CurveP384, tls_CurveP521;
        repeat match goal with H : _ ∈ _ |- _ => rewrite !elem_of_cons, elem_of_nil in H end;
        tauto.
  - intros [Hn|Hne Hd Hv Hlt].
    + by apply curve_names_not_decimal.
    + unfold parseCurveID. rewrite isAllDecimal_ascii by done.
      by rewrite (proj2 (strconv_ParseUint_spec name 16 id ltac:(lia))).
Qed.

Lemma denotes_nonempty name id : denotes name id → name ≠ "".
Proof.
  intros [Hn|Hne _ _ _] ->; [|done].
  unfold curve_names in Hn. rewrite !elem_of_cons, elem_of_nil in Hn. naive_solver.
Qed.

(* ------------------------------------------------------------------ *)
(** ** Theorems *)

(** C29: the curve preferences parse exactly to what they denote, entry by entry
    and in order: each entry, without the white space around it, is one of the
    well-known names or a decimal number below 65536, and a single entry that
    is neither makes the whole list an error; no entries give no preferences. *)
Theorem ParseCurvePreferences_correct names ids :
  ParseCurvePreferences names = Ok ids ↔
  Forall2 (λ raw id, denotes (strings_TrimSpace raw) id) names ids.
Proof.
  assert (∀ l r, parse_curves l = Ok r ↔
            Forall2 (λ raw id, denotes (strings_TrimSpace raw) id) l r) as Hp.
  { induction l as [|raw l IH]; intros r; cbn [parse_curves].
    { split; [by intros [= <-]|]. by inversion 1. }
    case_bool_decide as He.
    { split; [done|]. inversion 1 as [|? ? ? ? Hd]; subst.
      apply denotes_nonempty in Hd. congruence. }
    destruct (parseCurveID (strings_TrimSpace raw)) as [id|] eqn:Hid; cbn.
    - pose proof (proj1 (parseCurveID_spec _ _) Hid) as Hden.
      destruct (parse_curves l) as [out|] eqn:Hl; cbn.
      + split.
        * intros [= <-]. constructor; [done|]. by apply IH.
        * inversion 1 as [|? id' ? out' Hd' Hf]; subst.
          apply parseCurveID_spec in Hd'. rewrite Hid in Hd'. injection Hd' as ->.
          apply IH in Hf. injection Hf as ->. done.
      + split; [done|]. inversion 1 as [|? ? ? ? _ Hf]; subst. by apply IH in Hf.
    - split; [done|]. inversion 1 as [|? ? ? ? Hd]; subst.
      apply parseCurveID_spec in Hd. congruence. }
  unfold ParseCurvePreferences. destruct names as [|raw names]; [|apply Hp].
  cbn. split; [by intros [= <-]|]. by inversion 1.
Qed.

End curves.
