(* ===== verification/TLS.v ===== *)
(** * The TLS provider

    [pkg/tls/tls.go]: the provider obtains a serving certificate, keeps it
    renewed, holds the mesh's roots and hands both out.

    Everything it does to its own fields happens in short critical sections;
    they are functions on [Provider] here.  [fetchCertificate] composes them
    with the calls it makes outside the lock, and [provider_step] interleaves
    the critical sections of the fetching thread with the file watcher's and
    with subscribers. *)

From S2P Require Import Prelude GoStrings Kube CertManager RootCA TLSInterface Server Curves.

Open Scope Z_scope.

(* ------------------------------------------------------------------ *)
(** ** Data *)

Record TLSOptions := {
  TrustDomain : string;
  RootCAsCertFile : string;
  ServingCertificateDuration : Z;
  ServingCertificateDNSNames : list string;
  ServingCertificateKeySize : Z;
  ServingSignatureAlgorithm : string;
  ServingTLSMinVersion : string;
  ServingTLSCipherSuites : list string;
  ServingTLSCurvePreferences : list string;
}.

Definition VersionTLS12 : Z := 771.          (* 0x0303 *)

Inductive ClientAuthType := VerifyClientCertIfGiven | RequireAndVerifyClientCert.

(** The fields of [tls.Config] the provider sets.  [KP] are key pairs and [V]
    SPIFFE peer certificate verifiers, which are used for [ClientCAs] and for
    [VerifyPeerCertificate] alike. *)
Record TLSConfig (KP V : Type) := {
  tc_Certificates : list KP;
  tc_NextProtos : list string;
  tc_ClientAuth : ClientAuthType;
  tc_Verifier : option V;
  tc_SessionTicketsDisabled : bool;
  tc_HasGetConfigForClient : bool;
  tc_MinVersion : Z;
  tc_CipherSuites : list Z;
  tc_CurvePreferences : list Z;
}.
Arguments tc_Certificates {KP V} _.
Arguments tc_NextProtos {KP V} _.
Arguments tc_ClientAuth {KP V} _.
Arguments tc_Verifier {KP V} _.
Arguments tc_SessionTicketsDisabled {KP V} _.
Arguments tc_HasGetConfigForClient {KP V} _.
Arguments tc_MinVersion {KP V} _.
Arguments tc_CipherSuites {KP V} _.
Arguments tc_CurvePreferences {KP V} _.

(** [Provider]; a subscription is its position in the slice, and [events] are
    the goroutines that are to send on the subscription with that index.  The
    last two fields are the counters of [metricCertRequest]. *)
Record Provider (Cert KP V : Type) := {
  p_opts : TLSOptions;
  servingMinVersion : Z;
  servingCipherSuites : list Z;
  servingCurvePreferences : list Z;
  rootCAs : RootCAs Cert;
  tlsConfig : option (TLSConfig KP V);
  subscriptions : nat;
  events : list nat;
  metric_success : nat;
  metric_failure : nat;
}.
Arguments p_opts {Cert KP V} _.
Arguments servingMinVersion {Cert KP V} _.
Arguments servingCipherSuites {Cert KP V} _.
Arguments servingCurvePreferences {Cert KP V} _.
Arguments rootCAs {Cert KP V} _.
Arguments tlsConfig {Cert KP V} _.
Arguments subscriptions {Cert KP V} _.
Arguments events {Cert KP V} _.
Arguments metric_success {Cert KP V} _.
Arguments metric_failure {Cert KP V} _.

(** [pkiutil.CertOptions], as far as it is set. *)
Inductive ECCCurve := P256Curve | P384Curve.
Record CertOptions := {
  co_Host : string;
  co_IsServer : bool;
  co_TTL : Z;
  co_ECDSA : bool;
  co_RSAKeySize : Z;
  co_ECCCurve : option ECCCurve;
}.

Inductive provider_error (VE CE : Type) :=
| MinVersionError (e : VE)
| MinVersionTooLow
| CipherSuitesError (e : CE)
| CurvesError (e : curve_error).
Arguments MinVersionError {VE CE} _.
Arguments MinVersionTooLow {VE CE}.
Arguments CipherSuitesError {VE CE} _.
Arguments CurvesError {VE CE} _.

Inductive fetch_error (XE SE : Type) :=
| UnsupportedKeySize (size : Z)
| UnknownAlgorithm (alg : string)
| GenerateCSR (e : XE)
| SignServing (e : SE)
| LoadCA (e : XE)
| RootNotDefined
| AddMapping (e : XE)
| BadKeyPair (e : XE)
| ParseSigned (e : XE).
Arguments UnsupportedKeySize {XE SE} _.
Arguments UnknownAlgorithm {XE SE} _.
Arguments GenerateCSR {XE SE} _.
Arguments SignServing {XE SE} _.
Arguments LoadCA {XE SE} _.
Arguments RootNotDefined {XE SE}.
Arguments AddMapping {XE SE} _.
Arguments BadKeyPair {XE SE} _.
Arguments ParseSigned {XE SE} _.

Section provider.
Context {W Cert KP V XE SE TE CE : Type} `{EqDecision Cert} `{Signer W SE}.
Context (nd : Z → bool).
(** Kubernetes' flag parsers. *)
Context (cliflag_TLSVersion : string → result TE Z).
Context (cliflag_TLSCipherSuites : list string → result CE (list Z)).
(** Istio's and cert-manager's PKI functions, and package [crypto/tls]. *)
Context (GenCSR : CertOptions → go W (result XE (string * string))).
Context (DecodeX509CertificateSetBytes : string → result XE (list Cert)).
Context (NewVerifier : string → string → result XE V).
Context (X509KeyPair : string → string → result XE KP).
(** The expiry, in nanoseconds, of the leaf of a PEM certificate. *)
Context (DecodeNotAfter : string → result XE Z).

(* ------------------------------------------------------------------ *)
(** ** Construction *)

Definition NewProvider (o : TLSOptions) : result (provider_error TE CE) (Provider Cert KP V) :=
  minVersion ← wrap_err MinVersionError (cliflag_TLSVersion (ServingTLSMinVersion o));
  if minVersion <? VersionTLS12 then Err MinVersionTooLow
  else
    cipherSuites ← wrap_err CipherSuitesError (cliflag_TLSCipherSuites (ServingTLSCipherSuites o));
    curves ← wrap_err CurvesError (ParseCurvePreferences nd (ServingTLSCurvePreferences o));
    mret {| p_opts := o; servingMinVersion := minVersion; servingCipherSuites := cipherSuites;
            servingCurvePreferences := curves; rootCAs := noRootCAs; tlsConfig := None;
            subscriptions := 0; events := []; metric_success := 0; metric_failure := 0 |}.

(* ------------------------------------------------------------------ *)
(** ** Critical sections *)

Definition set_roots (r : RootCAs Cert) (p : Provider Cert KP V) : Provider Cert KP V :=
  {| p_opts := p_opts p; servingMinVersion := servingMinVersion p;
     servingCipherSuites := servingCipherSuites p;
     servingCurvePreferences := servingCurvePreferences p;
     rootCAs := r; tlsConfig := tlsConfig p; subscriptions := subscriptions p;
     events := events p ++ seq 0 (subscriptions p);
     metric_success := metric_success p; metric_failure := metric_failure p |}.

Definition set_config (c : option (TLSConfig KP V)) (p : Provider Cert KP V)
    : Provider Cert KP V :=
  {| p_opts := p_opts p; servingMinVersion := servingMinVersion p;
     servingCipherSuites := servingCipherSuites p;
     servingCurvePreferences := servingCurvePreferences p;
     rootCAs := rootCAs p; tlsConfig := c; subscriptions := subscriptions p;
     events := events p;
     metric_success := metric_success p; metric_failure := metric_failure p |}.

(** The deferred increment of the metric. *)
Definition count_request (success : bool) (p : Provider Cert KP V) : Provider Cert KP V :=
  {| p_opts := p_opts p; servingMinVersion := servingMinVersion p;
     servingCipherSuites := servingCipherSuites p;
     servingCurvePreferences := servingCurvePreferences p;
     rootCAs := rootCAs p; tlsConfig := tlsConfig p; subscriptions := subscriptions p;
     events := events p;
     metric_success := metric_success p + (if success then 1 else 0);
     metric_failure := metric_failure p + (if success then 0 else 1) |}.

Definition set_events (l : list nat) (p : Provider Cert KP V) : Provider Cert KP V :=
  {| p_opts := p_opts p; servingMinVersion := servingMinVersion p;
     servingCipherSuites := servingCipherSuites p;
     servingCurvePreferences := servingCurvePreferences p;
     rootCAs := rootCAs p; tlsConfig := tlsConfig p; subscriptions := subscriptions p;
     events := l;
     metric_success := metric_success p; metric_failure := metric_failure p |}.

(** The goroutine of [Start] that takes over a bundle from the file watcher:
    the subscribers are told. *)
Definition takeRootCAs (r : RootCAs Cert) (p : Provider Cert KP V) : Provider Cert KP V :=
  set_roots r p.

Definition SubscribeRootCAsEvent (p : Provider Cert KP V) : nat * Provider Cert KP V :=
  (subscriptions p,
   {| p_opts := p_opts p; servingMinVersion := servingMinVersion p;
      servingCipherSuites := servingCipherSuites p;
      servingCurvePreferences := servingCurvePreferences p;
      rootCAs := rootCAs p; tlsConfig := tlsConfig p; subscriptions := S (subscriptions p);
      events := events p;
      metric_success := metric_success p; metric_failure := metric_failure p |}).

Definition loadCAsRoot (rootCAsPEM : string) (p : Provider Cert KP V)
    : option XE * Provider Cert KP V :=
  if bool_decide (PEM (rootCAs p) = rootCAsPEM) then (None, p)
  else
    match DecodeX509CertificateSetBytes rootCAsPEM with
    | Err err => (Some err, p)
    | Ok rootCAsCerts =>
        (None, set_roots {| PEM := rootCAsPEM; Pool := Some (pool_of rootCAsCerts) |} p)
    end.

Definition applyTLSSecuritySettings (p : Provider Cert KP V) (cfg : TLSConfig KP V)
    : TLSConfig KP V :=
  {| tc_Certificates := tc_Certificates cfg; tc_NextProtos := tc_NextProtos cfg;
     tc_ClientAuth := tc_ClientAuth cfg; tc_Verifier := tc_Verifier cfg;
     tc_SessionTicketsDisabled := tc_SessionTicketsDisabled cfg;
     tc_HasGetConfigForClient := tc_HasGetConfigForClient cfg;
     tc_MinVersion := Z.max (servingMinVersion p) VersionTLS12;
     tc_CipherSuites := if (0 <? length (servingCipherSuites p))%nat
                        then servingCipherSuites p else tc_CipherSuites cfg;
     tc_CurvePreferences := if (0 <? length (servingCurvePreferences p))%nat
                            then servingCurvePreferences p else tc_CurvePreferences cfg |}.

(** The config that serves connections. *)
Definition innerConfig (p : Provider Cert KP V) (tlsCert : KP) (v : V) : TLSConfig KP V :=
  applyTLSSecuritySettings p
    {| tc_Certificates := [tlsCert]; tc_NextProtos := ["h2"];
       tc_ClientAuth := VerifyClientCertIfGiven; tc_Verifier := Some v;
       tc_SessionTicketsDisabled := true; tc_HasGetConfigForClient := false;
       tc_MinVersion := 0; tc_CipherSuites := []; tc_CurvePreferences := [] |}.

(** The last critical section of [fetchCertificate]: build the config for the
    signed certificate and the current roots, and install it. *)
Definition installCertificate (certificate pk : string) (p : Provider Cert KP V)
    : result (fetch_error XE SE) Z * Provider Cert KP V :=
  if bool_decide (PEM (rootCAs p) = "") || bool_decide (Pool (rootCAs p) = None)
  then (Err RootNotDefined, p)
  else
    match NewVerifier (TrustDomain (p_opts p)) (PEM (rootCAs p)) with
    | Err err => (Err (AddMapping err), p)
    | Ok peerCertVerifier =>
        match X509KeyPair certificate pk with
        | Err err => (Err (BadKeyPair err), p)
        | Ok tlsCert =>
            match DecodeNotAfter certificate with
            | Err err => (Err (ParseSigned err), p)
            | Ok notAfter =>
                (Ok notAfter, set_config (Some (innerConfig p tlsCert peerCertVerifier)) p)
            end
        end
    end.

(* ------------------------------------------------------------------ *)
(** ** Fetching a certificate *)

Definition certOptions (o : TLSOptions) : result (fetch_error XE SE) CertOptions :=
  let host := strings_Join (ServingCertificateDNSNames o) "," in
  if bool_decide (ServingSignatureAlgorithm o = "RSA") then
    Ok {| co_Host := host; co_IsServer := true; co_TTL := ServingCertificateDuration o;
          co_ECDSA := false; co_RSAKeySize := ServingCertificateKeySize o; co_ECCCurve := None |}
  else if bool_decide (ServingSignatureAlgorithm o = "ECDSA") then
    let ec curve :=
      {| co_Host := host; co_IsServer := true; co_TTL := ServingCertificateDuration o;
         co_ECDSA := true; co_RSAKeySize := 0; co_ECCCurve := Some curve |} in
    if ServingCertificateKeySize o =? 256 then Ok (ec P256Curve)
    else if ServingCertificateKeySize o =? 384 then Ok (ec P384Curve)
    else Err (UnsupportedKeySize (ServingCertificateKeySize o))
  else Err (UnknownAlgorithm (ServingSignatureAlgorithm o)).

(** The world outside and the provider. *)
Definition outside {A} (m : go W A) : go (W * Provider Cert KP V) A := λ '(w, p),
  let '(r, w') := m w in (r, (w', p)).
Definition critical {A} (f : Provider Cert KP V → A * Provider Cert KP V)
    : go (W * Provider Cert KP V) A := λ '(w, p), let '(a, p') := f p in (Ret a, (w, p')).

(** The body of [fetchCertificate], without the deferred increment. *)
Definition fetchBody (o : TLSOptions) : go (W * Provider Cert KP V) (result (fetch_error XE SE) Z) :=
  match certOptions o with
  | Err err => mret (Err err)
  | Ok co =>
      gen ← outside (GenCSR co);
      match gen with
      | Err err => mret (Err (GenerateCSR err))
      | Ok (csr, pk) =>
          signed ← outside (signer_Sign "istio-csr-serving" csr (ServingCertificateDuration o)
                              [UsageServerAuth]);
          match signed with
          | Err err => mret (Err (SignServing err))
          | Ok bundle =>
              err ← (if (String.length (RootCAsCertFile o) =? 0)%nat
                     then critical (loadCAsRoot (bundle_CA bundle)) else mret None);
              match err with
              | Some err => mret (Err (LoadCA err))
              | None => critical (installCertificate (bundle_Certificate bundle) pk)
              end
          end
      end
  end.

(** The deferred function runs when the body returns, and when it panics. *)
Definition fetchCertificate : go (W * Provider Cert KP V) (result (fetch_error XE SE) Z) :=
  λ '(w, p),
    match fetchBody (p_opts p) (w, p) with
    | (Ret (Ok t), (w', p')) => (Ret (Ok t), (w', count_request true p'))
    | (Ret (Err e), (w', p')) => (Ret (Err e), (w', count_request false p'))
    | (Panic, (w', p')) => (Panic, (w', count_request false p'))
    | (Blocked, s') => (Blocked, s')
    end.

(** [mustFetchCertificate] on what its selects meet after failed attempts:
    [true] for the ticker, [false] for the end of the context, in which case the
    zero time, [None], is returned. *)
Fixpoint mustFetchCertificate (selects : list bool)
    : go (W * Provider Cert KP V) (option Z) :=
  fetched ← fetchCertificate;
  match fetched with
  | Ok notAfter => mret (Some notAfter)
  | Err _ =>
      match selects with
      | [] => go_outcome Blocked
      | true :: selects' => mustFetchCertificate selects'
      | false :: _ => mret None
      end
  end.

Definition Provider_TrustDomain (p : Provider Cert KP V) : string := TrustDomain (p_opts p).

(** The provider runs on every replica. *)
Definition Provider_NeedLeaderElection : bool := false.

(** [Check]. *)
Definition ProviderCheck (p : Provider Cert KP V) : option string :=
  match tlsConfig p with Some _ => None | None => Some "not ready" end.

(** The config [Config] returns once there is one, which asks for the current
    one on every connection, and [getConfigForClient]. *)
Definition outerConfig (p : Provider Cert KP V) : TLSConfig KP V :=
  applyTLSSecuritySettings p
    {| tc_Certificates := []; tc_NextProtos := [];
       tc_ClientAuth := RequireAndVerifyClientCert; tc_Verifier := None;
       tc_SessionTicketsDisabled := false; tc_HasGetConfigForClient := true;
       tc_MinVersion := 0; tc_CipherSuites := []; tc_CurvePreferences := [] |}.

Definition getConfigForClient (p : Provider Cert KP V) : option (TLSConfig KP V) := tlsConfig p.

(* ------------------------------------------------------------------ *)
(** ** Waiting for the roots and for a config *)

(** [RootCAs] on what its polls meet: [None] for the end of the context, and
    otherwise the roots the provider holds at that tick. *)
Fixpoint RootCAs_loop (polls : list (option (RootCAs Cert)))
    : outcome (option (RootCAs Cert)) * list (option (RootCAs Cert)) :=
  match polls with
  | [] => (Blocked, [])
  | None :: rest => (Ret None, rest)
  | Some r :: rest =>
      if bool_decide (PEM r = "") || bool_decide (Pool r = None) then RootCAs_loop rest
      else (Ret (Some r), rest)
  end.

(** [Config], likewise on the provider at each poll. *)
Fixpoint Config_loop (polls : list (option (Provider Cert KP V)))
    : outcome (option (TLSConfig KP V)) :=
  match polls with
  | [] => Blocked
  | None :: _ => Ret None
  | Some p :: rest =>
      match tlsConfig p with
      | Some _ => Ret (Some (outerConfig p))
      | None => Config_loop rest
      end
  end.

(* ------------------------------------------------------------------ *)
(** ** The threads of [Start] *)

(** Where [Start] is: fetching the first certificate, waiting to renew the one
    that expires at the given time ([None] for the zero time), renewing it, or
    returned. *)
Inductive phase := Initial | AwaitRenewal (notAfter : option Z) | Renewing | Returned.

Definition fetching (ph : phase) : Prop := ph = Initial ∨ ph = Renewing.

Inductive provider_step : phase * Provider Cert KP V → phase * Provider Cert KP V → Prop :=
(* the goroutine on the file watcher's channel *)
| step_roots ph p r :
    RootCAsCertFile (p_opts p) ≠ "" → bundle_ok DecodeX509CertificateSetBytes r →
    provider_step (ph, p) (ph, takeRootCAs r p)
| step_subscribe ph p : provider_step (ph, p) (ph, (SubscribeRootCAsEvent p).2)
(* a goroutine sends on the subscription with its index *)
| step_send ph p l1 i l2 :
    events p = l1 ++ i :: l2 →
    provider_step (ph, p) (ph, set_events (l1 ++ l2) p)
(* the critical sections of fetchCertificate *)
| step_load ph p pem :
    fetching ph → RootCAsCertFile (p_opts p) = "" →
    provider_step (ph, p) (ph, (loadCAsRoot pem p).2)
| step_installed ph p certificate pk notAfter p' :
    fetching ph → installCertificate certificate pk p = (Ok notAfter, p') →
    provider_step (ph, p) (AwaitRenewal (Some notAfter), count_request true p')
| step_failed ph p : fetching ph → provider_step (ph, p) (ph, count_request false p)
(* the backoff of the first fetch is exhausted, or the context has ended *)
| step_give_up ph p : fetching ph → provider_step (ph, p) (AwaitRenewal None, p)
| step_timer p t : provider_step (AwaitRenewal t, p) (Renewing, p)
| step_done p t : provider_step (AwaitRenewal t, p) (Returned, set_config None p).

(* ------------------------------------------------------------------ *)
(** ** Invariants *)

(** What every config that serves connections has: at least TLS 1.2, no session
    tickets, HTTP/2, one key pair, and a verifier of client certificates made
    from a non-empty bundle of roots for the mesh's trust domain. *)
Definition config_ok (o : TLSOptions) (c : TLSConfig KP V) : Prop :=
  VersionTLS12 ≤ tc_MinVersion c ∧ tc_SessionTicketsDisabled c = true ∧
  tc_NextProtos c = ["h2"] ∧ tc_ClientAuth c = VerifyClientCertIfGiven ∧
  (∃ kp, tc_Certificates c = [kp]) ∧
  ∃ pem v, pem ≠ "" ∧ NewVerifier (TrustDomain o) pem = Ok v ∧ tc_Verifier c = Some v.

Definition provider_ok (x : phase * Provider Cert KP V) : Prop :=
  let p := x.2 in
  (rootCAs p = noRootCAs ∨ bundle_ok DecodeX509CertificateSetBytes (rootCAs p)) ∧
  (∀ c, tlsConfig p = Some c → config_ok (p_opts p) c ∧ (0 < metric_success p)%nat) ∧
  Forall (λ i, (i < subscriptions p)%nat) (events p) ∧
  (x.1 = Returned → tlsConfig p = None).

Lemma set_roots_events r p :
  Forall (λ i, (i < subscriptions p)%nat) (events p) →
  Forall (λ i, (i < subscriptions (set_roots r p))%nat) (events (set_roots r p)).
Proof.
  intros Hf. cbn. apply Forall_app. split; [done|]. apply Forall_forall.
  intros i Hi. apply elem_of_seq in Hi. lia.
Qed.

Lemma innerConfig_ok p kp v :
  PEM (rootCAs p) ≠ "" → NewVerifier (TrustDomain (p_opts p)) (PEM (rootCAs p)) = Ok v →
  config_ok (p_opts p) (innerConfig p kp v).
Proof.
  intros Hne Hv. unfold config_ok. cbn. split_and!; try done; [lia|by eexists|eauto].
Qed.

(** The last critical section either fails and changes nothing, or installs a
    config for the roots it finds. *)
Lemma installCertificate_spec certificate pk p r p' :
  installCertificate certificate pk p = (r, p') →
  match r with
  | Err _ => p' = p
  | Ok notAfter =>
      ∃ kp v, p' = set_config (Some (innerConfig p kp v)) p ∧
        PEM (rootCAs p) ≠ "" ∧ is_Some (Pool (rootCAs p)) ∧
        NewVerifier (TrustDomain (p_opts p)) (PEM (rootCAs p)) = Ok v ∧
        X509KeyPair certificate pk = Ok kp ∧ DecodeNotAfter certificate = Ok notAfter
  end.
Proof.
  unfold installCertificate. case_bool_decide as Hpem; cbn [orb]; [by intros [= <- <-]|].
  case_bool_decide as Hpool; [by intros [= <- <-]|].
  destruct (NewVerifier _ _) as [v|] eqn:Hv; [|by intros [= <- <-]].
  destruct (X509KeyPair certificate pk) as [kp|] eqn:Hk; [|by intros [= <- <-]].
  destruct (DecodeNotAfter certificate) as [t|] eqn:Hd; [|by intros [= <- <-]].
  intros [= <- <-]. exists kp, v. split_and!; try done.
  by destruct (Pool (rootCAs p)); [eexists|].
Qed.

Lemma loadCAsRoot_spec pem p e p' :
  loadCAsRoot pem p = (e, p') →
  match e with
  | Some err => p' = p ∧ DecodeX509CertificateSetBytes pem = Err err
  | None => (p' = p ∧ PEM (rootCAs p) = pem) ∨
            ∃ certs, DecodeX509CertificateSetBytes pem = Ok certs ∧ PEM (rootCAs p) ≠ pem ∧
                     p' = set_roots {| PEM := pem; Pool := Some (pool_of certs) |} p
  end.
Proof.
  unfold loadCAsRoot. case_bool_decide as Hp; [intros [= <- <-]; by left|].
  destruct (DecodeX509CertificateSetBytes pem) as [certs|err] eqn:Hd; intros [= <- <-]; eauto.
Qed.

Lemma provider_ok_step x y : provider_step x y → provider_ok x → provider_ok y.
Proof.
  intros Hs (Hr & Hc & He & Hret).
  destruct Hs as [ph p r _ Hb|ph p|ph p l1 i l2 Hev|ph p pem _ _|ph p cert pk t p' _ Hi
                 |ph p _|ph p _|p t|p t]; cbn [fst snd] in *; unfold provider_ok; cbn [fst snd].
  - split_and!; [by right|done|by apply set_roots_events|done].
  - split_and!; [done..| |done]. eapply Forall_impl; [exact He|]. cbn. lia.
  - split_and!; [done..| |done]. rewrite Hev in He. cbn.
    rewrite Forall_app, Forall_cons in He. apply Forall_app. naive_solver.
  - destruct (loadCAsRoot pem p) as [e p'] eqn:Hl. apply loadCAsRoot_spec in Hl. cbn.
    destruct e as [err|]; [by destruct Hl as [-> _]|].
    destruct Hl as [[-> _]|(certs & Hd & _ & ->)]; [done|].
    split_and!; [right; by exists certs|done|by apply set_roots_events|done].
  - apply installCertificate_spec in Hi as (kp & v & -> & Hne & _ & Hv & _ & _).
    split_and!; [done| |done|done]. cbn. intros c [= <-].
    split; [by apply innerConfig_ok|lia].
  - split_and!; [done| |done|done]. cbn. intros c Hcc. destruct (Hc c Hcc). split; [done|lia].
  - split_and!; done.
  - split_and!; done.
  - split_and!; done.
Qed.

(* ------------------------------------------------------------------ *)
(** ** Theorems *)

Lemma NewProvider_floor o p : NewProvider o = Ok p → VersionTLS12 ≤ servingMinVersion p ∧
  p_opts p = o ∧ provider_ok (Initial, p).
Proof.
  unfold NewProvider. destruct (cliflag_TLSVersion _) as [mv|]; cbn; [|done].
  destruct (Z.ltb_spec mv VersionTLS12) as [|Hge]; [done|].
  destruct (cliflag_TLSCipherSuites _); cbn; [|done].
  destruct (ParseCurvePreferences _ _); cbn; [|done]. intros [= <-].
  split_and!; [done|done|]. unfold provider_ok; cbn. split_and!; [by left|done..].
Qed.

Lemma provider_reachable_ok o p0 x :
  NewProvider o = Ok p0 → rtc provider_step (Initial, p0) x → provider_ok x.
Proof.
  intros (_ & _ & H0)%NewProvider_floor Hr. induction Hr; eauto using provider_ok_step.
Qed.

(** C11: however fetches, root updates, subscriptions and the end of the context
    interleave, a config the provider hands out for connections always has TLS
    1.2 as its minimum, session tickets disabled, and verifies client
    certificates against a non-empty bundle of roots for the mesh's trust
    domain; the readiness check passes only after a successful request, and
    never once [Start] has returned. *)
Theorem served_configs_are_safe o p0 ph p :
  NewProvider o = Ok p0 → rtc provider_step (Initial, p0) (ph, p) →
  (∀ c, getConfigForClient p = Some c → config_ok (p_opts p) c) ∧
  (ProviderCheck p = None → (0 < metric_success p)%nat ∧ ph ≠ Returned).
Proof.
  intros HN Hr. destruct (provider_reachable_ok _ _ _ HN Hr) as (_ & Hc & _ & Hret).
  cbn in *. split; [intros c Hcc; by apply Hc|].
  unfold ProviderCheck. destruct (tlsConfig p) as [c|] eqn:E; [|done]. intros _.
  split; [by apply (Hc c)|]. intros ->. by specialize (Hret eq_refl).
Qed.

(** A step either keeps the roots, or takes new ones and tells every subscriber;
    no subscription is lost. *)
Lemma provider_step_roots x y :
  provider_step x y →
  (rootCAs y.2 = rootCAs x.2 ∨ ∃ r, y.2 = set_roots r x.2) ∧
  (subscriptions x.2 ≤ subscriptions y.2)%nat.
Proof.
  intros Hs. destruct Hs as [ph p r _ _|ph p|ph p l1 i l2 _|ph p pem _ _|ph p cert pk t p' _ Hi
                            |ph p _|ph p _|p t|p t]; cbn [fst snd]; try (split; [by left|cbn; lia]).
  - split; [right; by eexists|done].
  - destruct (loadCAsRoot pem p) as [[e|] p'] eqn:Hl; apply loadCAsRoot_spec in Hl; cbn.
    + destruct Hl as [-> _]. split; [by left|done].
    + destruct Hl as [[-> _]|(certs & _ & _ & ->)]; (split; [|done]); [by left|right; by eexists].
  - apply installCertificate_spec in Hi as (kp & v & -> & _). split; [by left|done].
Qed.

(** C38: the provider's state stays well-formed, in every interleaving of fetches,
    root updates, subscriptions, deliveries and the end of the context: every
    goroutine that tells a subscriber of new roots indexes a subscription that is
    there, so that it never panics; and the roots the provider holds are either
    none or a bundle that decodes, with the pool of exactly its certificates. *)
Theorem root_events_are_delivered o p0 ph p :
  NewProvider o = Ok p0 → rtc provider_step (Initial, p0) (ph, p) →
  (∀ i, i ∈ events p → (i < subscriptions p)%nat) ∧
  (rootCAs p = noRootCAs ∨ bundle_ok DecodeX509CertificateSetBytes (rootCAs p)).
Proof.
  intros HN Hr. destruct (provider_reachable_ok _ _ _ HN Hr) as (Hroots & _ & He & _).
  split; [|done]. by apply Forall_forall.
Qed.

(** What the critical sections of a fetch do after the signer has answered. *)
Lemma finish_fetch_spec o bundle pk w p r w' p' :
  (err ← (if (String.length (RootCAsCertFile o) =? 0)%nat
          then critical (loadCAsRoot (bundle_CA bundle)) else mret None);
   match err with
   | Some err => mret (Err (LoadCA err))
   | None => critical (installCertificate (bundle_Certificate bundle) pk)
   end) (w, p) = (Ret r, (w', p')) → p_opts p = o →
  w' = w ∧ (RootCAsCertFile o ≠ "" → rootCAs p' = rootCAs p) ∧
  metric_success p' = metric_success p ∧ metric_failure p' = metric_failure p ∧
  match r with
  | Err _ => tlsConfig p' = tlsConfig p
  | Ok notAfter =>
      ∃ kp v, X509KeyPair (bundle_Certificate bundle) pk = Ok kp ∧
        DecodeNotAfter (bundle_Certificate bundle) = Ok notAfter ∧
        tlsConfig p' = Some (innerConfig p kp v) ∧
        NewVerifier (TrustDomain o) (PEM (rootCAs p')) = Ok v ∧ PEM (rootCAs p') ≠ "" ∧
        (RootCAsCertFile o = "" → PEM (rootCAs p') = bundle_CA bundle)
  end.
Proof.
  intros H' Ho. go_inv H' as err s1 Hl.
  assert (∃ p1, s1 = (w, p1) ∧ tlsConfig p1 = tlsConfig p ∧
    metric_success p1 = metric_success p ∧ metric_failure p1 = metric_failure p ∧
    p_opts p1 = o ∧ (∀ kp v, innerConfig p1 kp v = innerConfig p kp v) ∧
    (RootCAsCertFile o ≠ "" → rootCAs p1 = rootCAs p) ∧
    (err = None → RootCAsCertFile o = "" → PEM (rootCAs p1) = bundle_CA bundle))
    as (p1 & -> & Hc1 & Hs1 & Hf1 & Ho1 & Hin1 & Hr1 & Hca).
  { destruct (RootCAsCertFile o) as [|a f]; cbn [String.length Nat.eqb] in Hl.
    - unfold critical in Hl. destruct (loadCAsRoot (bundle_CA bundle) p) as [e p1] eqn:Hload.
      injection Hl as <- <-. exists p1. apply loadCAsRoot_spec in Hload.
      destruct e as [x|]; [destruct Hload as [-> _]; by split_and!|].
      destruct Hload as [[-> Hpem]|(certs & _ & _ & ->)]; by split_and!.
    - injection Hl as <- <-. exists p. by split_and!. }
  destruct err as [x|].
  { injection H' as <- <- <-. split_and!; done. }
  unfold critical in H'.
  destruct (installCertificate (bundle_Certificate bundle) pk p1) as [r2 p2] eqn:Hi.
  injection H' as <- <- <-. apply installCertificate_spec in Hi. destruct r2 as [t|x].
  - destruct Hi as (kp & v & -> & Hne & _ & Hv & Hkp & Hna). cbn.
    split_and!; [done..|]. exists kp, v. rewrite Hin1.
    rewrite Ho1 in Hv. split_and!; auto.
  - subst p2. by split_and!.
Qed.

(** A computation outside the lock leaves the provider alone. *)
Lemma outside_inv {A} (m : go W A) w p a s' :
  outside m (w, p) = (Ret a, s') → ∃ w', s' = (w', p) ∧ m w = (Ret a, w').
Proof. unfold outside. destruct (m w) as [r w1]. intros [= -> <-]. eauto. Qed.

Lemma fetchBody_spec w p r w' p' :
  fetchBody (p_opts p) (w, p) = (Ret r, (w', p')) →
  (RootCAsCertFile (p_opts p) ≠ "" → rootCAs p' = rootCAs p) ∧
  metric_success p' = metric_success p ∧ metric_failure p' = metric_failure p ∧
  match r with
  | Err _ => tlsConfig p' = tlsConfig p
  | Ok notAfter =>
      ∃ w1 csr pk bundle kp v,
        signer_Sign "istio-csr-serving" csr (ServingCertificateDuration (p_opts p))
          [UsageServerAuth] w1 = (Ret (Ok bundle), w') ∧
        X509KeyPair (bundle_Certificate bundle) pk = Ok kp ∧
        DecodeNotAfter (bundle_Certificate bundle) = Ok notAfter ∧
        tlsConfig p' = Some (innerConfig p kp v) ∧
        NewVerifier (TrustDomain (p_opts p)) (PEM (rootCAs p')) = Ok v ∧
        PEM (rootCAs p') ≠ "" ∧
        (RootCAsCertFile (p_opts p) = "" → PEM (rootCAs p') = bundle_CA bundle)
  end.
Proof.
  unfold fetchBody. destruct (certOptions (p_opts p)) as [co|]; [|by intros [= <- <- <-]].
  intros H'. go_inv H' as [[csr pk]|e] s1 Hg; apply outside_inv in Hg as (w1 & -> & Hg);
    [|by injection H' as <- <- <-].
  go_inv H' as [bundle|e] s2 Hs; apply outside_inv in Hs as (w2 & -> & Hs);
    [|by injection H' as <- <- <-].
  apply finish_fetch_spec in H' as (-> & Hroots & Hsu & Hfa & Hr); [|done].
  split_and!; [done..|]. destruct r as [t|x]; [|done].
  destruct Hr as (kp & v & ?). exists w1, csr, pk, bundle, kp, v. by split.
Qed.

Lemma fetchCertificate_spec w p r w' p' :
  fetchCertificate (w, p) = (Ret r, (w', p')) →
  (RootCAsCertFile (p_opts p) ≠ "" → rootCAs p' = rootCAs p) ∧
  match r with
  | Err _ => tlsConfig p' = tlsConfig p ∧
             metric_success p' = metric_success p ∧ metric_failure p' = S (metric_failure p)
  | Ok notAfter =>
      metric_success p' = S (metric_success p) ∧ metric_failure p' = metric_failure p ∧
      ∃ w1 csr pk bundle kp v,
        signer_Sign "istio-csr-serving" csr (ServingCertificateDuration (p_opts p))
          [UsageServerAuth] w1 = (Ret (Ok bundle), w') ∧
        X509KeyPair (bundle_Certificate bundle) pk = Ok kp ∧
        DecodeNotAfter (bundle_Certificate bundle) = Ok notAfter ∧
        tlsConfig p' = Some (innerConfig p kp v) ∧
        NewVerifier (TrustDomain (p_opts p)) (PEM (rootCAs p')) = Ok v ∧
        PEM (rootCAs p') ≠ "" ∧
        (RootCAsCertFile (p_opts p) = "" → PEM (rootCAs p') = bundle_CA bundle)
  end.
Proof.
  unfold fetchCertificate. intros H'.
  destruct (fetchBody (p_opts p) (w, p)) as [[[t|e]| |] [w1 p1]] eqn:Hb; try done;
    injection H' as <- <- <-; apply fetchBody_spec in Hb as (Hroots & Hs & Hf & Hr);
    (split; [exact Hroots|]).
  - split_and!; [cbn; lia|cbn; lia|]. exact Hr.
  - split_and!; [exact Hr|cbn; lia|cbn; lia].
Qed.

(** C13: [fetchCertificate] is all or nothing for connections, and counted either
    way: when it fails the config that serves them is the old one and the
    failure counter has grown; when it succeeds, the signer was asked for a
    server certificate of the configured duration, the new config has the
    signed key pair and verifies against the roots now held, which are non-empty
    and, without a roots file, the signer's CA, and the success counter has
    grown.  With a roots file, the roots are left alone. *)
Theorem fetchCertificate_all_or_nothing w p r w' p' :
  fetchCertificate (w, p) = (Ret r, (w', p')) →
  (RootCAsCertFile (p_opts p) ≠ "" → rootCAs p' = rootCAs p) ∧
  match r with
  | Err _ => tlsConfig p' = tlsConfig p ∧
             metric_success p' = metric_success p ∧ metric_failure p' = S (metric_failure p)
  | Ok notAfter =>
      metric_success p' = S (metric_success p) ∧ metric_failure p' = metric_failure p ∧
      ∃ w1 csr pk bundle kp v,
        signer_Sign "istio-csr-serving" csr (ServingCertificateDuration (p_opts p))
          [UsageServerAuth] w1 = (Ret (Ok bundle), w') ∧
        X509KeyPair (bundle_Certificate bundle) pk = Ok kp ∧
        DecodeNotAfter (bundle_Certificate bundle) = Ok notAfter ∧
        tlsConfig p' = Some (innerConfig p kp v) ∧
        NewVerifier (TrustDomain (p_opts p)) (PEM (rootCAs p')) = Ok v ∧
        PEM (rootCAs p') ≠ "" ∧
        (RootCAsCertFile (p_opts p) = "" → PEM (rootCAs p') = bundle_CA bundle)
  end.
Proof. apply fetchCertificate_spec. Qed.

Lemma fetchCertificate_config w p r w' p' :
  fetchCertificate (w, p) = (Ret r, (w', p')) →
  match r with Ok _ => tlsConfig p' ≠ None | Err _ => tlsConfig p' = tlsConfig p end.
Proof.
  unfold fetchCertificate. intros H'.
  destruct (fetchBody (p_opts p) (w, p)) as [[[t|e]| |] [w1 p1]] eqn:Hb; try done;
    injection H' as <- <- <-; apply fetchBody_spec in Hb as (_ & _ & _ & Hr); cbn; [|done].
  destruct Hr as (? & ? & ? & ? & ? & ? & _ & _ & _ & -> & _). done.
Qed.

(** Renewal never stops the service: while attempts fail the old config keeps
    serving, also when the context ends, and [mustFetchCertificate] returns an
    expiry only with a config in place. *)
Theorem renewal_keeps_serving selects w p r w' p' :
  mustFetchCertificate selects (w, p) = (Ret r, (w', p')) →
  match r with Some _ => tlsConfig p' ≠ None | None => tlsConfig p' = tlsConfig p end.
Proof.
  revert w p. induction selects as [|b selects IH]; intros w p H'; cbn [mustFetchCertificate] in H';
    go_inv H' as fetched s1 Hf; destruct s1 as [w1 p1]; pose proof (fetchCertificate_config _ _ _ _ _ Hf);
    (destruct fetched as [t|e]; [by injection H' as <- <- <-|]); [done|].
  destruct b; [|by injection H' as <- <- <-].
  apply IH in H'. destruct r; [done|]. congruence.
Qed.

(** With a roots file, new roots do not reach connections at once: from the
    start of a provider there is a run after which the provider waits to renew,
    holds the new roots, and still verifies the client certificates of new
    connections against the old ones, although the interface promises a config
    that is updated with the root CAs. *)
Theorem new_roots_wait_for_renewal o p0 pem1 certs1 v1 pem2 certs2 v2 certificate pk kp notAfter :
  NewProvider o = Ok p0 → RootCAsCertFile o ≠ "" →
  DecodeX509CertificateSetBytes pem1 = Ok certs1 → pem1 ≠ "" →
  DecodeX509CertificateSetBytes pem2 = Ok certs2 →
  NewVerifier (TrustDomain o) pem1 = Ok v1 → NewVerifier (TrustDomain o) pem2 = Ok v2 →
  X509KeyPair certificate pk = Ok kp → DecodeNotAfter certificate = Ok notAfter →
  ∃ p c, rtc provider_step (Initial, p0) (AwaitRenewal (Some notAfter), p) ∧
    PEM (rootCAs p) = pem2 ∧ getConfigForClient p = Some c ∧ tc_Verifier c = Some v1.
Proof.
  intros (_ & Ho & _)%NewProvider_floor Hfile Hd1 Hne Hd2 Hv1 Hv2 Hkp Hna.
  set (r1 := {| PEM := pem1; Pool := Some (pool_of certs1) |}).
  set (r2 := {| PEM := pem2; Pool := Some (pool_of certs2) |}).
  exists (takeRootCAs r2 (count_request true
            (set_config (Some (innerConfig (takeRootCAs r1 p0) kp v1)) (takeRootCAs r1 p0)))).
  eexists. split_and!; [|done|done|done].
  eapply rtc_l; [apply (step_roots _ _ r1); [by rewrite Ho|by exists certs1]|].
  eapply rtc_l; [|apply rtc_once, (step_roots _ _ r2); [by cbn; rewrite Ho|by exists certs2]].
  eapply (step_installed _ _ certificate pk); [by left|].
  unfold installCertificate, takeRootCAs. cbn [rootCAs PEM Pool r1 set_roots p_opts].
  rewrite bool_decide_eq_false_2, bool_decide_eq_false_2, Ho by done. cbn [orb].
  by rewrite Hv1, Hkp, Hna.
Qed.

(** [RootCAs] returns the first loaded bundle it meets at a tick, waits as
    long as there is none, and returns nil exactly when the context ends before
    one is met. *)
Theorem RootCAs_waits_for_roots polls :
  (∃ pre r post, polls = pre ++ Some r :: post ∧
     Forall (λ q, ∃ r', q = Some r' ∧ (PEM r' = "" ∨ Pool r' = None)) pre ∧
     PEM r ≠ "" ∧ Pool r ≠ None ∧ RootCAs_loop polls = (Ret (Some r), post)) ∨
  (∃ pre post, polls = pre ++ None :: post ∧
     Forall (λ q, ∃ r', q = Some r' ∧ (PEM r' = "" ∨ Pool r' = None)) pre ∧
     RootCAs_loop polls = (Ret None, post)) ∨
  (Forall (λ q, ∃ r', q = Some r' ∧ (PEM r' = "" ∨ Pool r' = None)) polls ∧
   RootCAs_loop polls = (Blocked, [])).
Proof.
  induction polls as [|[r|] polls IH]; cbn [RootCAs_loop].
  - right; right. by split.
  - destruct (bool_decide (PEM r = "") || bool_decide (Pool r = None)) eqn:Hb.
    + assert (PEM r = "" ∨ Pool r = None) as Hun.
      { apply orb_true_iff in Hb as [Hb|Hb]; apply bool_decide_eq_true in Hb; auto. }
      destruct IH as [(pre & r' & post & -> & Hf & ? & ? & ->)
                     |[(pre & post & -> & Hf & ->)|[Hf ->]]].
      * left. exists (Some r :: pre), r', post. split_and!; try done. constructor; eauto.
      * right; left. exists (Some r :: pre), post. split_and!; try done. constructor; eauto.
      * right; right. split; [|done]. constructor; eauto.
    + apply orb_false_iff in Hb as [H1%bool_decide_eq_false H2%bool_decide_eq_false].
      left. by exists [], r, polls.
  - right; left. by exists [], polls.
Qed.

(** [Config] hands out a config as soon as a certificate was fetched, and
    that config insists on verified client certificates, asks the provider for
    the current config on every connection, and never allows less than TLS
    1.2. *)
Theorem Config_waits_for_certificate pre p post :
  Forall (λ q, ∃ p', q = Some p' ∧ tlsConfig p' = None) pre → tlsConfig p ≠ None →
  ∃ cfg, Config_loop (pre ++ Some p :: post) = Ret (Some cfg) ∧
    tc_ClientAuth cfg = RequireAndVerifyClientCert ∧ tc_HasGetConfigForClient cfg = true ∧
    VersionTLS12 ≤ tc_MinVersion cfg.
Proof.
  intros Hpre Hp. exists (outerConfig p). split_and!; [|done|done|cbn; lia].
  induction Hpre as [|q pre (p' & -> & Hp') _ IH]; cbn [Config_loop app].
  - by destruct (tlsConfig p).
  - by rewrite Hp'.
Qed.

(* ------------------------------------------------------------------ *)
(** ** The interface *)

(** The polls a request's context has before it, and whether it has ended. *)
Record poll_world := { future : list (option (RootCAs Cert)); ended : bool }.

#[export] Instance provider_TLSRoots : TLSRoots unit poll_world unit Cert := {|
  tls_RootCAs := λ _ w,
    let '(r, rest) := RootCAs_loop (future w) in
    (r, {| future := rest;
           ended := match r with Ret None => true | _ => ended w end |});
  ctx_Err := λ _ w, if ended w then Some tt else None
|}.

(** The provider keeps the promise its clients rely on. *)
#[export] Instance provider_TLSRootsSpec : TLSRootsSpec unit poll_world unit Cert.
Proof.
  assert (∀ l r rest, RootCAs_loop l = (Ret (Some r), rest) → PEM r ≠ "" ∧ is_Some (Pool r)) as Hl.
  { induction l as [|[r0|] l IH]; cbn [RootCAs_loop]; intros r rest; [done| |done].
    case_bool_decide as H1; cbn [orb]; [apply IH|].
    case_bool_decide as H2; [apply IH|]. intros [= <- <-]. split; [done|].
    by destruct (Pool r0); [eexists|]. }
  split; cbn; intros [] w.
  - intros w'. destruct (RootCAs_loop (future w)) as [[[r|]| |] rest]; intros [=]. subst.
    by eexists.
  - intros r w'. destruct (RootCAs_loop (future w)) as [[[r'|]| |] rest] eqn:E; intros [=]. subst.
    by eapply Hl.
Qed.

(** With options no key can be generated for, a fetch fails before the signer is
    called. *)
Lemma fetch_bad_options w p e :
  certOptions (p_opts p) = Err e →
  fetchCertificate (w, p) = (Ret (Err e), (w, count_request false p)).
Proof. intros Hbad. unfold fetchCertificate, fetchBody. by rewrite Hbad. Qed.

(** Nothing but the counter of failures changes. *)
Lemma failures_only n p :
  p_opts (Nat.iter n (count_request false) p) = p_opts p ∧
  tlsConfig (Nat.iter n (count_request false) p) = tlsConfig p.
Proof. induction n as [|n [IH1 IH2]]; [done|]. by split. Qed.

Lemma count_failures n p :
  metric_failure (Nat.iter n (count_request false) p) = (n + metric_failure p)%nat.
Proof.
  induction n as [|n IH]; [done|]. rewrite Nat.iter_succ. cbn [metric_failure count_request].
  rewrite IH. lia.
Qed.

Lemma mustFetch_bad_options selects w p e r w' p' :
  certOptions (p_opts p) = Err e →
  mustFetchCertificate selects (w, p) = (r, (w', p')) →
  w' = w ∧ ∃ n, p' = Nat.iter n (count_request false) p.
Proof.
  revert p. induction selects as [|b selects IH]; intros p Hbad;
    cbn [mustFetchCertificate]; unfold mbind at 1, go_bind at 1;
    rewrite (fetch_bad_options _ _ e Hbad).
  - intros [= <- <- <-]. split; [done|]. by exists 1%nat.
  - destruct b; [|intros [= <- <- <-]; split; [done|]; by exists 1%nat].
    intros Hr. apply IH in Hr as (-> & n & ->); [|done]. split; [done|].
    exists (S n). by rewrite Nat.iter_succ_r.
Qed.

End provider.

(* ------------------------------------------------------------------ *)
(** ** Renewal *)

(** [(2 * time.Until(notAfter)) / 3]: the difference saturates, the product
    wraps around, and the division truncates. *)
Definition time_Until (now t : Z) : Z := Z.max min_int64 (Z.min max_int64 (t - now)).
Definition renewalTime (now notAfter : Z) : Z := Z.quot (int64 (2 * time_Until now notAfter)) 3.

(** C30: what the timer for renewal is set to, for every remaining validity.
    With less than 2^62 ns (about 146 years) to go it is two thirds of it,
    rounded down: never negative and never beyond the expiry.  For a certificate
    that expired at most 2^62 ns ago it is not positive, and for the zero time,
    for which [time.Until] saturates, it is zero: renewal comes at once.  Beyond
    these bounds the product overflows: with 2^62 ns or more to go the timer is
    not positive either, so that such a certificate is renewed over and over;
    and for one that expired longer ago, without saturation, the product wraps
    around to a positive number. *)
Theorem renewal_timer now notAfter :
  let left := notAfter - now in
  (0 ≤ left < 2 ^ 62 →
   renewalTime now notAfter = 2 * left / 3 ∧ 0 ≤ renewalTime now notAfter ≤ left) ∧
  (- 2 ^ 62 ≤ left < 0 →
   renewalTime now notAfter = - (2 * - left / 3) ∧ renewalTime now notAfter ≤ 0) ∧
  (left ≤ min_int64 → renewalTime now notAfter = 0) ∧
  (2 ^ 62 ≤ left →
   renewalTime now notAfter = - ((2 ^ 64 - 2 * Z.min left max_int64) / 3) ∧
   renewalTime now notAfter ≤ 0) ∧
  (min_int64 < left < - 2 ^ 62 →
   renewalTime now notAfter = (2 ^ 64 + 2 * left) / 3 ∧
   (min_int64 + 1 < left → 0 < renewalTime now notAfter)).
Proof.
  intros left. unfold renewalTime, time_Until. fold left.
  assert (min_int64 = - 2 ^ 63 ∧ max_int64 = 2 ^ 63 - 1) as [Hmin Hmax] by done.
  split_and!; intros Hl.
  - rewrite Z.min_r, Z.max_r, (int64_wrap 0), Z.add_0_r by lia.
    rewrite Z.quot_div_nonneg by lia. split; [done|]. div_lia.
  - rewrite Z.min_r, Z.max_r, (int64_wrap 0), Z.add_0_r by lia. rewrite quot_neg by lia.
    split; [f_equal; f_equal; lia|]. div_lia.
  - rewrite Z.max_l by lia. rewrite Hmin. by vm_compute.
  - rewrite Z.max_r, (Z.min_comm max_int64), (int64_wrap (-1)) by lia. rewrite quot_neg by lia.
    split; [f_equal; f_equal; lia|]. div_lia.
  - rewrite Z.min_r, Z.max_r, (int64_wrap 1) by lia. rewrite Z.quot_div_nonneg by lia.
    split; [f_equal; lia|]. intros ?. div_lia.
Qed.

(* ------------------------------------------------------------------ *)
(** ** Instances *)

(** A provider with a roots file.  Certificates and verifiers are strings; the
    world counts the calls of the signer. *)
Definition example_tls (file : string) : TLSOptions :=
  {| TrustDomain := "cluster.local"; RootCAsCertFile := file;
     ServingCertificateDuration := 3600 * time_Second;
     ServingCertificateDNSNames := ["cert-manager-istio-csr.cert-manager.svc"];
     ServingCertificateKeySize := 2048; ServingSignatureAlgorithm := "RSA";
     ServingTLSMinVersion := "VersionTLS13"; ServingTLSCipherSuites := [];
     ServingTLSCurvePreferences := ["X25519"] |}.
Definition example_version (s : string) : result unit Z :=
  if bool_decide (s = "VersionTLS13") then Ok 772 else Err tt.
Definition example_ciphers (l : list string) : result unit (list Z) := Ok [].
Definition example_gencsr (co : CertOptions) : go nat (result unit (string * string)) :=
  mret (Ok ("CSR", "KEY")).
Definition example_set (pem : string) : result unit (list string) := Ok [pem].
Definition example_verifier (td pem : string) : result unit string := Ok (td +:+ " " +:+ pem).
Definition example_keypair (cert pk : string) : result unit string := Ok cert.
Definition example_notafter (cert : string) : result unit Z := Ok 1000.
#[local] Instance example_signer : Signer nat unit := λ ids csr duration usages n,
  (Ret (Ok {| bundle_Certificate := "CERT"; bundle_CA := "CA" |}), S n).

Definition example_provider (file : string) : Provider string string string :=
  {| p_opts := example_tls file; servingMinVersion := 772; servingCipherSuites := [];
     servingCurvePreferences := [29]; rootCAs := noRootCAs; tlsConfig := None;
     subscriptions := 0; events := []; metric_success := 0; metric_failure := 0 |}.

(** The provider with a subscriber, after its first roots. *)
Definition example_with_roots : Provider string string string :=
  takeRootCAs {| PEM := "ROOTS"; Pool := Some ["ROOTS"] |}
    (SubscribeRootCAsEvent (example_provider "/roots.pem")).2.
Definition example_installed : Provider string string string :=
  count_request true (set_config
    (Some (innerConfig example_with_roots "CERT" "cluster.local ROOTS")) example_with_roots).

Lemma served_configs_are_safe_witness :
  (∀ c, getConfigForClient example_installed = Some c →
        config_ok example_verifier (example_tls "/roots.pem") c) ∧
  (ProviderCheck example_installed = None →
   (0 < metric_success example_installed)%nat ∧ AwaitRenewal (Some 1000) ≠ Returned).
Proof.
  eapply (served_configs_are_safe (SE := unit) (fun _ => false)
    example_version example_ciphers example_set example_verifier example_keypair
    example_notafter (example_tls "/roots.pem") (example_provider "/roots.pem")).
  - vm_compute. reflexivity.
  - eapply rtc_l; [apply step_subscribe|].
    eapply rtc_l; [apply (step_roots _ _ _ _ _ _ {| PEM := "ROOTS"; Pool := Some ["ROOTS"] |});
                   [done|by exists ["ROOTS"]]|].
    apply rtc_once. eapply (step_installed _ _ _ _ _ _ "CERT" "KEY"); [by left|].
    vm_compute. reflexivity.
Defined.

(** The notification of the subscriber is still under way. *)
Lemma root_events_are_delivered_witness :
  events example_installed = [0%nat] ∧ (0 < subscriptions example_installed)%nat ∧
  bundle_ok example_set (rootCAs example_installed).
Proof.
  destruct (root_events_are_delivered (SE := unit) (fun _ => false)
    example_version example_ciphers example_set example_verifier example_keypair
    example_notafter (example_tls "/roots.pem") (example_provider "/roots.pem")
    (AwaitRenewal (Some 1000)) example_installed) as (He & [Hr|Hr]).
  - vm_compute. reflexivity.
  - eapply rtc_l; [apply step_subscribe|].
    eapply rtc_l; [apply (step_roots _ _ _ _ _ _ {| PEM := "ROOTS"; Pool := Some ["ROOTS"] |});
                   [done|by exists ["ROOTS"]]|].
    apply rtc_once. eapply (step_installed _ _ _ _ _ _ "CERT" "KEY"); [by left|].
    vm_compute. reflexivity.
  - vm_compute in Hr. discriminate Hr.
  - split; [reflexivity|]. split; [|exact Hr]. apply He. left.
Defined.

Definition example_fetched : Provider string string string :=
  (fetchCertificate example_gencsr example_set example_verifier example_keypair example_notafter
     (0%nat, example_provider "")).2.2.

Lemma fetchCertificate_all_or_nothing_witness :
  metric_success example_fetched = 1%nat ∧ PEM (rootCAs example_fetched) = "CA".
Proof.
  destruct (fetchCertificate_all_or_nothing example_gencsr example_set example_verifier
    example_keypair example_notafter 0%nat (example_provider "") (Ok 1000) 1%nat example_fetched)
    as (_ & Hs & _ & w1 & csr & pk & bundle & kp & v & Hsign & _ & _ & _ & _ & _ & Hca).
  - vm_compute. reflexivity.
  - split; [exact Hs|]. rewrite Hca by reflexivity.
    cbv in Hsign. injection Hsign as <- _. reflexivity.
Defined.

Example new_roots_wait_for_renewal_example :
  ∃ p c, rtc (provider_step (SE := unit) example_set example_verifier example_keypair
                example_notafter)
           (Initial, example_provider "/roots.pem") (AwaitRenewal (Some 1000), p) ∧
    PEM (rootCAs p) = "NEW" ∧ getConfigForClient p = Some c ∧
    tc_Verifier c = Some "cluster.local OLD".
Proof.
  apply (new_roots_wait_for_renewal (SE := unit) (fun _ => false) example_version example_ciphers
    example_set example_verifier example_keypair example_notafter (example_tls "/roots.pem")
    (example_provider "/roots.pem") "OLD" ["OLD"] "cluster.local OLD" "NEW" ["NEW"]
    "cluster.local NEW" "CERT" "KEY" "CERT" 1000); vm_compute; done.
Qed.

Lemma renewal_timer_witness :
  renewalTime 100 400 = 200 ∧ renewalTime 0 (- 90) = - 60 ∧ renewalTime 0 (2 ^ 62) ≤ 0 ∧
  renewalTime 0 (- 2 ^ 62 - 3) = 3074457345618258600.
Proof.
  destruct (renewal_timer 100 400) as (H1 & _).
  destruct (renewal_timer 0 (- 90)) as (_ & H2 & _).
  destruct (renewal_timer 0 (2 ^ 62)) as (_ & _ & _ & H4 & _).
  destruct (renewal_timer 0 (- 2 ^ 62 - 3)) as (_ & _ & _ & _ & H5).
  split_and!; [apply H1; lia|apply H2; lia|apply H4; lia|].
  by apply H5; vm_compute.
Defined.
