(* ===== verification/Renewal.v ===== *)
(** * The serving certificate over time

    [Start] of [pkg/tls/tls.go] as one thread: the attempts to fetch a first
    certificate, each of which waits for an issuer, and the loop that renews it.
    [TLS] has the steps in which this thread meets the others; here the whole
    thread is run, and shown to be such a sequence of steps. *)

From S2P Require Import Prelude Kube CertManager RootCA TLSInterface Server TLS.

Open Scope Z_scope.

(** [IssuerChangeNotifier], the methods [Start] calls. *)
Class IssuerWaiter (W : Type) := {
  waiter_HasIssuerConfig : W → bool;
  waiter_WaitForIssuerConfig : go W unit;
}.
#[global] Hint Mode IssuerWaiter ! : typeclass_instances.

Section start.
Context {W Cert KP V XE SE : Type} `{EqDecision Cert} `{Signer W SE} `{IssuerWaiter W}.
Context (GenCSR : CertOptions → go W (result XE (string * string))).
Context (DecodeX509CertificateSetBytes : string → result XE (list Cert)).
Context (NewVerifier : string → string → result XE V).
Context (X509KeyPair : string → string → result XE KP).
Context (DecodeNotAfter : string → result XE Z).

#[local] Abbreviation fetch := (fetchCertificate (XE := XE) (SE := SE) GenCSR
  DecodeX509CertificateSetBytes NewVerifier X509KeyPair DecodeNotAfter).
#[local] Abbreviation mustFetch := (mustFetchCertificate (XE := XE) (SE := SE) GenCSR
  DecodeX509CertificateSetBytes NewVerifier X509KeyPair DecodeNotAfter).
#[local] Abbreviation tls_step := (provider_step (SE := SE) DecodeX509CertificateSetBytes
  NewVerifier X509KeyPair DecodeNotAfter).
#[local] Abbreviation provider := (Provider Cert KP V).

(* ------------------------------------------------------------------ *)
(** ** The thread *)

(** The first loop, with the number of times [backoff.Continue] is true; the time
    is the zero time, [None], if none of the attempts succeeds. *)
Fixpoint initialFetch (continues : nat) : go (W * provider) (option Z) :=
  match continues with
  | O => mret None
  | S continues' =>
      configured ← go_read (λ s, waiter_HasIssuerConfig s.1);
      _ ← (if negb configured then outside waiter_WaitForIssuerConfig else mret tt);
      fetched ← fetch;
      match fetched with
      | Err _ => initialFetch continues'
      | Ok notAfter => mret (Some notAfter)
      end
  end.

(** What the select of the second loop meets: the end of the context, or the
    timer, after which the certificate is renewed on the given selects. *)
Inductive renewal_wait := ContextEnded | TimerFired (selects : list bool).

Fixpoint renewals (waits : list renewal_wait) (notAfter : option Z) : go (W * provider) unit :=
  match waits with
  | [] => go_outcome Blocked
  | ContextEnded :: _ => critical (λ p, (tt, set_config None p))
  | TimerFired selects :: waits' =>
      notAfter' ← mustFetch selects;
      renewals waits' notAfter'
  end.

(** [Start]; [watched] is the error of [rootca.Watch], which is called if there is
    a file to watch. *)
Definition Start {WE : Type} (watched : option WE) (continues : nat) (waits : list renewal_wait)
    : go (W * provider) (option WE) :=
  file ← go_read (λ s, RootCAsCertFile (p_opts s.2));
  match (if (0 <? String.length file)%nat then watched else None) with
  | Some err => mret (Some err)
  | None =>
      notAfter ← initialFetch continues;
      _ ← renewals waits notAfter;
      mret None
  end.

(* ------------------------------------------------------------------ *)
(** ** Its steps *)

Lemma finish_fetch_steps ph bundle pk w p r w' p' :
  fetching ph →
  (err ← (if (String.length (RootCAsCertFile (p_opts p)) =? 0)%nat
          then critical (W := W) (loadCAsRoot DecodeX509CertificateSetBytes (bundle_CA bundle)) else mret None);
   match err with
   | Some err => mret (Err (LoadCA err))
   | None => critical (W := W) (installCertificate (SE := SE) NewVerifier X509KeyPair DecodeNotAfter
                         (bundle_Certificate bundle) pk)
   end) (w, p) = (Ret r, (w', p')) →
  ∃ p1, rtc tls_step (ph, p) (ph, p1) ∧
    match r with
    | Ok t => installCertificate (XE := XE) (SE := SE) NewVerifier X509KeyPair DecodeNotAfter
                (bundle_Certificate bundle) pk p1 = (Ok t, p')
    | Err _ => p' = p1
    end.
Proof.
  intros Hph H'. go_inv H' as err s1 Hl.
  assert (∃ p1, s1 = (w, p1) ∧ rtc tls_step (ph, p) (ph, p1)) as (p1 & -> & Hsteps).
  { destruct (RootCAsCertFile (p_opts p)) as [|a f] eqn:Hfile; cbn [String.length Nat.eqb] in Hl.
    - unfold critical in Hl. destruct (loadCAsRoot _ (bundle_CA bundle) p) as [e p1] eqn:Hload.
      injection Hl as <- <-. exists p1. split; [done|]. apply rtc_once.
      change p1 with ((e, p1).2). rewrite <-Hload. by apply step_load.
    - injection Hl as <- <-. exists p. split; [done|apply rtc_refl]. }
  exists p1. split; [done|]. destruct err as [x|].
  { by injection H' as <- <- <-. }
  unfold critical in H'.
  destruct (installCertificate _ _ _ (bundle_Certificate bundle) pk p1) as [r2 p2] eqn:Hi.
  injection H' as <- <- <-. destruct r2; [done|]. by apply installCertificate_spec in Hi.
Qed.

(** A fetch is a sequence of steps of its phase: it ends in the wait for renewal,
    or in the same phase with the config as it was. *)
Lemma fetch_steps ph w p r w' p' :
  fetching ph → fetch (w, p) = (Ret r, (w', p')) →
  match r with
  | Ok t => rtc tls_step (ph, p) (AwaitRenewal (Some t), p')
  | Err _ => rtc tls_step (ph, p) (ph, p')
  end.
Proof.
  intros Hph Hf. unfold fetchCertificate in Hf.
  destruct (fetchBody _ _ _ _ _ (p_opts p) (w, p)) as [[r0| |] [w1 p1]] eqn:Hb; [|done..].
  assert (∃ p2, rtc tls_step (ph, p) (ph, p2) ∧
    match r0 with
    | Ok t => ∃ certificate pk, installCertificate (XE := XE) (SE := SE) NewVerifier X509KeyPair
                DecodeNotAfter certificate pk p2 = (Ok t, p1)
    | Err _ => p1 = p2
    end) as (p2 & Hsteps & Hr0).
  { unfold fetchBody in Hb. destruct (certOptions (p_opts p)) as [co|];
      [|injection Hb as <- <- <-; exists p; split; [apply rtc_refl|done]].
    go_inv Hb as [[csr pk]|e] s1 Hg; apply outside_inv in Hg as (w2 & -> & _);
      [|injection Hb as <- <- <-; exists p; split; [apply rtc_refl|done]].
    go_inv Hb as [bundle|e] s2 Hs; apply outside_inv in Hs as (w3 & -> & _);
      [|injection Hb as <- <- <-; exists p; split; [apply rtc_refl|done]].
    apply (finish_fetch_steps ph) in Hb as (p2 & Hp2 & Hr); [|done].
    exists p2. split; [done|]. destruct r0; eauto. }
  destruct r0 as [t|e]; injection Hf as <- <- <-.
  - destruct Hr0 as (certificate & pk & Hi). eapply rtc_r; [exact Hsteps|]. by eapply step_installed.
  - subst p2. eapply rtc_r; [exact Hsteps|]. by apply step_failed.
Qed.

Lemma mustFetch_steps selects w p r w' p' :
  mustFetch selects (w, p) = (Ret r, (w', p')) →
  rtc tls_step (Renewing, p) (AwaitRenewal r, p').
Proof.
  revert w p. induction selects as [|b selects IH]; intros w p Hm; cbn [mustFetchCertificate] in Hm;
    go_inv Hm as fetched s1 Hf; destruct s1 as [w1 p1];
    apply (fetch_steps Renewing) in Hf; try (by right);
    (destruct fetched as [t|e]; [by injection Hm as <- <- <-|]); [done|].
  destruct b.
  - etrans; [exact Hf|]. by eapply IH.
  - injection Hm as <- <- <-. eapply rtc_r; [exact Hf|]. apply step_give_up. by right.
Qed.

Lemma renewals_steps waits t w p w' p' :
  renewals waits t (w, p) = (Ret tt, (w', p')) →
  rtc tls_step (AwaitRenewal t, p) (Returned, p') ∧ tlsConfig p' = None ∧
  ContextEnded ∈ waits.
Proof.
  revert t w p. induction waits as [|[|selects] waits IH]; intros t w p Hr; [done|..].
  - injection Hr as <- <-. split_and!; [by apply rtc_once, step_done|done|by left].
  - go_inv Hr as t' s1 Hm. destruct s1 as [w1 p1]. apply mustFetch_steps in Hm.
    apply IH in Hr as (Hr & ? & ?). split_and!; [|done|by right].
    eapply rtc_l; [apply step_timer|]. by etrans.
Qed.

(** The attempts: all fail, or all but the last. *)
Definition attempted (n : nat) (r : option Z) (p p' : provider) : Prop :=
  match r with
  | Some _ => tlsConfig p' ≠ None ∧ metric_success p' = S (metric_success p) ∧
              (metric_failure p ≤ metric_failure p' < metric_failure p + n)%nat
  | None => tlsConfig p' = tlsConfig p ∧ metric_success p' = metric_success p ∧
            metric_failure p' = (metric_failure p + n)%nat
  end.

Lemma initialFetch_spec n w p r w' p' :
  initialFetch n (w, p) = (Ret r, (w', p')) →
  rtc tls_step (Initial, p) (AwaitRenewal r, p') ∧ attempted n r p p'.
Proof.
  revert w p. induction n as [|n IH]; intros w p Hi; cbn [initialFetch] in Hi.
  { injection Hi as <- <- <-. split; [apply rtc_once, step_give_up; by left|].
    unfold attempted. split_and!; [done..|lia]. }
  unfold go_read in Hi. unfold mbind at 1, go_bind at 1 in Hi.
  go_inv Hi as u s1 Hw. assert (s1.2 = p) as Hs1.
  { destruct (negb _); [|by injection Hw as <- <-].
    by apply outside_inv in Hw as (? & -> & _). }
  destruct s1 as [w1 p1]. cbn in Hs1. subst p1.
  go_inv Hi as [t|e] s2 Hf; destruct s2 as [w2 p2].
  - injection Hi as <- <- <-. pose proof (fetch_steps Initial _ _ _ _ _ (or_introl eq_refl) Hf) as Hst.
    apply fetchCertificate_spec in Hf as (_ & Hs & Hfa & Hr).
    split; [done|]. destruct Hr as (?&?&?&?&?&?&_&_&_&Hc&_). unfold attempted. rewrite Hc.
    split_and!; [done|done|lia..].
  - pose proof (fetch_steps Initial _ _ _ _ _ (or_introl eq_refl) Hf) as Hst.
    apply fetchCertificate_spec in Hf as (_ & Hc & Hs & Hfa).
    apply IH in Hi as [Hsteps Ha]. split; [by etrans; [exact Hst|]|]. unfold attempted in *.
    rewrite Hc, Hs, Hfa in Ha. destruct r; destruct Ha as (?&?&?); split_and!; done || lia.
Qed.

(** With options no key can be generated for, and no config, nothing changes in the
    provider but the counter of failures, and nothing is called outside but the
    wait for an issuer. *)
#[local] Abbreviation waited :=
  (rtc (λ a b : W, ∃ r : outcome unit, waiter_WaitForIssuerConfig a = (r, b))).

Lemma initialFetch_bad_options n w p e r w' p' :
  certOptions (XE := XE) (SE := SE) (p_opts p) = Err e →
  initialFetch n (w, p) = (r, (w', p')) →
  (∃ k, p' = Nat.iter k (count_request false) p) ∧ waited w w'.
Proof.
  revert w p. induction n as [|n IH]; intros w p Hbad; cbn [initialFetch].
  { intros [= <- <- <-]. split; [by exists 0%nat|done]. }
  unfold go_read. unfold mbind at 1, go_bind at 1. unfold mbind at 1, go_bind at 1.
  destruct ((if negb (waiter_HasIssuerConfig _) then outside waiter_WaitForIssuerConfig
             else mret tt) (w, p)) as [r1 [w1 p1]] eqn:Hw.
  assert (p1 = p ∧ waited w w1) as [-> Hw1].
  { destruct (negb _); [|injection Hw as _ <- <-; by split].
    unfold outside in Hw. destruct (waiter_WaitForIssuerConfig w) as [r2 w2] eqn:Hr.
    injection Hw as _ <- <-. split; [done|]. apply rtc_once. by exists r2. }
  destruct r1 as [u| |]; [|intros [= <- <- <-]; by split; [exists 0%nat|]..].
  unfold mbind at 1, go_bind at 1. rewrite (fetch_bad_options _ _ _ _ _ w1 p e Hbad).
  intros Hi. apply IH in Hi as ((k & ->) & Hw2); [|done]. split; [|by etrans].
  exists (S k). by rewrite Nat.iter_succ_r.
Qed.

Lemma renewals_bad_options waits t w p e r w' p' :
  certOptions (XE := XE) (SE := SE) (p_opts p) = Err e → tlsConfig p = None →
  renewals waits t (w, p) = (r, (w', p')) →
  w' = w ∧ ∃ k, p' = Nat.iter k (count_request false) p.
Proof.
  revert t w p. induction waits as [|[|selects] waits IH]; intros t w p Hbad Hc; cbn [renewals].
  - intros [= <- <- <-]. split; [done|]. by exists 0%nat.
  - intros [= <- <- <-]. split; [done|]. exists 0%nat. destruct p. cbn in *. by subst.
  - unfold mbind at 1, go_bind at 1.
    destruct (mustFetch selects (w, p)) as [r1 [w1 p1]] eqn:Hm.
    apply (mustFetch_bad_options _ _ _ _ _ _ _ _ e) in Hm as (-> & k & ->); [|done].
    destruct r1 as [t'| |]; [|intros [= <- <- <-]; by split; [|exists k]..].
    destruct (failures_only k p) as [Ho Hn].
    intros Hr. apply IH in Hr as (-> & k' & ->); [|by rewrite Ho|by rewrite Hn].
    split; [done|]. exists (k' + k)%nat. by rewrite Nat.iter_add.
Qed.

Lemma Start_bad_options {WE : Type} (watched : option WE) continues waits w p e r w' p' :
  certOptions (XE := XE) (SE := SE) (p_opts p) = Err e → tlsConfig p = None →
  Start watched continues waits (w, p) = (r, (w', p')) →
  (∃ n, p' = Nat.iter n (count_request false) p) ∧ tlsConfig p' = None ∧ waited w w'.
Proof.
  intros Hbad Hc Hs.
  enough ((∃ n, p' = Nat.iter n (count_request false) p) ∧ waited w w') as [[n ->] ?].
  { split_and!; [by exists n| |done]. by rewrite (proj2 (failures_only n p)). }
  revert Hs. unfold Start. unfold mbind at 1, go_bind at 1. unfold go_read. cbn [fst snd].
  destruct (if (0 <? String.length (RootCAsCertFile (p_opts p)))%nat then watched else None); [intros [= <- <- <-]; by split; [exists 0%nat|]|].
  unfold mbind at 1, go_bind at 1.
  destruct (initialFetch continues (w, p)) as [r1 [w1 p1]] eqn:Hi.
  apply (initialFetch_bad_options _ _ _ e) in Hi as ((n & ->) & Hw); [|done].
  destruct r1 as [t| |]; [|intros [= <- <- <-]; by split; [exists n|]..].
  destruct (failures_only n p) as [Ho Hn]. unfold mbind, go_bind.
  destruct (renewals waits t _) as [r2 [w2 p2]] eqn:Hr.
  apply (renewals_bad_options _ _ _ _ e) in Hr as (-> & n' & ->); [|by rewrite Ho|by rewrite Hn].
  assert (∃ m, Nat.iter n' (count_request false) (Nat.iter n (count_request false) p) =
               Nat.iter m (count_request false) p) as Hm
    by (exists (n' + n)%nat; by rewrite Nat.iter_add).
  destruct r2; intros [= <- <- <-]; by split.
Qed.

(* ------------------------------------------------------------------ *)
(** ** Theorems *)

(** C18: [Start] is a run of the provider's steps: if it returns without an error,
    its thread has gone through steps of [provider_step], from the first fetch to
    the end, the context has ended, and the provider is no longer ready; it
    returns an error only if the file of roots cannot be watched, and then
    nothing has happened. *)
Theorem Start_is_a_run {WE : Type} (watched : option WE) continues waits w p r w' p' :
  Start watched continues waits (w, p) = (Ret r, (w', p')) →
  match r with
  | Some err => watched = Some err ∧ RootCAsCertFile (p_opts p) ≠ "" ∧ (w', p') = (w, p)
  | None => rtc tls_step (Initial, p) (Returned, p') ∧ ProviderCheck p' = Some "not ready" ∧
            ContextEnded ∈ waits
  end.
Proof.
  unfold Start. unfold mbind at 1, go_bind at 1. unfold go_read. cbn [fst snd].
  destruct (if (0 <? String.length (RootCAsCertFile (p_opts p)))%nat then watched else None)
    as [err|] eqn:Hw.
  - intros [= <- <- <-]. destruct (RootCAsCertFile (p_opts p)); [done|]. by cbn in Hw.
  - intros Hs. go_inv Hs as t s1 Hi. destruct s1 as [w1 p1].
    go_inv Hs as u s2 Hr. destruct s2 as [w2 p2], u. injection Hs as <- <- <-.
    apply initialFetch_spec in Hi as [Hi _]. apply renewals_steps in Hr as (Hr & Hc & Hin).
    split_and!; [by etrans| |done]. unfold ProviderCheck. by rewrite Hc.
Qed.

(** C19: the first certificate is tried for a bounded number of times: if every
    fetch returns and every wait for an issuer does, the loop ends; either the
    last attempt has succeeded and a config serves, or all of them have failed,
    as many as were allowed, nothing serves that did not before, and [Start]
    goes on to the renewal loop without a certificate. *)
Theorem initial_fetch_bounded n w p :
  (∀ s, ∃ r s', fetch s = (Ret r, s')) →
  (∀ w : W, ∃ w', waiter_WaitForIssuerConfig w = (Ret tt, w')) →
  ∃ r w' p', initialFetch n (w, p) = (Ret r, (w', p')) ∧ attempted n r p p'.
Proof.
  intros Hf Hw. assert (∃ r w' p', initialFetch n (w, p) = (Ret r, (w', p')))
    as (r & w' & p' & Hr); [|exists r, w', p'; split; [done|by eapply initialFetch_spec]].
  revert w p. induction n as [|n IH]; intros w p; [by eexists _, _, _|].
  cbn [initialFetch]. unfold mbind, go_bind, go_read. cbn [fst].
  assert (∃ w1 : W, (if negb (waiter_HasIssuerConfig w) then outside waiter_WaitForIssuerConfig
                 else mret tt) (w, p) = (Ret tt, (w1, p))) as [w1 ->].
  { destruct (negb _); [|by eexists]. destruct (Hw w) as [w1 Hw1]. exists w1.
    unfold outside. by rewrite Hw1. }
  destruct (Hf (w1, p)) as ([t|e] & [w2 p2] & ->); [by eexists _, _, _|]. apply IH.
Qed.
End start.

(* ------------------------------------------------------------------ *)
(** ** Witnesses *)

(** The world counts signed certificates; there is always an issuer. *)
#[local] Instance example_waiter : IssuerWaiter nat :=
  {| waiter_HasIssuerConfig := λ _, true; waiter_WaitForIssuerConfig := mret tt |}.
#[local] Existing Instance example_signer.

#[local] Abbreviation example_Start := (Start example_gencsr example_set example_verifier
  example_keypair example_notafter (@None unit)).

(** One certificate at the start, one renewal, and the end of the context. *)
Lemma Start_is_a_run_witness :
  ∃ w' p', example_Start 251 [TimerFired []; ContextEnded] (0%nat, example_provider "") =
             (Ret None, (w', p')) ∧ w' = 2%nat ∧
    rtc (provider_step (SE := unit) example_set example_verifier example_keypair example_notafter)
      (Initial, example_provider "") (Returned, p') ∧ ProviderCheck p' = Some "not ready".
Proof.
  destruct (example_Start 251 [TimerFired []; ContextEnded] (0%nat, example_provider ""))
    as [r [w' p']] eqn:Hs.
  assert (r = Ret None ∧ w' = 2%nat) as [-> ->]
    by (vm_compute in Hs; injection Hs as <- <- _; split; reflexivity).
  exists 2%nat, p'. split; [reflexivity|]. split; [reflexivity|].
  destruct (Start_is_a_run example_gencsr example_set example_verifier example_keypair
    example_notafter None 251 [TimerFired []; ContextEnded] 0%nat (example_provider "") None
    2%nat p' Hs) as (Hr & Hc & _).
  split; [exact Hr|exact Hc].
Defined.

(** No signing request can be made: the signer is never asked. *)
Definition example_no_csr (co : CertOptions) : go nat (result unit (string * string)) :=
  mret (Err tt).

Lemma initial_fetch_bounded_witness :
  ∃ r w' p', initialFetch example_no_csr example_set example_verifier example_keypair
      example_notafter 3 (0%nat, example_provider "") = (Ret r, (w', p')) ∧
    attempted 3 r (example_provider "") p'.
Proof.
  apply (initial_fetch_bounded example_no_csr example_set example_verifier example_keypair
           example_notafter 3 0%nat (example_provider "")).
  - intros [w p]. unfold fetchCertificate, fetchBody.
    destruct (certOptions (p_opts p)); eexists _, _; reflexivity.
  - intros w. eexists. reflexivity.
Defined.
