(* ===== verification/Propagation.v ===== *)
(** * Roots on their way to the namespaces

    The TLS provider of [TLS] and the ConfigMap controller of [ControllerQueue]
    together: the provider tells the controller's subscription of new roots, the
    handler of [AddConfigMapController] asks the provider for them, stores them
    and lists the namespaces, and the workers reconcile.  The provider may change
    its roots between any two of these steps.  The end of the process, and with
    it the nil answer of [RootCAs], are left out as in [ControllerQueue]. *)

From S2P Require Import Prelude Kube CertManager RootCA TLSInterface Server Controller TLS ControllerQueue.

Open Scope Z_scope.

Section propagation.
Context {Cert KP V XE SE TE CE E : Type} `{EqDecision Cert}.
Context (nd : Z → bool).
Context (cliflag_TLSVersion : string → result TE Z).
Context (cliflag_TLSCipherSuites : list string → result CE (list Z)).
Context (DecodeX509CertificateSetBytes : string → result XE (list Cert)).
Context (NewVerifier : string → string → result XE V).
Context (X509KeyPair : string → string → result XE KP).
Context (DecodeNotAfter : string → result XE Z).
Context (Matches : gmap string string → bool).
Context (max : nat).

#[local] Abbreviation cluster := (@cluster E).
#[local] Abbreviation tls_step := (provider_step (SE := SE) DecodeX509CertificateSetBytes
  NewVerifier X509KeyPair DecodeNotAfter).

(* ------------------------------------------------------------------ *)
(** ** The interleaving *)

(** Where the handler of a root CA event is. *)
Inductive handler_at := Waiting | Reading | Storing (r : RootCAs Cert).

(** The provider; the controller's subscription, and how many events were received
    from it and not handled; the handler; and the controller with its cluster. *)
Record propagation := {
  tls : phase * Provider Cert KP V;
  subscription : nat;
  inbox : nat;
  handler : handler_at;
  k8s : cluster;
}.

Definition set_tls t (x : propagation) : propagation :=
  {| tls := t; subscription := subscription x; inbox := inbox x; handler := handler x;
     k8s := k8s x |}.
Definition set_handler n h (x : propagation) : propagation :=
  {| tls := tls x; subscription := subscription x; inbox := n; handler := h; k8s := k8s x |}.
Definition set_k8s s (x : propagation) : propagation :=
  {| tls := tls x; subscription := subscription x; inbox := inbox x; handler := handler x;
     k8s := s |}.

(** The goroutines that are to tell the controller. *)
Definition telling (x : propagation) : list nat :=
  List.filter (Nat.eqb (subscription x)) (events (tls x).2).

Inductive prop_step : who → propagation → propagation → Prop :=
(* the provider does anything but send on the controller's subscription *)
| p_provider t x :
    tls_step (tls x) t → (length (telling x) ≤ length (telling (set_tls t x)))%nat →
    prop_step Others x (set_tls t x)
(* others act on the cluster *)
| p_others s x :
    queue_step Matches max Others (k8s x) s →
    rootCAsPEM s = rootCAsPEM (k8s x) → listing s = listing (k8s x) →
    prop_step Others x (set_k8s s x)
(* a goroutine sends on the subscription, and the event waits for the handler *)
| p_deliver ph p l1 l2 x :
    tls x = (ph, p) → events p = l1 ++ subscription x :: l2 →
    prop_step Ours x
      (set_handler (S (inbox x)) (handler x) (set_tls (ph, set_events (l1 ++ l2) p) x))
(* the handler is called, and asks the provider *)
| p_handle n x :
    inbox x = S n → handler x = Waiting → listing (k8s x) = false →
    prop_step Ours x (set_handler n Reading x)
| p_read r x :
    handler x = Reading → RootCAs_loop [Some (rootCAs (tls x).2)] = (Ret (Some r), []) →
    prop_step Ours x (set_handler (inbox x) (Storing r) x)
| p_store r x :
    handler x = Storing r → listing (k8s x) = false →
    prop_step Ours x (set_handler (inbox x) Waiting (set_k8s (new_roots (PEM r) (k8s x)) x))
(* the rest of the handler, the queue and the workers *)
| p_ours s x :
    queue_step Matches max Ours (k8s x) s → prop_step Ours x (set_k8s s x).

(** [NewProvider], then [AddConfigMapController], which subscribes. *)
Definition propagation_start (p0 : Provider Cert KP V) (s : cluster) : propagation :=
  let '(sub, p) := SubscribeRootCAsEvent p0 in
  {| tls := (Initial, p); subscription := sub; inbox := 0; handler := Waiting; k8s := s |}.

Definition any_step (x y : propagation) : Prop := ∃ w, prop_step w x y.

(** Nothing is under way. *)
Definition at_rest (x : propagation) : Prop :=
  telling x = [] ∧ inbox x = 0%nat ∧ handler x = Waiting ∧ quiescent (k8s x).

(* ------------------------------------------------------------------ *)
(** ** The invariant *)

(** The controller has the provider's roots, or an event tells it to ask for
    them; if the handler holds roots it has read, they are the provider's or
    there is another event. *)
Definition up_to_date (x : propagation) : Prop :=
  telling x ≠ [] ∨ inbox x ≠ 0%nat ∨
  match handler x with
  | Waiting => rootCAsPEM (k8s x) = PEM (rootCAs (tls x).2)
  | Reading => True
  | Storing r => r = rootCAs (tls x).2
  end.

Record prop_ok (x : propagation) : Prop := {
  ok_provider : provider_ok DecodeX509CertificateSetBytes NewVerifier (tls x);
  ok_subscribed : (subscription x < subscriptions (tls x).2)%nat;
  ok_cluster : reachable Matches max (k8s x);
  ok_current : up_to_date x;
  ok_handler : handler x ≠ Waiting → listing (k8s x) = false;
}.
Lemma reachable_step w s s' :
  reachable (E := E) Matches max s → queue_step Matches max w s s' → reachable Matches max s'.
Proof.
  intros (s0 & H0 & Hr) Hs. exists s0. split; [done|]. eapply rtc_r; [exact Hr|]. by exists w.
Qed.

Lemma propagation_start_ok o p0 s :
  NewProvider (TE := TE) (CE := CE) nd cliflag_TLSVersion cliflag_TLSCipherSuites o = Ok p0 →
  starts (E := E) s → rootCAsPEM s = "" → prop_ok (propagation_start p0 s).
Proof.
  intros HN Hs Hpem.
  assert (rootCAs p0 = noRootCAs) as Hroots
    by (unfold NewProvider in HN; run_result HN; case_match; [done|]; run_result HN;
        by injection HN as <-).
  destruct (NewProvider_floor nd cliflag_TLSVersion cliflag_TLSCipherSuites
    DecodeX509CertificateSetBytes NewVerifier _ _ HN) as (_ & _ & Hok).
  split; cbn.
  - eapply (provider_ok_step (SE := SE) _ _ X509KeyPair DecodeNotAfter); [|exact Hok].
    apply step_subscribe.
  - lia.
  - exists s. split; [done|]. apply rtc_refl.
  - right. right. cbn. by rewrite Hpem, Hroots.
  - done.
Qed.

(** New roots are told to every subscription. *)
Lemma telling_new_roots r t x :
  t.2 = set_roots r (tls x).2 → (subscription x < subscriptions (tls x).2)%nat →
  telling (set_tls t x) ≠ [].
Proof.
  intros Ht Hsub Hnil. assert (subscription x ∈ telling (set_tls t x)) as Hin.
  { apply list_elem_of_In, filter_In. cbn. rewrite Ht. split; [|apply Nat.eqb_refl].
    apply list_elem_of_In. cbn. apply elem_of_app. right. apply elem_of_seq. lia. }
  rewrite Hnil in Hin. by apply elem_of_nil in Hin.
Qed.

Lemma prop_ok_step w x y : prop_step w x y → prop_ok x → prop_ok y.
Proof.
  intros Hs [Hp Hsub Hk Hc Hh].
  destruct Hs as [t x Ht Hlen|s x Hq Hr Hl|ph p l1 l2 x Hx Hev|n x Hi Hw Hl|r x Hw Hr|r x Hw Hl|s x Hq].
  - destruct (provider_step_roots _ _ _ _ _ _ Ht) as [Hroots Hsubs].
    split; cbn; [by eapply provider_ok_step|lia|done| |done].
    destruct Hroots as [Hsame|[r Hnew]]; [|left; by eapply telling_new_roots].
    unfold up_to_date in *. cbn. rewrite Hsame. destruct Hc as [Hne|?]; [left|by right].
    intros Hnil. rewrite Hnil in Hlen. destruct (telling x); [done|cbn in Hlen; lia].
  - split; cbn; [done|done|by eapply reachable_step| |by rewrite Hl].
    unfold up_to_date in *. cbn. by rewrite Hr.
  - assert (tls_step (tls x) (ph, set_events (l1 ++ l2) p)) as Ht
      by (rewrite Hx; by apply step_send with (i := subscription x)).
    split; cbn; [by eapply provider_ok_step|by rewrite Hx in Hsub|done|by right; left|done].
  - split; cbn; [done..|by right; right|done].
  - split; cbn; [done..| |intros _; apply Hh; by rewrite Hw].
    cbn in Hr. case_match; [done|]. injection Hr as <-. by right; right.
  - split; cbn; [done|done| | |done].
    + eapply reachable_step; [done|]. by apply q_roots.
    + unfold up_to_date in *. rewrite Hw in Hc. cbn. destruct Hc as [?|[?| ->]]; auto.
  - split; cbn; [done|done|by eapply reachable_step| |].
    + unfold up_to_date in *. cbn. by rewrite (proj1 (proj2 (ours_keeps _ _ _ _ Hq))).
    + intros Hne. apply (ours_keeps _ _ _ _ Hq), Hh, Hne.
Qed.

Lemma prop_ok_run x y : rtc any_step x y → prop_ok x → prop_ok y.
Proof. induction 1 as [|x y z [w Hs] _ IH]; eauto using prop_ok_step. Qed.

(* ------------------------------------------------------------------ *)
(** ** Coming to rest *)

#[local] Abbreviation ours := (rtc (prop_step Ours)).

Lemma ours_run x y : ours x y → prop_ok x → prop_ok y.
Proof. induction 1; eauto using prop_ok_step. Qed.

(** Steps of the queue, as steps of the whole. *)
Lemma queue_run s x :
  rtc (queue_step Matches max Ours) (k8s x) s → ours x (set_k8s s x).
Proof.
  remember (k8s x) as s0 eqn:He. intros Hr. revert x He.
  induction Hr as [s|s1 s2 s3 Hs _ IH]; intros x ->.
  - destruct x. apply rtc_refl.
  - eapply rtc_l; [by apply p_ours|]. by apply (IH (set_k8s s2 x)).
Qed.

(** What is left of a run of the handler and of the events, in steps. *)
Definition handling (h : handler_at) : nat :=
  match h with Waiting => 0 | Reading => 2 | Storing _ => 1 end.
Definition left_over (x : propagation) : nat :=
  4 * length (telling x) + 3 * inbox x + handling (handler x).

(** What the controller and the handler do not touch. *)
Definition same_mesh (x y : propagation) : Prop :=
  rootCAs (tls y).2 = rootCAs (tls x).2 ∧ namespaces (k8s y) = namespaces (k8s x).

#[local] Instance same_mesh_preorder : PreOrder same_mesh.
Proof. split; [done|]. intros x y z [? ?] [? ?]. split; congruence. Qed.

(** The next step of the handler, or of an event on its way. *)
Lemma progress x :
  prop_ok x → PEM (rootCAs (tls x).2) ≠ "" → left_over x ≠ 0%nat →
  ∃ y, ours x y ∧ same_mesh x y ∧ (left_over y < left_over x)%nat.
Proof.
  intros Hok Hpem Hleft. destruct (handler x) as [| |r] eqn:Hh.
  - destruct (inbox x) as [|n] eqn:Hi.
    + unfold left_over in Hleft. rewrite Hi, Hh in Hleft.
      destruct (telling x) as [|i l] eqn:Ht; [done|].
      assert (subscription x ∈ events (tls x).2) as [l1 [l2 Hev]]%list_elem_of_split.
      { assert (i ∈ telling x) as Hin by (rewrite Ht; by left).
        apply list_elem_of_In, filter_In in Hin as [Hin Hi']. apply Nat.eqb_eq in Hi' as <-.
        by apply list_elem_of_In. }
      destruct (tls x) as [ph p] eqn:Hx. cbn in Hev.
      eexists. split; [by apply rtc_once, (p_deliver ph p l1 l2)|]. split; [by split; cbn; rewrite ?Hx|].
      unfold left_over. cbn. rewrite Hi, Hh. unfold telling. cbn. rewrite Hx. cbn. rewrite Hev.
      rewrite !List.filter_app. cbn. rewrite Nat.eqb_refl. rewrite !length_app. cbn. lia.
    + destruct (finish_listing Matches max (k8s x) (reachable_ok _ _ _ (ok_cluster x Hok)))
        as (s & Hs & Hl & _ & Hns & _).
      exists (set_handler n Reading (set_k8s s x)). split; [|split; [by split|]].
      * eapply rtc_r; [by apply (queue_run s)|]. by apply p_handle.
      * unfold left_over. cbn. rewrite Hi, Hh.
        change (telling (set_handler n Reading (set_k8s s x))) with (telling x). cbn. lia.
  - eexists. split; [apply rtc_once, (p_read (rootCAs (tls x).2))|]; [done| |split; [done|]].
    + cbn. rewrite bool_decide_eq_false_2 by done.
      destruct (ok_provider x Hok) as ([Hr|Hr] & _); [by rewrite Hr in Hpem|].
      destruct Hr as (? & _ & ->). done.
    + unfold left_over. rewrite Hh.
      change (telling (set_handler (inbox x) (Storing (rootCAs (tls x).2)) x)) with (telling x).
      cbn. lia.
  - eexists. split; [apply rtc_once, (p_store r); [done|]|split; [done|]].
    + apply (ok_handler x Hok). by rewrite Hh.
    + unfold left_over. rewrite Hh.
      match goal with |- context [telling ?y] => change (telling y) with (telling x) end. cbn. lia.
Qed.

Lemma all_handled x :
  prop_ok x → PEM (rootCAs (tls x).2) ≠ "" →
  ∃ y, ours x y ∧ same_mesh x y ∧ left_over y = 0%nat.
Proof.
  remember (left_over x) as n eqn:Hn. revert x Hn.
  induction (lt_wf n) as [n _ IH]; intros x -> Hok Hpem.
  destruct (decide (left_over x = 0%nat)) as [?|Hne]; [by exists x|].
  destruct (progress x Hok Hpem Hne) as (y & Hxy & Hm & Hlt).
  destruct (IH _ Hlt y eq_refl) as (z & Hyz & Hm' & Hz).
  { by eapply ours_run. }
  { by rewrite (proj1 Hm). }
  exists z. split_and!; [by etrans|by etrans|done].
Qed.

Lemma left_over_zero x :
  left_over x = 0%nat → telling x = [] ∧ inbox x = 0%nat ∧ handler x = Waiting.
Proof.
  unfold left_over. intros Hz. destruct (telling x); [|cbn in Hz; lia].
  destruct (handler x); cbn in Hz; split_and!; done || lia.
Qed.

Lemma at_rest_current x :
  prop_ok x → at_rest x → rootCAsPEM (k8s x) = PEM (rootCAs (tls x).2).
Proof.
  intros Hok (Ht & Hi & Hh & _). destruct (ok_current x Hok) as [?|[?|Hc]]; [done..|].
  by rewrite Hh in Hc.
Qed.

(* ------------------------------------------------------------------ *)
(** ** Theorems *)

Section run.
Context (o : TLSOptions) (p0 : Provider Cert KP V) (s0 : cluster).
Hypothesis provider_built :
  NewProvider (TE := TE) (CE := CE) nd cliflag_TLSVersion cliflag_TLSCipherSuites o = Ok p0.
Hypothesis cluster_starts : starts s0.
Hypothesis no_bundle_yet : rootCAsPEM s0 = "".

(** C4: the provider's roots are the namespaces' roots: however fetches, root
    updates, events, the handler, reconciles and the writes of others interleave,
    once no event is on its way and the controller has nothing left to do, every
    namespace to be managed has the root ConfigMap with exactly the bundle the
    provider holds; so no change of the roots is ever missed, also if it comes
    while the handler is at work with the previous ones. *)
Theorem namespaces_hold_provider_roots x :
  rtc any_step (propagation_start p0 s0) x → at_rest x →
  ∀ n, to_manage Matches (k8s x) n →
       synced_at (PEM (rootCAs (tls x).2)) (api (k8s x) !! root_key n).
Proof.
  intros Hr Hrest n Hm.
  assert (prop_ok x) as Hok by (by eapply prop_ok_run, propagation_start_ok).
  rewrite <-(at_rest_current x Hok Hrest).
  eapply quiescent_synced; [apply Hok|apply Hrest|done].
Qed.

(** C15: new roots arrive: from every reachable state in which the provider has
    roots, the goroutines of the program alone (senders, handler and workers)
    can run to the end, and every namespace to be managed then has exactly the
    provider's bundle. *)
Theorem provider_roots_arrive x :
  rtc any_step (propagation_start p0 s0) x → PEM (rootCAs (tls x).2) ≠ "" → (0 < max)%nat →
  ∃ y, rtc (prop_step Ours) x y ∧ at_rest y ∧ same_mesh x y ∧
    ∀ n, to_manage Matches (k8s x) n →
         synced_at (PEM (rootCAs (tls x).2)) (api (k8s y) !! root_key n).
Proof.
  intros Hr Hpem Hmax. assert (prop_ok x) as Hok by (by eapply prop_ok_run, propagation_start_ok).
  destruct (all_handled x Hok Hpem) as (y & Hxy & [Hroots Hns] & (Ht & Hi & Hh)%left_over_zero).
  assert (prop_ok y) as Hoky by (by eapply ours_run).
  assert (rootCAsPEM (k8s y) = PEM (rootCAs (tls x).2)) as Hy.
  { destruct (ok_current y Hoky) as [?|[?|Hc]]; [done..|]. rewrite Hh in Hc. congruence. }
  destruct (controller_settles Matches max (k8s y) (ok_cluster y Hoky)) as (s & Hs & Hq & Hns' & _ & Hsync);
    [congruence|done|].
  exists (set_k8s s y). split_and!; [|by split_and!|split; [done|cbn; congruence]|].
  - etrans; [exact Hxy|]. by apply queue_run.
  - intros n Hm. cbn. rewrite <-Hy. apply Hsync. unfold to_manage. by rewrite Hns.
Qed.
End run.
End propagation.

(* ------------------------------------------------------------------ *)
(** ** Witnesses *)

(** The file of roots is read, the controller is told, and its worker brings the
    namespace's object up to date. *)
Definition example_propagation : @propagation string string string unit :=
  propagation_start (example_provider "/roots.pem") example_start.
Definition example_bundle : RootCAs string := {| PEM := "ROOTS"; Pool := Some ["ROOTS"] |}.
Definition example_loaded : @propagation string string string unit :=
  set_tls (Initial, takeRootCAs example_bundle (tls example_propagation).2) example_propagation.
Definition example_stored : @propagation string string string unit :=
  set_handler 0 Waiting (set_k8s example_roots
    (set_tls (Initial, set_events [] (tls example_loaded).2) example_loaded)).

#[local] Abbreviation example_step := (prop_step (SE := unit) (E := unit) example_set example_verifier
  example_keypair example_notafter example_matches 1).
#[local] Abbreviation example_any := (any_step (SE := unit) (E := unit) example_set example_verifier
  example_keypair example_notafter example_matches 1).

Lemma example_loaded_reached : rtc example_any example_propagation example_loaded.
Proof.
  apply rtc_once. exists Others. apply p_provider; [|vm_compute; lia].
  apply step_roots; [discriminate|]. by exists ["ROOTS"].
Qed.

Lemma example_stored_run : rtc (example_step Ours) example_loaded example_stored.
Proof.
  eapply rtc_l; [by apply (p_deliver _ _ _ _ _ _ Initial (tls example_loaded).2 [] [])|].
  eapply rtc_l; [by apply (p_handle _ _ _ _ _ _ 0)|].
  eapply rtc_l; [by apply (p_read _ _ _ _ _ _ example_bundle)|].
  eapply rtc_l; [by apply (p_store _ _ _ _ _ _ example_bundle)|]. apply rtc_refl.
Qed.

Definition example_propagated : @propagation string string string unit :=
  set_k8s example_quiet example_stored.

Lemma ours_any x y : rtc (example_step Ours) x y → rtc example_any x y.
Proof. induction 1; [done|]. eapply rtc_l; [by exists Ours|done]. Qed.

Lemma example_propagated_reached : rtc example_any example_propagation example_propagated.
Proof.
  etrans; [apply example_loaded_reached|]. apply ours_any. etrans; [apply example_stored_run|].
  apply queue_run, example_quiet_run.
Qed.

Lemma namespaces_hold_provider_roots_witness :
  to_manage example_matches (k8s example_propagated) "shop" ∧
  synced_at "ROOTS" (api (k8s example_propagated) !! root_key "shop").
Proof.
  assert (to_manage example_matches (k8s example_propagated) "shop") as Hm
    by (exists example_shop; split; [reflexivity|]; split; [reflexivity|discriminate]).
  split; [exact Hm|].
  apply (namespaces_hold_provider_roots (SE := unit) (λ _, false) example_version example_ciphers
    example_set example_verifier example_keypair example_notafter example_matches 1
    (example_tls "/roots.pem") (example_provider "/roots.pem") example_start eq_refl
    example_starts eq_refl example_propagated example_propagated_reached).
  - vm_compute. repeat split; reflexivity.
  - exact Hm.
Defined.

Lemma provider_roots_arrive_witness :
  ∃ y, rtc (example_step Ours) example_loaded y ∧
       synced_at "ROOTS" (api (k8s y) !! root_key "shop").
Proof.
  destruct (provider_roots_arrive (SE := unit) (λ _, false) example_version example_ciphers
    example_set example_verifier example_keypair example_notafter example_matches 1
    (example_tls "/roots.pem") (example_provider "/roots.pem") example_start eq_refl
    example_starts eq_refl example_loaded example_loaded_reached)
    as (y & Hy & _ & _ & Hsync); [discriminate|lia|].
  exists y. split; [exact Hy|]. apply Hsync.
  exists example_shop. split; [reflexivity|]. split; [reflexivity|discriminate].
Defined.
