(* ===== verification/Mesh.v ===== *)
(** * The service put together

    [cmd/app/app.go] gives the certificate service the certificate manager as
    its signer and the TLS provider as its source of roots.  Here the two
    interfaces of the service are instantiated with the models of those
    components, on the product of their worlds, and the service's guarantees
    become guarantees about the requests made to the API server. *)

From S2P Require Import Prelude GoStrings Asn1 Extensions NodeAuth Auth Kube CertManager RootCA TLSInterface Server Curves TLS.

Open Scope Z_scope.

Section mesh.
Context {Cert E : Type} `{EqDecision Cert}.
Context (IsDenied : CertRequest → bool).
Context (HasCondition : CertRequest → Condition → bool).
Context (server : CRServer E).
Context (m : manager).

(** The API server's log, and the polls of the request's context. *)
Definition mesh_world : Type := world * @poll_world Cert.

Definition on_log {A} (c : go world A) : go mesh_world A := λ w,
  let '(r, l) := c w.1 in (r, (l, w.2)).
Definition on_polls {A} (c : go poll_world A) : go mesh_world A := λ w,
  let '(r, q) := c w.2 in (r, (w.1, q)).

Lemma on_log_inv {A} (c : go world A) w r w' :
  on_log c w = (r, w') → ∃ l, c w.1 = (r, l) ∧ w' = (l, w.2).
Proof. unfold on_log. destruct (c w.1) as [r' l]. intros [= -> <-]. eauto. Qed.

Lemma on_polls_inv {A} (c : go poll_world A) w r w' :
  on_polls c w = (r, w') → ∃ q, c w.2 = (r, q) ∧ w' = (w.1, q).
Proof. unfold on_polls. destruct (c w.2) as [r' q]. intros [= -> <-]. eauto. Qed.

#[local] Instance manager_Signer : Signer mesh_world (sign_error E) :=
  λ identities csrPEM duration usages,
    on_log (Sign IsDenied HasCondition server m identities csrPEM duration usages).

#[local] Instance mesh_TLSRoots : TLSRoots unit mesh_world unit Cert := {|
  tls_RootCAs := λ ctx, on_polls (tls_RootCAs ctx);
  ctx_Err := λ ctx w, ctx_Err ctx w.2
|}.

(** The interface's promise carries over. *)
#[local] Instance mesh_TLSRootsSpec : TLSRootsSpec unit mesh_world unit Cert.
Proof.
  split.
  - intros ctx w w' H. change (on_polls (tls_RootCAs ctx) w = (Ret None, w')) in H.
    apply on_polls_inv in H as (q & Hr & ->). by apply RootCAs_nil in Hr.
  - intros ctx w r w' H. change (on_polls (tls_RootCAs ctx) w = (Ret (Some r), w')) in H.
    apply on_polls_inv in H as (q & Hr & ->). by apply RootCAs_loaded in Hr.
Qed.

Context {AE PE CE CSE URL XE VE : Type}.
Context `{Stringer URL} `{Aggregator ext_error} `{!AggregatorSpec ext_error}.
Context (ImpersonatedIdentity : string).
Context (ParsePemEncodedCSR : string → result CE (CertificateRequest URL)).
Context (CheckSignature : CertificateRequest URL → option CSE).
Context (ParseIdentity : string → result PE Identity).
Context (ParseSingleCertificateChainPEM : string → result XE PEMBundle).
Context (DecodeX509CertificateChainBytes : string → result XE (list Cert)).
Context (EncodeX509 : Cert → result XE string).
Context (Verify : Cert → VerifyOptions Cert → option VE).

(** The service as the program wires it. *)
Definition mesh_CreateCertificate (s : Server unit AE) (icr : IstioCertificateRequest)
    : go mesh_world (result status (list string)) :=
  CreateCertificate ImpersonatedIdentity ParsePemEncodedCSR CheckSignature ParseIdentity
    ParseSingleCertificateChainPEM DecodeX509CertificateChainBytes EncodeX509 Verify s tt icr.

Definition mesh_granted (s : Server unit AE) (icr : IstioCertificateRequest) (ids : string)
    : Prop :=
  request_granted ImpersonatedIdentity ParsePemEncodedCSR CheckSignature ParseIdentity
    s tt icr ids.

(** C1: end to end, a chain is issued only for a granted request, and with
    exactly one CertificateRequest: created for the manager's active issuer,
    with the caller's signing request, at most the maximum duration, the client
    and server usages, never a CA, and the granted identities as its annotation
    unless the operator's annotations claim that key; it is scheduled for
    deletion exactly if requests are not preserved; and the chain ends in roots
    the provider had loaded, against which its leaf verified. *)
Theorem issuance_end_to_end (s : Server unit AE) icr log q chain log' q' :
  mesh_CreateCertificate s icr (log, q) = (Ret (Ok chain), (log', q')) →
  ∃ ids ref req created cs roots cr,
    mesh_granted s icr ids ∧
    activeIssuerRef m = Some ref ∧
    calls log' = calls log ++ CallCreate req :: cs ∧ (∀ c, CallCreate c ∉ cs) ∧
    cr_IssuerRef req = ref ∧ cr_Request req = icr_Csr icr ∧
    cr_Duration req ≤ MaximumClientCertificateDuration (srv_opts s) ∧
    cr_Usages req = [UsageClientAuth; UsageServerAuth] ∧ cr_IsCA req = false ∧
    (AdditionalAnnotations (opts m) !! identityAnnotation = None →
     cr_Annotations req !! identityAnnotation = Some ids) ∧
    srv_Create server (calls log) req = Ok created ∧
    spawned log' = spawned log ++
      (if PreserveCertificateRequests (opts m) then [] else [CallDelete (cr_Name created)]) ∧
    IsDenied cr = false ∧ HasCondition cr failedCondition = false ∧
    PEM roots ≠ "" ∧ last chain = Some (PEM roots) ∧
    verified_chain ParseSingleCertificateChainPEM DecodeX509CertificateChainBytes EncodeX509
      Verify {| bundle_Certificate := cr_Certificate cr; bundle_CA := cr_CA cr |} roots chain.
Proof.
  intros Hc. apply CreateCertificate_Ok in Hc
    as (ids & bundle & w1 & roots & Hg & Hs & Hd & Hr & Hv & Hl); [|apply _..].
  apply on_log_inv in Hs as (l & Hsign & ->). apply Sign_Ok_spec in Hsign
    as (ref & created & cr & cs & Hact & Hcr & Hcalls & Hn & Hsp & Hver & ->).
  pose proof (RootCAs_loaded _ _ _ _ Hr) as [Hpem _].
  apply on_polls_inv in Hr as (q1 & _ & [= -> ->]).
  apply verdict_Ok in Hver as (_ & Hden & Hcond & _).
  exists ids, ref. eexists _, created, cs, roots, cr.
  split_and!; try done. intros Ha. unfold newCertificateRequest, cr_Annotations.
  rewrite lookup_union_r by done. apply lookup_singleton_eq.
Qed.

End mesh.

(* ------------------------------------------------------------------ *)
(** ** Instances *)

#[local] Instance example_Stringer : Stringer string := id.
#[local] Instance example_Aggregator : Aggregator ext_error := example_aggregate.

(** The context's polls: no roots at the first tick, and the roots at the next. *)
Definition example_polls : @poll_world string :=
  {| future := [Some noRootCAs; Some {| PEM := "ROOTS"; Pool := Some ["root"] |}];
     ended := false |}.
Definition example_chain_parse (s : string) : result unit PEMBundle :=
  if bool_decide (s = "CERT") then Ok {| ChainPEM := s; CAPEM := "" |} else Err tt.

Definition example_issue : outcome (result status (list string)) * mesh_world :=
  mesh_CreateCertificate example_denied example_condition example_crserver example_manager
    example_field example_decode example_signature example_ParseIdentity
    example_chain_parse example_certs example_encode example_verify example_server example_icr
    (example_world, example_polls).

(** A node proxy obtains a certificate for a workload on its node. *)
Lemma issuance_end_to_end_witness :
  ∃ ids ref req created cs roots cr,
    mesh_granted example_field example_decode example_signature example_ParseIdentity
      example_server example_icr ids ∧
    Some example_issuer = Some ref ∧
    calls example_issue.2.1 = [] ++ CallCreate req :: cs ∧ (∀ c, CallCreate c ∉ cs) ∧
    cr_IssuerRef req = ref ∧ cr_Request req = "CSR" ∧
    cr_Duration req ≤ 3600 * time_Second ∧
    cr_Usages req = [UsageClientAuth; UsageServerAuth] ∧ cr_IsCA req = false ∧
    (AdditionalAnnotations example_opts !! identityAnnotation = None →
     cr_Annotations req !! identityAnnotation = Some ids) ∧
    srv_Create example_crserver [] req = Ok created ∧
    spawned example_issue.2.1 = [] ++ [CallDelete (cr_Name created)] ∧
    example_denied cr = false ∧ example_condition cr failedCondition = false ∧
    PEM roots ≠ "" ∧ last example_chain = Some (PEM roots) ∧
    verified_chain example_chain_parse example_certs example_encode example_verify
      {| bundle_Certificate := cr_Certificate cr; bundle_CA := cr_CA cr |} roots example_chain.
Proof.
  eapply (issuance_end_to_end (AE := unit) example_denied example_condition example_crserver
    example_manager (AggregatorSpec0 := example_aggregate_spec)
    example_field example_decode example_signature example_ParseIdentity
    example_chain_parse example_certs example_encode example_verify example_server example_icr
    example_world example_polls example_chain).
  vm_compute. reflexivity.
Defined.
