(* ===== verification/App.v ===== *)
(** * The program

    [cmd/app/options/options.go] ([Complete]) and [cmd/app/app.go]
    ([NewCommand]): the options are completed and checked, the components are
    built and wired, and what they run and how readiness is reported follows
    from them.  The calls into Kubernetes' libraries are named by [ext_call];
    what each of them answers is an argument. *)

From S2P Require Import Prelude GoStrings NodeAuth Auth Kube CertManager IssuerConfig RootCA TLSInterface Server Serving Controller IstiodCert Provisioning Curves TLS.

Open Scope Z_scope.

(* ------------------------------------------------------------------ *)
(** ** Options *)

Record OptionsController := {
  LeaderElectionNamespace : string;
  ConfigMapNamespaceSelector : string;
  DisableKubernetesClientRateLimiter : bool;
  ctrl_MaxConcurrentReconciles : Z;
}.

(** The fields of [rest.Config] that are set here. *)
Record RestConfig := { QPS : Z; Burst : Z }.

Record AppOptions := {
  logLevel : Z;
  logFormat : string;
  ReadyzPort : Z;
  ReadyzPath : string;
  MetricsPort : Z;
  app_RestConfig : RestConfig;
  app_Controller : OptionsController;
  app_CertManager : Options;
  app_TLS : TLSOptions;
  app_Server : ServerOptions;
  app_IstiodCert : IstiodOptions;
}.

Inductive complete_error (X : Type) :=
| InvalidLogFormat
| LogConfig (e : X)
| IstioLogging (e : X)
| NoServingDNSNames
| RestConfigError (e : X)
| BadReconciles (n : Z)
| IstiodOptionsError (errs : list option_error).
Arguments InvalidLogFormat {X}.
Arguments LogConfig {X} _.
Arguments IstioLogging {X} _.
Arguments NoServingDNSNames {X}.
Arguments RestConfigError {X} _.
Arguments BadReconciles {X} _.
Arguments IstiodOptionsError {X} _.

Definition set_reconciles (n : Z) (o : IstiodOptions) : IstiodOptions :=
  {| Enabled := Enabled o; CertificateName := CertificateName o;
     CertificateNamespace := CertificateNamespace o; Duration := Duration o;
     RenewBefore := RenewBefore o; KeyAlgorithm := KeyAlgorithm o; KeySize := KeySize o;
     CMKeyAlgorithm := CMKeyAlgorithm o; AdditionalDNSNames := AdditionalDNSNames o;
     istiod_AdditionalAnnotations := istiod_AdditionalAnnotations o;
     IstioRevisions := IstioRevisions o; MaxConcurrentReconciles := n |}.

Section complete.
Context {X : Type}.
Context (unicode_upper unicode_lower : string → string).
Context (IsDNS1123Subdomain : string → list string).
(** [logsapi.ValidateAndApply] on a format and verbosity, [istiolog.Configure]
    with or without JSON, and [kubeConfigFlags.ToRESTConfig]. *)
Context (ValidateAndApply : string → Z → result X unit).
Context (istiolog_Configure : bool → result X unit).
Context (ToRESTConfig : result X RestConfig).

Definition Complete (o : AppOptions) : result (complete_error X) AppOptions :=
  let format0 := if bool_decide (logFormat o = "") then "text" else logFormat o in
  let format := strings_ToLower unicode_lower format0 in
  if negb (bool_decide (format = "json")) && negb (bool_decide (format = "text"))
  then Err InvalidLogFormat
  else
    _ ← wrap_err LogConfig (ValidateAndApply format (logLevel o));
    _ ← wrap_err IstioLogging (istiolog_Configure (bool_decide (format = "json")));
    if (length (ServingCertificateDNSNames (app_TLS o)) =? 0)%nat then Err NoServingDNSNames
    else
      restConfig ← wrap_err RestConfigError ToRESTConfig;
      let restConfig := if DisableKubernetesClientRateLimiter (app_Controller o)
                        then {| QPS := -1; Burst := -1 |} else restConfig in
      let n := ctrl_MaxConcurrentReconciles (app_Controller o) in
      if n <? 1 then Err (BadReconciles n)
      else
        let '(istiod, errs) :=
          Validate IsDNS1123Subdomain unicode_upper (set_reconciles n (app_IstiodCert o)) in
        match errs with
        | [] => mret {| logLevel := logLevel o; logFormat := format;
                        ReadyzPort := ReadyzPort o; ReadyzPath := ReadyzPath o;
                        MetricsPort := MetricsPort o; app_RestConfig := restConfig;
                        app_Controller := app_Controller o; app_CertManager := app_CertManager o;
                        app_TLS := app_TLS o; app_Server := app_Server o;
                        app_IstiodCert := istiod |}
        | _ => Err (IstiodOptionsError errs)
        end.
End complete.

(* ------------------------------------------------------------------ *)
(** ** Assembly *)

Inductive ext_call :=
| ValidateAnnotations
| NewWatchClient
| NewCertManagerClient
| AddKubernetesScheme
| AddCertManagerScheme
| NewKubernetesClient
| NewControllerManager
| NewProvisionerClient
| AddProvisionerController
| AddProvisionerRunnable
| AddWatcher
| AddTLSCheck
| AddTLS
| AddServerCheck
| AddServer
| NewNoCacheClient
| CompleteConfigMapController.

(** What the manager runs. *)
Inductive runnable :=
| IstiodController
| IstiodProvisioner
| RuntimeConfigurationWatcher
| TLSProvider
| GRPCServer
| ConfigMapController.

#[export] Instance runnable_eq_dec : EqDecision runnable.
Proof. solve_decision. Defined.

(** [NeedLeaderElection]; controllers need it, for they do not say otherwise. *)
Definition NeedLeaderElection (r : runnable) : bool :=
  match r with
  | RuntimeConfigurationWatcher => Watcher_NeedLeaderElection
  | TLSProvider => Provider_NeedLeaderElection
  | GRPCServer => Server_NeedLeaderElection
  | IstiodProvisioner => Provisioner_NeedLeaderElection
  | IstiodController | ConfigMapController => true
  end.

(** [prog_manager]: the certificate manager with the subscriptions made so far. *)
Record program (Cert KP V Ctx AE : Type) := {
  prog_manager : mstate;
  prog_provisioner : option (provisioner * cert_controller);
  prog_tls : Provider Cert KP V;
  prog_server : Server Ctx AE;
  prog_configmaps : configmap;
  prog_runs : list runnable;
  prog_checks : list string;
}.
Arguments prog_manager {Cert KP V Ctx AE} _.
Arguments prog_provisioner {Cert KP V Ctx AE} _.
Arguments prog_tls {Cert KP V Ctx AE} _.
Arguments prog_server {Cert KP V Ctx AE} _.
Arguments prog_configmaps {Cert KP V Ctx AE} _.
Arguments prog_runs {Cert KP V Ctx AE} _.
Arguments prog_checks {Cert KP V Ctx AE} _.

Inductive app_error (X TE CE : Type) :=
| ExternalError (c : ext_call) (e : X)
| ManagerError (e : new_error X)
| ProviderError (e : provider_error TE CE)
| ServerError (e : X)
| CertControllerError (e : X)
| ConfigMapControllerError (e : add_error X).
Arguments ExternalError {X TE CE} _ _.
Arguments ManagerError {X TE CE} _.
Arguments ProviderError {X TE CE} _.
Arguments ServerError {X TE CE} _.
Arguments CertControllerError {X TE CE} _.
Arguments ConfigMapControllerError {X TE CE} _.

Section assemble.
Context {Cert KP V Ctx AE X TE CE : Type}.
Context (nd : Z → bool).
Context (cliflag_TLSVersion : string → result TE Z).
Context (cliflag_TLSCipherSuites : list string → result CE (list Z)).
Context (answer : ext_call → result X unit).
Context (labels_Parse : string → result X (gmap string string → bool)).
Context (podClient : result X KClient).
Context (clientCert : @Authenticator Ctx AE).
Context (NewKubeJWTAuthenticator : string → string → @Authenticator Ctx AE).

Definition call (c : ext_call) : result (app_error X TE CE) unit :=
  wrap_err (ExternalError c) (answer c).

(** The body of [RunE] between [Complete] and [mgr.Start]. *)
Definition assemble (o : AppOptions) : result (app_error X TE CE) (program Cert KP V Ctx AE) :=
  _ ← call ValidateAnnotations;
  cm ← wrap_err ManagerError
         (New (answer NewWatchClient) (answer NewCertManagerClient) (app_CertManager o));
  _ ← call AddKubernetesScheme;
  _ ← call AddCertManagerScheme;
  _ ← call NewKubernetesClient;
  _ ← call NewControllerManager;
  '(prov, s, runs1) ←
    (if Enabled (app_IstiodCert o) then
       '(p, _, s) ← wrap_err (ExternalError NewProvisionerClient)
                      (NewDynamicIstiodCertProvisioner (answer NewProvisionerClient)
                         (app_IstiodCert o) (TrustDomain (app_TLS o)) (initial cm));
       ctl ← wrap_err CertControllerError
               (AddControllersToManager (answer AddProvisionerController)
                  (answer AddProvisionerRunnable) p);
       mret (Some (p, ctl), s, [IstiodController; IstiodProvisioner])
     else mret (None, initial cm, []));
  runs2 ←
    (if HasRuntimeConfiguration (app_CertManager o) then
       _ ← call AddWatcher; mret [RuntimeConfigurationWatcher]
     else mret []);
  tls ← wrap_err ProviderError
          (NewProvider nd cliflag_TLSVersion cliflag_TLSCipherSuites (app_TLS o));
  _ ← call AddTLSCheck;
  _ ← call AddTLS;
  srv ← wrap_err ServerError (NewServer podClient clientCert NewKubeJWTAuthenticator
                                (Provider_TrustDomain tls) (app_Server o));
  _ ← call AddServerCheck;
  _ ← call AddServer;
  ctl ← wrap_err ConfigMapControllerError
          (AddConfigMapController (answer NewNoCacheClient) labels_Parse
             (answer CompleteConfigMapController)
             {| opt_ConfigMapNamespaceSelector := ConfigMapNamespaceSelector (app_Controller o);
                opt_MaxConcurrentReconciles := ctrl_MaxConcurrentReconciles (app_Controller o) |});
  mret {| prog_manager := s; prog_provisioner := prov; prog_tls := tls; prog_server := srv;
          prog_configmaps := ctl;
          prog_runs := runs1 ++ runs2 ++ [TLSProvider; GRPCServer; ConfigMapController];
          prog_checks := ["tls_provider"; "grpc_server"] |}.
End assemble.

Inductive run_error (X TE CE : Type) :=
| CompleteError (e : complete_error X)
| AssembleError (e : app_error X TE CE)
| StartError (e : X).
Arguments CompleteError {X TE CE} _.
Arguments AssembleError {X TE CE} _.
Arguments StartError {X TE CE} _.

Section run.
Context {Cert KP V Ctx AE X TE CE : Type}.
Context (unicode_upper unicode_lower : string → string).
Context (IsDNS1123Subdomain : string → list string).
Context (ValidateAndApply : string → Z → result X unit).
Context (istiolog_Configure : bool → result X unit).
Context (ToRESTConfig : result X RestConfig).
Context (nd : Z → bool).
Context (cliflag_TLSVersion : string → result TE Z).
Context (cliflag_TLSCipherSuites : list string → result CE (list Z)).
Context (answer : ext_call → result X unit).
Context (labels_Parse : string → result X (gmap string string → bool)).
Context (podClient : result X KClient).
Context (clientCert : @Authenticator Ctx AE).
Context (NewKubeJWTAuthenticator : string → string → @Authenticator Ctx AE).
(** [mgr.Start], which runs the program until its context ends. *)
Context (mgr_Start : program Cert KP V Ctx AE → result X unit).

(** The command's [RunE]. *)
Definition RunE (o : AppOptions) : result (run_error X TE CE) unit :=
  o ← wrap_err CompleteError
        (Complete unicode_upper unicode_lower IsDNS1123Subdomain ValidateAndApply
           istiolog_Configure ToRESTConfig o);
  prog ← wrap_err AssembleError
           (assemble nd cliflag_TLSVersion cliflag_TLSCipherSuites answer labels_Parse podClient
              clientCert NewKubeJWTAuthenticator o);
  wrap_err StartError (mgr_Start prog).
End run.

(* ------------------------------------------------------------------ *)
(** ** Readiness *)

(** [deferCheckUntilIssuerConfig]: the check's error, once there is an issuer. *)
Definition deferCheckUntilIssuerConfig (s : mstate) (check : option string) : option string :=
  if HasIssuerConfig s then check else None.

(** The two checks the manager serves. *)
Definition readyz {Cert KP V E} (s : mstate) (p : Provider Cert KP V) (srv : serving E)
    : list (option string) :=
  [deferCheckUntilIssuerConfig s (ProviderCheck p); deferCheckUntilIssuerConfig s (Check srv)].

(* ------------------------------------------------------------------ *)
(** ** Theorems *)

(** What [Complete] makes of the istiod options: they get the number of concurrent
    reconciles, and, if the certificate is provisioned, a checked key. *)
Definition istiod_completed (dns : string → list string) (upper : string → string) (n : Z)
    (i i' : IstiodOptions) : Prop :=
  if Enabled i then
    RenewBefore i < Duration i ∧ Forall (λ name, dns name = []) (AdditionalDNSNames i) ∧
    ∃ cm size, key_choice (strings_ToUpper upper (KeyAlgorithm i)) (KeySize i) cm size ∧
               i' = set_key (strings_ToUpper upper (KeyAlgorithm i)) cm size (set_reconciles n i)
  else i' = set_reconciles n i.

Lemma Validate_completed dns upper n i i' :
  1 ≤ n →
  Validate dns upper (set_reconciles n i) = (i', []) ↔ istiod_completed dns upper n i i'.
Proof.
  intros Hn. unfold istiod_completed. destruct (Enabled i) eqn:He.
  - rewrite Validate_accepts by done. cbn. tauto.
  - unfold Validate. cbn. rewrite He. cbn. naive_solver.
Qed.

(** C33: exactly which options [Complete] accepts, and what it makes of them.  The
    log format, in lower case and "text" if none is given, must be "json" or
    "text", the two logging libraries and the Kubernetes client's options must
    report no error, the serving certificate must have a name, there must be at
    least one reconciler, and if the istiod certificate is provisioned its
    renewal time must be below its duration, its names valid and its key one of
    those that can be asked for.  Every field of the result is as given, but for
    the log format, the client's configuration (without a rate limit if that was
    asked for), and of the istiod options the number of reconciles and the key. *)
Theorem Complete_accepts {X} upper lower dns apply configure (rest : result X RestConfig) o o' :
  let format := strings_ToLower lower
                  (if bool_decide (logFormat o = "") then "text" else logFormat o) in
  Complete upper lower dns apply configure rest o = Ok o' ↔
  (format = "json" ∨ format = "text") ∧
  apply format (logLevel o) = Ok tt ∧ configure (bool_decide (format = "json")) = Ok tt ∧
  ServingCertificateDNSNames (app_TLS o) ≠ [] ∧
  1 ≤ ctrl_MaxConcurrentReconciles (app_Controller o) ∧
  ∃ restConfig istiod,
    rest = Ok restConfig ∧
    istiod_completed dns upper (ctrl_MaxConcurrentReconciles (app_Controller o))
      (app_IstiodCert o) istiod ∧
    o' = {| logLevel := logLevel o; logFormat := format;
            ReadyzPort := ReadyzPort o; ReadyzPath := ReadyzPath o; MetricsPort := MetricsPort o;
            app_RestConfig :=
              (if DisableKubernetesClientRateLimiter (app_Controller o)
               then {| QPS := -1; Burst := -1 |} else restConfig);
            app_Controller := app_Controller o; app_CertManager := app_CertManager o;
            app_TLS := app_TLS o; app_Server := app_Server o; app_IstiodCert := istiod |}.
Proof.
  intros format. unfold Complete. fold format.
  assert (negb (bool_decide (format = "json")) && negb (bool_decide (format = "text")) = false ↔
          format = "json" ∨ format = "text") as Hf
    by (repeat case_bool_decide; cbn; naive_solver).
  destruct (negb (bool_decide (format = "json")) && _); [naive_solver|].
  destruct (apply format (logLevel o)) as [[]|]; [|naive_solver].
  cbn [wrap_err mbind result_bind].
  destruct (configure _) as [[]|]; [|naive_solver]. cbn [wrap_err mbind result_bind].
  destruct (ServingCertificateDNSNames (app_TLS o)) as [|name names]; [naive_solver|].
  cbn [length Nat.eqb]. destruct rest as [restConfig|]; [|naive_solver].
  cbn [wrap_err mbind result_bind]. set (n := ctrl_MaxConcurrentReconciles (app_Controller o)).
  destruct (Z.ltb_spec n 1) as [Hn|Hn]; [naive_solver lia|].
  setoid_rewrite <-Validate_completed; [|exact Hn].
  destruct (Validate dns upper _) as [istiod errs]. destruct errs as [|e errs].
  - split; [|naive_solver]. intros [= <-]. split_and!; [tauto|done..|]. by exists restConfig, istiod.
  - split; [done|]. naive_solver.
Qed.

(** What is in the list of things to run, by whether the two optional ones are. *)
Lemma runs_members (istiod watcher : bool) :
  let runs := (if istiod then [IstiodController; IstiodProvisioner] else []) ++
              (if watcher then [RuntimeConfigurationWatcher] else []) ++
              [TLSProvider; GRPCServer; ConfigMapController] in
  TLSProvider ∈ runs ∧ GRPCServer ∈ runs ∧ ConfigMapController ∈ runs ∧
  (IstiodProvisioner ∈ runs ↔ istiod = true) ∧
  (RuntimeConfigurationWatcher ∈ runs ↔ watcher = true) ∧
  ∀ r, r ∈ runs → NeedLeaderElection r = true →
       r ∈ [IstiodController; IstiodProvisioner; ConfigMapController].
Proof.
  destruct istiod, watcher; cbn; split_and!; try (intros []); set_solver.
Qed.

(** C32: a program that assembles serves: it runs the TLS provider, the gRPC
    service and the ConfigMap controller, the istiod provisioner exactly if that
    is enabled, and the watcher of runtime configuration exactly if one is
    named; the service, the provider and the watcher run on every replica; and
    the manager has an issuer from the start, or the watcher that can find one
    is running; the provisioner, if there is one, is the manager's only
    subscriber; the ConfigMap controller has as many workers as configured, and
    the selector that was parsed. *)
Theorem assembled_program_serves {Cert KP V Ctx AE X TE CE : Type} nd version ciphers
    (answer : ext_call → result X unit) parse podClient clientCert newJWT o
    (prog : program Cert KP V Ctx AE) :
  assemble (TE := TE) (CE := CE) nd version ciphers answer parse podClient clientCert newJWT
    o = Ok prog →
  TLSProvider ∈ prog_runs prog ∧ GRPCServer ∈ prog_runs prog ∧
  ConfigMapController ∈ prog_runs prog ∧
  (IstiodProvisioner ∈ prog_runs prog ↔ Enabled (app_IstiodCert o) = true) ∧
  (RuntimeConfigurationWatcher ∈ prog_runs prog ↔
     HasRuntimeConfiguration (app_CertManager o) = true) ∧
  (∀ r, r ∈ prog_runs prog → NeedLeaderElection r = true →
        r ∈ [IstiodController; IstiodProvisioner; ConfigMapController]) ∧
  (HasIssuerConfig (prog_manager prog) = true ∨
   RuntimeConfigurationWatcher ∈ prog_runs prog) ∧
  issuerChangeSubscriptions (prog_manager prog) =
    (if Enabled (app_IstiodCert o) then [0%nat] else []) ∧
  cm_workers (prog_configmaps prog) = ctrl_MaxConcurrentReconciles (app_Controller o) ∧
  parse (ConfigMapNamespaceSelector (app_Controller o)) =
    Ok (namespaceSelector (prog_configmaps prog)).
Proof.
  unfold assemble, call. intros H. run_result H.
  apply result_bind_Ok in H as ([[prov s] runs1] & Hp & H).
  apply result_bind_Ok in H as (runs2 & Hw & H). run_result H. injection H as <-. cbn.
  match goal with Hn : New _ _ _ = Ok ?m |- _ =>
    apply New_issuer_source in Hn; assert (
      runs1 = (if Enabled (app_IstiodCert o) then [IstiodController; IstiodProvisioner] else []) ∧
      active s = activeIssuerRef m ∧
      issuerChangeSubscriptions s = if Enabled (app_IstiodCert o) then [0%nat] else [])
      as (-> & Hact & ->) end.
  { destruct (Enabled (app_IstiodCert o)); [|by injection Hp as <- <- <-].
    apply result_bind_Ok in Hp as ([[p sub] s'] & Hn & Hp). run_result Hp.
    injection Hp as <- <- <-. apply wrap_err_Ok in Hn.
    apply result_bind_Ok in Hn as ([] & _ & [= <- <- <-]). done. }
  assert (runs2 = if HasRuntimeConfiguration (app_CertManager o)
                  then [RuntimeConfigurationWatcher] else []) as ->.
  { destruct (HasRuntimeConfiguration (app_CertManager o)); [run_result Hw|]; by injection Hw. }
  destruct (runs_members (Enabled (app_IstiodCert o)) (HasRuntimeConfiguration (app_CertManager o)))
    as (?&?&?&?&?&?). split_and!; try done.
  - match goal with Hn : activeIssuerRef ?m ≠ None ∨ _ |- _ => destruct Hn as [Hn|Hn] end;
      [left|right; tauto].
    unfold HasIssuerConfig. rewrite Hact. by destruct (activeIssuerRef _).
  - match goal with Hc : AddConfigMapController _ _ _ _ = Ok _ |- _ =>
      by apply AddConfigMapController_Ok in Hc as [? _] end.
  - match goal with Hc : AddConfigMapController _ _ _ _ = Ok _ |- _ =>
      by apply AddConfigMapController_Ok in Hc as [_ [? _]] end.
Qed.

(** C27: readiness means service, while the program is not being stopped: once the
    manager has an issuer, the readiness endpoint passes only if the provider
    serves a safe config, and the gRPC server, which has not been stopped, serves
    on its listener or is about to; the exceptions are a server whose context has
    ended (where the check can go on passing) and one whose [Serve] has returned
    because a connection could not be accepted.  Before there is an issuer the
    endpoint passes unconditionally. *)
Theorem ready_pods_serve {Cert KP V XE SE TE CE E} `{EqDecision Cert} nd version ciphers
    (decode : string → result XE (list Cert)) (verifier : string → string → result XE V)
    (keypair : string → string → result XE KP) (notAfter : string → result XE Z)
    o p0 ph p (srv : serving E) s :
  NewProvider (TE := TE) (CE := CE) nd version ciphers o = Ok p0 →
  rtc (provider_step (SE := SE) decode verifier keypair notAfter) (Initial, p0) (ph, p) →
  rtc serving_step not_started srv →
  if HasIssuerConfig s then
    Forall (λ e, e = None) (readyz s p srv) →
    (∃ c, getConfigForClient p = Some c ∧ config_ok verifier (p_opts p) c) ∧
    (listening srv ∨ cancelled srv = true ∨
     ∃ e, Serving.main srv = Serving.Returned (Some (AcceptError e)))
  else Forall (λ e, e = None) (readyz s p srv).
Proof.
  intros HN Hp Hs. unfold readyz, deferCheckUntilIssuerConfig.
  destruct (HasIssuerConfig s); [|by repeat constructor].
  rewrite !Forall_cons. intros (Hpc & Hsc & _). split; [|by apply ready_spec].
  destruct (provider_reachable_ok _ _ _ _ _ _ _ _ _ _ HN Hp) as (_ & Hc & _).
  unfold ProviderCheck in Hpc. cbn in Hc. unfold getConfigForClient.
  destruct (tlsConfig p) as [c|]; [|done]. exists c. split; [done|]. by apply Hc.
Qed.

(* ------------------------------------------------------------------ *)
(** ** Instances *)

Definition example_app : AppOptions :=
  {| logLevel := 1; logFormat := "JSON"; ReadyzPort := 6060; ReadyzPath := "/readyz";
     MetricsPort := 9402; app_RestConfig := {| QPS := 0; Burst := 0 |};
     app_Controller := {| LeaderElectionNamespace := "istio-system";
                          ConfigMapNamespaceSelector := "";
                          DisableKubernetesClientRateLimiter := true;
                          ctrl_MaxConcurrentReconciles := 2 |};
     app_CertManager := example_opts; app_TLS := example_tls "/roots.pem";
     app_Server := example_options (3600 * time_Second); app_IstiodCert := example_istiod |}.

Definition example_Complete : result (complete_error unit) AppOptions :=
  Complete id id (λ _, []) (λ _ _, Ok tt) (λ _, Ok tt) (Ok {| QPS := 20; Burst := 30 |})
    example_app.

Definition example_completed : AppOptions :=
  match example_Complete with Ok o => o | Err _ => example_app end.

(** The completed example: its log format in lower case, no rate limit, and an
    istiod certificate with a checked key. *)
Example Complete_accepts_example :
  example_Complete = Ok example_completed ∧ logFormat example_completed = "json" ∧
  app_RestConfig example_completed = {| QPS := -1; Burst := -1 |} ∧
  MaxConcurrentReconciles (app_IstiodCert example_completed) = 2.
Proof. vm_compute. split_and!; reflexivity. Qed.

Definition example_assembled
    : result (app_error unit unit unit) (program string string string unit unit) :=
  assemble (λ _, false) example_version example_ciphers (λ _, Ok tt) (λ _, Ok (λ _, true))
    (Ok example_client) (λ _, (None, Some tt)) (λ _ _ _, (None, Some tt)) example_completed.

Lemma assembled_program_serves_witness :
  ∃ prog, example_assembled = Ok prog ∧ GRPCServer ∈ prog_runs prog.
Proof.
  destruct example_assembled as [prog|e] eqn:H; [|vm_compute in H; discriminate H].
  exists prog. split; [reflexivity|].
  apply (assembled_program_serves (λ _, false) example_version example_ciphers (λ _, Ok tt)
           (λ _, Ok (λ _, true)) (Ok example_client) (λ _, (None, Some tt))
           (λ _ _ _, (None, Some tt)) example_completed prog H).
Defined.

Lemma ready_pods_serve_witness :
  (∃ c, getConfigForClient example_installed = Some c ∧
        config_ok example_verifier (example_tls "/roots.pem") c) ∧
  (listening example_serving ∨ cancelled example_serving = true ∨
   ∃ e, Serving.main example_serving = Serving.Returned (Some (AcceptError e))).
Proof.
  apply (ready_pods_serve (SE := unit) (λ _, false) example_version example_ciphers example_set
    example_verifier example_keypair example_notafter (example_tls "/roots.pem")
    (example_provider "/roots.pem") (AwaitRenewal (Some 1000)) example_installed example_serving
    (initial example_manager)).
  - vm_compute. reflexivity.
  - eapply rtc_l; [apply step_subscribe|].
    eapply rtc_l; [apply (step_roots _ _ _ _ _ _ {| PEM := "ROOTS"; Pool := Some ["ROOTS"] |});
                   [done|by exists ["ROOTS"]]|].
    apply rtc_once. eapply (step_installed _ _ _ _ _ _ "CERT" "KEY"); [by left|].
    vm_compute. reflexivity.
  - do 5 (eapply rtc_l; [by eapply (step_main _ (Ok tt))|]). apply rtc_refl.
  - repeat constructor.
Defined.
