(* ===== verification/Flags.v ===== *)
(** * Command line flags

    [cmd/app/options/options.go] ([addFlags] and the functions it calls) and
    [AddFlags] of [pkg/istiodcert/options.go]: each flag is registered with a
    pointer to the field of the options it sets, a name, possibly a shorthand,
    and a default.

    A pointer to a field is a [lens]: reading through it and storing through it.
    The flag library ([pflag], and the named flag sets of Kubernetes'
    component-base) is the interface [PFlag], with its documented behaviour as
    the laws [PFlagSpec]; [CommandLine] has an implementation on lists. *)

From coqutil Require Import Datatypes.RecordSetters.
From S2P Require Import Prelude GoStrings NodeAuth Kube CertManager RootCA Server IstiodCert TLS App.

Import OCamlLikeNotations.
Open Scope Z_scope.

(* ------------------------------------------------------------------ *)
(** ** Pointers *)

Record lens (O A : Type) := { deref : O → A; store : A → O → O }.
Arguments deref {O A} _ _.
Arguments store {O A} _ _ _.
Arguments Build_lens {O A} _ _.

Declare Scope pointer_scope.
Delimit Scope pointer_scope with ptr.
Open Scope pointer_scope.

(** [&x.f], as a function of [x]. *)
Notation "& f" := (Build_lens f (λ v o, { o with f := v }))
  (at level 8, f at level 0, only parsing) : pointer_scope.

Definition lens_compose {O A B} (p : lens O A) (q : lens A B) : lens O B :=
  {| deref := λ o, deref q (deref p o); store := λ v o, store p (store q v (deref p o)) o |}.
Notation "p ∙ q" := (lens_compose p q) (at level 40, left associativity) : pointer_scope.

Definition lens_fst {A B} : lens (A * B) A := {| deref := fst; store := λ a o, (a, o.2) |}.
Definition lens_snd {A B} : lens (A * B) B := {| deref := snd; store := λ b o, (o.1, b) |}.

(** What is stored is read, and storing through one pointer leaves what is read
    through another. *)
Definition lawful {O A} (p : lens O A) : Prop := ∀ v o, deref p (store p v o) = v.
Definition independent {O A B} (p : lens O A) (q : lens O B) : Prop :=
  ∀ v o, deref p (store q v o) = deref p o.

(* ------------------------------------------------------------------ *)
(** ** Flags *)

(** The types of flags that are used. *)
Inductive kind := KBool | KString | KInt | KUint32 | KDuration | KStringSlice | KStringToString.

Definition kind_value (k : kind) : Type :=
  match k with
  | KBool => bool
  | KString => string
  | KInt | KUint32 | KDuration => Z
  | KStringSlice => list string
  | KStringToString => gmap string string
  end.

Record flag (O : Type) := {
  flag_kind : kind;
  flag_ptr : lens O (kind_value flag_kind);
  flag_Name : string;
  flag_Shorthand : string;
}.
Arguments flag_kind {O} _.
Arguments flag_ptr {O} _.
Arguments flag_Name {O} _.
Arguments flag_Shorthand {O} _.
Arguments Build_flag {O} _ _ _ _.

(** Shorthands that are set. *)
Definition shorthands {O} (l : list (flag O)) : list string :=
  List.filter (λ s, negb (bool_decide (s = ""))) (flag_Shorthand <$> l).

(** No name and no shorthand is used twice. *)
Definition distinct {O} (l : list (flag O)) : Prop :=
  NoDup (flag_Name <$> l) ∧ NoDup (shorthands l).

(** The flag library: defining a flag in a flag set, adding a flag set to
    another, setting a flag from the command line, and the named flag sets. *)
Class PFlag (O F E : Type) := {
  pflag_VarP (k : kind) : lens O (kind_value k) → string → string → kind_value k →
                          go (O * F) unit;
  pflag_AddFlagSet : F → F → outcome F;
  pflag_Set : string → string → F → O → result E (O * F);
  pflag_parse (k : kind) : string → option (kind_value k);
  nfs_FlagSet : string → gmap string F → gmap string F;
}.
#[global] Hint Mode PFlag - ! - : typeclass_instances.

(** A definition stores the default and adds the flag, if its name and shorthand
    are free; flag sets are added in any order; the first time a flag is set it
    takes the value that is parsed; a named flag set is created on first use. *)
Class PFlagSpec (O F E : Type) `{PFlag O F E} := {
  fs_flags : F → list (flag O);
  fs_changed : F → gset string;
  VarP_defines k p name short def (o : O) (f : F) :
    distinct (fs_flags f ++ [Build_flag k p name short]) →
    ∃ f', pflag_VarP k p name short def (o, f) = (Ret tt, (store p def o, f')) ∧
      fs_flags f' = fs_flags f ++ [Build_flag k p name short] ∧ fs_changed f' = fs_changed f;
  AddFlagSet_adds (f g : F) :
    distinct (fs_flags f ++ fs_flags g) →
    ∃ f', pflag_AddFlagSet f g = Ret f' ∧ fs_flags f' ≡ₚ fs_flags f ++ fs_flags g ∧
      fs_changed f' = fs_changed f ∪ fs_changed g;
  Set_first fl s v (f : F) (o : O) :
    fl ∈ fs_flags f → distinct (fs_flags f) → flag_Name fl ∉ fs_changed f →
    pflag_parse (F := F) (flag_kind fl) s = Some v →
    ∃ f', pflag_Set (flag_Name fl) s f o = Ok (store (flag_ptr fl) v o, f') ∧
      fs_flags f' = fs_flags f ∧ fs_changed f' = {[flag_Name fl]} ∪ fs_changed f;
  FlagSet_new name (nfs : gmap string F) :
    nfs !! name = None →
    ∃ f, nfs_FlagSet name nfs = <[name := f]> nfs ∧ fs_flags f = [] ∧ fs_changed f = ∅;
}.

(* ------------------------------------------------------------------ *)
(** ** Registration *)

(** [time.Hour], [time.Minute]. *)
Definition time_Minute : Z := 60 * time_Second.
Definition time_Hour : Z := 60 * time_Minute.

Section register.
Context {O F E : Type} `{PFlag O F E}.

(** The functions of [pflag] that are called, by the type of the flag and with
    or without a shorthand. *)
Definition StringVarP (p : lens O string) n s (d : string) : go (O * F) unit :=
  pflag_VarP KString p n s d.
Definition StringVar (p : lens O string) n d : go (O * F) unit := StringVarP p n "" d.
Definition BoolVarP (p : lens O bool) n s (d : bool) : go (O * F) unit := pflag_VarP KBool p n s d.
Definition BoolVar (p : lens O bool) n d : go (O * F) unit := BoolVarP p n "" d.
Definition IntVar (p : lens O Z) n (d : Z) : go (O * F) unit := pflag_VarP KInt p n "" d.
Definition Uint32VarP (p : lens O Z) n s (d : Z) : go (O * F) unit := pflag_VarP KUint32 p n s d.
Definition DurationVarP (p : lens O Z) n s (d : Z) : go (O * F) unit := pflag_VarP KDuration p n s d.
Definition DurationVar (p : lens O Z) n d : go (O * F) unit := DurationVarP p n "" d.
Definition StringSliceVar (p : lens O (list string)) n d : go (O * F) unit :=
  pflag_VarP KStringSlice p n "" d.
Definition StringToStringVar (p : lens O (gmap string string)) n d : go (O * F) unit :=
  pflag_VarP KStringToString p n "" d.

(** The value of a field. *)
Definition value_of {A} (p : lens O A) : go (O * F) A := go_read (λ w, deref p w.1).

(** [istiodcert.AddFlags]; a nil map of annotations reads as an empty one. *)
Definition annotations_ptr : lens IstiodOptions (gmap string string) :=
  {| deref := λ o, default ∅ (istiod_AdditionalAnnotations o);
     store := λ v o, { o with istiod_AdditionalAnnotations := Some v } |}.

Definition AddFlags (o : lens O IstiodOptions) : go (O * F) unit :=
  _ ← BoolVar (o ∙ &Enabled) "istiod-cert-enabled" false;
  _ ← StringVar (o ∙ &CertificateName) "istiod-cert-name" "istiod-dynamic";
  _ ← StringVar (o ∙ &CertificateNamespace) "istiod-cert-namespace" "istio-system";
  _ ← DurationVar (o ∙ &Duration) "istiod-cert-duration" time_Hour;
  _ ← DurationVar (o ∙ &RenewBefore) "istiod-cert-renew-before" (30 * time_Minute);
  _ ← StringVar (o ∙ &KeyAlgorithm) "istiod-cert-key-algorithm" "RSA";
  _ ← IntVar (o ∙ &KeySize) "istiod-cert-key-size" minRSAKeySize;
  _ ← StringSliceVar (o ∙ &AdditionalDNSNames) "istiod-cert-additional-dns-names" [];
  _ ← StringToStringVar (o ∙ annotations_ptr) "istiod-cert-additional-annotations" ∅;
  StringSliceVar (o ∙ &IstioRevisions) "istiod-cert-istio-revisions" [].

(** The methods of [Options]; [o] is the receiver. *)
Context (o : lens O AppOptions).

Definition addAppFlags : go (O * F) unit :=
  _ ← Uint32VarP (o ∙ &logLevel) "log-level" "v" 1;
  _ ← StringVar (o ∙ &logFormat) "log-format" "text";
  _ ← IntVar (o ∙ &ReadyzPort) "readiness-probe-port" 6060;
  _ ← StringVar (o ∙ &ReadyzPath) "readiness-probe-path" "/readyz";
  IntVar (o ∙ &MetricsPort) "metrics-port" 9402.

Definition addTLSFlags : go (O * F) unit :=
  let tls := o ∙ &app_TLS in
  _ ← StringVar (tls ∙ &TrustDomain) "trust-domain" "cluster.local";
  _ ← StringVar (tls ∙ &RootCAsCertFile) "root-ca-file" "";
  _ ← DurationVarP (tls ∙ &ServingCertificateDuration) "serving-certificate-duration" "t" time_Hour;
  _ ← StringSliceVar (tls ∙ &ServingCertificateDNSNames) "serving-certificate-dns-names"
        ["cert-manager-istio-csr.cert-manager.svc"];
  _ ← IntVar (tls ∙ &ServingCertificateKeySize) "serving-certificate-key-size" 2048;
  _ ← StringVar (tls ∙ &ServingSignatureAlgorithm) "serving-signature-algorithm" "RSA";
  suites ← value_of (tls ∙ &ServingTLSCipherSuites);
  _ ← StringSliceVar (tls ∙ &ServingTLSCipherSuites) "serving-tls-cipher-suites" suites;
  minVersion ← value_of (tls ∙ &ServingTLSMinVersion);
  _ ← StringVar (tls ∙ &ServingTLSMinVersion) "serving-tls-min-version" minVersion;
  curves ← value_of (tls ∙ &ServingTLSCurvePreferences);
  StringSliceVar (tls ∙ &ServingTLSCurvePreferences) "serving-tls-curve-preferences" curves.

Definition addCertManagerFlags : go (O * F) unit :=
  let cm := o ∙ &app_CertManager in
  _ ← BoolVarP (cm ∙ &PreserveCertificateRequests) "preserve-certificate-requests" "d" false;
  _ ← StringVarP (cm ∙ &OptNamespace) "certificate-namespace" "c" "istio-system";
  _ ← BoolVarP (cm ∙ &DefaultIssuerEnabled) "issuer-enabled" "e" true;
  _ ← StringVarP (cm ∙ &IssuerRef ∙ &issuer_Name) "issuer-name" "u" "istio-ca";
  _ ← StringVarP (cm ∙ &IssuerRef ∙ &issuer_Kind) "issuer-kind" "k" "Issuer";
  _ ← StringVarP (cm ∙ &IssuerRef ∙ &issuer_Group) "issuer-group" "g" "cert-manager.io";
  _ ← StringVar (cm ∙ &IssuanceConfigMapName) "runtime-issuance-config-map-name" "";
  StringVar (cm ∙ &IssuanceConfigMapNamespace) "runtime-issuance-config-map-namespace" "".

Definition addAdditionalAnnotationsFlags : go (O * F) unit :=
  StringToStringVar (o ∙ &app_CertManager ∙ &AdditionalAnnotations)
    "certificate-request-additional-annotations" ∅.

Definition addServerFlags : go (O * F) unit :=
  let server := o ∙ &app_Server in
  _ ← StringVarP (server ∙ &ServingAddress) "serving-address" "a" "0.0.0.0:6443";
  _ ← DurationVarP (server ∙ &MaximumClientCertificateDuration) "max-client-certificate-duration"
        "m" time_Hour;
  _ ← StringVar (server ∙ &ClusterID) "cluster-id" "Kubernetes";
  _ ← BoolVar (server ∙ &EnableClientCert) "enable-client-cert-authenticator" false;
  StringSliceVar (server ∙ &CATrustedNodeAccounts) "ca-trusted-node-accounts" [].

Definition addControllerFlags : go (O * F) unit :=
  let controller := o ∙ &app_Controller in
  _ ← StringVar (controller ∙ &LeaderElectionNamespace) "leader-election-namespace" "istio-system";
  _ ← StringVar (controller ∙ &ConfigMapNamespaceSelector) "configmap-namespace-selector" "";
  _ ← BoolVar (controller ∙ &DisableKubernetesClientRateLimiter)
        "disable-kubernetes-client-rate-limiter" false;
  IntVar (controller ∙ &ctrl_MaxConcurrentReconciles) "max-concurrent-reconciles" 1.

(** Run a registration on the named flag set. *)
Definition on_FlagSet (name : string) (m : go (O * F) unit) : go (O * gmap string F) unit :=
  λ '(o, nfs),
    let nfs := nfs_FlagSet name nfs in
    match nfs !! name with
    | None => (Panic, (o, nfs))
    | Some f => let '(r, (o', f')) := m (o, f) in (r, (o', <[name := f']> nfs))
    end.

(** The loop that adds the named flag sets to those of the command; Go visits the
    entries of the map in any [order]. *)
Fixpoint mergeFlagSets (order : list string) (nfs : gmap string F) (fs : F) : outcome F :=
  match order with
  | [] => mret fs
  | name :: order' =>
      fs' ← match nfs !! name with Some f => pflag_AddFlagSet fs f | None => mret fs end;
      mergeFlagSets order' nfs fs'
  end.

(** [genericclioptions.NewConfigFlags(true)], assigned to [o.kubeConfigFlags], and
    its method [AddFlags]. *)
Context (newConfigFlags : O → O) (configFlags_AddFlags : go (O * F) unit).

(** [addFlags], without the usage texts; [cmdFlags] is [cmd.Flags()]. *)
Definition addFlags (order : list string) (cmdFlags : F) : go (O * gmap string F) F :=
  _ ← on_FlagSet "App" addAppFlags;
  _ ← on_FlagSet "cert-manager" addCertManagerFlags;
  _ ← go_modify (λ w, (newConfigFlags w.1, w.2));
  _ ← on_FlagSet "Kubernetes" configFlags_AddFlags;
  _ ← on_FlagSet "TLS" addTLSFlags;
  _ ← on_FlagSet "Server" addServerFlags;
  _ ← on_FlagSet "controller" addControllerFlags;
  _ ← on_FlagSet "additional-annotations" addAdditionalAnnotationsFlags;
  _ ← on_FlagSet "istiod-cert" (AddFlags (o ∙ &app_IstiodCert));
  nfs ← go_read snd;
  go_outcome (mergeFlagSets order nfs cmdFlags).
End register.

(* ------------------------------------------------------------------ *)
(** ** The table of flags *)

(** [new(Options)]: every field has its zero value. *)
Definition NewOptions : AppOptions :=
  {| logLevel := 0; logFormat := ""; ReadyzPort := 0; ReadyzPath := ""; MetricsPort := 0;
     app_RestConfig := {| QPS := 0; Burst := 0 |};
     app_Controller := {| LeaderElectionNamespace := ""; ConfigMapNamespaceSelector := "";
                          DisableKubernetesClientRateLimiter := false;
                          ctrl_MaxConcurrentReconciles := 0 |};
     app_CertManager := {| PreserveCertificateRequests := false; OptNamespace := "";
                           DefaultIssuerEnabled := false;
                           IssuerRef := {| issuer_Name := ""; issuer_Kind := "";
                                           issuer_Group := "" |};
                           IssuanceConfigMapName := ""; IssuanceConfigMapNamespace := "";
                           AdditionalAnnotations := ∅ |};
     app_TLS := {| TrustDomain := ""; RootCAsCertFile := ""; ServingCertificateDuration := 0;
                   ServingCertificateDNSNames := []; ServingCertificateKeySize := 0;
                   ServingSignatureAlgorithm := ""; ServingTLSMinVersion := "";
                   ServingTLSCipherSuites := []; ServingTLSCurvePreferences := [] |};
     app_Server := {| ClusterID := ""; ServingAddress := ""; MaximumClientCertificateDuration := 0;
                      EnableClientCert := false; CATrustedNodeAccounts := [] |};
     app_IstiodCert := {| Enabled := false; CertificateName := ""; CertificateNamespace := "";
                          Duration := 0; RenewBefore := 0; KeyAlgorithm := ""; KeySize := 0;
                          CMKeyAlgorithm := NoAlgorithm; AdditionalDNSNames := [];
                          istiod_AdditionalAnnotations := None; IstioRevisions := [];
                          MaxConcurrentReconciles := 0 |} |}.

(** The options a command line without flags stands for. *)
Definition default_options : AppOptions :=
  {| logLevel := 1; logFormat := "text"; ReadyzPort := 6060; ReadyzPath := "/readyz";
     MetricsPort := 9402; app_RestConfig := {| QPS := 0; Burst := 0 |};
     app_Controller := {| LeaderElectionNamespace := "istio-system";
                          ConfigMapNamespaceSelector := "";
                          DisableKubernetesClientRateLimiter := false;
                          ctrl_MaxConcurrentReconciles := 1 |};
     app_CertManager := {| PreserveCertificateRequests := false; OptNamespace := "istio-system";
                           DefaultIssuerEnabled := true;
                           IssuerRef := {| issuer_Name := "istio-ca"; issuer_Kind := "Issuer";
                                           issuer_Group := "cert-manager.io" |};
                           IssuanceConfigMapName := ""; IssuanceConfigMapNamespace := "";
                           AdditionalAnnotations := ∅ |};
     app_TLS := {| TrustDomain := "cluster.local"; RootCAsCertFile := "";
                   ServingCertificateDuration := time_Hour;
                   ServingCertificateDNSNames := ["cert-manager-istio-csr.cert-manager.svc"];
                   ServingCertificateKeySize := 2048; ServingSignatureAlgorithm := "RSA";
                   ServingTLSMinVersion := ""; ServingTLSCipherSuites := [];
                   ServingTLSCurvePreferences := [] |};
     app_Server := {| ClusterID := "Kubernetes"; ServingAddress := "0.0.0.0:6443";
                      MaximumClientCertificateDuration := time_Hour; EnableClientCert := false;
                      CATrustedNodeAccounts := [] |};
     app_IstiodCert := {| Enabled := false; CertificateName := "istiod-dynamic";
                          CertificateNamespace := "istio-system"; Duration := time_Hour;
                          RenewBefore := 30 * time_Minute; KeyAlgorithm := "RSA";
                          KeySize := 2048; CMKeyAlgorithm := NoAlgorithm;
                          AdditionalDNSNames := [];
                          istiod_AdditionalAnnotations := Some ∅; IstioRevisions := [];
                          MaxConcurrentReconciles := 0 |} |}.

Section table.
Context {O : Type} (o : lens O AppOptions).

(** Which flag sets which field. *)
Definition app_flags : list (flag O) :=
  [Build_flag KUint32 (o ∙ &logLevel) "log-level" "v";
   Build_flag KString (o ∙ &logFormat) "log-format" "";
   Build_flag KInt (o ∙ &ReadyzPort) "readiness-probe-port" "";
   Build_flag KString (o ∙ &ReadyzPath) "readiness-probe-path" "";
   Build_flag KInt (o ∙ &MetricsPort) "metrics-port" ""].

Definition certManager_flags : list (flag O) :=
  let cm := o ∙ &app_CertManager in
  [Build_flag KBool (cm ∙ &PreserveCertificateRequests) "preserve-certificate-requests" "d";
   Build_flag KString (cm ∙ &OptNamespace) "certificate-namespace" "c";
   Build_flag KBool (cm ∙ &DefaultIssuerEnabled) "issuer-enabled" "e";
   Build_flag KString (cm ∙ &IssuerRef ∙ &issuer_Name) "issuer-name" "u";
   Build_flag KString (cm ∙ &IssuerRef ∙ &issuer_Kind) "issuer-kind" "k";
   Build_flag KString (cm ∙ &IssuerRef ∙ &issuer_Group) "issuer-group" "g";
   Build_flag KString (cm ∙ &IssuanceConfigMapName) "runtime-issuance-config-map-name" "";
   Build_flag KString (cm ∙ &IssuanceConfigMapNamespace) "runtime-issuance-config-map-namespace" ""].

Definition tls_flags : list (flag O) :=
  let tls := o ∙ &app_TLS in
  [Build_flag KString (tls ∙ &TrustDomain) "trust-domain" "";
   Build_flag KString (tls ∙ &RootCAsCertFile) "root-ca-file" "";
   Build_flag KDuration (tls ∙ &ServingCertificateDuration) "serving-certificate-duration" "t";
   Build_flag KStringSlice (tls ∙ &ServingCertificateDNSNames) "serving-certificate-dns-names" "";
   Build_flag KInt (tls ∙ &ServingCertificateKeySize) "serving-certificate-key-size" "";
   Build_flag KString (tls ∙ &ServingSignatureAlgorithm) "serving-signature-algorithm" "";
   Build_flag KStringSlice (tls ∙ &ServingTLSCipherSuites) "serving-tls-cipher-suites" "";
   Build_flag KString (tls ∙ &ServingTLSMinVersion) "serving-tls-min-version" "";
   Build_flag KStringSlice (tls ∙ &ServingTLSCurvePreferences) "serving-tls-curve-preferences" ""].

Definition server_flags : list (flag O) :=
  let server := o ∙ &app_Server in
  [Build_flag KString (server ∙ &ServingAddress) "serving-address" "a";
   Build_flag KDuration (server ∙ &MaximumClientCertificateDuration)
     "max-client-certificate-duration" "m";
   Build_flag KString (server ∙ &ClusterID) "cluster-id" "";
   Build_flag KBool (server ∙ &EnableClientCert) "enable-client-cert-authenticator" "";
   Build_flag KStringSlice (server ∙ &CATrustedNodeAccounts) "ca-trusted-node-accounts" ""].

Definition controller_flags : list (flag O) :=
  let controller := o ∙ &app_Controller in
  [Build_flag KString (controller ∙ &LeaderElectionNamespace) "leader-election-namespace" "";
   Build_flag KString (controller ∙ &ConfigMapNamespaceSelector) "configmap-namespace-selector" "";
   Build_flag KBool (controller ∙ &DisableKubernetesClientRateLimiter)
     "disable-kubernetes-client-rate-limiter" "";
   Build_flag KInt (controller ∙ &ctrl_MaxConcurrentReconciles) "max-concurrent-reconciles" ""].

Definition annotation_flags : list (flag O) :=
  [Build_flag KStringToString (o ∙ &app_CertManager ∙ &AdditionalAnnotations)
     "certificate-request-additional-annotations" ""].

Definition istiod_flags : list (flag O) :=
  let istiod := o ∙ &app_IstiodCert in
  [Build_flag KBool (istiod ∙ &Enabled) "istiod-cert-enabled" "";
   Build_flag KString (istiod ∙ &CertificateName) "istiod-cert-name" "";
   Build_flag KString (istiod ∙ &CertificateNamespace) "istiod-cert-namespace" "";
   Build_flag KDuration (istiod ∙ &Duration) "istiod-cert-duration" "";
   Build_flag KDuration (istiod ∙ &RenewBefore) "istiod-cert-renew-before" "";
   Build_flag KString (istiod ∙ &KeyAlgorithm) "istiod-cert-key-algorithm" "";
   Build_flag KInt (istiod ∙ &KeySize) "istiod-cert-key-size" "";
   Build_flag KStringSlice (istiod ∙ &AdditionalDNSNames) "istiod-cert-additional-dns-names" "";
   Build_flag KStringToString (istiod ∙ annotations_ptr) "istiod-cert-additional-annotations" "";
   Build_flag KStringSlice (istiod ∙ &IstioRevisions) "istiod-cert-istio-revisions" ""].

Definition csr_flags : list (flag O) :=
  app_flags ++ certManager_flags ++ tls_flags ++ server_flags ++ controller_flags ++
  annotation_flags ++ istiod_flags.
End table.

(* ------------------------------------------------------------------ *)
(** ** Lemmas on pointers and flags *)

Lemma lens_fst_lawful A B : lawful (@lens_fst A B).
Proof. by intros ? []. Qed.

(** Each flag reads what it stores, and flags with different names set
    different fields. *)
Lemma csr_flags_lawful {K : Type} (fl : flag (AppOptions * K)) :
  fl ∈ csr_flags lens_fst → lawful (flag_ptr fl).
Proof.
  intros Hin%list_elem_of_In. unfold csr_flags in Hin. cbn in Hin.
  repeat (destruct Hin as [<-|Hin]; [intros v o; reflexivity|]). done.
Qed.

Lemma csr_flags_independent {K : Type} (fl1 fl2 : flag (AppOptions * K)) :
  fl1 ∈ csr_flags lens_fst → fl2 ∈ csr_flags lens_fst → flag_Name fl1 ≠ flag_Name fl2 →
  independent (flag_ptr fl1) (flag_ptr fl2).
Proof.
  assert (Forall (λ fl1 : flag (AppOptions * K), Forall (λ fl2 : flag (AppOptions * K),
            flag_Name fl1 = flag_Name fl2 ∨ independent (flag_ptr fl1) (flag_ptr fl2))
            (csr_flags lens_fst)) (csr_flags lens_fst)) as Hall.
  { repeat first [apply Forall_nil_2 | apply Forall_cons_2 | right; intros v o; reflexivity
                   | left; reflexivity]. }
  rewrite Forall_forall in Hall. intros H1 H2. specialize (Hall _ H1).
  rewrite Forall_forall in Hall. destruct (Hall _ H2); [done|auto].
Qed.

Lemma shorthands_app {O} (l1 l2 : list (flag O)) :
  shorthands (l1 ++ l2) = shorthands l1 ++ shorthands l2.
Proof. unfold shorthands. by rewrite fmap_app, List.filter_app. Qed.

#[global] Instance shorthands_Permutation {O} : Proper ((≡ₚ) ==> (≡ₚ)) (@shorthands O).
Proof.
  intros l1 l2 Hl. induction Hl as [|x l1 l2 _ IH|x y l|l1 l2 l3 _ IH1 _ IH2]; [done| | |].
  - unfold shorthands in *. cbn. case_match; by rewrite ?IH.
  - unfold shorthands in *. cbn. repeat case_match; try done. apply Permutation_swap.
  - by rewrite IH1.
Qed.

#[global] Instance distinct_Permutation {O} : Proper ((≡ₚ) ==> iff) (@distinct O).
Proof. intros l1 l2 Hl. unfold distinct. by rewrite Hl. Qed.

Lemma distinct_app_l {O} (l1 l2 : list (flag O)) : distinct (l1 ++ l2) → distinct l1.
Proof.
  unfold distinct. rewrite shorthands_app, fmap_app, !NoDup_app. tauto.
Qed.

Lemma distinct_concat {O} (ls : list (list (flag O))) : distinct (concat ls) → Forall distinct ls.
Proof.
  induction ls as [|l ls IH]; cbn; [done|]. intros Hd. constructor; [by eapply distinct_app_l|].
  apply IH. revert Hd. rewrite Permutation_app_comm. apply distinct_app_l.
Qed.

(* ------------------------------------------------------------------ *)
(** ** What registration does *)

Section registers.
Context {O F E : Type} `{PFlagSpec O F E}.

(** [m] defines the flags [l] and changes the options by [g]. *)
Definition registers (m : go (O * F) unit) (l : list (flag O)) (g : O → O) : Prop :=
  ∀ o f, distinct (fs_flags f ++ l) →
  ∃ f', m (o, f) = (Ret tt, (g o, f')) ∧ fs_flags f' = fs_flags f ++ l ∧
        fs_changed f' = fs_changed f.

Lemma registers_VarP k p n s d :
  registers (pflag_VarP k p n s d) [Build_flag k p n s] (store p d).
Proof. intros o f Hd. by apply VarP_defines. Qed.

Lemma registers_bind m1 l1 g1 m2 l2 g2 :
  registers m1 l1 g1 → registers m2 l2 g2 →
  registers (_ ← m1; m2) (l1 ++ l2) (λ o, g2 (g1 o)).
Proof.
  intros H1 H2 o f Hd. rewrite app_assoc in Hd.
  destruct (H1 o f (distinct_app_l _ _ Hd)) as (f1 & E1 & Hf1 & Hc1).
  rewrite <-Hf1 in Hd. destruct (H2 (g1 o) f1 Hd) as (f2 & E2 & Hf2 & Hc2).
  exists f2. unfold mbind, go_bind. rewrite E1. split_and!; [done| |congruence].
  by rewrite Hf2, Hf1, app_assoc.
Qed.

Lemma registers_cons m1 fl g1 m2 l2 g2 :
  registers m1 [fl] g1 → registers m2 l2 g2 →
  registers (_ ← m1; m2) (fl :: l2) (λ o, g2 (g1 o)).
Proof. apply (registers_bind m1 [fl]). Qed.

(** A flag whose default is what its field holds already. *)
Lemma registers_keep k (p : lens O (kind_value k)) n s :
  registers (x ← value_of p; pflag_VarP k p n s x) [Build_flag k p n s]
    (λ o, store p (deref p o) o).
Proof. intros o f Hd. by apply (registers_VarP k p n s (deref p o)). Qed.

Lemma registers_keep_cons k (p : lens O (kind_value k)) n s m l g :
  registers m l g →
  registers (x ← value_of p; _ ← pflag_VarP k p n s x; m) (Build_flag k p n s :: l)
    (λ o, g (store p (deref p o) o)).
Proof.
  intros Hm o f Hd.
  by apply (registers_cons _ _ _ _ _ _ (registers_VarP k p n s (deref p o)) Hm o f Hd).
Qed.

(** The flags of a named flag set. *)
Definition section_flags (nfs : gmap string F) (name : string) : list (flag O) :=
  match nfs !! name with Some f => fs_flags f | None => [] end.

(** The named flag sets hold the flags [ss] says, none of them set yet. *)
Definition holds (nfs : gmap string F) (ss : list (string * list (flag O))) : Prop :=
  (∀ name f, nfs !! name = Some f → fs_changed f = ∅ ∧ name ∈ ss.*1) ∧
  ∀ name l, (name, l) ∈ ss → section_flags nfs name = l.

Lemma holds_empty : holds ∅ [].
Proof. split; intros ? ? Hl; [by rewrite lookup_empty in Hl|by apply elem_of_nil in Hl]. Qed.

(** A named flag set is new when its registration runs. *)
Lemma on_FlagSet_registers name m l g o nfs ss :
  registers m l g → holds nfs ss → distinct l → name ∉ ss.*1 →
  ∃ nfs', on_FlagSet name m (o, nfs) = (Ret tt, (g o, nfs')) ∧ holds nfs' (ss ++ [(name, l)]).
Proof.
  intros Hm [Hc0 Hs] Hd Hnew.
  assert (nfs !! name = None) as Hn.
  { apply eq_None_not_Some. intros [f Hf]. apply Hnew, (Hc0 _ _ Hf). }
  destruct (FlagSet_new name nfs Hn) as (f0 & Hfs & Hf0 & Hfc).
  unfold on_FlagSet. rewrite Hfs, lookup_insert_eq.
  destruct (Hm o f0) as (f & -> & Hf & Hc); [by rewrite Hf0|].
  rewrite insert_insert_eq. eexists. split; [done|]. split.
  - intros n f' Hl. rewrite fmap_app, elem_of_app.
    apply lookup_insert_Some in Hl as [[<- <-]|[Hne Hl]].
    + split; [congruence|]. right. by left.
    + destruct (Hc0 _ _ Hl). auto.
  - intros n l'. rewrite elem_of_app, list_elem_of_singleton. unfold section_flags.
    intros [Hin|[= -> ->]].
    + rewrite lookup_insert_ne; [by apply Hs|].
      intros ->. apply Hnew, list_elem_of_fmap. by exists (n, l').
    + rewrite lookup_insert_eq. by rewrite Hf, Hf0.
Qed.

Lemma holds_concat nfs ss : holds nfs ss → ss.*1 ≫= section_flags nfs = concat ss.*2.
Proof.
  intros [_ Hs]. induction ss as [|[n l] ss IH]; [done|]. csimpl.
  rewrite (Hs n l) by (by left). f_equal. apply IH. intros n' l' Hin. apply Hs. by right.
Qed.

Lemma mergeFlagSets_spec order nfs fs :
  (∀ name f, nfs !! name = Some f → fs_changed f = ∅) →
  distinct (fs_flags fs ++ (order ≫= section_flags nfs)) →
  ∃ fs', mergeFlagSets order nfs fs = Ret fs' ∧
    fs_flags fs' ≡ₚ fs_flags fs ++ (order ≫= section_flags nfs) ∧
    fs_changed fs' = fs_changed fs.
Proof.
  intros Hch. revert fs. induction order as [|name order IH]; intros fs Hd.
  { exists fs. by rewrite app_nil_r. }
  cbn [mergeFlagSets]. rewrite bind_cons in *. unfold section_flags at 1 in Hd.
  unfold section_flags at 1. destruct (nfs !! name) as [f|] eqn:Hn.
  - rewrite app_assoc in Hd.
    destruct (AddFlagSet_adds fs f (distinct_app_l _ _ Hd)) as (fs1 & -> & Hf1 & Hc1).
    cbn. rewrite <-Hf1 in Hd. destruct (IH fs1 Hd) as (fs2 & -> & Hf2 & Hc2).
    exists fs2. split_and!; [done| |].
    + by rewrite Hf2, Hf1, app_assoc.
    + rewrite Hc2, Hc1, (Hch _ _ Hn). set_solver.
  - apply (IH fs Hd).
Qed.
End registers.

