(* ===== verification/CommandLine.v ===== *)
(** * The command line

    What the flags of [Flags] mean for the program: the options a command line
    leads to, their defaults, what [Complete] and the TLS provider make of some of
    them, and [main] of [cmd/main.go].  Last, an
    implementation of the flag library's interface on lists. *)

From coqutil Require Import Datatypes.RecordSetters.
From S2P Require Import Prelude GoStrings NodeAuth Kube CertManager IssuerConfig RootCA TLSInterface Server Controller IstiodCert Curves TLS Renewal App Flags.

Import OCamlLikeNotations.
Open Scope Z_scope.

(** Follow the text of a registration. *)
Ltac solve_registers :=
  unfold addAppFlags, app_flags, addCertManagerFlags, certManager_flags, addTLSFlags, tls_flags,
    addServerFlags, server_flags, addControllerFlags, controller_flags,
    addAdditionalAnnotationsFlags, annotation_flags, AddFlags, istiod_flags;
  repeat first
    [ apply registers_VarP
    | eapply registers_cons
    | eapply registers_keep_cons | apply registers_keep ].

Lemma csr_flags_nth {K : Type} i fl :
  csr_flags (@lens_fst AppOptions K) !! i = Some fl → fl ∈ csr_flags (@lens_fst AppOptions K).
Proof. apply list_elem_of_lookup_2. Qed.

Lemma distinct_name_inj {O} (l : list (flag O)) fl1 fl2 :
  distinct l → fl1 ∈ l → fl2 ∈ l → flag_Name fl1 = flag_Name fl2 → fl1 = fl2.
Proof.
  intros [Hd _] [i Hi]%list_elem_of_lookup [j Hj]%list_elem_of_lookup Hn.
  enough (i = j) by (subst; congruence).
  eapply (NoDup_lookup _ _ _ (flag_Name fl1) Hd); rewrite list_lookup_fmap, ?Hi, ?Hj; cbn;
    congruence.
Qed.

Lemma Complete_keeps_TLS {X} upper lower dns apply configure (rest : result X RestConfig) o o' :
  Complete upper lower dns apply configure rest o = Ok o' → app_TLS o' = app_TLS o.
Proof.
  unfold Complete. case_match; [done|]. intros Hc. run_result Hc. case_match; [done|].
  run_result Hc. case_match; [done|].
  destruct (Validate dns upper _) as [istiod []]; [|done]. by injection Hc as <-.
Qed.

(** The options with another signature algorithm and key size for serving. *)
Definition with_serving_key (alg : string) (size : Z) (o : AppOptions) : AppOptions :=
  store (&app_TLS ∙ &ServingSignatureAlgorithm) alg
    (store (&app_TLS ∙ &ServingCertificateKeySize) size o).

(** [Complete] does not look at them. *)
Lemma Complete_serving_key {X} upper lower dns apply configure (rest : result X RestConfig)
    alg size o :
  Complete upper lower dns apply configure rest (with_serving_key alg size o) =
  with_serving_key alg size <$> Complete upper lower dns apply configure rest o.
Proof.
  unfold Complete. cbn -[strings_ToLower Validate].
  destruct (negb (bool_decide _) && negb (bool_decide _)); [done|].
  destruct (apply _ _); [|done]. cbn -[strings_ToLower Validate].
  destruct (configure _); [|done]. cbn -[strings_ToLower Validate].
  destruct (length _ =? 0)%nat; [done|]. destruct rest; [|done]. cbn -[strings_ToLower Validate].
  destruct (_ <? 1); [done|]. by destruct (Validate dns upper _) as [? []].
Qed.

(** Nor does [NewProvider]. *)
Lemma NewProvider_serving_key {Cert KP V TE CE} nd (version : string → result TE Z)
    (ciphers : list string → result CE (list Z)) alg size o :
  is_Ok (NewProvider (Cert := Cert) (KP := KP) (V := V) nd version ciphers
           (app_TLS (with_serving_key alg size o))) =
  is_Ok (NewProvider (Cert := Cert) (KP := KP) (V := V) nd version ciphers (app_TLS o)).
Proof.
  unfold NewProvider. cbn. destruct (version _) as [v|]; [|done]. cbn.
  destruct (v <? VersionTLS12); [done|]. destruct (ciphers _); [|done]. cbn.
  by destruct (Curves.ParseCurvePreferences _ _).
Qed.

(** The default options are complete. *)
Lemma Complete_defaults {X} upper lower dns apply configure restConfig :
  apply "text" 1 = Ok tt → configure false = Ok tt →
  ∃ o, Complete (X := X) upper lower dns apply configure (Ok restConfig) default_options = Ok o ∧
    app_CertManager o = app_CertManager default_options ∧ app_TLS o = app_TLS default_options ∧
    app_Server o = app_Server default_options ∧
    app_Controller o = app_Controller default_options ∧ Enabled (app_IstiodCert o) = false.
Proof.
  intros Happ Hconf. unfold Complete.
  change (strings_ToLower lower (if bool_decide (logFormat default_options = "") then "text"
                                 else logFormat default_options)) with "text".
  cbn [logLevel default_options]. rewrite Happ.
  change (bool_decide ("text" = "json")) with false. change (bool_decide ("text" = "text")) with true.
  cbn. rewrite Hconf. cbn. by eexists.
Qed.

(* ------------------------------------------------------------------ *)
(** ** The whole command line *)

Section command_line.
Context {K F E : Type} `{PFlagSpec (AppOptions * K) F E}.
#[local] Abbreviation own_flags := (csr_flags (@lens_fst AppOptions K)).

(** [genericclioptions.ConfigFlags]: the state of a new one, its flags, and its
    state once they are defined.  Its flags do not clash with the others. *)
Context (kube_new kube_defined : K) (kube_flags : list (flag K)).
Context (configFlags_AddFlags : go (AppOptions * K * F) unit).

Definition newConfigFlags (o : AppOptions * K) : AppOptions * K := (o.1, kube_new).

(** A flag of the Kubernetes options, in the whole. *)
Definition kube_lift (fl : flag K) : flag (AppOptions * K) :=
  Build_flag (flag_kind fl) (lens_snd ∙ flag_ptr fl) (flag_Name fl) (flag_Shorthand fl).

Definition all_flags : list (flag (AppOptions * K)) := own_flags ++ (kube_lift <$> kube_flags).

Definition section_names : list string :=
  ["App"; "cert-manager"; "Kubernetes"; "TLS"; "Server"; "controller"; "additional-annotations";
   "istiod-cert"].

Hypothesis configFlags_registers :
  registers configFlags_AddFlags (kube_lift <$> kube_flags) (λ o, (o.1, kube_defined)).
Hypothesis all_distinct : distinct all_flags.

(** The named flag sets and their flags. *)
Definition sections : list (string * list (flag (AppOptions * K))) :=
  [("App", app_flags lens_fst); ("cert-manager", certManager_flags lens_fst);
   ("Kubernetes", kube_lift <$> kube_flags); ("TLS", tls_flags lens_fst);
   ("Server", server_flags lens_fst); ("controller", controller_flags lens_fst);
   ("additional-annotations", annotation_flags lens_fst); ("istiod-cert", istiod_flags lens_fst)].

Lemma sections_flags : concat sections.*2 ≡ₚ all_flags.
Proof.
  unfold all_flags, csr_flags, sections. cbn [fmap list_fmap snd].
  generalize (app_flags (@lens_fst AppOptions K)) (certManager_flags (@lens_fst AppOptions K))
    (tls_flags (@lens_fst AppOptions K)) (server_flags (@lens_fst AppOptions K))
    (controller_flags (@lens_fst AppOptions K)) (annotation_flags (@lens_fst AppOptions K))
    (istiod_flags (@lens_fst AppOptions K)) (kube_lift <$> kube_flags).
  intros. cbn. solve_Permutation.
Qed.

Ltac run_section R :=
  unfold mbind at 1, go_bind at 1;
  match goal with
  | Hd : Forall distinct _, Hh : holds ?nfs ?ss |- context [on_FlagSet ?name ?m (?o, ?nfs)] =>
      let Hl := fresh in
      apply Forall_cons in Hd as [Hl Hd];
      destruct (on_FlagSet_registers name m _ _ o nfs ss R Hh Hl) as (? & -> & ?);
        [apply (bool_decide_unpack _); vm_compute; exact I | clear Hh Hl]
  end.

(** Registration succeeds, with the defaults in the options, whatever the order
    in which the flag sets are merged. *)
Lemma addFlags_spec order (cmdFlags : F) k0 :
  order ≡ₚ section_names → fs_flags cmdFlags = [] → fs_changed cmdFlags = ∅ →
  ∃ nfs cmdFlags',
    addFlags lens_fst newConfigFlags configFlags_AddFlags order cmdFlags ((NewOptions, k0), ∅) =
      (Ret cmdFlags', ((default_options, kube_defined), nfs)) ∧
    fs_flags cmdFlags' ≡ₚ all_flags ∧ fs_changed cmdFlags' = ∅.
Proof.
  intros Hord Hf0 Hc0.
  assert (Forall distinct sections.*2) as Hd
    by (apply distinct_concat; by rewrite sections_flags).
  eassert (registers (addAppFlags lens_fst) (app_flags lens_fst) _) as R1; [solve_registers|].
  eassert (registers (addCertManagerFlags lens_fst) (certManager_flags lens_fst) _) as R2;
    [solve_registers|].
  eassert (registers (addTLSFlags lens_fst) (tls_flags lens_fst) _) as R3; [solve_registers|].
  eassert (registers (addServerFlags lens_fst) (server_flags lens_fst) _) as R4;
    [solve_registers|].
  eassert (registers (addControllerFlags lens_fst) (controller_flags lens_fst) _) as R5;
    [solve_registers|].
  eassert (registers (addAdditionalAnnotationsFlags lens_fst) (annotation_flags lens_fst) _) as R6;
    [solve_registers|].
  eassert (registers (AddFlags (lens_fst ∙ &app_IstiodCert)) (istiod_flags lens_fst) _) as R7;
    [solve_registers|].
  pose proof holds_empty as Hh. unfold addFlags.
  run_section R1. run_section R2.
  unfold mbind at 1, go_bind at 1. unfold go_modify at 1. cbn [fst snd].
  run_section configFlags_registers. run_section R3. run_section R4. run_section R5.
  run_section R6. run_section R7. clear R1 R2 R3 R4 R5 R6 R7.
  match goal with Hh : holds ?nfs _ |- _ => rename nfs into nfs'; rename Hh into Hss end.
  assert (order ≫= section_flags nfs' ≡ₚ all_flags) as Hall.
  { rewrite Hord, <-sections_flags. by rewrite <-(holds_concat nfs' sections Hss). }
  unfold mbind, go_bind, go_read, go_outcome. cbn [snd].
  destruct (mergeFlagSets_spec order nfs' cmdFlags) as (fs & -> & Hfs & Hch).
  { intros name f Hl. by apply (proj1 Hss) in Hl as [? _]. }
  { by rewrite Hf0, app_nil_l, Hall. }
  exists nfs', fs. split_and!; [reflexivity| |congruence].
  by rewrite Hfs, Hf0, app_nil_l, Hall.
Qed.

(** The command line sets flags one after the other. *)
Fixpoint parse_args (args : list (string * string)) (fs : F) (o : AppOptions * K)
    : result E (AppOptions * K * F) :=
  match args with
  | [] => mret (o, fs)
  | (name, value) :: args' =>
      '(o', fs') ← pflag_Set name value fs o;
      parse_args args' fs' o'
  end.

(** [Prepare] on new options, followed by the flags of the command line. *)
Definition command_line (order : list string) (cmdFlags : F) (k0 : K)
    (args : list (string * string)) : outcome (result E (AppOptions * K)) :=
  match addFlags lens_fst newConfigFlags configFlags_AddFlags order cmdFlags
          ((NewOptions, k0), ∅) with
  | (Ret cmdFlags', (o, _)) => Ret (fst <$> parse_args args cmdFlags' o)
  | (Panic, _) => Panic
  | (Blocked, _) => Blocked
  end.

(** [main]: cobra's [Execute] parses the command line and calls the command's
    [RunE]; the result is the status passed to [os.Exit], if it is called. *)
Definition main {R : Type} (runE : AppOptions → result R unit) (order : list string)
    (cmdFlags : F) (k0 : K) (args : list (string * string)) : outcome (option Z) :=
  executed ← command_line order cmdFlags k0 args;
  mret match executed with
       | Err _ => Some 1
       | Ok (o, _) => match runE o with Err _ => Some 1 | Ok _ => None end
       end.

Lemma csr_flags_in_all fl : fl ∈ own_flags → fl ∈ all_flags.
Proof. unfold all_flags. rewrite elem_of_app. auto. Qed.

Lemma csr_flags_kube (fl : flag (AppOptions * K)) v (o : AppOptions * K) :
  fl ∈ own_flags → (store (flag_ptr fl) v o).2 = o.2.
Proof.
  intros Hin%list_elem_of_In. unfold csr_flags in Hin. cbn in Hin.
  repeat (destruct Hin as [<-|Hin]; [reflexivity|]). done.
Qed.

(** A flag reads as before after a flag of another name was set. *)
Lemma other_flag_kept (fl fl' : flag (AppOptions * K)) v (o : AppOptions * K) :
  fl ∈ own_flags → fl' ∈ all_flags → flag_Name fl ≠ flag_Name fl' →
  deref (flag_ptr fl) (store (flag_ptr fl') v o) = deref (flag_ptr fl) o.
Proof.
  intros Hfl [Hfl'|Hfl']%elem_of_app Hne; [by apply csr_flags_independent|].
  apply list_elem_of_fmap in Hfl' as (kf & -> & _). destruct o as [o k]. cbn in *.
  clear Hne. apply list_elem_of_In in Hfl. cbn in Hfl.
  repeat (destruct Hfl as [<-|Hfl]; [reflexivity|]). done.
Qed.

(** A flag set once, and no other, reads what was given for it. *)
Lemma parse_args_spec args fs o :
  fs_flags fs ≡ₚ all_flags → NoDup args.*1 → (∀ n, n ∈ args.*1 → n ∉ fs_changed fs) →
  (∀ n s, (n, s) ∈ args → ∃ fl, fl ∈ own_flags ∧ flag_Name fl = n ∧
                              is_Some (pflag_parse (F := F) (flag_kind fl) s)) →
  ∃ o' fs', parse_args args fs o = Ok (o', fs') ∧ o'.2 = o.2 ∧
    ∀ fl, fl ∈ own_flags →
      (∀ s v, (flag_Name fl, s) ∈ args → pflag_parse (F := F) (flag_kind fl) s = Some v →
              deref (flag_ptr fl) o' = v) ∧
      (flag_Name fl ∉ args.*1 → deref (flag_ptr fl) o' = deref (flag_ptr fl) o).
Proof.
  revert fs o. induction args as [|[n s] args IH]; intros fs o Hfs Hnd Hch Hargs.
  { exists o, fs. split_and!; [done..|]. intros fl _. split; [|done].
    intros s v Hin. by apply elem_of_nil in Hin. }
  csimpl in *. apply NoDup_cons in Hnd as [Hn Hnd].
  destruct (Hargs n s) as (fl & Hfl & <- & [v Hv]); [by left|].
  destruct (Set_first fl s v fs o) as (fs1 & Hset & Hfs1 & Hc1); [|by rewrite Hfs| |done|].
  { rewrite Hfs. by apply csr_flags_in_all. }
  { apply Hch. by left. }
  rewrite Hset. cbn.
  destruct (IH fs1 (store (flag_ptr fl) v o)) as (o' & fs' & Hp & Hk & Hr); [by rewrite Hfs1|done| | |].
  { intros n' Hn'. rewrite Hc1, elem_of_union, elem_of_singleton.
    intros [->|Hin]; [done|]. revert Hin. apply Hch. by right. }
  { intros n' s' Hin. apply Hargs. by right. }
  exists o', fs'. split_and!; [done| |].
  { by rewrite Hk, csr_flags_kube. }
  intros fl' Hfl'. destruct (Hr fl' Hfl') as [Hset' Hkeep]. split.
  - intros s' v' [[= Hname ->]|Hin]%elem_of_cons Hv'; [|by eapply Hset'].
    assert (fl' = fl) as ->
      by (by apply (distinct_name_inj _ _ _ all_distinct); [apply csr_flags_in_all..|]).
    rewrite Hkeep by done. rewrite csr_flags_lawful by done. congruence.
  - intros [Hne Hnin]%not_elem_of_cons. rewrite Hkeep by done.
    apply other_flag_kept; [done|by apply csr_flags_in_all|done].
Qed.

Lemma command_line_run order (cmdFlags : F) k0 args :
  order ≡ₚ section_names → fs_flags cmdFlags = [] → fs_changed cmdFlags = ∅ →
  ∃ fs, fs_flags fs ≡ₚ all_flags ∧ fs_changed fs = ∅ ∧
    command_line order cmdFlags k0 args =
      Ret (fst <$> parse_args args fs (default_options, kube_defined)).
Proof.
  intros Hord Hf Hc. destruct (addFlags_spec order cmdFlags k0 Hord Hf Hc)
    as (nfs & fs & Hadd & Hfs & Hch).
  exists fs. split_and!; [done..|]. unfold command_line. by rewrite Hadd.
Qed.

(* ------------------------------------------------------------------ *)
(** ** Theorems *)

Section run.
Context (order : list string) (cmdFlags : F) (k0 : K).
Hypothesis order_visits : order ≡ₚ section_names.
Hypothesis cmd_no_flags : fs_flags cmdFlags = [].
Hypothesis cmd_not_changed : fs_changed cmdFlags = ∅.

(** Command lines that give each flag at most once, with values that parse. *)
Definition proper_args (args : list (string * string)) : Prop :=
  NoDup args.*1 ∧
  ∀ n s, (n, s) ∈ args → ∃ fl, fl ∈ own_flags ∧ flag_Name fl = n ∧
                             is_Some (pflag_parse (F := F) (flag_kind fl) s).

Lemma command_line_roundtrip_spec args :
  proper_args args →
  ∃ o, command_line order cmdFlags k0 args = Ret (Ok (o, kube_defined)) ∧
    ∀ fl, fl ∈ own_flags →
      (∀ s v, (flag_Name fl, s) ∈ args → pflag_parse (F := F) (flag_kind fl) s = Some v →
              deref (flag_ptr fl) (o, kube_defined) = v) ∧
      (flag_Name fl ∉ args.*1 → deref (flag_ptr fl) (o, kube_defined) =
                                deref (flag_ptr fl) (default_options, kube_defined)).
Proof.
  intros [Hnd Hargs].
  destruct (command_line_run order cmdFlags k0 args) as (fs & Hfs & Hch & ->); [done..|].
  destruct (parse_args_spec args fs (default_options, kube_defined)) as ([o k] & fs' & -> & Hk & Hr);
    [done|done| |done|].
  { intros n _. rewrite Hch. set_solver. }
  cbn in Hk. subst k. by exists o.
Qed.

(** C12: registration never panics and the command line says what the options are:
    in whatever order the flag sets are merged, if each flag is given at most
    once, with a value that parses, then every flag's field of the options holds
    the value given for it, and its default if it was not given; the options of
    the Kubernetes client are left alone. *)
Theorem command_line_roundtrip args :
  proper_args args →
  ∃ o, command_line order cmdFlags k0 args = Ret (Ok (o, kube_defined)) ∧
    ∀ fl, fl ∈ own_flags →
      (∀ s v, (flag_Name fl, s) ∈ args → pflag_parse (F := F) (flag_kind fl) s = Some v →
              deref (flag_ptr fl) (o, kube_defined) = v) ∧
      (flag_Name fl ∉ args.*1 → deref (flag_ptr fl) (o, kube_defined) =
                                deref (flag_ptr fl) (default_options, kube_defined)).
Proof. apply command_line_roundtrip_spec. Qed.

Lemma given_flag args o k fl s v :
  proper_args args → command_line order cmdFlags k0 args = Ret (Ok (o, k)) → fl ∈ own_flags →
  (flag_Name fl, s) ∈ args → pflag_parse (F := F) (flag_kind fl) s = Some v →
  deref (flag_ptr fl) (o, k) = v.
Proof.
  intros Hargs Hrun Hfl. destruct (command_line_roundtrip_spec args Hargs) as (o' & Hrun' & Hr).
  rewrite Hrun in Hrun'. injection Hrun' as <- ->. destruct (Hr fl Hfl). eauto.
Qed.

Lemma absent_flag args o k fl :
  proper_args args → command_line order cmdFlags k0 args = Ret (Ok (o, k)) → fl ∈ own_flags →
  flag_Name fl ∉ args.*1 → deref (flag_ptr fl) (o, k) = deref (flag_ptr fl) (default_options, k).
Proof.
  intros Hargs Hrun Hfl. destruct (command_line_roundtrip_spec args Hargs) as (o' & Hrun' & Hr).
  rewrite Hrun in Hrun'. injection Hrun' as <- ->. by destruct (Hr fl Hfl).
Qed.

(** C40: the key size trap.  A command line that asks for ECDSA serving certificates
    and gives no key size is as good as any other for [Complete] and the provider's
    [NewProvider], which look neither at the algorithm nor at the size: if they
    accept the options, they accept them with any algorithm and size, and the
    other way round.  But the default size is one for RSA, so no key can be
    generated.  [Start] of a provider with these options, with or without roots,
    that serves no config yet, never gets further, in the first loop or in the
    renewals: however long it runs, all that has changed in the provider is the
    counter of failed requests, so that no config is served, and nothing has
    happened in the world outside but calls of [WaitForIssuerConfig]: the signer
    was not asked. *)
Theorem ecdsa_serving_needs_key_size {X TE CE W Cert KP V XE SE WE : Type} `{EqDecision Cert}
    `{Signer W SE} `{IssuerWaiter W}
    upper lower dns apply configure (rest : result X RestConfig)
    nd (version : string → result TE Z) (ciphers : list string → result CE (list Z)) args s o k
    GenCSR decode verifier keypair notAfter :
  proper_args args →
  ("serving-signature-algorithm", s) ∈ args → pflag_parse (F := F) KString s = Some "ECDSA" →
  "serving-certificate-key-size" ∉ args.*1 →
  command_line order cmdFlags k0 args = Ret (Ok (o, k)) →
  (∀ alg size,
     Complete upper lower dns apply configure rest (with_serving_key alg size o) =
       with_serving_key alg size <$> Complete upper lower dns apply configure rest o ∧
     is_Ok (NewProvider (Cert := Cert) (KP := KP) (V := V) nd version ciphers
              (app_TLS (with_serving_key alg size o))) =
       is_Ok (NewProvider (Cert := Cert) (KP := KP) (V := V) nd version ciphers (app_TLS o))) ∧
  ∀ o' (p : Provider Cert KP V) (watched : option WE) continues waits (w : W) r w' p',
    Complete upper lower dns apply configure rest o = Ok o' →
    p_opts p = app_TLS o' → tlsConfig p = None →
    Start (XE := XE) (SE := SE) GenCSR decode verifier keypair notAfter watched continues waits
      (w, p) = (r, (w', p')) →
    (∃ n, p' = Nat.iter n (count_request false) p) ∧ tlsConfig p' = None ∧
    rtc (λ a b, ∃ r, waiter_WaitForIssuerConfig a = (r, b)) w w'.
Proof.
  intros Hargs Halg Hs Hsize Hrun. split.
  { intros alg size. split; [apply Complete_serving_key|apply NewProvider_serving_key]. }
  intros o' p watched continues waits w r w' p' Hc Hp Hnone.
  apply Start_bad_options with (e := UnsupportedKeySize 2048); [|exact Hnone].
  apply Complete_keeps_TLS in Hc. rewrite Hp, Hc. clear Hp Hc.
  pose proof (given_flag args o k _ s _ Hargs Hrun (csr_flags_nth 18%nat _ eq_refl) Halg Hs) as Ha.
  pose proof (absent_flag args o k _ Hargs Hrun (csr_flags_nth 17%nat _ eq_refl) Hsize) as Hk.
  cbn in Ha, Hk.
  unfold certOptions. by rewrite Ha, Hk.
Qed.

(** The same default makes [Complete] refuse a command line that asks for an
    istiod certificate with an ECDSA key and gives no size: the size 256 that
    [Validate] fills in for a missing one is used only if zero is given. *)
Theorem ecdsa_istiod_needs_key_size {X} upper lower dns apply configure
    (rest : result X RestConfig) args s s' o k :
  proper_args args →
  ("istiod-cert-enabled", s) ∈ args → pflag_parse (F := F) KBool s = Some true →
  ("istiod-cert-key-algorithm", s') ∈ args → pflag_parse (F := F) KString s' = Some "ECDSA" →
  "istiod-cert-key-size" ∉ args.*1 →
  command_line order cmdFlags k0 args = Ret (Ok (o, k)) →
  is_Ok (Complete upper lower dns apply configure rest o) = false.
Proof.
  intros Hargs Hen Hs Halg Hs' Hsize Hrun.
  pose proof (given_flag args o k _ s _ Hargs Hrun (csr_flags_nth 32 _ eq_refl) Hen Hs) as He.
  pose proof (given_flag args o k _ s' _ Hargs Hrun (csr_flags_nth 37 _ eq_refl) Halg Hs') as Ha.
  pose proof (absent_flag args o k _ Hargs Hrun (csr_flags_nth 38 _ eq_refl) Hsize) as Hk.
  cbn in He, Ha, Hk. unfold Complete. case_match; [done|].
  destruct (apply _ _); [|done]. cbn [wrap_err mbind result_bind].
  destruct (configure _); [|done]. cbn [wrap_err mbind result_bind].
  destruct (length _ =? 0)%nat; [done|]. destruct rest; [|done]. cbn [wrap_err mbind result_bind].
  destruct (_ <? 1); [done|].
  unfold Validate, validateKey. cbn. rewrite He, Ha, Hk. cbn.
  change (strings_ToUpper upper "ECDSA") with "ECDSA".
  change (bool_decide ("ECDSA" = "RSA")) with false.
  change (bool_decide ("ECDSA" = "ECDSA")) with true. cbn.
  by repeat case_match.
Qed.

Lemma main_no_args {R} (runE : AppOptions → result R unit) :
  main runE order cmdFlags k0 [] =
    Ret (match runE default_options with Err _ => Some 1 | Ok _ => None end).
Proof.
  destruct (command_line_run order cmdFlags k0 []) as (fs & _ & _ & Hrun); [done..|].
  unfold main. by rewrite Hrun.
Qed.

(** C21: the program starts on its defaults: with no flags, if Kubernetes' libraries
    report no error, the options are complete, the program is assembled for the
    issuer istio-ca in cert-manager's group, with the provider, the service and
    the ConfigMap controller (with one worker, and the selector the empty string
    stands for) running, RSA keys of 2048 bits for serving, and
    [main] exits with an error exactly if running it ends with one. *)
Theorem default_program_starts {X TE CE Cert KP V Ctx AE : Type} upper lower dns apply configure
    restConfig nd version ciphers answer parse pod clientCert newJWT mgr_Start v suites sel :
  (∀ c, answer c = Ok tt) → apply "text" 1 = Ok tt → configure false = Ok tt →
  version "" = Ok v → VersionTLS12 ≤ v → ciphers [] = Ok suites →
  parse "" = Ok sel →
  ∃ prog,
    active (prog_manager prog) =
      Some {| issuer_Name := "istio-ca"; issuer_Kind := "Issuer";
              issuer_Group := "cert-manager.io" |} ∧
    prog_runs prog = [TLSProvider; GRPCServer; ConfigMapController] ∧
    namespaceSelector (prog_configmaps prog) = sel ∧ cm_workers (prog_configmaps prog) = 1 ∧
    (∃ co, certOptions (XE := X) (SE := X) (p_opts (prog_tls prog)) = Ok co ∧
           co_ECDSA co = false ∧ co_RSAKeySize co = 2048) ∧
    main (RunE (Cert := Cert) (KP := KP) (V := V) (Ctx := Ctx) (AE := AE) (X := X) (TE := TE)
            (CE := CE) upper lower dns apply configure (Ok restConfig) nd version ciphers answer
            parse (Ok pod) clientCert newJWT mgr_Start) order cmdFlags k0 [] =
      Ret (match mgr_Start prog with Ok _ => None | Err _ => Some 1 end).
Proof.
  intros Hans Happ Hconf Hver Hv Hsu Hsel.
  rewrite main_no_args. unfold RunE. destruct (Complete_defaults upper lower dns apply configure restConfig Happ Hconf)
    as (o & -> & Hcm & Htls & Hsrv & Hctl & Hen). cbn -[assemble].
  assert (New (Ok tt) (Ok tt) (app_CertManager default_options) =
          @Ok (new_error X) _ {| opts := app_CertManager default_options;
                                 activeIssuerRef := Some (IssuerRef (app_CertManager default_options));
                                 originalIssuerRef := Some (IssuerRef (app_CertManager default_options)) |})
    as HN by reflexivity.
  assert (∃ tls, NewProvider (Cert := Cert) (KP := KP) (V := V) nd version ciphers
                   (app_TLS default_options) = Ok tls ∧ p_opts tls = app_TLS default_options)
    as (tls & HP & Ht).
  { unfold NewProvider. cbn. rewrite Hver. cbn. rewrite (proj2 (Z.ltb_ge _ _) Hv), Hsu. by eexists. }
  unfold assemble, call, AddConfigMapController.
  rewrite !Hans, Hcm, Htls, Hen, Hctl, HN, HP. cbn [opt_ConfigMapNamespaceSelector].
  change (ConfigMapNamespaceSelector (app_Controller default_options)) with "". rewrite Hsel.
  change (HasRuntimeConfiguration (app_CertManager default_options)) with false. cbn.
  match goal with |- context [wrap_err StartError (mgr_Start ?q)] => exists q end.
  split_and!; [done|done|done|done|cbn; rewrite Ht; by eexists|]. by destruct (mgr_Start _).
Qed.
End run.
End command_line.

(* ------------------------------------------------------------------ *)
(** ** An implementation of the flag library *)

#[global] Instance distinct_dec {O} (l : list (flag O)) : Decision (distinct l).
Proof. unfold distinct. apply _. Defined.

(** Flag sets as lists, with the names of the flags that have been set. *)
Record listset (O : Type) := { ls_flags : list (flag O); ls_changed : gset string }.
Arguments ls_flags {O} _.
Arguments ls_changed {O} _.

(** Strings stand for themselves, numbers are decimal. *)
Definition decimal (s : string) (limit : Z) : option Z :=
  match strconv_ParseUint s 64 with
  | Ok n => if (0 <=? n) && (n <=? limit) then Some n else None
  | Err _ => None
  end.

Definition list_parse (k : kind) (s : string) : option (kind_value k) :=
  match k with
  | KBool => if bool_decide (s = "true") then Some true
             else if bool_decide (s = "false") then Some false else None
  | KString => Some s
  | KStringSlice => Some [s]
  | KStringToString => None
  | KInt | KDuration => decimal s max_int64
  | KUint32 => decimal s (2 ^ 32 - 1)
  end.

Definition list_Set {O} (name s : string) (f : listset O) (o : O) : result unit (O * listset O) :=
  match list_find (λ fl, flag_Name fl = name) (ls_flags f) with
  | None => Err tt
  | Some (_, fl) =>
      match list_parse (flag_kind fl) s with
      | None => Err tt
      | Some v => Ok (store (flag_ptr fl) v o,
                      {| ls_flags := ls_flags f; ls_changed := {[name]} ∪ ls_changed f |})
      end
  end.

#[export] Instance listset_pflag {O} : PFlag O (listset O) unit := {|
  pflag_VarP := λ k p name short def '(o, f),
    let l := ls_flags f ++ [Build_flag k p name short] in
    if bool_decide (distinct l)
    then (Ret tt, (store p def o, {| ls_flags := l; ls_changed := ls_changed f |}))
    else (Panic, (store p def o, f));
  pflag_AddFlagSet := λ f g,
    let l := ls_flags f ++ ls_flags g in
    if bool_decide (distinct l)
    then Ret {| ls_flags := l; ls_changed := ls_changed f ∪ ls_changed g |}
    else Panic;
  pflag_Set := list_Set;
  pflag_parse := list_parse;
  nfs_FlagSet := λ name nfs,
    match nfs !! name with
    | Some _ => nfs
    | None => <[name := {| ls_flags := []; ls_changed := ∅ |}]> nfs
    end;
|}.

#[export] Program Instance listset_spec {O} : PFlagSpec O (listset O) unit := {|
  fs_flags := ls_flags; fs_changed := ls_changed
|}.
Next Obligation.
  intros O k p name short def o f Hd. cbn. rewrite bool_decide_eq_true_2 by done. by eexists.
Qed.
Next Obligation. intros O f g Hd. cbn. rewrite bool_decide_eq_true_2 by done. by eexists. Qed.
Next Obligation.
  intros O fl s v f o Hin Hd Hn Hp. cbn. unfold list_Set.
  destruct (list_find_elem_of (λ fl', flag_Name fl' = flag_Name fl) _ _ Hin) as [[i fl'] Hf]; [done|].
  rewrite Hf. apply list_find_Some in Hf as (Hi & Hname & _).
  assert (fl' = fl) as ->.
  { apply (distinct_name_inj (ls_flags f)); [done|by eapply list_elem_of_lookup_2|done..]. }
  cbn in Hp. rewrite Hp. by eexists.
Qed.
Next Obligation. intros O name nfs Hn. cbn. rewrite Hn. by eexists. Qed.

(* ------------------------------------------------------------------ *)
(** ** Instances *)

(** Two flags of the Kubernetes client's options. *)
Definition example_kube_flags : list (flag (string * string)) :=
  [Build_flag KString lens_fst "kubeconfig" ""; Build_flag KString lens_snd "namespace" "n"].

#[local] Abbreviation example_O := (AppOptions * (string * string))%type.

Definition example_AddFlags : go (example_O * listset example_O) unit :=
  _ ← StringVar (lens_snd ∙ lens_fst) "kubeconfig" "";
  StringVarP (lens_snd ∙ lens_snd) "namespace" "n" "".

Lemma example_registers :
  registers example_AddFlags (kube_lift <$> example_kube_flags) (λ o, (o.1, ("", ""))).
Proof.
  intros o f Hd.
  eapply (registers_cons _ _ _ _ _ _ (registers_VarP KString _ _ _ _)
            (registers_VarP KString _ _ _ _) o f Hd).
Qed.

Lemma example_distinct : distinct (all_flags example_kube_flags).
Proof. apply (bool_decide_unpack _). vm_compute. exact I. Qed.

Definition example_cmd : listset example_O := {| ls_flags := []; ls_changed := ∅ |}.
Definition example_order : list string :=
  ["TLS"; "App"; "istiod-cert"; "Kubernetes"; "Server"; "cert-manager"; "controller";
   "additional-annotations"].

Lemma example_order_visits : example_order ≡ₚ section_names.
Proof. unfold example_order, section_names. solve_Permutation. Qed.

Definition example_args : list (string * string) :=
  [("issuer-name", "mesh-ca"); ("metrics-port", "9999"); ("serving-signature-algorithm", "ECDSA")].

Lemma example_proper : proper_args (F := listset example_O) example_args.
Proof.
  split; [apply (bool_decide_unpack _); vm_compute; exact I|].
  intros n s Hs. repeat (apply elem_of_cons in Hs as [[= -> ->]|Hs]); [..|by apply elem_of_nil in Hs].
  - eexists. split; [exact (csr_flags_nth 8%nat _ eq_refl)|]. split; [done|]. by eexists.
  - eexists. split; [exact (csr_flags_nth 4%nat _ eq_refl)|]. split; [done|]. by eexists.
  - eexists. split; [exact (csr_flags_nth 18%nat _ eq_refl)|]. split; [done|]. by eexists.
Qed.

Definition example_command_line (args : list (string * string))
    : outcome (result unit example_O) :=
  command_line ("", "") example_AddFlags example_order example_cmd ("", "") args.

Definition example_given : AppOptions :=
  match example_command_line example_args with Ret (Ok (o, _)) => o | _ => NewOptions end.

Lemma command_line_roundtrip_witness :
  ∃ o, example_command_line example_args = Ret (Ok (o, ("", ""))) ∧
       MetricsPort o = 9999 ∧ logLevel o = 1.
Proof.
  destruct (command_line_roundtrip ("", "") ("", "") example_kube_flags example_AddFlags
              example_registers example_distinct example_order example_cmd ("", "")
              example_order_visits eq_refl eq_refl example_args example_proper) as (o & Hrun & Hr).
  exists o. split; [exact Hrun|].
  destruct (Hr _ (csr_flags_nth 4 _ eq_refl)) as [Hport _].
  destruct (Hr _ (csr_flags_nth 0 _ eq_refl)) as [_ Hlevel]. split.
  - apply (Hport "9999" 9999); [right; left|vm_compute; reflexivity].
  - apply Hlevel. apply (bool_decide_unpack _). vm_compute. exact I.
Defined.

Definition example_Complete_given : result (complete_error unit) AppOptions :=
  Complete id id (λ _, []) (λ _ _, Ok tt) (λ _, Ok tt) (Ok {| QPS := 20; Burst := 30 |})
    example_given.
Definition example_completed_given : AppOptions :=
  match example_Complete_given with Ok o => o | Err _ => NewOptions end.

Lemma default_program_starts_witness :
  ∃ prog : program string string string unit unit,
    prog_runs prog = [TLSProvider; GRPCServer; ConfigMapController].
Proof.
  destruct (default_program_starts ("", "") ("", "") example_kube_flags example_AddFlags
           example_registers example_distinct example_order example_cmd ("", "")
           example_order_visits eq_refl eq_refl id id (λ _, []) (λ _ _, @Ok unit _ tt)
           (λ _, Ok tt) {| QPS := 20; Burst := 30 |} (λ _, false)
           (λ _, @Ok unit _ 771) example_ciphers (λ _, Ok tt) (λ _, Ok (λ _, true)) example_client
           (λ _, (None, Some tt)) (λ _ _ _, (None, Some tt))
           (λ _ : program string string string unit unit, Ok tt) 771 [] (λ _, true))
    as (prog & _ & Hruns & _); [done..|].
  exists prog. exact Hruns.
Defined.

#[local] Instance example_serving_signer : Signer nat unit := λ ids csr duration usages n,
  (Ret (Err tt), S n).

#[local] Instance example_serving_waiter : IssuerWaiter nat :=
  {| waiter_HasIssuerConfig := λ _, true; waiter_WaitForIssuerConfig := mret tt |}.

Definition example_ecdsa_provider : Provider string string string :=
  {| p_opts := app_TLS example_completed_given; servingMinVersion := 772;
     servingCipherSuites := []; servingCurvePreferences := []; rootCAs := noRootCAs;
     tlsConfig := None; subscriptions := 0; events := []; metric_success := 0;
     metric_failure := 0 |}.

(** The example's command line is accepted, and 253 attempts have failed. *)
Lemma ecdsa_serving_needs_key_size_witness :
  is_Ok example_Complete_given = true ∧
  ∃ n, (Start example_gencsr example_set example_verifier example_keypair example_notafter
          (@None unit) 250 [TimerFired [true; true]] (0%nat, example_ecdsa_provider)).2.2 =
       Nat.iter n (count_request false) example_ecdsa_provider ∧ n = 253%nat.
Proof.
  split; [vm_compute; reflexivity|].
  destruct (ecdsa_serving_needs_key_size (X := unit) (TE := unit) (CE := unit) (XE := unit)
           (SE := unit) (WE := unit) ("", "") ("", "") example_kube_flags
           example_AddFlags example_registers example_distinct example_order example_cmd ("", "")
           example_order_visits eq_refl eq_refl id id (λ _, []) (λ _ _, Ok tt) (λ _, Ok tt)
           (Ok {| QPS := 20; Burst := 30 |} : result unit RestConfig) (λ _, false)
           (λ _, Ok 772) example_ciphers example_args "ECDSA" example_given ("", "")
           example_gencsr example_set example_verifier example_keypair example_notafter
           example_proper) as [_ Hrun];
    [right; right; left|reflexivity|apply (bool_decide_unpack _); vm_compute; exact I|
     vm_compute; reflexivity|].
  destruct (Start example_gencsr example_set example_verifier example_keypair example_notafter
              (@None unit) 250 [TimerFired [true; true]] (0%nat, example_ecdsa_provider))
    as [r [w' p']] eqn:Hs.
  destruct (Hrun example_completed_given example_ecdsa_provider None 250%nat
              [TimerFired [true; true]] 0%nat r w' p') as ((n & Hn) & _);
    [vm_compute; reflexivity|reflexivity|reflexivity|exact Hs|].
  exists n. split; [exact Hn|].
  assert (metric_failure p' = 253%nat) as Hf by (vm_compute in Hs; by injection Hs as _ _ <-).
  rewrite Hn, count_failures in Hf.
  change (metric_failure example_ecdsa_provider) with 0%nat in Hf. lia.
Defined.
